(** * Device certificate report: reconciliation and identity resolution

    A shallow embedding of the reconciliation core of
    [reporting/device_certificate.py]: the DIMM, storage and NIC extractors,
    the GPU identity resolver of the DCGM diagnostic matrix, and the issue
    filter with its verdict derivation.

    Conventions of the embedding.
    - JSON payloads are values of [pyval]; JSON objects are association
      lists keyed by strings, read with [get] as Python's [dict.get].
    - Python exceptions are explicit: a function that can raise returns
      [result A], and [try]/[except] is a match on the raised exception.
    - Text is ASCII: [lower], [upper], [strip] and the character classes of
      the regular expressions act on code points below 128 and leave other
      characters alone.
    - A finite float is given by its exact value, a rational; division and
      [round] give the binary64 number that the interpreter computes, and
      raise where it raises.
    - The conversion of a text to an integer refuses more than 4300 digits,
      as the interpreter does; the integers of a payload are those that
      [json.loads] hands out, which it converts from text itself. *)

From Stdlib Require Import Ascii String QArith Qround Qabs Qpower Qcanon Lqa.
From stdpp Require Import base list strings gmap sorting numbers pretty.

Set Warnings "-register-all".

Local Open Scope Z_scope.

(** ** Exceptions *)

Inductive exn :=
| ValueError
| TypeError
| AttributeError
| OverflowError
| KeyError.

Inductive result (A : Type) :=
| Ok (a : A)
| Raise (e : exn).
Arguments Ok {A} a.
Arguments Raise {A} e.

#[global] Instance result_ret : MRet result := fun A a => Ok a.
#[global] Instance result_bind : MBind result := fun A B f m =>
  match m with
  | Ok a => f a
  | Raise e => Raise e
  end.
#[global] Instance result_fmap : FMap result := fun A B f m =>
  match m with
  | Ok a => Ok (f a)
  | Raise e => Raise e
  end.

#[global] Instance exn_eq_dec : EqDecision exn.
Proof. solve_decision. Defined.

(** [for x in xs: acc = body(x, acc)] where the body may raise. *)
Fixpoint for_each {A S : Type} (body : A -> S -> result S) (xs : list A) (acc : S)
  : result S :=
  match xs with
  | [] => Ok acc
  | x :: rest => acc' ← body x acc; for_each body rest acc'
  end.

(** [[f(x) for x in xs]] where [f] may raise. *)
Fixpoint map_each {A B : Type} (f : A -> result B) (xs : list A) : result (list B) :=
  match xs with
  | [] => Ok []
  | x :: rest => y ← f x; ys ← map_each f rest; Ok (y :: ys)
  end.

(** [[x for x in xs if p(x)]] where [p] may raise. *)
Fixpoint filter_each {A : Type} (p : A -> result bool) (xs : list A) : result (list A) :=
  match xs with
  | [] => Ok []
  | x :: rest =>
      b ← p x; ys ← filter_each p rest; Ok (if b : bool then x :: ys else ys)
  end.

(** A block under [try] that works on a list it has appended to before
    the exception: the list as it stands, and the exception if one was
    raised. *)
Definition attempt (S : Type) : Type := S * option exn.

Definition keep {S : Type} (old : S) (r : result S) : attempt S :=
  match r with
  | Ok s => (s, None)
  | Raise e => (old, Some e)
  end.

Definition and_then {S : Type} (a : attempt S) (k : S -> attempt S) : attempt S :=
  match a with
  | (s, None) => k s
  | (s, Some e) => (s, Some e)
  end.

(** [for x in xs: body] inside such a block. *)
Fixpoint loop {A S : Type} (body : A -> S -> attempt S) (xs : list A) (acc : S)
  : attempt S :=
  match xs with
  | [] => (acc, None)
  | x :: rest => and_then (body x acc) (loop body rest)
  end.

(** [enumerate(xs)] *)
Definition enumerate {A : Type} (xs : list A) : list (nat * A) :=
  zip (seq 0 (length xs)) xs.

(** ** Text *)

Module Text.

Definition code (c : ascii) : nat := nat_of_ascii c.

(** [str.isspace] on ASCII: TAB..CR, FS..US and SPACE. *)
Definition is_space (c : ascii) : bool :=
  let n := code c in
  ((9 <=? n) && (n <=? 13) || (28 <=? n) && (n <=? 32))%nat.

Definition is_digit (c : ascii) : bool :=
  let n := code c in ((48 <=? n) && (n <=? 57))%nat.

Definition is_upper (c : ascii) : bool :=
  let n := code c in ((65 <=? n) && (n <=? 90))%nat.

Definition is_lower (c : ascii) : bool :=
  let n := code c in ((97 <=? n) && (n <=? 122))%nat.

(** The class [\w] of the regular expressions. *)
Definition is_word (c : ascii) : bool :=
  is_digit c || is_upper c || is_lower c || (code c =? 95)%nat.

Definition lower_char (c : ascii) : ascii :=
  if is_upper c then ascii_of_nat (code c + 32) else c.

Definition upper_char (c : ascii) : ascii :=
  if is_lower c then ascii_of_nat (code c - 32) else c.

Fixpoint map_string (f : ascii -> ascii) (s : string) : string :=
  match s with
  | EmptyString => EmptyString
  | String c rest => String (f c) (map_string f rest)
  end.

(** [s.lower()] and [s.upper()] *)
Definition lower : string -> string := map_string lower_char.
Definition upper : string -> string := map_string upper_char.

Fixpoint lstrip (s : string) : string :=
  match s with
  | EmptyString => EmptyString
  | String c rest => if is_space c then lstrip rest else s
  end.

Fixpoint rstrip (s : string) : string :=
  match s with
  | EmptyString => EmptyString
  | String c rest =>
      match rstrip rest with
      | EmptyString => if is_space c then EmptyString else String c EmptyString
      | r => String c r
      end
  end.

(** [s.strip()] *)
Definition strip (s : string) : string := rstrip (lstrip s).

(** [needle in hay] *)
Fixpoint contains (needle hay : string) : bool :=
  String.prefix needle hay ||
  match hay with
  | EmptyString => false
  | String _ rest => contains needle rest
  end.

(** [s.startswith(p)] *)
Definition startswith (p s : string) : bool := String.prefix p s.

(** [s[:n]] *)
Definition take (n : nat) (s : string) : string := String.substring 0 n s.

(** [sep.join(parts)] *)
Fixpoint join (sep : string) (parts : list string) : string :=
  match parts with
  | [] => EmptyString
  | [p] => p
  | p :: rest => String.append p (String.append sep (join sep rest))
  end.

Definition digit_value (c : ascii) : Z := Z.of_nat (code c) - 48.

(** The value of a run of decimal digits, most significant first. *)
Definition digits_value (ds : list ascii) : Z :=
  foldl (fun acc c => 10 * acc + digit_value c) 0 ds.

Fixpoint span (p : ascii -> bool) (s : list ascii) : list ascii * list ascii :=
  match s with
  | [] => ([], [])
  | c :: rest =>
      if p c then let '(a, b) := span p rest in (c :: a, b) else ([], s)
  end.

(** No more than [n] digits in a row in [s], which comes after [run]
    digits. *)
Fixpoint digit_runs_at_most (n run : nat) (s : list ascii) : bool :=
  match s with
  | [] => true
  | c :: rest =>
      if is_digit c then (S run <=? n)%nat && digit_runs_at_most n (S run) rest
      else digit_runs_at_most n 0 rest
  end.

End Text.

(** ** Python values *)

Inductive pyfloat :=
| FFin (q : Q)
| FInf (negative : bool)
| FNaN.

(** What [json.loads] produces. *)
Inductive pyval :=
| PNone
| PBool (b : bool)
| PInt (z : Z)
| PFloat (f : pyfloat)
| PStr (s : string)
| PList (l : list pyval)
| PDict (d : list (string * pyval)).

Abbreviation pydict := (list (string * pyval)).

(** [repr] of floats and of containers is the interpreter's; the embedding
    takes it as given. *)
Class PyRepr := py_repr : pyval -> string.

(** An interpreter whose [repr] is never consulted: for statements about
    payloads without floats or nested containers in their text fields. *)
Definition repr_unused : PyRepr := fun _ => EmptyString.

Module Py.

Fixpoint lookup_key (k : string) (d : pydict) : option pyval :=
  match d with
  | [] => None
  | (k', v) :: rest => if decide (k = k') then Some v else lookup_key k rest
  end.

(** [d.get(k)] *)
Definition get (d : pydict) (k : string) : pyval :=
  default PNone (lookup_key k d).

(** [d.get(k, dflt)] *)
Definition get_or (d : pydict) (k : string) (dflt : pyval) : pyval :=
  default dflt (lookup_key k d).

(** [d[k] = v] *)
Fixpoint set (d : pydict) (k : string) (v : pyval) : pydict :=
  match d with
  | [] => [(k, v)]
  | (k', v') :: rest =>
      if decide (k = k') then (k, v) :: rest else (k', v') :: set rest k v
  end.

Definition is_none (v : pyval) : bool :=
  match v with PNone => true | _ => false end.

(** [bool(v)] *)
Definition truthy (v : pyval) : bool :=
  match v with
  | PNone => false
  | PBool b => b
  | PInt z => negb (z =? 0)
  | PFloat (FFin q) => negb (Qeq_bool q 0)
  | PFloat _ => true
  | PStr s => negb (String.eqb s EmptyString)
  | PList l => match l with [] => false | _ => true end
  | PDict d => match d with [] => false | _ => true end
  end.

(** [x or y] *)
Definition or_else (x y : pyval) : pyval := if truthy x then x else y.

(** [x.get(k, dflt)] on a value that need not be a dict. *)
Definition getattr_get (x : pyval) (k : string) (dflt : pyval) : result pyval :=
  match x with
  | PDict d => Ok (get_or d k dflt)
  | _ => Raise AttributeError
  end.

(** [d[k]] *)
Definition item (d : pydict) (k : string) : result pyval :=
  match lookup_key k d with
  | Some v => Ok v
  | None => Raise KeyError
  end.

(** [v == s] for a string [s]: among JSON values only that string is
    equal to it. *)
Definition eq_str (v : pyval) (s : string) : bool :=
  match v with
  | PStr s' => String.eqb s' s
  | _ => false
  end.

(** [v.lower()]: only strings have the method. *)
Definition lower (v : pyval) : result string :=
  match v with
  | PStr s => Ok (Text.lower s)
  | _ => Raise AttributeError
  end.

(** [dict(v)] for a JSON object; building a dict from any other value
    is outside the embedding and reported as a [TypeError]. *)
Definition dict (v : pyval) : result pydict :=
  match v with
  | PDict d => Ok d
  | _ => Raise TypeError
  end.

(** [for y in x] *)
Definition iter (x : pyval) : result (list pyval) :=
  match x with
  | PList l => Ok l
  | PStr s => Ok ((fun c => PStr (String c EmptyString)) <$> list_ascii_of_string s)
  | PDict d => Ok ((fun kv => PStr kv.1) <$> d)
  | _ => Raise TypeError
  end.

(** The digits of an integer literal: [digit (["_"] digit)*]. *)
Fixpoint literal_digits (cs : list ascii) : option (list ascii) :=
  match cs with
  | [] => None
  | c :: rest =>
      if Text.is_digit c then
        match rest with
        | [] => Some [c]
        | "_"%char :: rest' => cons c <$> literal_digits rest'
        | _ => cons c <$> literal_digits rest
        end
      else None
  end.

(** The most digits that [int] converts and [str] writes
    ([sys.int_info.default_max_str_digits]). *)
Definition max_str_digits : nat := 4300.

(** [int(ds)] for a run of digits: leading zeros count as digits. *)
Definition int_of_digits (ds : list ascii) : result Z :=
  if (max_str_digits <? length ds)%nat then Raise ValueError
  else Ok (Text.digits_value ds).

(** [int(s)] for a string, in base 10: blanks around the literal, its
    sign and the underscores between its digits do not count as digits. *)
Definition int_of_string (s : string) : result Z :=
  let cs := list_ascii_of_string (Text.strip s) in
  let '(negative, body) :=
    match cs with
    | "-"%char :: r => (true, r)
    | "+"%char :: r => (false, r)
    | _ => (false, cs)
    end in
  match literal_digits body with
  | Some ds => z ← int_of_digits ds; Ok (if negative then - z else z)
  | None => Raise ValueError
  end.

(** A value as [json.loads] gives it: its integers have at most
    [max_str_digits] digits, so that [str] and [repr] write it. *)
Fixpoint loadable (v : pyval) : bool :=
  match v with
  | PInt z => Z.abs z <? 10 ^ Z.of_nat max_str_digits
  | PList l => forallb loadable l
  | PDict d => forallb (fun kv => let '(_, x) := kv in loadable x) d
  | _ => true
  end.

(** [int(f)] for a float: truncation towards zero. *)
Definition int_of_float (f : pyfloat) : result Z :=
  match f with
  | FFin q => Ok (Z.quot (Qnum q) (Z.pos (Qden q)))
  | FInf _ => Raise OverflowError
  | FNaN => Raise ValueError
  end.

(** [int(v)] *)
Definition int (v : pyval) : result Z :=
  match v with
  | PNone => Raise TypeError
  | PBool b => Ok (if b then 1 else 0)
  | PInt z => Ok z
  | PFloat f => int_of_float f
  | PStr s => int_of_string s
  | PList _ | PDict _ => Raise TypeError
  end.

(** [str(v)] *)
Definition str `{PyRepr} (v : pyval) : string :=
  match v with
  | PNone => "None"
  | PBool true => "True"
  | PBool false => "False"
  | PInt z => pretty z
  | PStr s => s
  | PFloat _ | PList _ | PDict _ => py_repr v
  end.

End Py.

(** ** GPU identity resolution in the DCGM diagnostic report *)

Section GpuIdentity.
Context `{PyRepr}.

Definition info_to_str (info : pyval) : string :=
  match info with
  | PList items =>
      Text.join "; "
        (List.filter (fun s => negb (String.eqb s EmptyString))
           ((fun i => Text.strip (Py.str i)) <$> items))
  | PStr s => Text.strip s
  | _ => EmptyString
  end.

(** A match of [GPU\s+(\d+)\b] at the head of [s], giving group 1.  Both
    runs are maximal: a shorter run of blanks is followed by a blank, not
    a digit, and a shorter run of digits is followed by a digit, where
    [\b] fails. *)
Definition match_gpu_here (s : list ascii) : option (list ascii) :=
  match s with
  | "G"%char :: "P"%char :: "U"%char :: t =>
      let '(ws, t1) := Text.span Text.is_space t in
      let '(ds, t2) := Text.span Text.is_digit t1 in
      match ws, ds with
      | _ :: _, _ :: _ =>
          match t2 with
          | [] => Some ds
          | c :: _ => if Text.is_word c then None else Some ds
          end
      | _, _ => None
      end
  | _ => None
  end.

(** [re.search(r'\bGPU\s+(\d+)\b', s)]: the leftmost match;
    [after_word] tells whether the character before [s] is a word
    character, in which case [\b] fails in front of the G. *)
Fixpoint search_gpu (after_word : bool) (s : list ascii) : option (list ascii) :=
  match s with
  | [] => None
  | c :: rest =>
      match (if after_word then None else match_gpu_here s) with
      | Some ds => Some ds
      | None => search_gpu (Text.is_word c) rest
      end
  end.

(** The part of [_resolve_gpu_id] after the [try]: the id in the info
    text, converted outside of any [try]. *)
Definition gpu_id_from_info (r : pydict) : result (option Z) :=
  let info := info_to_str (Py.get_or r "info" (PStr EmptyString)) in
  match search_gpu false (list_ascii_of_string info) with
  | Some ds => z ← Py.int_of_digits ds; Ok (Some z)
  | None => Ok None
  end.

Definition _resolve_gpu_id (r : pydict) : result (option Z) :=
  let gid := Py.get r "gpu_id" in
  if Py.is_none gid then gpu_id_from_info r
  else
    match Py.int gid with
    | Ok z => Ok (Some z)
    | Raise ValueError | Raise TypeError => gpu_id_from_info r
    | Raise e => Raise e
    end.

(** ["row remapping" in info_to_str(r.get("info", '')).lower()] *)
Definition mentions_row_remapping (r : pydict) : bool :=
  Text.contains "row remapping"
    (Text.lower (info_to_str (Py.get_or r "info" (PStr EmptyString)))).

(** [0 <= gid < n_gpus] *)
Definition in_range (gid n_gpus : Z) : bool := (0 <=? gid) && (gid <? n_gpus).

(** [range(n)] *)
Definition py_range (n : Z) : list Z := Z.of_nat <$> seq 0 (Z.to_nat n).

(** [sorted(s)] *)
Definition sorted (s : gset Z) : list Z := merge_sort Z.le (elements s).

Definition _find_remap_skipped_gpus (diag : pydict) (n_gpus : Z) : result (gset Z) :=
  let all_ids : gset Z := list_to_set (py_range n_gpus) in
  tests ← Py.iter (Py.get_or diag "test_results" (PList []));
  for_each (fun t (skipped : gset Z) =>
    results ← Py.getattr_get t "results" (PList []);
    rs ← Py.iter results;
    '(found_ids, has_remap_skip) ←
      for_each (fun r '(found_ids, has_remap_skip) =>
        match r with
        | PDict r =>
            gid ← _resolve_gpu_id r;
            let found_ids : gset Z :=
              match gid with
              | Some g => if in_range g n_gpus then {[g]} ∪ found_ids else found_ids
              | None => found_ids
              end in
            Ok (found_ids, has_remap_skip || mentions_row_remapping r)
        | _ => Raise AttributeError
        end) rs ((∅ : gset Z), false);
    Ok (if has_remap_skip && bool_decide (found_ids ≠ ∅)
        then skipped ∪ (all_ids ∖ found_ids) else skipped))
    tests ∅.

(** [{g for g in mapping if g is not None}] *)
Definition assigned_ids (mapping : list (option Z)) : gset Z :=
  list_to_set (omap id mapping).

(** [for idx, gid in zip(indices, ids): mapping[idx] = gid] *)
Definition assign_all (indices : list nat) (ids : list Z) (mapping : list (option Z))
  : list (option Z) :=
  foldl (fun m '(idx, gid) => <[idx := Some gid]> m) mapping (zip indices ids).

(** [[i for i in range(n) if mapping[i] is None]] *)
Definition unresolved (mapping : list (option Z)) : list nat :=
  List.filter (fun i => bool_decide (mapping !! i = Some None)) (seq 0 (length mapping)).

(** What Pass 1 keeps of a resolved id: [gid is not None and 0 <= gid < n_gpus]. *)
Definition accepted (n_gpus : Z) (gid : option Z) : option Z :=
  match gid with
  | Some g => if in_range g n_gpus then Some g else None
  | None => None
  end.

(** Pass 1: resolve from the gpu_id field or the info string. *)
Definition pass1 (results_list : list pydict) (n_gpus : Z) : result (list (option Z)) :=
  for_each (fun '(idx, r) mapping =>
    gid ← _resolve_gpu_id r;
    Ok match accepted n_gpus gid with
       | Some g => <[idx := Some g]> mapping
       | None => mapping
       end)
    (enumerate results_list) (replicate (length results_list) None).

(** An entry whose gpu_id is not an infinite float. *)
Definition finite_gpu_id (r : pydict) : Prop :=
  match Py.get r "gpu_id" with
  | PFloat (FInf _) => False
  | _ => True
  end.

(** An entry that the passes can read: its gpu_id is no infinite float,
    its info is a value as [json.loads] gives it, and its info text has
    no more than 4300 digits in a row. *)
Definition readable (r : pydict) : Prop :=
  finite_gpu_id r /\
  Py.loadable (Py.get_or r "info" (PStr EmptyString)) = true /\
  Text.digit_runs_at_most Py.max_str_digits 0
    (list_ascii_of_string (info_to_str (Py.get_or r "info" (PStr EmptyString)))) = true.

(** [[idx for idx, r in enumerate(results_list)
      if mapping[idx] is None and "row remapping" in ...]] *)
Definition remap_indices (results_list : list pydict) (mapping : list (option Z))
  : list nat :=
  (List.filter (fun '(idx, r) =>
     bool_decide (mapping !! idx = Some None) && mentions_row_remapping r)
     (enumerate results_list)).*1.

(** Pass 2: assign row-remapping skip entries. *)
Definition pass2 (results_list : list pydict) (remap_skipped : gset Z)
    (mapping : list (option Z)) : list (option Z) :=
  let remap_indices := remap_indices results_list mapping in
  let unassigned_remap := sorted (remap_skipped ∖ assigned_ids mapping) in
  if bool_decide (remap_indices ≠ [])
     && bool_decide (length remap_indices = length unassigned_remap)
  then assign_all remap_indices unassigned_remap mapping
  else mapping.

(** The two lists whose lengths Pass 3 compares. *)
Definition missing_ids (n_gpus : Z) (mapping : list (option Z)) : list Z :=
  sorted (list_to_set (py_range n_gpus) ∖ assigned_ids mapping).

(** Last resort of Pass 3: the array index, or 0 beyond the GPU count. *)
Definition fallback_id (idx : nat) (n_gpus : Z) : Z :=
  if Z.of_nat idx <? n_gpus then Z.of_nat idx else 0.

(** [for idx in indices: mapping[idx] = idx if idx < n_gpus else 0] *)
Definition fallback_all (n_gpus : Z) (indices : list nat) (mapping : list (option Z))
  : list (option Z) :=
  foldl (fun m idx => <[idx := Some (fallback_id idx n_gpus)]> m) mapping indices.

(** Pass 3: fill the remaining unknowns by elimination. *)
Definition pass3 (n_gpus : Z) (mapping : list (option Z)) : list (option Z) :=
  let missing := missing_ids n_gpus mapping in
  let unknown_indices := unresolved mapping in
  if bool_decide (length missing = length unknown_indices)
  then assign_all unknown_indices missing mapping
  else fallback_all n_gpus unknown_indices mapping.

Definition _build_gpu_id_map (results_list : list pydict) (n_gpus : Z)
    (remap_skipped : gset Z) : result (list (option Z)) :=
  mapping ← pass1 results_list n_gpus;
  Ok (pass3 n_gpus (pass2 results_list remap_skipped mapping)).

End GpuIdentity.

(** ** Numbers *)

Module Num.

(** A Python [int] or [float]. *)
Inductive number :=
| Int (z : Z)
| Float (f : pyfloat).

(** The integer nearest to [q], ties to even. *)
Definition round_half_even (q : Q) : Z :=
  let f := Qfloor q in
  match Qcompare (q - (f # 1)) (1 # 2) with
  | Lt => f
  | Gt => f + 1
  | Eq => if Z.even f then f else f + 1
  end.

(** *** Binary64 *)

(** 2 to the power [k], for any integer [k]. *)
Definition pow2 (k : Z) : Q := Qpower 2 k.

(** The exponent of [q], which is not 0: the [e] with
    [2^e <= |q| < 2^(e+1)]. *)
Definition exponent (q : Q) : Z :=
  let e := Z.log2 (Z.abs (Qnum q)) - Z.log2 (Z.pos (Qden q)) in
  if Qle_bool (pow2 e) (Qabs q) then e else e - 1.

(** The number nearest to [q] among those that binary64 holds, were its
    exponents not bounded from above: 53 significant bits, no bit below
    [2^-1074], ties to even. *)
Definition nearest (q : Q) : Q :=
  if Qeq_bool q 0 then 0%Q
  else
    let shift := Z.max (exponent q - 52) (-1074) in
    Qred (inject_Z (round_half_even (q / pow2 shift)) * pow2 shift).

(** Below [2^1024] in magnitude. *)
Definition in_range (q : Q) : bool := negb (Qle_bool (pow2 1024) (Qabs q)).

(** [q] rounded to binary64; [None] where the rounded number is out of
    range. *)
Definition to_float (q : Q) : option Q :=
  let r := nearest q in if in_range r then Some r else None.

(** [a / b] for an int [a] and a positive int constant [b]: the quotient
    is rounded once, and refused if it is too large for a float. *)
Definition int_div (a : Z) (b : positive) : result number :=
  match to_float (a # b) with
  | Some r => Ok (Float (FFin r))
  | None => Raise OverflowError
  end.

(** [x / b] for a positive int constant [b] that binary64 holds exactly
    (1024 and 1000^3 here); the quotient of a float by it is no larger
    than the float. *)
Definition div (x : number) (b : positive) : result number :=
  match x with
  | Int a => int_div a b
  | Float (FFin q) => Ok (Float (FFin (nearest (q / inject_Z (Z.pos b)))))
  | Float f => Ok (Float f)
  end.

(** [round(x, 1)]: the decimal with one digit after the point that is
    nearest to the exact value of the float, ties to even, and then the
    float nearest to that decimal. *)
Definition round1 (x : number) : number :=
  match x with
  | Int z => Int z
  | Float (FFin q) => Float (FFin (nearest (round_half_even (q * (10 # 1)) # 10)))
  | Float f => Float f
  end.

(** [bool(x)] *)
Definition truthy (x : number) : bool :=
  match x with
  | Int z => negb (z =? 0)
  | Float (FFin q) => negb (Qeq_bool q 0)
  | Float _ => true
  end.

(** [x > 0] *)
Definition positive (x : number) : bool :=
  match x with
  | Int z => 0 <? z
  | Float (FFin q) => negb (Qle_bool q 0)
  | Float (FInf negative) => negb negative
  | Float FNaN => false
  end.

(** [x <= 0] *)
Definition non_positive (x : number) : bool :=
  match x with
  | Int z => z <=? 0
  | Float (FFin q) => Qle_bool q 0
  | Float (FInf negative) => negative
  | Float FNaN => false
  end.

(** [x == y]; the one NaN that [json] hands out is also found in a set
    that holds it. *)
Definition eqb (x y : number) : bool :=
  match x, y with
  | Int a, Int b => a =? b
  | Int a, Float (FFin q) | Float (FFin q), Int a => Qeq_bool (a # 1) q
  | Float (FFin p), Float (FFin q) => Qeq_bool p q
  | Float (FInf a), Float (FInf b) => Bool.eqb a b
  | Float FNaN, Float FNaN => true
  | _, _ => false
  end.

(** [x < y]; NaN is below and above nothing. *)
Definition ltb (x y : number) : bool :=
  let finite n :=
    match n with
    | Int a => Some (a # 1)
    | Float (FFin q) => Some q
    | Float _ => None
    end in
  match finite x, finite y with
  | Some p, Some q => negb (Qle_bool q p)
  | Some _, None => match y with Float (FInf false) => true | _ => false end
  | None, Some _ => match x with Float (FInf true) => true | _ => false end
  | None, None =>
      match x, y with
      | Float (FInf true), Float (FInf false) => true
      | _, _ => false
      end
  end.

(** The number a JSON value is, where it is one ([bool] is an [int]). *)
Definition of_pyval (v : pyval) : option number :=
  match v with
  | PBool b => Some (Int (if b then 1 else 0))
  | PInt z => Some (Int z)
  | PFloat f => Some (Float f)
  | _ => None
  end.

End Num.

(** ** The hardware tree of lshw *)

Module Xml.

(** An ElementTree element: tag, attributes, the text in front of the
    first child, and the children. *)
Inductive element :=
| Element (tag : string) (attrib : list (string * string)) (text : option string)
    (children : list element).

Definition tag (el : element) : string := let 'Element t _ _ _ := el in t.
Definition attrib (el : element) : list (string * string) :=
  let 'Element _ a _ _ := el in a.
Definition text (el : element) : option string := let 'Element _ _ x _ := el in x.
Definition children (el : element) : list element := let 'Element _ _ _ c := el in c.

(** [el.get(key, dflt)] *)
Definition get (el : element) (key dflt : string) : string :=
  match List.find (fun kv => String.eqb kv.1 key) (attrib el) with
  | Some kv => kv.2
  | None => dflt
  end.

(** [el.find(t)]: the first child with tag [t]. *)
Definition find (el : element) (t : string) : option element :=
  List.find (fun c => String.eqb (tag c) t) (children el).

(** [el.findall(t)] *)
Definition findall (el : element) (t : string) : list element :=
  List.filter (fun c => String.eqb (tag c) t) (children el).

(** The element and its descendants, in document order. *)
Fixpoint subtree (el : element) : list element :=
  match el with
  | Element _ _ _ cs => el :: mjoin (subtree <$> cs)
  end.

(** [el.iter(t)] *)
Definition iter (el : element) (t : string) : list element :=
  List.filter (fun c => String.eqb (tag c) t) (subtree el).

(** [bool(el.text)] with the text *)
Definition nonempty_text (el : element) : option string :=
  match text el with
  | Some s => if String.eqb s EmptyString then None else Some s
  | None => None
  end.

End Xml.

(** ** DIMM inventory *)

(** One entry of the DIMM list, with the keys of the dict the extractors
    build. *)
Record dimm := {
  slot : pyval;
  description : pyval;
  size_gb : Num.number;
  vendor : pyval;
  product : pyval;
  serial : pyval;
  clock_mhz : pyval;
  width_bits : pyval;
}.

Section DimmInventory.
Context `{PyRepr}.

Definition _xml_text (el : Xml.element) (tag dflt : string) : string :=
  match Xml.find el tag with
  | Some child =>
      match Xml.nonempty_text child with
      | Some s => Text.strip s
      | None => dflt
      end
  | None => dflt
  end.

(** A match of [(\d{3,5})\s*MHz] at the head of [s], giving group 1.  A
    run of more than five digits does not match here: whatever part of
    it group 1 takes is followed by a digit. *)
Definition match_mhz_here (s : list ascii) : option (list ascii) :=
  let '(ds, t) := Text.span Text.is_digit s in
  if ((3 <=? length ds) && (length ds <=? 5))%nat then
    match (Text.span Text.is_space t).2 with
    | "M"%char :: "H"%char :: "z"%char :: _ => Some ds
    | _ => None
    end
  else None.

(** [re.search(r'(\d{3,5})\s*MHz', s)] *)
Fixpoint search_mhz (s : list ascii) : option (list ascii) :=
  match s with
  | [] => None
  | _ :: rest =>
      match match_mhz_here s with
      | Some ds => Some ds
      | None => search_mhz rest
      end
  end.

(** The slot names taken for DIMM slots. *)
Definition slot_keywords : list string :=
  ["DIMM"; "CPU"; "MEM"; "PROC"; "BANK"; "SLOT"; "CHANNEL"; "P0_"; "P1_"; "NODE"]%string.

(** [any(kw in slot_upper for kw in (...))] *)
Definition looks_like_dimm_slot (slot_upper : string) : bool :=
  existsb (fun kw => Text.contains kw slot_upper) slot_keywords.

(** The size of a node in GiB: 0 without a readable [size] element.  The
    [try] around the conversion catches what [int] raises, not the
    [OverflowError] of the division. *)
Definition lshw_size_gb (node : Xml.element) : result Num.number :=
  match Xml.find node "size" with
  | Some size_el =>
      match Xml.nonempty_text size_el with
      | Some text =>
          match Py.int_of_string text with
          | Ok raw_size =>
              let units := Xml.get size_el "units" "bytes" in
              if String.eqb units "bytes" then Num.int_div raw_size (1024 ^ 3)
              else if String.eqb units "KiB" then Num.int_div raw_size (1024 ^ 2)
              else if String.eqb units "MiB" then Num.int_div raw_size 1024
              else if String.eqb units "GiB" then Ok (Num.Int raw_size)
              else Num.int_div raw_size (1024 ^ 3)
          | Raise _ => Ok (Num.Int 0)
          end
      | None => Ok (Num.Int 0)
      end
  | None => Ok (Num.Int 0)
  end.

(** Strategy 1: the speed in the description, if plausible for DDR. *)
Definition lshw_clock_from_description (raw_desc : string) : Z :=
  match search_mhz (list_ascii_of_string raw_desc) with
  | Some ds =>
      let speed_val := Text.digits_value ds in
      if 800 <=? speed_val then speed_val else 0
  | None => 0
  end.

(** Strategy 2: the [setting] elements of [configuration]; the last
    setting that gives a speed wins. *)
Definition lshw_clock_from_settings (node : Xml.element) (clock_mhz : Z) : Z :=
  match Xml.find node "configuration" with
  | Some config =>
      foldl (fun clock_mhz setting =>
        let sid := Text.lower (Xml.get setting "id" EmptyString) in
        let sval := Xml.get setting "value" EmptyString in
        if bool_decide (sid ∈ ["speed"; "configured_speed";
                                "configured_clock_speed"]%string)
        then
          match List.filter Text.is_digit (list_ascii_of_string sval) with
          | [] => clock_mhz
          | ds =>
              match Py.int_of_digits ds with
              | Ok num =>
                  if 100000 <? num then num / 1000000
                  else if 0 <? num then num
                  else clock_mhz
              | Raise _ => clock_mhz
              end
          end
        else clock_mhz)
        clock_mhz (Xml.findall config "setting")
  | None => clock_mhz
  end.

(** Strategy 3: the bus clock. *)
Definition lshw_clock_from_clock (node : Xml.element) (clock_mhz : Z) : Z :=
  match Xml.find node "clock" with
  | Some clock_el =>
      match Xml.nonempty_text clock_el with
      | Some text =>
          match Py.int_of_string text with
          | Ok hz => hz / 1000000
          | Raise _ => clock_mhz
          end
      | None => clock_mhz
      end
  | None => clock_mhz
  end.

Definition lshw_clock_mhz (node : Xml.element) : Z :=
  let clock_mhz := lshw_clock_from_description (_xml_text node "description" EmptyString) in
  let clock_mhz :=
    if clock_mhz =? 0 then lshw_clock_from_settings node clock_mhz else clock_mhz in
  if clock_mhz =? 0 then lshw_clock_from_clock node clock_mhz else clock_mhz.

Definition lshw_width_bits (node : Xml.element) : Z :=
  match Xml.find node "width" with
  | Some width_el =>
      match Xml.nonempty_text width_el with
      | Some text =>
          match Py.int_of_string text with
          | Ok width =>
              if String.eqb (Xml.get width_el "units" "bits") "bytes"
              then width * 8 else width
          | Raise _ => 0
          end
      | None => 0
      end
  | None => 0
  end.

Definition is_some {A : Type} (o : option A) : bool :=
  match o with Some _ => true | None => false end.

(** The body of the loop of [parse_lshw_dimms]: the entry appended for a
    node, if any. *)
Definition lshw_dimm (node : Xml.element) : result (option dimm) :=
  let node_id := Xml.get node "id" EmptyString in
  let node_class := Xml.get node "class" EmptyString in
  let desc := Text.lower (_xml_text node "description" EmptyString) in
  let slot := _xml_text node "slot" EmptyString in
  if Text.contains "cache" desc then Ok None
  else if Text.contains "system board" desc || Text.contains "motherboard" desc
  then Ok None
  else if is_some (Xml.find node "node") then Ok None
  else
    let is_bank := Text.startswith "bank:" node_id in
    let is_mem_slot :=
      String.eqb node_class "memory"
      && is_some (Xml.find node "slot") && is_some (Xml.find node "size") in
    let is_mem_numbered :=
      String.eqb node_class "memory"
      && Text.contains ":" node_id && is_some (Xml.find node "size") in
    if negb (is_bank || is_mem_slot || is_mem_numbered) then Ok None
    else
      let slot_upper := Text.upper slot in
      if negb (String.eqb slot EmptyString) && negb (looks_like_dimm_slot slot_upper)
      then Ok None
      else
        size_gb ← lshw_size_gb node;
        Ok (if Num.positive size_gb then
              Some {| slot := PStr slot;
                      description := PStr (_xml_text node "description" EmptyString);
                      size_gb := if Num.truthy size_gb then Num.round1 size_gb
                                 else Num.Int 0;
                      vendor := PStr (_xml_text node "vendor" EmptyString);
                      product := PStr (_xml_text node "product" EmptyString);
                      serial := PStr (_xml_text node "serial" EmptyString);
                      clock_mhz := PInt (lshw_clock_mhz node);
                      width_bits := PInt (lshw_width_bits node) |}
            else None).

(** [parse_lshw_dimms], entered at the parsed tree: [None] stands for a
    missing payload and for one that ElementTree rejects.  An exception
    of the loop body ends the call. *)
Definition parse_lshw_dimms (root : option Xml.element) : result (list dimm) :=
  match root with
  | Some root =>
      for_each (fun node dimms =>
        d ← lshw_dimm node;
        Ok match d with
           | Some d => dimms ++ [d]
           | None => dimms
           end) (Xml.iter root "node") []
  | None => Ok []
  end.

(** *** The machine-resources document *)

Definition _EXCLUDE_KEYWORDS : list string :=
  ["cache"; "l1"; "l2"; "l3"; "system board"; "motherboard"]%string.

(** [str(entry.get("slot", entry.get("locator", ''))).lower()] *)
Definition mr_slot_text (entry : pydict) : string :=
  Text.lower (Py.str (Py.get_or entry "slot" (Py.get_or entry "locator" (PStr EmptyString)))).

(** [str(entry.get("type", entry.get("description", ''))).lower()] *)
Definition mr_desc_text (entry : pydict) : string :=
  Text.lower (Py.str (Py.get_or entry "type" (Py.get_or entry "description" (PStr EmptyString)))).

Definition _is_real_dimm (entry : pyval) : result bool :=
  match entry with
  | PDict entry =>
      let slot := mr_slot_text entry in
      let desc := mr_desc_text entry in
      if existsb (fun kw => Text.contains kw slot || Text.contains kw desc)
           _EXCLUDE_KEYWORDS
      then Ok false
      else
        let size := Py.get_or entry "size" (PInt 0) in
        if negb (Py.truthy size) then Ok false
        else
          match Num.of_pyval size with
          | Some n => Ok (negb (Num.non_positive n))
          | None => Raise TypeError
          end
  | _ => Raise AttributeError
  end.

(** The dict appended for an accepted entry; [flat] tells the layout, which
    decides where the slot is read. *)
Definition mr_dimm (flat : bool) (entry : pydict) : result dimm :=
  let size_mb := Py.get_or entry "size" (PInt 0) in
  size_gb ←
    (if Py.truthy size_mb then
       match Num.of_pyval size_mb with
       | Some n => q ← Num.div n 1024; Ok (Num.round1 q)
       | None => Raise TypeError
       end
     else Ok (Num.Int 0));
  Ok {| slot := if flat
                then Py.get_or entry "slot" (Py.get_or entry "locator" (PStr EmptyString))
                else Py.get_or entry "slot" (PStr EmptyString);
        description := Py.get_or entry "type" (PStr EmptyString);
        size_gb := size_gb;
        vendor := Py.get_or entry "vendor" (PStr EmptyString);
        product := Py.get_or entry "part_number" (PStr EmptyString);
        serial := Py.get_or entry "serial" (PStr EmptyString);
        clock_mhz :=
          Py.get_or entry "configured_speed" (Py.get_or entry "speed" (PInt 0));
        width_bits := Py.get_or entry "data_width" (PInt 0) |}.

(** The body of both loops over entries. *)
Definition mr_visit (flat : bool) (entry : pyval) (dimms : list dimm)
  : result (list dimm) :=
  real ← _is_real_dimm entry;
  if real : bool then
    match entry with
    | PDict entry => d ← mr_dimm flat entry; Ok (dimms ++ [d])
    | _ => Raise AttributeError
    end
  else Ok dimms.

(** [for dimm in container.get("dimms", []): ...] *)
Definition mr_visit_all (flat : bool) (container : pyval) (dimms : list dimm)
  : attempt (list dimm) :=
  match entries ← Py.getattr_get container "dimms" (PList []); Py.iter entries with
  | Ok entries => loop (fun entry dimms => keep dimms (mr_visit flat entry dimms))
                    entries dimms
  | Raise e => (dimms, Some e)
  end.

(** The [try] block of [parse_machine_resources_dimms]. *)
Definition mr_try (resources : pydict) : attempt (list dimm) :=
  let memory := Py.get_or resources "memory" (PDict []) in
  match Py.getattr_get memory "nodes" (PList []) with
  | Raise e => ([], Some e)
  | Ok nodes =>
      and_then
        (if Py.truthy nodes then
           match Py.iter nodes with
           | Ok nodes => loop (mr_visit_all false) nodes []
           | Raise e => ([], Some e)
           end
         else ([], None))
        (fun dimms =>
           match dimms with
           | [] => mr_visit_all true memory dimms
           | _ => (dimms, None)
           end)
  end.

(** The entries the loops can visit, under the NUMA nodes and in the flat
    list. *)
Definition mr_entries_of (container : pyval) : list pyval :=
  match entries ← Py.getattr_get container "dimms" (PList []); Py.iter entries with
  | Ok entries => entries
  | Raise _ => []
  end.

Definition mr_candidates (resources : pydict) : list pyval :=
  let memory := Py.get_or resources "memory" (PDict []) in
  match nodes ← Py.getattr_get memory "nodes" (PList []); Py.iter nodes with
  | Ok nodes => mjoin (mr_entries_of <$> nodes)
  | Raise _ => []
  end ++ mr_entries_of memory.

(** An entry of the list that was built from an accepted candidate. *)
Definition from_candidate (candidates : list pyval) (d : dimm) : Prop :=
  exists entry flat,
    PDict entry ∈ candidates /\
    _is_real_dimm (PDict entry) = Ok true /\
    mr_dimm flat entry = Ok d.

Definition parse_machine_resources_dimms (resources : option pydict) : list dimm :=
  match resources with
  | Some ((_ :: _) as resources) =>
      List.filter (fun d => Num.positive (size_gb d)) (mr_try resources).1
  | _ => []
  end.

(** The DIMM list of [fetch_from_maas]: lshw first, the machine-resources
    document only if lshw gave nothing.  (The speeds that dmidecode may
    overwrite afterwards are left as the extractors set them.) *)
Definition merged_dimms (lshw : option Xml.element)
    (machine_resources : option pydict) : result (list dimm) :=
  dimms ← parse_lshw_dimms lshw;
  Ok match dimms with
     | [] => parse_machine_resources_dimms machine_resources
     | _ => dimms
     end.

End DimmInventory.

(** Sample hardware. *)
Module DimmExamples.

Definition leaf (tag text : string) : Xml.element :=
  Xml.Element tag [] (Some text) [].

Definition bank (id slot desc size units : string) : Xml.element :=
  Xml.Element "node" [("id", id); ("class", "memory")]%string None
    [leaf "description" desc;
     leaf "slot" slot;
     Xml.Element "size" [("units", units)]%string (Some size) []].

Definition dimm_a1 : Xml.element :=
  bank "bank:0" "DIMM_A1" "DIMM DDR4 Synchronous 3200 MHz (0.3 ns)"
    "17179869184" "bytes".

(** A DIMM whose slot is labelled after the board it sits on. *)
Definition board_dimm : Xml.element :=
  bank "bank:2" "DIMM 0 (motherboard)" "DIMM DDR4 Synchronous 3200 MHz"
    "17179869184" "bytes".

(** A populated bank whose slot name is none of the expected ones. *)
Definition riser_dimm : Xml.element :=
  bank "bank:3" "Riser 1" "DIMM DDR4 Synchronous 3200 MHz" "17179869184" "bytes".

(** A tree with a cache, an empty slot and the three banks above. *)
Definition tree : Xml.element :=
  Xml.Element "node" [("id", "core"); ("class", "bus")]%string None
    [leaf "description" "Motherboard";
     bank "cache:0" "L1 Cache" "L1 cache" "65536" "bytes";
     Xml.Element "node" [("id", "memory"); ("class", "memory")]%string None
       [leaf "description" "System Memory";
        dimm_a1;
        bank "bank:1" "DIMM_A2" "DIMM DDR4 Synchronous [empty]" "0" "bytes";
        board_dimm;
        riser_dimm]].

(** The entry [parse_lshw_dimms] builds for [dimm_a1]. *)
Definition dimm_a1_entry : dimm :=
  {| slot := PStr "DIMM_A1";
     description := PStr "DIMM DDR4 Synchronous 3200 MHz (0.3 ns)";
     size_gb := Num.Float (FFin 16);
     vendor := PStr EmptyString; product := PStr EmptyString; serial := PStr EmptyString;
     clock_mhz := PInt 3200; width_bits := PInt 0 |}.

Definition resources : pydict :=
  [("memory",
    PDict [("nodes",
            PList [PDict [("dimms",
              PList [PDict [("slot", PStr "DIMM_B1"); ("type", PStr "DDR5");
                            ("size", PInt 32768)];
                     PDict [("slot", PStr "L2-Cache"); ("type", PStr "SRAM");
                            ("size", PInt 2)];
                     PDict [("slot", PStr "DIMM_B2"); ("type", PStr "DDR5");
                            ("size", PInt 0)]])]])])]%string.

End DimmExamples.

(** ** Storage devices *)

Module Storage.

(** One entry of the storage list; [raid] holds [raid_name] and
    [raid_level], keys that only the entries of RAID members have. *)
Record device := {
  name : pyval;
  model : pyval;
  serial : pyval;
  size_gb : Num.number;
  firmware : pyval;
  numa_node : pyval;
  type : pyval;
  raid_member : bool;
  raid : option (pyval * pyval);
}.

(** [devs] and [seen_serials] *)
Definition state : Type := list device * list pyval.

(** Lists and dicts cannot be members of a set. *)
Definition hashable (v : pyval) : bool :=
  match v with
  | PList _ | PDict _ => false
  | _ => true
  end.

(** [a == b] for hashable JSON values. *)
Definition same_key (a b : pyval) : bool :=
  match a, b with
  | PNone, PNone => true
  | PStr s, PStr t => String.eqb s t
  | _, _ =>
      match Num.of_pyval a, Num.of_pyval b with
      | Some x, Some y => Num.eqb x y
      | _, _ => false
      end
  end.

(** [serial in seen_serials] *)
Definition seen (serial : pyval) (seen_serials : list pyval) : result bool :=
  if hashable serial then Ok (existsb (same_key serial) seen_serials)
  else Raise TypeError.

(** [if serial: seen_serials.add(serial)] *)
Definition remember (serial : pyval) (seen_serials : list pyval)
  : result (list pyval) :=
  if Py.truthy serial then
    if hashable serial then Ok (serial :: seen_serials) else Raise TypeError
  else Ok seen_serials.

(** [round(size_bytes / (1000 ** 3), 1) if size_bytes else 0] *)
Definition size_in_gb (size_bytes : pyval) : result Num.number :=
  if Py.truthy size_bytes then
    match Num.of_pyval size_bytes with
    | Some n => q ← Num.div n (1000 ^ 3); Ok (Num.round1 q)
    | None => Raise TypeError
    end
  else Ok (Num.Int 0).

Definition block_record (bd : pydict) : result device :=
  size ← size_in_gb (Py.get_or bd "size" (PInt 0));
  Ok {| name := Py.get_or bd "name" (PStr "?");
        model := Py.get_or bd "model" (PStr EmptyString);
        serial := Py.get_or bd "serial" (PStr EmptyString);
        size_gb := size;
        firmware := Py.get_or bd "firmware_version" (PStr EmptyString);
        numa_node := Py.get_or bd "numa_node" (PInt (-1));
        type := PStr "block";
        raid_member := false;
        raid := None |}.

Definition raid_record (raid_name raid_level : pyval) (member : pydict)
  : result device :=
  size ← size_in_gb (Py.get_or member "size" (PInt 0));
  Ok {| name := Py.get_or member "name" (PStr "?");
        model := Py.get_or member "model" (PStr EmptyString);
        serial := Py.get_or member "serial" (PStr EmptyString);
        size_gb := size;
        firmware := Py.get_or member "firmware_version" (PStr EmptyString);
        numa_node := Py.get_or member "numa_node" (PInt (-1));
        type := PStr "raid_member";
        raid_member := true;
        raid := Some (raid_name, raid_level) |}.

(** [disk.get("serial", disk.get("serial_number", ''))] *)
Definition disk_serial (disk : pydict) : pyval :=
  Py.get_or disk "serial" (Py.get_or disk "serial_number" (PStr EmptyString)).

Definition disk_record (disk : pydict) : result device :=
  size ← size_in_gb (Py.get_or disk "size" (PInt 0));
  Ok {| name := Py.get_or disk "name" (Py.get_or disk "device_name" (PStr EmptyString));
        model := Py.get_or disk "model" (Py.get_or disk "model_name" (PStr EmptyString));
        serial := disk_serial disk;
        size_gb := size;
        firmware :=
          Py.get_or disk "firmware_version" (Py.get_or disk "firmware" (PStr EmptyString));
        numa_node := Py.get_or disk "numa_node" (PInt (-1));
        type := Py.get_or disk "type" (PStr "disk");
        raid_member := false;
        raid := None |}.

(** 1. A block device: appended as it comes. *)
Definition visit_block (bd : pyval) (st : state) : result state :=
  match bd with
  | PDict bd =>
      d ← block_record bd;
      seen_serials ← remember (Py.get_or bd "serial" (PStr EmptyString)) st.2;
      Ok (st.1 ++ [d], seen_serials)
  | _ => Raise AttributeError
  end.

(** The body the loops over RAID members and over resource disks share:
    [if serial and serial in seen_serials: continue], then the append and
    [if serial: seen_serials.add(serial)]. *)
Definition add_unseen (serial : pyval) (record : result device) (st : state)
  : result state :=
  skip ← (if Py.truthy serial then seen serial st.2 else Ok false);
  if skip : bool then Ok st
  else
    d ← record;
    seen_serials ← remember serial st.2;
    Ok (st.1 ++ [d], seen_serials).

(** [a + b] for the two member lists of a RAID set, as a list to iterate. *)
Definition concat (a b : pyval) : result (list pyval) :=
  match a, b with
  | PList l1, PList l2 => Ok (l1 ++ l2)
  | PStr s1, PStr s2 => Py.iter (PStr (String.append s1 s2))
  | _, _ => Raise TypeError
  end.

Definition visit_member (raid_name raid_level : pyval) (member : pyval) (st : state)
  : result state :=
  match member with
  | PDict member =>
      add_unseen (Py.get_or member "serial" (PStr EmptyString))
        (raid_record raid_name raid_level member) st
  | _ => Raise AttributeError
  end.

(** 2. A RAID set: its members and spares. *)
Definition visit_raid (raid : pyval) (st : state) : result state :=
  match raid with
  | PDict raid =>
      let raid_name := Py.get_or raid "name" (PStr EmptyString) in
      let raid_level := Py.get_or raid "level" (PStr EmptyString) in
      members ← concat (Py.get_or raid "devices" (PList []))
                  (Py.get_or raid "spare_devices" (PList []));
      for_each (visit_member raid_name raid_level) members st
  | _ => Raise AttributeError
  end.

(** 3. A disk of the machine-resources document. *)
Definition visit_disk (disk : pyval) (st : state) : result state :=
  match disk with
  | PDict disk => add_unseen (disk_serial disk) (disk_record disk) st
  | _ => Raise AttributeError
  end.

Definition block_devices (machine : pydict) : result (list pyval) :=
  Py.iter (Py.get_or machine "physicalblockdevice_set" (PList [])).

Definition raid_sets (machine : pydict) : result (list pyval) :=
  Py.iter (Py.get_or machine "raid_set" (Py.get_or machine "raids" (PList []))).

(** The disks of a present machine-resources document; none otherwise. *)
Definition resource_disks (machine_resources : option pydict) : result (list pyval) :=
  match machine_resources with
  | Some ((_ :: _) as r) =>
      disks ← Py.getattr_get (Py.get_or r "storage" (PDict [])) "disks" (PList []);
      Py.iter disks
  | _ => Ok []
  end.

Definition extract_storage_details (machine : pydict)
    (machine_resources : option pydict) : result (list device) :=
  bds ← block_devices machine;
  st ← for_each visit_block bds ([], []);
  raids ← raid_sets machine;
  st ← for_each visit_raid raids st;
  disks ← resource_disks machine_resources;
  st ← for_each visit_disk disks st;
  Ok st.1.

(** The entries with serial [s]. *)
Definition with_serial (s : string) (devs : list device) : list device :=
  List.filter (fun d => Py.eq_str (serial d) s) devs.

(** A RAID member, and a resource disk, with serial [s] in the payloads. *)
Definition raid_member_with_serial (s : string) (machine : pydict) : Prop :=
  exists raids raid members member,
    raid_sets machine = Ok raids /\ PDict raid ∈ raids /\
    concat (Py.get_or raid "devices" (PList []))
      (Py.get_or raid "spare_devices" (PList [])) = Ok members /\
    PDict member ∈ members /\
    Py.get_or member "serial" (PStr EmptyString) = PStr s.

Definition resource_disk_with_serial (s : string)
    (machine_resources : option pydict) : Prop :=
  exists disks disk,
    resource_disks machine_resources = Ok disks /\ PDict disk ∈ disks /\
    disk_serial disk = PStr s.

(** [seen_serials] holds serial [s] exactly when [devs] has an entry with
    it. *)
Definition tracks (s : string) (st : state) : Prop :=
  existsb (same_key (PStr s)) st.2 = true <-> with_serial s st.1 <> [].

(** A state reached from the list [devs0] by appending entries of one
    source, none for a serial that [devs0] has, and at most one for [s]. *)
Definition grown (s : string) (devs0 : list device) (P : device -> Prop)
    (st : state) : Prop :=
  tracks s st /\
  exists added,
    st.1 = devs0 ++ added /\ Forall P added /\
    (with_serial s devs0 <> [] -> with_serial s added = []) /\
    (length (with_serial s added) <= 1)%nat.

(** The list of [st'] continues the list of [st]. *)
Definition extends (st st' : state) : Prop :=
  exists added, st'.1 = st.1 ++ added.

(** A member with serial [s] of the RAID set has left an entry with [s]. *)
Definition raid_covered (s : string) (raid : pyval) (st : state) : Prop :=
  forall r members m,
    raid = PDict r ->
    concat (Py.get_or r "devices" (PList []))
      (Py.get_or r "spare_devices" (PList [])) = Ok members ->
    PDict m ∈ members ->
    Py.get_or m "serial" (PStr EmptyString) = PStr s ->
    with_serial s st.1 <> [].

(** What the entries of the three sources are built from. *)
Definition of_block (bd : pyval) (d : device) : Prop :=
  exists b, bd = PDict b /\ block_record b = Ok d.

Definition of_raid_member (d : device) : Prop :=
  exists raid_name raid_level member,
    raid_record raid_name raid_level member = Ok d.

Definition of_resource_disk (d : device) : Prop :=
  exists disk, disk_record disk = Ok d.

(** Sample machine: two disks behind a RAID controller that MAAS also
    lists, one of them again in the machine-resources document. *)
Definition disk (name serial : string) (size : Z) : pyval :=
  PDict [("name", PStr name); ("serial", PStr serial); ("size", PInt size)]%string.

Definition machine : pydict :=
  [("physicalblockdevice_set", PList [disk "sda" "S1" 2000000000000]);
   ("raid_set",
    PList [PDict [("name", PStr "md0"); ("level", PStr "raid-1");
                  ("devices", PList [disk "sda" "S1" 2000000000000;
                                     disk "sdb" "S2" 2000000000000]);
                  ("spare_devices", PList [])]])]%string.

Definition machine_resources : pydict :=
  [("storage",
    PDict [("disks", PList [disk "sdb" "S2" 2000000000000;
                            disk "nvme0n1" "S3" 960000000000])])]%string.

(** A machine whose two block devices report one serial, which a RAID
    member has too. *)
Definition multipath_machine : pydict :=
  [("physicalblockdevice_set",
    PList [disk "sda" "S1" 2000000000000; disk "sdb" "S1" 2000000000000]);
   ("raid_set",
    PList [PDict [("name", PStr "md0"); ("level", PStr "raid-1");
                  ("devices", PList [disk "sda" "S1" 2000000000000])]])]%string.

End Storage.

(** ** Network cards *)

Module Nic.

(** One row of the NIC table: a physical card. *)
Record card := {
  model : pyval;
  ports : nat;
  macs : list pyval;
  sriov_max_vf : pyval;
  numa_node : pyval;
}.

(** [groups]: the ports under each MAC prefix, in the order the prefixes
    were first met, as a Python dict keeps them. *)
Definition groups : Type := list (string * list pydict).

(** [(n.get("mac", '') or '').lower().strip()] *)
Definition normalized_mac (n : pydict) : result string :=
  mac ← Py.lower (Py.or_else (Py.get_or n "mac" (PStr EmptyString)) (PStr EmptyString));
  Ok (Text.strip mac).

(** [groups.setdefault(prefix, []).append(n)] *)
Fixpoint add_to_group (prefix : string) (n : pydict) (g : groups) : groups :=
  match g with
  | [] => [(prefix, [n])]
  | (p, members) :: rest =>
      if String.eqb p prefix then (p, members ++ [n]) :: rest
      else (p, members) :: add_to_group prefix n rest
  end.

(** The first loop: ports with at least "aa:bb:cc:dd:ee" go under the
    first 14 characters of their MAC, the others stay on their own. *)
Definition sort_port (n : pydict) (st : groups * list pydict)
  : result (groups * list pydict) :=
  mac ← normalized_mac n;
  if (14 <=? String.length mac)%nat
  then Ok (add_to_group (Text.take 14 mac) n st.1, st.2)
  else Ok (st.1, st.2 ++ [n]).

(** The vendor and product of a port as one label. *)
Definition model_str (rep : pydict) : result pyval :=
  let product := Py.or_else (Py.get_or rep "product" (PStr EmptyString)) (PStr EmptyString) in
  let vendor := Py.or_else (Py.get_or rep "vendor" (PStr EmptyString)) (PStr EmptyString) in
  if Py.truthy product && Py.truthy vendor then
    v ← Py.lower vendor;
    p ← Py.lower product;
    if negb (Text.contains v p) then
      match vendor, product with
      | PStr vendor, PStr product =>
          Ok (PStr (String.append vendor (String.append " " product)))
      | _, _ => Raise AttributeError
      end
    else Ok product
  else if Py.truthy product then Ok product
  else if Py.truthy vendor then Ok vendor
  else Ok (PStr "--").

(** [p.get("sriov_max_vf", 0) or 0] *)
Definition sriov (p : pydict) : pyval :=
  Py.or_else (Py.get_or p "sriov_max_vf" (PInt 0)) (PInt 0).

(** [max(...)] over the ports of a card: the first of the largest
    values.  Values that are not numbers are compared only when the card
    has several ports, and then only numbers are in the embedding. *)
Definition max_sriov (members : list pydict) : result pyval :=
  match members with
  | [] => Raise ValueError
  | p :: rest =>
      for_each (fun q best =>
        match Num.of_pyval (sriov q), Num.of_pyval best with
        | Some x, Some y => Ok (if Num.ltb y x then sriov q else best)
        | _, _ => Raise TypeError
        end) rest (sriov p)
  end.

Definition as_str (v : pyval) : result string :=
  match v with
  | PStr s => Ok s
  | _ => Raise TypeError
  end.

(** The order of strings: by code point, then by length. *)
Definition str_le (a b : string) : Prop := String.leb a b = true.

#[global] Instance str_le_dec : RelDecision str_le.
Proof. intros a b. unfold str_le. apply _. Defined.

(** [sorted(p.get("mac", '') for p in ports)], for strings. *)
Definition sorted_macs (members : list pydict) : result (list pyval) :=
  raw ← map_each (fun p => as_str (Py.get_or p "mac" (PStr EmptyString))) members;
  Ok (PStr <$> merge_sort str_le raw).

Definition card_of_group (g : string * list pydict) : result card :=
  match g.2 with
  | [] => Raise ValueError
  | rep :: _ =>
      label ← model_str rep;
      sorted ← sorted_macs g.2;
      sriov_max ← max_sriov g.2;
      Ok {| model := label;
            ports := length g.2;
            macs := sorted;
            sriov_max_vf := sriov_max;
            numa_node := Py.get_or rep "numa_node" (PInt (-1)) |}
  end.

Definition card_of_port (n : pydict) : result card :=
  label ← model_str n;
  Ok {| model := label;
        ports := 1;
        macs := [Py.get_or n "mac" (PStr EmptyString)];
        sriov_max_vf := sriov n;
        numa_node := Py.get_or n "numa_node" (PInt (-1)) |}.

Definition _group_nics_by_card (nics : list pydict) : result (list card) :=
  match nics with
  | [] => Ok []
  | _ =>
      st ← for_each sort_port nics ([], []);
      cards ← map_each card_of_group st.1;
      singles ← map_each card_of_port st.2;
      Ok (cards ++ singles)
  end.

(** *** The grouping in the words of the specification *)

(** The MAC of a port, lowered and stripped, when it is a string. *)
Definition mac_text (n : pydict) : string :=
  match Py.or_else (Py.get_or n "mac" (PStr EmptyString)) (PStr EmptyString) with
  | PStr s => Text.strip (Text.lower s)
  | _ => EmptyString
  end.

(** The first five octets, for a MAC that has them. *)
Definition card_prefix (n : pydict) : option string :=
  if (14 <=? String.length (mac_text n))%nat
  then Some (Text.take 14 (mac_text n)) else None.

(** The ports that share the prefix [p], and the ports without one. *)
Definition sharing (p : string) (nics : list pydict) : list pydict :=
  List.filter (fun n => bool_decide (card_prefix n = Some p)) nics.

Definition without_prefix (nics : list pydict) : list pydict :=
  List.filter (fun n => bool_decide (card_prefix n = None)) nics.

(** Ports as MAAS and lshw give them: MAC, product and vendor are strings
    where present, the VF count a number. *)
Definition is_text (v : pyval) : bool :=
  match v with PStr _ => true | _ => false end.

Definition well_formed (n : pydict) : bool :=
  is_text (Py.or_else (Py.get_or n "mac" (PStr EmptyString)) (PStr EmptyString))
  && is_text (Py.or_else (Py.get_or n "product" (PStr EmptyString)) (PStr EmptyString))
  && is_text (Py.or_else (Py.get_or n "vendor" (PStr EmptyString)) (PStr EmptyString))
  && match Num.of_pyval (sriov n) with Some _ => true | None => false end.

(** The state of the first loop after the ports [seen]. *)
Definition sorted_so_far (seen : list pydict) (st : groups * list pydict) : Prop :=
  NoDup st.1.*1 /\
  (forall g, g ∈ st.1 -> g.2 = sharing g.1 seen /\ g.2 <> []) /\
  (forall n p, n ∈ seen -> card_prefix n = Some p -> p ∈ st.1.*1) /\
  st.2 = without_prefix seen.

(** Sample ports: a two-port card, a one-port card and a port without a
    usable MAC. *)
Definition port (mac product : string) : pydict :=
  [("mac", PStr mac); ("product", PStr product); ("vendor", PStr "Mellanox");
   ("sriov_max_vf", PInt 8)]%string.

Definition sample : list pydict :=
  [port "B8:3F:D2:AA:10:00" "ConnectX-6"; port "08:c0:eb:12:34:56" "ConnectX-5";
   port "b8:3f:d2:aa:10:01" "ConnectX-6"; port EmptyString "BlueField"].

End Nic.

(** ** Issue filter and stage verdicts of the report *)

Module Verdicts.

(** [if data:] for a stage payload, [None] or a dict. *)
Definition present (data : option pydict) : bool :=
  match data with
  | Some (_ :: _) => true
  | _ => false
  end.

Definition stages (install inventory stress : option pydict)
  : list (string * option pydict) :=
  [("Install", install); ("Inventory", inventory); ("Stress Test", stress)]%string.

(** The issues of one stage, each copied and tagged with its source. *)
Definition stage_issues (label : string) (data : option pydict)
  : result (list pydict) :=
  match data with
  | Some ((_ :: _) as d) =>
      issues ← Py.getattr_get (Py.get_or d "verdict" (PDict [])) "issues" (PList []);
      items ← Py.iter issues;
      map_each (fun iss => c ← Py.dict iss; Ok (Py.set c "source" (PStr label))) items
  | _ => Ok []
  end.

Definition collect_issues (stages : list (string * option pydict))
  : result (list pydict) :=
  for_each (fun '(label, data) all_issues =>
    found ← stage_issues label data; Ok (all_issues ++ found)) stages [].

(** [kw in i.get("issue", '').lower()] *)
Definition mentions (kw : string) (i : pydict) : result bool :=
  text ← Py.lower (Py.get_or i "issue" (PStr EmptyString));
  Ok (Text.contains kw text).

(** [[i for i in all_issues if kw not in i.get("issue", '').lower()]] *)
Definition drop_mentioning (kw : string) (all_issues : list pydict)
  : result (list pydict) :=
  filter_each (fun i => negb <$> mentions kw i) all_issues.

Definition filter_issues (stress : option pydict) (all_issues : list pydict)
  : result (list pydict) :=
  all_issues ←
    (if present stress then drop_mentioning "counters unavailable" all_issues
     else Ok all_issues);
  drop_mentioning "pcie link degradation" all_issues.

(** [data.get("verdict", {}).get("overall", "N/A")] *)
Definition raw_verdict (d : pydict) : result pyval :=
  Py.getattr_get (Py.get_or d "verdict" (PDict [])) "overall" (PStr "N/A").

(** [label not in remaining_sources] *)
Definition no_issue_left (label : string) (remaining_sources : list pyval) : bool :=
  negb (existsb (fun src => Py.eq_str src label) remaining_sources).

Definition stage_verdict (remaining_sources : list pyval)
    (stage : string * option pydict) : result (string * pyval) :=
  let '(label, data) := stage in
  match data with
  | Some ((_ :: _) as d) =>
      raw ← raw_verdict d;
      Ok (label,
          if Py.eq_str raw "WARN" && no_issue_left label remaining_sources
          then PStr "PASS" else raw)
  | _ => Ok (label, PStr "N/A")
  end.

Definition derive_verdicts (stages : list (string * option pydict))
    (all_issues : list pydict) : result (list (string * pyval)) :=
  remaining_sources ← map_each (fun i => Py.item i "source") all_issues;
  map_each (stage_verdict remaining_sources) stages.

(** The verdict block of [generate_report]: the issues left after
    filtering and the verdict of each stage. *)
Definition report_verdicts (install inventory stress : option pydict)
  : result (list pydict * list (string * pyval)) :=
  let stages := stages install inventory stress in
  all_issues ← collect_issues stages;
  all_issues ← filter_issues stress all_issues;
  verdicts ← derive_verdicts stages all_issues;
  Ok (all_issues, verdicts).

(** Payloads of the expected shape: the verdict is an object, its issues a
    list of objects, and the description of an issue a string. *)
Definition is_text (v : pyval) : bool :=
  match v with PStr _ => true | _ => false end.

Definition described (i : pydict) : bool :=
  is_text (Py.get_or i "issue" (PStr EmptyString)).

Definition issue_ok (iss : pyval) : bool :=
  match iss with
  | PDict c => described c
  | _ => false
  end.

Definition stage_ok (data : option pydict) : bool :=
  match data with
  | Some d =>
      match Py.get_or d "verdict" (PDict []) with
      | PDict v =>
          match Py.get_or v "issues" (PList []) with
          | PList issues => forallb issue_ok issues
          | _ => false
          end
      | _ => false
      end
  | None => true
  end.

(** [kw in i.get("issue", '').lower()] when the description is a string. *)
Definition mentions_text (kw : string) (i : pydict) : bool :=
  match Py.get_or i "issue" (PStr EmptyString) with
  | PStr text => Text.contains kw (Text.lower text)
  | _ => false
  end.

(** A collected issue: described, and tagged with its source. *)
Definition tagged (i : pydict) : Prop :=
  described i = true /\ exists src, Py.item i "source" = Ok src.

(** What [filter_issues] keeps of described issues. *)
Definition kept (stress : option pydict) (i : pydict) : bool :=
  negb (present stress && mentions_text "counters unavailable" i)
  && negb (mentions_text "pcie link degradation" i).

(** Sample payloads. *)
Definition issue (text : string) : pyval :=
  PDict [("severity", PStr "warning"); ("issue", PStr text)]%string.

Definition payload (overall : string) (issues : list pyval) : pydict :=
  [("verdict", PDict [("overall", PStr overall); ("issues", PList issues)])]%string.

Definition inventory_warn : pydict :=
  payload "WARN" [issue "GPU 2: ECC counters unavailable"].

Definition install_fail : pydict :=
  payload "FAIL" [issue "GPU 0: PCIe link degradation (Gen4 -> Gen2)"].

Definition stress_pass : pydict := payload "PASS" [].

Definition both_phrases : pydict :=
  [("issue", PStr "PCIe link degradation; ECC counters unavailable");
   ("source", PStr "Inventory")]%string.

End Verdicts.

(** Sample diagnostic payloads. *)
Module GpuExamples.

Definition entry (gid : Z) : pydict :=
  [("status", PStr "Pass"); ("gpu_id", PInt gid)]%string.

Definition remap_entry : pydict :=
  [("status", PStr "Skip");
   ("info", PStr "Skipping test: row remapping failure")]%string.

(** Eight GPUs, GPU 5 skipped by the memory test. *)
Definition memory_results : list pydict :=
  [entry 0; entry 1; entry 2] ++ remap_entry :: [entry 3; entry 4; entry 6; entry 7].

Definition diag : pydict :=
  [("test_results",
    PList [PDict [("test", PStr "memory");
                  ("results", PList (PDict <$> memory_results))]])]%string.

(** A test whose entries resolve in another order than their positions. *)
Definition shuffled_results : list pydict :=
  [entry 2; [("info", PStr "GPU 0 calculated at approximately 100 gigaflops")];
   entry 1]%string.

(** One entry without any identity, on a machine reporting no GPU. *)
Definition anonymous_results : list pydict := [[]].

(** More entries than GPUs, none with an id. *)
Definition crowded_results : list pydict := [[]; []; []].

Definition crowded_diag : pydict :=
  [("test_results",
    PList [PDict [("test", PStr "pcie");
                  ("results", PList (PDict <$> crowded_results))]])]%string.

Definition anonymous_diag : pydict :=
  [("test_results",
    PList [PDict [("test", PStr "pcie");
                  ("results", PList (PDict <$> anonymous_results))]])]%string.

End GpuExamples.
(** ** GPU identity resolution: notions for its further properties *)

Section GpuIdentityNotions.
Context `{PyRepr}.

(** [t.get("results", [])] as the loops over a test iterate it. *)
Definition test_entries (t : pyval) : result (list pyval) :=
  results ← Py.getattr_get t "results" (PList []);
  Py.iter results.

(** [diag.get("test_results", [])] as the loops iterate it. *)
Definition diag_tests (diag : pydict) : result (list pyval) :=
  Py.iter (Py.get_or diag "test_results" (PList [])).

(** No id is at two positions of the mapping. *)
Definition distinct_ids (mapping : list (option Z)) : Prop :=
  forall p q g,
    mapping !! p = Some (Some g) -> mapping !! q = Some (Some g) -> p = q.

(** The mapping that only counts positions. *)
Definition positional (n_gpus : Z) (n : nat) : list (option Z) :=
  (fun p => Some (fallback_id p n_gpus)) <$> seq 0 n.

(** An entry of a test that Pass 1 resolves to the id [g] of a GPU. *)
Definition resolves_to (n_gpus : Z) (e : pyval) (g : Z) : Prop :=
  exists r, e = PDict r /\ _resolve_gpu_id r = Ok (Some g) /\ 0 <= g < n_gpus.

(** An entry that reports a row-remapping skip. *)
Definition remap_skip_entry (e : pyval) : Prop :=
  exists r, e = PDict r /\ mentions_row_remapping r = true.

(** The GPU [g] is the one a test with these entries has skipped: the
    test reports a row-remapping skip and names at least one GPU, but not
    [g]. *)
Definition skipped_by (n_gpus : Z) (entries : list pyval) (g : Z) : Prop :=
  0 <= g < n_gpus /\
  (exists e, e ∈ entries /\ remap_skip_entry e) /\
  (exists e g', e ∈ entries /\ resolves_to n_gpus e g') /\
  (forall e, e ∈ entries -> ~ resolves_to n_gpus e g).

End GpuIdentityNotions.

(** ** The overall verdict of the report *)

Module Overall.

(** [pri.get(v, 3)] for
    [pri = {"FAIL": 0, "WARN": 1, "PASS": 2, "N/A": 3}]: a value that is
    no key of the dict ranks last, one that cannot be hashed is refused. *)
Definition pri (v : pyval) : result Z :=
  if Storage.hashable v then
    Ok (if Py.eq_str v "FAIL" then 0
        else if Py.eq_str v "WARN" then 1
        else if Py.eq_str v "PASS" then 2
        else 3)
  else Raise TypeError.

(** [min(verdicts, key=lambda x: pri.get(x[1], 3))]: the first of the
    entries with the smallest key. *)
Definition min_by_pri (verdicts : list (string * pyval)) : result (string * pyval) :=
  match verdicts with
  | [] => Raise ValueError
  | first :: rest =>
      k ← pri first.2;
      best ← for_each (fun x (best : (string * pyval) * Z) =>
                kx ← pri x.2;
                Ok (if kx <? best.2 then (x, kx) else best))
               rest (first, k);
      Ok best.1
  end.

(** [overall = min(...)[1]] *)
Definition overall (verdicts : list (string * pyval)) : result pyval :=
  best ← min_by_pri verdicts;
  Ok best.2.

(** The verdict block of [generate_report], up to the overall verdict. *)
Definition report_overall (install inventory stress : option pydict) : result pyval :=
  r ← Verdicts.report_verdicts install inventory stress;
  overall r.2.

(** A stage with data whose own verdict is [verdict]. *)
Definition stage_reports (install inventory stress : option pydict)
    (label : string) (verdict : string) : Prop :=
  exists d,
    (label, Some d) ∈ Verdicts.stages install inventory stress /\ d <> [] /\
    Verdicts.raw_verdict d = Ok (PStr verdict).

End Overall.

(** ** The NIC list of [fetch_from_maas] *)

Module NicSources.

(** The dict [extract_network_interfaces] builds for an interface. *)
Definition nic_record (iface : pydict) : pydict :=
  [("name", Py.get_or iface "name" (PStr "?"));
   ("mac", Py.get_or iface "mac_address" (PStr EmptyString));
   ("vendor", Py.get_or iface "vendor" (PStr EmptyString));
   ("product", Py.get_or iface "product" (PStr EmptyString));
   ("link_speed", Py.get_or iface "link_speed" (PInt 0));
   ("interface_speed", Py.get_or iface "interface_speed" (PInt 0));
   ("sriov_max_vf", Py.get_or iface "sriov_max_vf" (PInt 0));
   ("firmware", Py.get_or iface "firmware_version" (PStr EmptyString));
   ("numa_node", Py.get_or iface "numa_node" (PInt (-1)))]%string.

(** [iface.get("type") == "physical"] *)
Definition is_physical (iface : pydict) : bool :=
  Py.eq_str (Py.get iface "type") "physical".

Definition extract_network_interfaces (machine : pydict) : result (list pydict) :=
  ifaces ← Py.iter (Py.get_or machine "interface_set" (PList []));
  for_each (fun iface nics =>
    match iface with
    | PDict iface =>
        Ok (if is_physical iface then nics ++ [nic_record iface] else nics)
    | _ => Raise AttributeError
    end) ifaces [].

(** The body of the loop of [parse_lshw_nics]: the entry appended for a
    node, if any. *)
Definition lshw_nic (node : Xml.element) : option pydict :=
  if negb (String.eqb (Xml.get node "class" EmptyString) "network") then None
  else
    let mac := Text.lower (_xml_text node "serial" EmptyString) in
    let product := _xml_text node "product" EmptyString in
    let vendor := _xml_text node "vendor" EmptyString in
    let desc := _xml_text node "description" EmptyString in
    let businfo := _xml_text node "businfo" EmptyString in
    let logicalname := _xml_text node "logicalname" EmptyString in
    if negb (String.eqb product EmptyString) || negb (String.eqb vendor EmptyString)
    then Some [("mac", PStr mac); ("product", PStr product); ("vendor", PStr vendor);
               ("description", PStr desc); ("businfo", PStr businfo);
               ("logicalname", PStr logicalname)]%string
    else None.

(** [parse_lshw_nics], entered at the parsed tree: [None] stands for a
    missing payload and for one that ElementTree rejects. *)
Definition parse_lshw_nics (root : option Xml.element) : list pydict :=
  match root with
  | Some root =>
      foldl (fun nics node =>
        match lshw_nic node with
        | Some n => nics ++ [n]
        | None => nics
        end) [] (Xml.iter root "node")
  | None => []
  end.

(** [by_mac]: the lshw entry under each MAC, the last one where a MAC
    comes twice. *)
Definition by_mac (lshw_nics : list pydict) : result pydict :=
  for_each (fun ln by_mac =>
    mac ← Py.lower (Py.get_or ln "mac" (PStr EmptyString));
    let mac := Text.strip mac in
    Ok (if String.eqb mac EmptyString then by_mac else Py.set by_mac mac (PDict ln)))
    lshw_nics [].

(** The body of the second loop: the port with what lshw knows of it. *)
Definition enrich_nic (by_mac : pydict) (nic : pydict) : result pydict :=
  mac ← Nic.normalized_mac nic;
  let lshw_nic := Py.get by_mac mac in
  if Py.truthy lshw_nic then
    nic ←
      (if negb (Py.truthy (Py.get nic "product"))
       then
         lshw_product ← Py.getattr_get lshw_nic "product" (PStr EmptyString);
         Ok (Py.set nic "product" lshw_product)
       else Ok nic);
    if negb (Py.truthy (Py.get nic "vendor")) || Py.eq_str (Py.get nic "vendor") "--"
    then
      lshw_vendor ← Py.getattr_get lshw_nic "vendor" (PStr EmptyString);
      Ok (Py.set nic "vendor" lshw_vendor)
    else Ok nic
  else Ok nic.

Definition enrich_nics_from_lshw (nics lshw_nics : list pydict) : result (list pydict) :=
  match lshw_nics with
  | [] => Ok nics
  | _ =>
      table ← by_mac lshw_nics;
      map_each (enrich_nic table) nics
  end.

(** The NIC list as [fetch_from_maas] builds it. *)
Definition fetch_nics (machine : pydict) (lshw : option Xml.element)
  : result (list pydict) :=
  nics ← extract_network_interfaces machine;
  match parse_lshw_nics lshw with
  | [] => Ok nics
  | lshw_nics => enrich_nics_from_lshw nics lshw_nics
  end.

(** The physical interfaces among the items of [interface_set]. *)
Definition physical_interfaces (ifaces : list pyval) : list pydict :=
  omap (fun v => match v with
                 | PDict iface => if is_physical iface then Some iface else None
                 | _ => None
                 end) ifaces.


(** The ports under all prefixes together. *)
Definition grouped_ports (g : Nic.groups) : nat :=
  sum_list ((fun x => length x.2) <$> g).

(** Two ports that differ at most in their product and vendor. *)
Definition same_port (n n' : pydict) : Prop :=
  forall k, k <> "product"%string -> k <> "vendor"%string ->
    Py.lookup_key k n' = Py.lookup_key k n.

(** States of the first loop of the grouping over two lists of such
    ports. *)
Definition alike (st st' : Nic.groups * list pydict) : Prop :=
  Forall2 (fun g g' => g'.1 = g.1 /\ Forall2 same_port g.2 g'.2) st.1 st'.1 /\
  Forall2 same_port st.2 st'.2.

(** The ports of all cards together. *)
Definition total_ports (cards : list Nic.card) : nat :=
  sum_list (Nic.ports <$> cards).

(** Two cards that differ at most in their label. *)
Definition same_card (c c' : Nic.card) : Prop :=
  Nic.ports c' = Nic.ports c /\ Nic.macs c' = Nic.macs c /\
  Nic.sriov_max_vf c' = Nic.sriov_max_vf c /\ Nic.numa_node c' = Nic.numa_node c.

(** Sample: the interfaces of a machine and the network nodes of lshw. *)
Definition iface (name mac type : string) : pyval :=
  PDict [("name", PStr name); ("mac_address", PStr mac); ("type", PStr type)]%string.

Definition sample_machine : pydict :=
  [("interface_set",
    PList [iface "eth0" "B8:3F:D2:AA:10:00" "physical";
           iface "eth1" "b8:3f:d2:aa:10:01" "physical";
           iface "bond0" "b8:3f:d2:aa:10:00" "bond";
           iface "eno1" "08:c0:eb:12:34:56" "physical"])]%string.

Definition network_node (mac product vendor : string) : Xml.element :=
  Xml.Element "node" [("id", "network"); ("class", "network")]%string None
    [DimmExamples.leaf "serial" mac; DimmExamples.leaf "product" product;
     DimmExamples.leaf "vendor" vendor].

Definition sample_lshw : Xml.element :=
  Xml.Element "node" [("id", "core"); ("class", "bus")]%string None
    [network_node "b8:3f:d2:aa:10:00" "MT28908 Family [ConnectX-6]" "Mellanox";
     network_node "B8:3F:D2:AA:10:01" "MT28908 Family [ConnectX-6]" "Mellanox"].

End NicSources.

(** ** The legacy block-device list *)

Module StorageSources.

(** One entry of the list of [extract_block_devices]. *)
Record block_device := {
  name : pyval;
  model : pyval;
  serial : pyval;
  size_gb : Num.number;
  firmware : pyval;
  numa_node : pyval;
  block_size : pyval;
}.

Definition block_device_record (bd : pydict) : result block_device :=
  size ← Storage.size_in_gb (Py.get_or bd "size" (PInt 0));
  Ok {| name := Py.get_or bd "name" (PStr "?");
        model := Py.get_or bd "model" (PStr EmptyString);
        serial := Py.get_or bd "serial" (PStr EmptyString);
        size_gb := size;
        firmware := Py.get_or bd "firmware_version" (PStr EmptyString);
        numa_node := Py.get_or bd "numa_node" (PInt (-1));
        block_size := Py.get_or bd "block_size" (PInt 0) |}.

Definition extract_block_devices (machine : pydict) : result (list block_device) :=
  bds ← Storage.block_devices machine;
  for_each (fun bd devs =>
    match bd with
    | PDict bd => d ← block_device_record bd; Ok (devs ++ [d])
    | _ => Raise AttributeError
    end) bds [].

(** An entry of the legacy list and the entry of the storage list for
    the same block device. *)
Definition same_disk (b : block_device) (d : Storage.device) : Prop :=
  name b = Storage.name d /\ model b = Storage.model d /\
  serial b = Storage.serial d /\ size_gb b = Storage.size_gb d /\
  firmware b = Storage.firmware d /\ numa_node b = Storage.numa_node d /\
  Storage.type d = PStr "block" /\ Storage.raid_member d = false.

(** The list [render_storage_table] is given when no PCI storage device
    is known: [storage_devices] if it has an entry, else
    [block_devices or []]. *)
Definition shown_count (storage_devices : list Storage.device)
    (block_devices : list block_device) : nat :=
  match storage_devices with
  | [] => length block_devices
  | _ => length storage_devices
  end.

End StorageSources.

(** ** PCI devices of the machine-resources document *)

Module Pci.

(** One entry of the lists of [extract_pci_devices]. *)
Record pci_device := {
  vendor : pyval;
  vendor_id : pyval;
  product : pyval;
  product_id : pyval;
  driver : pyval;
  numa_node : pyval;
  pci_address : pyval;
}.

(** [result = {"network": [], "storage": []}] *)
Record pci_devices := {
  network : list pci_device;
  storage : list pci_device;
}.

Definition no_devices : pci_devices := {| network := []; storage := [] |}.

(** [dict(dev) if isinstance(dev, dict) else {}] *)
Definition as_dict (dev : pyval) : pydict :=
  match dev with
  | PDict d => d
  | _ => []
  end.

(** [s in (name, ...)] for a string [s] *)
Definition one_of (s : string) (names : list string) : bool :=
  existsb (String.eqb s) names.

(** [c in "0123456789abcdefABCDEF"] *)
Definition is_hex (c : ascii) : bool :=
  Text.is_digit c
  || let n := Text.code c in
     ((97 <=? n) && (n <=? 102) || (65 <=? n) && (n <=? 70))%nat.

Section Classes.
Context `{PyRepr}.

(** [str(v).lower()] *)
Definition lowered (v : pyval) : string := Text.lower (Py.str v).

(** The first test of Strategy 2: class code, driver name or product
    keywords of a network device. *)
Definition looks_like_network (d : pydict) : bool :=
  let pci_class :=
    lowered (Py.get_or d "class" (Py.get_or d "pci_class"
               (Py.get_or d "class_id" (PStr EmptyString)))) in
  let driver := lowered (Py.get_or d "driver" (PStr EmptyString)) in
  let product :=
    lowered (Py.get_or d "product" (Py.get_or d "device" (PStr EmptyString))) in
  Text.contains "network" pci_class || Text.contains "ethernet" pci_class
  || Text.startswith "02" pci_class
  || one_of driver ["mlx5_core"; "i40e"; "ice"; "bnxt_en"; "igb"; "ixgbe"; "e1000"]%string
  || Text.contains "ethernet" product || Text.contains "connectx" product
  || Text.contains "network" product.

(** The second test of Strategy 2. *)
Definition looks_like_storage (d : pydict) : bool :=
  let pci_class :=
    lowered (Py.get_or d "class" (Py.get_or d "pci_class"
               (Py.get_or d "class_id" (PStr EmptyString)))) in
  let driver := lowered (Py.get_or d "driver" (PStr EmptyString)) in
  let product :=
    lowered (Py.get_or d "product" (Py.get_or d "device" (PStr EmptyString))) in
  Text.contains "storage" pci_class || Text.contains "mass" pci_class
  || Text.contains "raid" pci_class || Text.contains "nvme" pci_class
  || Text.contains "sata" pci_class || Text.contains "sas" pci_class
  || Text.startswith "01" pci_class
  || one_of driver ["nvme"; "megaraid_sas"; "mpt3sas"; "ahci"]%string
  || Text.contains "nvme" product || Text.contains "raid" product
  || Text.contains "sas" product || Text.contains "ssd" product.

(** Strategy 1: the items of a categorized array. *)
Definition categorized (category : string) (devs : list pyval) : list pydict :=
  (fun dev => Py.set (as_dict dev) "_category" (PStr category)) <$> devs.

(** Strategy 2: the body of the loop over the flat [pci] array; [None]
    is the [continue]. *)
Definition classify_flat (dev : pyval) : option pydict :=
  let d := as_dict dev in
  if Py.truthy (Py.get d "_category") then None
  else Some (if looks_like_network d then Py.set d "_category" (PStr "network")
             else if looks_like_storage d then Py.set d "_category" (PStr "storage")
             else d).

(** Strategy 3: the body of the loop over [resources.pci]. *)
Definition classify_nested (dev : pyval) : pydict :=
  let d := as_dict dev in
  if negb (Py.truthy (Py.get d "_category")) then
    let pci_class :=
      lowered (Py.get_or d "class" (Py.get_or d "class_id" (PStr EmptyString))) in
    let driver := lowered (Py.get_or d "driver" (PStr EmptyString)) in
    if Text.startswith "02" pci_class
       || one_of driver ["mlx5_core"; "i40e"; "ice"; "bnxt_en"]%string
    then Py.set d "_category" (PStr "network")
    else if Text.startswith "01" pci_class
            || one_of driver ["nvme"; "megaraid_sas"; "mpt3sas"]%string
    then Py.set d "_category" (PStr "storage")
    else d
  else d.

(** [all_pci] after the three strategies. *)
Definition all_pci (machine_resources : pydict) : result (list pydict) :=
  network ← Py.iter (Py.get_or machine_resources "network" (PList []));
  storage ← Py.iter (Py.get_or machine_resources "storage" (PList []));
  pci ← Py.iter (Py.get_or machine_resources "pci" (PList []));
  nested ←
    match Py.get_or machine_resources "resources" (PDict []) with
    | PDict res => Py.iter (Py.get_or res "pci" (PList []))
    | _ => Ok []
    end;
  Ok (categorized "network" network ++ categorized "storage" storage
      ++ omap classify_flat pci ++ (classify_nested <$> nested)).

(** [str(entry[id_field]).strip()] is a full name instead of an id:
    longer than six characters and not all hexadecimal. *)
Definition is_name (v : pyval) : bool :=
  let val := Text.strip (Py.str v) in
  (6 <? String.length val)%nat && negb (forallb is_hex (list_ascii_of_string val)).

Definition clean_id (v : pyval) : pyval :=
  if is_name v then PStr EmptyString else v.

(** The entry built for a device, with its ids cleaned. *)
Definition entry_of (dev : pydict) : pci_device :=
  {| vendor := Py.get_or dev "vendor" (Py.get_or dev "vendor_name"
                 (Py.get_or dev "subvendor" (PStr EmptyString)));
     vendor_id := clean_id (Py.get_or dev "vendor_id" (PStr EmptyString));
     product := Py.get_or dev "product" (Py.get_or dev "product_name"
                  (Py.get_or dev "device" (PStr EmptyString)));
     product_id := clean_id (Py.get_or dev "product_id"
                               (Py.get_or dev "device_id" (PStr EmptyString)));
     driver := Py.get_or dev "driver" (Py.get_or dev "driver_name"
                 (Py.get_or dev "module" (PStr EmptyString)));
     numa_node := Py.get_or dev "numa_node" (Py.get_or dev "numa" (PInt (-1)));
     pci_address := Py.get_or dev "pci_address" (Py.get_or dev "address"
                      (Py.get_or dev "bus_address"
                         (Py.get_or dev "id" (PStr EmptyString)))) |}.

(** The body of the last loop. *)
Definition file_device (dev : pydict) (result : pci_devices) : pci_devices :=
  let cat := Py.get dev "_category" in
  if Py.eq_str cat "network"
  then {| network := network result ++ [entry_of dev]; storage := storage result |}
  else if Py.eq_str cat "storage"
  then {| network := network result; storage := storage result ++ [entry_of dev] |}
  else result.

Definition extract_pci_devices (machine_resources : option pydict)
  : result pci_devices :=
  match machine_resources with
  | Some ((_ :: _) as machine_resources) =>
      all ← all_pci machine_resources;
      Ok (foldl (fun result dev => file_device dev result) no_devices all)
  | _ => Ok no_devices
  end.

(** An id field as the lists hold it: empty, or short, or hexadecimal. *)
Definition id_like (v : pyval) : Prop :=
  v = PStr EmptyString \/
  let val := Text.strip (Py.str v) in
  (String.length val <= 6)%nat \/
  Forall (fun c => is_hex c = true) (list_ascii_of_string val).

End Classes.

(** The entry of a device of which nothing is known. *)
Definition blank : pci_device :=
  {| vendor := PStr EmptyString; vendor_id := PStr EmptyString;
     product := PStr EmptyString; product_id := PStr EmptyString;
     driver := PStr EmptyString; numa_node := PInt (-1);
     pci_address := PStr EmptyString |}.

(** What the storage table of the report is rendered from: the PCI
    storage devices if there is one, else the storage list if it has an
    entry, else the legacy block-device list. *)
Inductive storage_table :=
| FromPci (devices : list pci_device)
| FromStorage (devices : list Storage.device)
| FromBlockDevices (devices : list StorageSources.block_device).

Definition storage_table_of (pci : pci_devices) (storage_devices : list Storage.device)
    (block_devices : list StorageSources.block_device) : storage_table :=
  match storage pci, storage_devices with
  | _ :: _, _ => FromPci (storage pci)
  | [], _ :: _ => FromStorage storage_devices
  | [], [] => FromBlockDevices block_devices
  end.

(** Sample: the machine-resources document that [Storage.machine_resources]
    is, with a flat PCI array beside the disks. *)
Definition sample : pydict :=
  [("pci",
    PList [PDict [("class", PStr "0200"); ("driver", PStr "mlx5_core");
                  ("vendor_id", PStr "15b3"); ("product", PStr "ConnectX-6 NVMe-oF")];
           PDict [("class", PStr "0108"); ("driver", PStr "nvme");
                  ("vendor_id", PStr "Samsung Electronics Co Ltd")];
           PDict [("class", PStr "0300"); ("driver", PStr "nvidia")]])]%string.

End Pci.

(** ** DIMM speeds from dmidecode *)

Module Dmidecode.

(** [text.split("\n")] *)
Fixpoint split_lines (text : string) : list string :=
  match text with
  | EmptyString => [EmptyString]
  | String c rest =>
      if Ascii.eqb c "010"%char then EmptyString :: split_lines rest
      else
        match split_lines rest with
        | line :: lines => String c line :: lines
        | [] => [String c EmptyString]
        end
  end.

(** [s.split(":", 1)[1]]: what follows the first colon; [None] where
    there is no colon and the index is out of range. *)
Fixpoint after_colon (s : string) : option string :=
  match s with
  | EmptyString => None
  | String c rest => if Ascii.eqb c ":"%char then Some rest else after_colon rest
  end.

(** [val.split()[0]]: the first run of characters that are not blank;
    [None] where there is none. *)
Definition first_token (val : string) : option (list ascii) :=
  match Text.span (fun c => negb (Text.is_space c))
          (list_ascii_of_string (Text.lstrip val)) with
  | ([], _) => None
  | (token, _) => Some token
  end.

(** [int("".join(c for c in token if c.isdigit()))]; [None] where [int]
    raises: no digit is left, or more than it converts. *)
Definition digits_number (token : list ascii) : option Z :=
  match List.filter Text.is_digit token with
  | [] => None
  | ds =>
      match Py.int_of_digits ds with
      | Ok num => Some num
      | Raise _ => None
      end
  end.

(** The [try] block of the two speed fields: the new value of
    [current_speed]. *)
Definition read_speed (val : string) (current_speed : Z) : Z :=
  match first_token val with
  | Some token =>
      match digits_number token with
      | Some num => if 0 <? num then num else current_speed
      | None => current_speed
      end
  | None => current_speed
  end.

Record state := {
  speeds : pydict;
  current_slot : string;
  current_speed : Z;
  in_memory_device : bool;
}.

Definition start : state :=
  {| speeds := []; current_slot := EmptyString; current_speed := 0;
     in_memory_device := false |}.

(** [if current_slot and current_speed: speeds[current_slot] = current_speed] *)
Definition flush (st : state) : pydict :=
  if negb (String.eqb (current_slot st) EmptyString) && negb (current_speed st =? 0)
  then Py.set (speeds st) (current_slot st) (PInt (current_speed st))
  else speeds st.

(** [stripped.split(":", 1)[1].strip()] on a line that starts with a
    field name and its colon. *)
Definition field_value (stripped : string) : string :=
  Text.strip (default EmptyString (after_colon stripped)).

(** The body of the loop over the lines. *)
Definition step (st : state) (line : string) : state :=
  let stripped := Text.strip line in
  if Text.contains "Memory Device" stripped && negb (Text.contains "Mapped" stripped)
  then {| speeds := speeds st; current_slot := EmptyString; current_speed := 0;
          in_memory_device := true |}
  else if in_memory_device st
          && (Text.startswith "Handle " stripped
              || String.eqb stripped EmptyString
                 && negb (String.eqb (current_slot st) EmptyString))
  then {| speeds := flush st; current_slot := current_slot st;
          current_speed := current_speed st;
          in_memory_device :=
            if Text.startswith "Handle " stripped then false
            else in_memory_device st |}
  else if negb (in_memory_device st) then st
  else if Text.startswith "Locator:" stripped
  then {| speeds := speeds st; current_slot := field_value stripped;
          current_speed := current_speed st;
          in_memory_device := in_memory_device st |}
  else if Text.startswith "Configured Memory Speed:" stripped
          || Text.startswith "Configured Clock Speed:" stripped
  then {| speeds := speeds st; current_slot := current_slot st;
          current_speed := read_speed (field_value stripped) (current_speed st);
          in_memory_device := in_memory_device st |}
  else if Text.startswith "Speed:" stripped && (current_speed st =? 0)
  then {| speeds := speeds st; current_slot := current_slot st;
          current_speed := read_speed (field_value stripped) (current_speed st);
          in_memory_device := in_memory_device st |}
  else st.

Definition parse_dmidecode_dimm_speeds (dmidecode_text : option string) : pydict :=
  match dmidecode_text with
  | None | Some EmptyString => []
  | Some text => flush (foldl step start (split_lines text))
  end.

(** *** Merging the speeds into the DIMM list *)

(** [dimm["clock_mhz"] = speed] *)
Definition with_clock (d : dimm) (speed : pyval) : dimm :=
  {| slot := slot d; description := description d; size_gb := size_gb d;
     vendor := vendor d; product := product d; serial := serial d;
     clock_mhz := speed; width_bits := width_bits d |}.

(** [slot in dmi_slot or dmi_slot in slot] *)
Definition partial_match (slot dmi_slot : string) : bool :=
  Text.contains slot dmi_slot || Text.contains dmi_slot slot.

(** The body of the loop over the DIMMs. *)
Definition enrich_dimm (dmidecode_speeds : pydict) (d : dimm) : result dimm :=
  match slot d with
  | PStr s =>
      match Py.lookup_key s dmidecode_speeds with
      | Some speed => Ok (with_clock d speed)
      | None =>
          if String.eqb s EmptyString then Ok d
          else
            match List.find (fun kv => partial_match s kv.1) dmidecode_speeds with
            | Some kv => Ok (with_clock d kv.2)
            | None => Ok d
            end
      end
  | PList _ | PDict _ => Raise TypeError
  | v =>
      (* no key of the table is equal to a value that is no string;
         [v in dmi_slot] is refused for such a value *)
      if Py.truthy v
      then match dmidecode_speeds with
           | [] => Ok d
           | _ => Raise TypeError
           end
      else Ok d
  end.

Definition enrich_dimm_speeds (dimms : list dimm) (dmidecode_speeds : pydict)
  : result (list dimm) :=
  match dmidecode_speeds with
  | [] => Ok dimms
  | _ => map_each (enrich_dimm dmidecode_speeds) dimms
  end.

(** Two entries that differ at most in their speed. *)
Definition same_module (d d' : dimm) : Prop :=
  slot d' = slot d /\ description d' = description d /\ size_gb d' = size_gb d /\
  vendor d' = vendor d /\ product d' = product d /\ serial d' = serial d /\
  width_bits d' = width_bits d.

(** A table of speeds as the parser builds it: slot names that are not
    empty, none twice, each with a positive speed. *)
Definition speed_table (speeds : pydict) : Prop :=
  NoDup speeds.*1 /\
  Forall (fun kv => kv.1 <> EmptyString /\ Text.strip kv.1 = kv.1 /\
                    exists n, kv.2 = PInt n /\ 0 < n) speeds.

(** What the loop over the lines keeps true of its state. *)
Definition steady (st : state) : Prop :=
  speed_table (speeds st) /\ 0 <= current_speed st /\
  Text.strip (current_slot st) = current_slot st.

(** Sample output of dmidecode, line by line. *)
Definition newline : string := String "010"%char EmptyString.

Definition sample : string :=
  Text.join newline
    ["Handle 0x0020, DMI type 17, 92 bytes";
     "Memory Device";
     "    Locator: DIMM_A1";
     "    Speed: 5600 MT/s";
     "    Configured Memory Speed: 4800 MT/s";
     EmptyString;
     "Handle 0x0021, DMI type 17, 92 bytes";
     "Memory Device";
     "    Locator: DIMM_A2";
     "    Speed: Unknown";
     "    Configured Memory Speed: Unknown";
     EmptyString]%string.

End Dmidecode.

(** ** The test matrix of the stress stage *)

Module Matrix.

(** What a block ends in where an index can be out of range: the
    exceptions of the embedding, and [IndexError]. *)
Inductive outcome (A : Type) :=
| Done (a : A)
| Failed (e : exn)
| IndexError.
Arguments Done {A} a.
Arguments Failed {A} e.
Arguments IndexError {A}.

#[global] Instance outcome_ret : MRet outcome := fun A a => Done a.
#[global] Instance outcome_bind : MBind outcome := fun A B f m =>
  match m with
  | Done a => f a
  | Failed e => Failed e
  | IndexError => IndexError
  end.

Definition lift {A : Type} (r : result A) : outcome A :=
  match r with
  | Ok a => Done a
  | Raise e => Failed e
  end.

(** [for x in xs: acc = body(x, acc)] *)
Fixpoint each {A S : Type} (body : A -> S -> outcome S) (xs : list A) (acc : S)
  : outcome S :=
  match xs with
  | [] => Done acc
  | x :: rest => acc' ← body x acc; each body rest acc'
  end.

(** [l[i]] for an index that is not negative *)
Definition get_item {A : Type} (l : list A) (i : nat) : outcome A :=
  match l !! i with
  | Some x => Done x
  | None => IndexError
  end.

(** [l[i] = x]: a negative index counts from the end. *)
Definition set_item {A : Type} (l : list A) (i : Z) (x : A) : outcome (list A) :=
  let n := Z.of_nat (length l) in
  if (0 <=? i) && (i <? n) then Done (<[Z.to_nat i := x]> l)
  else if (- n <=? i) && (i <? 0) then Done (<[Z.to_nat (n + i) := x]> l)
  else IndexError.

(** The double quote of the markup. *)
Definition q : string := String "034"%char EmptyString.

Definition newline : string := String "010"%char EmptyString.

(** [''.join(parts)] *)
Definition concat (parts : list string) : string := Text.join EmptyString parts.

(** [html.escape(s)] for a string; other values have no [replace]. *)
Definition escape_char (c : ascii) : string :=
  if Ascii.eqb c "&"%char then "&amp;"
  else if Ascii.eqb c "<"%char then "&lt;"
  else if Ascii.eqb c ">"%char then "&gt;"
  else if Ascii.eqb c "034"%char then "&quot;"
  else if Ascii.eqb c "'"%char then "&#x27;"
  else String c EmptyString.

Definition escape (v : pyval) : result string :=
  match v with
  | PStr s => Ok (concat (escape_char <$> list_ascii_of_string s))
  | _ => Raise AttributeError
  end.

(** [<td><span class="cls">content</span></td>] *)
Definition cell (cls content : string) : string :=
  "<td><span class=" +:+ q +:+ cls +:+ q +:+ ">" +:+ content +:+ "</span></td>".

Definition unknown_cell : string := cell "dot-skip" "?".

(** The cell for a status, lowered. *)
Definition cell_of (st : string) : string :=
  if Text.contains "pass" st then cell "dot-pass" "&#10003;"
  else if Text.contains "fail" st then cell "dot-fail" "&#10007;"
  else if Text.contains "warn" st then cell "dot-warn" "!"
  else if Text.contains "skip" st then cell "dot-skip" "&mdash;"
  else unknown_cell.

(** [r.get("status", dflt).lower()] *)
Definition status (dflt : string) (r : pyval) : result string :=
  s ← Py.getattr_get r "status" (PStr dflt);
  Py.lower s.

Section Rows.
Context `{PyRepr}.

(** [_build_gpu_id_map(per_gpu, n_gpus, remap_skipped)] for the value
    that [t.get("results", [])] is: Pass 1 visits the entries in their
    order, and the first that is no object or that it cannot resolve
    ends the call. *)
Definition build_map_of (per_gpu : pyval) (n_gpus : Z) (remap_skipped : gset Z)
  : result (list (option Z)) :=
  entries ← Py.iter per_gpu;
  rs ← map_each (fun e =>
          match e with
          | PDict r => _ ← _resolve_gpu_id r; Ok r
          | _ => Raise AttributeError
          end) entries;
  _build_gpu_id_map rs n_gpus remap_skipped.

(** The body of the loop over the entries of a test. *)
Definition place (n_gpus : Z) (gpu_map : list (option Z)) (item : nat * pyval)
    (cells_by_gpu : list string) : outcome (list string) :=
  gpu_id ← get_item gpu_map item.1;
  match gpu_id with
  | None => Failed TypeError
  | Some gpu_id =>
      if n_gpus <=? gpu_id then Done cells_by_gpu
      else
        st ← lift (status "?" item.2);
        set_item cells_by_gpu gpu_id (cell_of st)
  end.

(** The cells of a test, indexed by GPU id. *)
Definition row_cells (n_gpus : Z) (gpu_map : list (option Z)) (entries : list pyval)
  : outcome (list string) :=
  each (place n_gpus gpu_map) (enumerate entries)
    (replicate (Z.to_nat n_gpus) unknown_cell).

(** The body of the loop over the tests: the row appended to [rows]. *)
Definition row (n_gpus : Z) (remap_skipped : gset Z) (t : pyval) : outcome string :=
  name ← lift (Py.getattr_get t "test" (PStr "?"));
  per_gpu ← lift (Py.getattr_get t "results" (PList []));
  gpu_map ← lift (build_map_of per_gpu n_gpus remap_skipped);
  entries ← lift (Py.iter per_gpu);
  cells_by_gpu ← row_cells n_gpus gpu_map entries;
  escaped ← lift (escape name);
  Done ("<tr><td class=" +:+ q +:+ "test-name" +:+ q +:+ ">" +:+ escaped +:+ "</td>"
        +:+ concat cells_by_gpu +:+ "</tr>").

(** [sum(1 for t in results for r in t.get("results", [])
         if word in r.get("status", '').lower())] *)
Definition count_status (word : string) (tests : list pyval) : result Z :=
  for_each (fun t total =>
    per_gpu ← Py.getattr_get t "results" (PList []);
    entries ← Py.iter per_gpu;
    for_each (fun r total =>
      st ← status EmptyString r;
      Ok (if Text.contains word st then total + 1 else total)) entries total)
    tests 0.

(** [<span class="cls">n what</span>], if [n] is not 0 *)
Definition summary_part (cls what : string) (n : Z) : list string :=
  if n =? 0 then []
  else ["<span class=" +:+ q +:+ cls +:+ q +:+ ">" +:+ pretty n +:+ " " +:+ what
        +:+ "</span>"].

Definition render_test_matrix (diag : pydict) (n_gpus : Z) : outcome string :=
  let results := Py.get_or diag "test_results" (PList []) in
  if negb (Py.truthy results) then Done EmptyString
  else
    remap_skipped ← lift (_find_remap_skipped_gpus diag n_gpus);
    let gpu_headers :=
      concat ((fun i => "<th>" +:+ pretty i +:+ "</th>") <$> py_range n_gpus) in
    tests ← lift (Py.iter results);
    rows ← each (fun t rows => r ← row n_gpus remap_skipped t; Done (rows +:+ r))
             tests EmptyString;
    total_pass ← lift (count_status "pass" tests);
    total_fail ← lift (count_status "fail" tests);
    total_skip ← lift (count_status "skip" tests);
    total_warn ← lift (count_status "warn" tests);
    let summary_parts :=
      summary_part "st-pass" "passed" total_pass
      ++ summary_part "st-fail" "failed" total_fail
      ++ summary_part "st-warn" "warnings" total_warn
      ++ summary_part "st-skip" "skipped" total_skip in
    let summary :=
      "<div class=" +:+ q +:+ "matrix-summary" +:+ q +:+ ">"
      +:+ Text.join " &middot; " summary_parts +:+ "</div>" in
    Done (newline +:+ "    " +:+ summary +:+ newline
          +:+ "    <table class=" +:+ q +:+ "tbl matrix" +:+ q +:+ ">" +:+ newline
          +:+ "        <thead><tr><th>Test</th>" +:+ gpu_headers +:+ "</tr></thead>"
          +:+ newline
          +:+ "        <tbody>" +:+ rows +:+ "</tbody>" +:+ newline
          +:+ "    </table>").

(** A diagnostic payload of the expected shape: tests are objects with
    a name that is a string and a list of entries; entries are objects
    whose status is a string and that the passes can read (no infinite
    float as gpu_id, no more than 4300 digits in a row in the info
    text). *)
Definition typed_entry (e : pyval) : Prop :=
  exists r,
    e = PDict r /\ readable r /\
    forall dflt, exists s, Py.get_or r "status" (PStr dflt) = PStr s.

Definition typed_test (t : pyval) : Prop :=
  exists d name entries,
    t = PDict d /\
    Py.get_or d "test" (PStr "?") = PStr name /\
    Py.get_or d "results" (PList []) = PList entries /\
    Forall typed_entry entries.

Definition typed_diag (diag : pydict) : Prop :=
  exists tests,
    Py.get_or diag "test_results" (PList []) = PList tests /\
    Forall typed_test tests.

(** The entries that the mapping sends to the column [g], with their
    positions. *)
Definition sent_to (gpu_map : list (option Z)) (g : Z) (entries : list pyval)
  : list (nat * pyval) :=
  List.filter (fun item => bool_decide (gpu_map !! item.1 = Some (Some g)))
    (enumerate entries).

(** What is shown in a column: the status of the last entry sent to
    it, and a question mark if there is none. *)
Definition shown (gpu_map : list (option Z)) (g : Z) (entries : list pyval)
    (c : string) : Prop :=
  match last (sent_to gpu_map g entries) with
  | Some item => exists st, status "?" item.2 = Ok st /\ c = cell_of st
  | None => c = unknown_cell
  end.

End Rows.

End Matrix.

(** ** Texts around a speed *)

(** No three digits in a row in [l], after [run] digits, and no digit at
    its end: no part of such a text is a speed for the pattern
    [(\d{3,5})\s*MHz]. *)
Fixpoint short_digit_runs (run : nat) (l : list ascii) : bool :=
  match l with
  | [] => (run =? 0)%nat
  | c :: rest =>
      if Text.is_digit c then (run <? 2)%nat && short_digit_runs (S run) rest
      else short_digit_runs 0 rest
  end.

(** * Properties *)

(** ** Loops, lists and dictionaries *)

Lemma filter_elem_of {A : Type} (p : A -> bool) (l : list A) (x : A) :
  x ∈ List.filter p l <-> x ∈ l /\ p x = true.
Proof.
  rewrite !list_elem_of_In. apply filter_In.
Qed.

Lemma filter_NoDup {A : Type} (p : A -> bool) (l : list A) :
  NoDup l -> NoDup (List.filter p l).
Proof.
  induction 1 as [|x l Hx Hl IH]; simpl; [constructor|].
  destruct (p x); [|assumption].
  constructor; [|assumption].
  rewrite filter_elem_of. tauto.
Qed.

Lemma NoDup_only_one {A : Type} (l : list A) (a : A) :
  NoDup l -> (forall x, x ∈ l <-> x = a) -> l = [a].
Proof.
  intros Hnd Hl.
  assert (Hp : l ≡ₚ [a]).
  { apply NoDup_Permutation; [assumption|apply NoDup_singleton|].
    intros x. rewrite Hl, list_elem_of_singleton. reflexivity. }
  apply Permutation_singleton_r in Hp. assumption.
Qed.

Lemma NoDup_nobody {A : Type} (l : list A) : (forall x, x ∉ l) -> l = [].
Proof.
  destruct l as [|a l]; [reflexivity|].
  intros Hl. exfalso. apply (Hl a). left.
Qed.

Lemma for_each_invariant {A S : Type} (P : S -> Prop)
    (body : A -> S -> result S) (xs : list A) (acc out : S) :
  P acc ->
  (forall x a a', x ∈ xs -> P a -> body x a = Ok a' -> P a') ->
  for_each body xs acc = Ok out -> P out.
Proof.
  revert acc. induction xs as [|x xs IH]; intros acc Hacc Hbody; simpl.
  { intros [= <-]. exact Hacc. }
  destruct (body x acc) as [acc'|e] eqn:Hx; simpl; [|discriminate].
  apply IH.
  - apply (Hbody x acc acc'); [left|exact Hacc|exact Hx].
  - intros y a a' Hy. apply Hbody. right. exact Hy.
Qed.

Lemma omap_id_Some {A : Type} (l : list A) : omap id (Some <$> l) = l.
Proof.
  induction l as [|x l IH]; [reflexivity|].
  rewrite fmap_cons. cbn [omap list_omap id]. f_equal. exact IH.
Qed.

Lemma map_each_Forall2 {A B : Type} (f : A -> result B) (xs : list A) (ys : list B) :
  map_each f xs = Ok ys <-> Forall2 (fun x y => f x = Ok y) xs ys.
Proof.
  revert ys. induction xs as [|x xs IH]; intros ys; simpl.
  - split; [intros [= <-]; constructor|intros Hys; inversion Hys; reflexivity].
  - split.
    + destruct (f x) as [y|e] eqn:Hx; simpl; [|discriminate].
      destruct (map_each f xs) as [ys'|e] eqn:Hxs; simpl; [|discriminate].
      intros [= <-]. constructor; [exact Hx|]. apply IH. reflexivity.
    + intros Hys. inversion Hys as [|x' y xs' ys' Hx Hxs]; subst.
      rewrite Hx. simpl. apply IH in Hxs. rewrite Hxs. reflexivity.
Qed.

Lemma map_each_pure {A B : Type} (f : A -> result B) (g : A -> B) (xs : list A) :
  Forall (fun x => f x = Ok (g x)) xs -> map_each f xs = Ok (g <$> xs).
Proof.
  intros Hxs. apply map_each_Forall2, Forall2_fmap_r, Forall_Forall2_diag.
  exact Hxs.
Qed.

Lemma map_each_total {A B : Type} (f : A -> result B) (xs : list A) :
  Forall (fun x => exists y, f x = Ok y) xs -> exists ys, map_each f xs = Ok ys.
Proof.
  induction 1 as [|x xs [y Hx] _ [ys IH]]; [exists []; reflexivity|].
  exists (y :: ys). simpl. rewrite Hx, IH. reflexivity.
Qed.

Lemma map_each_elem_of {A B : Type} (f : A -> result B) (xs : list A) (ys : list B)
    (x : A) :
  map_each f xs = Ok ys -> x ∈ xs -> exists y, y ∈ ys /\ f x = Ok y.
Proof.
  rewrite map_each_Forall2. intros Hxs Hx.
  apply list_elem_of_lookup in Hx as [k Hk].
  destruct (Forall2_lookup_l _ _ _ _ _ Hxs Hk) as (y & Hy & Hf).
  exists y. split; [|exact Hf]. apply list_elem_of_lookup. eauto.
Qed.

Lemma filter_each_pure {A : Type} (p : A -> result bool) (q : A -> bool) (xs : list A) :
  Forall (fun x => p x = Ok (q x)) xs -> filter_each p xs = Ok (List.filter q xs).
Proof.
  induction 1 as [|x xs Hx _ IH]; [reflexivity|].
  simpl. rewrite Hx, IH. simpl. reflexivity.
Qed.

Lemma Forall_filter {A : Type} (P : A -> Prop) (q : A -> bool) (xs : list A) :
  Forall P xs -> Forall P (List.filter q xs).
Proof.
  rewrite !Forall_forall. intros Hxs x Hx. apply filter_elem_of in Hx as [Hx _].
  apply Hxs. exact Hx.
Qed.

Lemma lookup_key_set_eq (d : pydict) (k : string) (v : pyval) :
  Py.lookup_key k (Py.set d k v) = Some v.
Proof.
  induction d as [|[k' v'] d IH]; simpl.
  - rewrite decide_True by reflexivity. reflexivity.
  - destruct (decide (k = k')) as [->|Hne]; simpl.
    + rewrite decide_True by reflexivity. reflexivity.
    + rewrite decide_False by exact Hne. exact IH.
Qed.

Lemma lookup_key_set_ne (d : pydict) (k k' : string) (v : pyval) :
  k <> k' -> Py.lookup_key k' (Py.set d k v) = Py.lookup_key k' d.
Proof.
  intros Hne. induction d as [|[k0 v0] d IH]; simpl.
  - rewrite decide_False by congruence. reflexivity.
  - destruct (decide (k = k0)) as [->|Hne0]; simpl.
    + rewrite !decide_False by congruence. reflexivity.
    + destruct (decide (k' = k0)); [reflexivity|exact IH].
Qed.

Lemma loop_invariant {A S : Type} (P : S -> Prop) (body : A -> S -> attempt S)
    (xs : list A) (acc : S) :
  P acc ->
  (forall x a, x ∈ xs -> P a -> P (body x a).1) ->
  P (loop body xs acc).1.
Proof.
  revert acc. induction xs as [|x xs IH]; intros acc Hacc Hbody; simpl.
  { exact Hacc. }
  assert (Hx : P (body x acc).1) by (apply Hbody; [left|exact Hacc]).
  destruct (body x acc) as [acc' [e|]]; simpl in *; [exact Hx|].
  apply IH; [exact Hx|]. intros y a Hy. apply Hbody. right. exact Hy.
Qed.


Lemma existsb_false {A : Type} (f : A -> bool) (l : list A) :
  existsb f l = false <-> forall x, x ∈ l -> f x = false.
Proof.
  rewrite <- not_true_iff_false, existsb_exists. split.
  - intros Hno x Hx. apply not_true_iff_false. intros Hfx.
    apply Hno. exists x. split; [apply list_elem_of_In; exact Hx|exact Hfx].
  - intros Hall (x & Hx & Hfx). apply list_elem_of_In, Hall in Hx. congruence.
Qed.

Lemma for_each_reaches {A S : Type} (I : S -> Prop) (R : A -> S -> Prop)
    (body : A -> S -> result S) (xs : list A) (acc out : S) :
  I acc ->
  (forall x a a', x ∈ xs -> I a -> body x a = Ok a' -> I a' /\ R x a') ->
  (forall x y a a', I a -> R x a -> body y a = Ok a' -> R x a') ->
  for_each body xs acc = Ok out ->
  I out /\ forall x, x ∈ xs -> R x out.
Proof.
  intros Hacc Hstep Hmono. revert acc Hacc.
  induction xs as [|x xs IH]; intros acc Hacc; simpl.
  { intros [= <-]. split; [exact Hacc|]. intros x Hx. apply elem_of_nil in Hx as []. }
  destruct (body x acc) as [acc'|e] eqn:Hx; simpl; [|discriminate].
  intros Hout.
  destruct (Hstep x acc acc') as [Hacc' Hrx]; [left|exact Hacc|exact Hx|].
  assert (Hstep' : forall y a a', y ∈ xs -> I a -> body y a = Ok a' -> I a' /\ R y a').
  { intros y a a' Hy. apply Hstep. right. exact Hy. }
  destruct (IH Hstep' acc' Hacc' Hout) as [Hiout Hrest].
  split; [exact Hiout|]. intros y Hy.
  apply elem_of_cons in Hy as [->|Hy]; [|apply Hrest; exact Hy].
  apply (for_each_invariant (fun a => I a /\ R x a) body xs acc' out).
  - split; assumption.
  - intros y a a' Hy [Hia Hra] Hbody. split.
    + apply (Hstep' y a a' Hy Hia Hbody).
    + apply (Hmono x y a a' Hia Hra Hbody).
  - exact Hout.
Qed.

Lemma map_each_related {A B : Type} (f : A -> result B) (P : A -> B -> Prop)
    (xs : list A) :
  Forall (fun x => exists y, f x = Ok y /\ P x y) xs ->
  exists ys, map_each f xs = Ok ys /\ Forall2 P xs ys.
Proof.
  induction 1 as [|x xs (y & Hx & Hp) _ (ys & IH & Hall)].
  - exists []. split; [reflexivity|constructor].
  - exists (y :: ys). simpl. rewrite Hx, IH. split; [reflexivity|].
    constructor; assumption.
Qed.

(** ** GPU identity resolution *)

Lemma sorted_elem_of (s : gset Z) (x : Z) : x ∈ sorted s <-> x ∈ s.
Proof.
  unfold sorted. rewrite merge_sort_Permutation. apply elem_of_elements.
Qed.

Lemma sorted_length (s : gset Z) : length (sorted s) = size s.
Proof.
  unfold sorted. rewrite merge_sort_Permutation. reflexivity.
Qed.

Lemma sorted_singleton (x : Z) : sorted {[x]} = [x].
Proof.
  unfold sorted. rewrite elements_singleton. reflexivity.
Qed.

Lemma sorted_empty : sorted ∅ = [].
Proof.
  unfold sorted. rewrite elements_empty. reflexivity.
Qed.

Lemma py_range_elem_of (n g : Z) : g ∈ py_range n <-> 0 <= g < n.
Proof.
  unfold py_range. rewrite list_elem_of_fmap. split.
  - intros (i & -> & Hi). apply elem_of_seq in Hi. lia.
  - intros Hg. exists (Z.to_nat g). split; [lia|]. apply elem_of_seq. lia.
Qed.

(** ** Runs of digits in a text *)

Lemma span_eq (p : ascii -> bool) (s a b : list ascii) :
  Text.span p s = (a, b) -> s = a ++ b.
Proof.
  revert a b. induction s as [|c s IH]; intros a b; simpl.
  { intros [= <- <-]. reflexivity. }
  destruct (p c).
  - destruct (Text.span p s) as [a' b'] eqn:Hs. intros [= <- <-].
    simpl. f_equal. apply IH. reflexivity.
  - intros [= <- <-]. reflexivity.
Qed.

Lemma digit_runs_mono (n run run' : nat) (s : list ascii) :
  (run' <= run)%nat ->
  Text.digit_runs_at_most n run s = true -> Text.digit_runs_at_most n run' s = true.
Proof.
  revert run run'. induction s as [|c s IH]; intros run run' Hle; [reflexivity|].
  cbn [Text.digit_runs_at_most]. destruct (Text.is_digit c); [|intros Hs; exact Hs].
  intros Hs. apply andb_true_iff in Hs as [Hrun Hs]. apply Nat.leb_le in Hrun.
  apply andb_true_iff. split; [apply Nat.leb_le; lia|].
  apply (IH (S run) (S run')); [lia|exact Hs].
Qed.

Lemma digit_runs_suffix (n run : nat) (a b : list ascii) :
  Text.digit_runs_at_most n run (a ++ b) = true -> Text.digit_runs_at_most n 0 b = true.
Proof.
  revert run. induction a as [|c a IH]; intros run; simpl.
  { apply digit_runs_mono. lia. }
  destruct (Text.is_digit c); [|apply IH].
  intros Hs. apply andb_true_iff in Hs as [_ Hs]. apply (IH _ Hs).
Qed.

Lemma digit_runs_span (n run : nat) (s : list ascii) :
  (run <= n)%nat -> Text.digit_runs_at_most n run s = true ->
  (length (Text.span Text.is_digit s).1 + run <= n)%nat.
Proof.
  revert run. induction s as [|c s IH]; intros run Hrun; cbn [Text.digit_runs_at_most Text.span].
  { intros _. simpl. lia. }
  destruct (Text.is_digit c); [|intros _; simpl; lia].
  intros Hs. apply andb_true_iff in Hs as [Hle Hs]. apply Nat.leb_le in Hle.
  specialize (IH (S run) Hle Hs).
  destruct (Text.span Text.is_digit s) as [a b]. simpl in *. lia.
Qed.

(** ** The three passes of the resolver *)

Section GpuIdentityFacts.
Context `{PyRepr}.

Implicit Types (m mapping : list (option Z)) (idxs : list nat) (ids : list Z).

Lemma assign_all_length idxs ids m : length (assign_all idxs ids m) = length m.
Proof.
  unfold assign_all. generalize (zip idxs ids) as ps. intros ps. revert m.
  induction ps as [|[i g] ps IH]; intros m; simpl; [reflexivity|].
  rewrite IH, length_insert. reflexivity.
Qed.

Lemma assign_all_cons i idxs g ids m :
  assign_all (i :: idxs) (g :: ids) m = assign_all idxs ids (<[i := Some g]> m).
Proof. reflexivity. Qed.

Lemma assign_all_other idxs ids m (p : nat) :
  p ∉ idxs -> assign_all idxs ids m !! p = m !! p.
Proof.
  revert ids m. induction idxs as [|i idxs IH]; intros ids m Hp; [reflexivity|].
  destruct ids as [|g ids]; [reflexivity|].
  rewrite assign_all_cons. apply not_elem_of_cons in Hp as [Hne Hp].
  rewrite IH by assumption. apply list_lookup_insert_ne. congruence.
Qed.

Lemma assign_all_elem idxs ids m (p : nat) (v : option Z) :
  assign_all idxs ids m !! p = Some v ->
  m !! p = Some v \/ exists g, g ∈ ids /\ v = Some g.
Proof.
  revert ids m. induction idxs as [|i idxs IH]; intros ids m Hv; [left; exact Hv|].
  destruct ids as [|g ids]; [left; exact Hv|].
  rewrite assign_all_cons in Hv. apply IH in Hv as [Hv|(g' & Hg' & ->)].
  - apply list_lookup_insert_Some in Hv as [(-> & <- & _)|[_ Hv]].
    + right. exists g. split; [left|reflexivity].
    + left. exact Hv.
  - right. exists g'. split; [right; exact Hg'|reflexivity].
Qed.

Lemma assign_all_hit idxs ids m (p : nat) :
  p ∈ idxs -> (p < length m)%nat -> (length idxs <= length ids)%nat ->
  exists g, g ∈ ids /\ assign_all idxs ids m !! p = Some (Some g).
Proof.
  revert ids m. induction idxs as [|i idxs IH]; intros ids m Hp Hlt Hlen.
  { apply elem_of_nil in Hp as []. }
  destruct ids as [|g ids]; [simpl in Hlen; lia|].
  rewrite assign_all_cons. simpl in Hlen.
  destruct (decide (p ∈ idxs)) as [Hin|Hout].
  - destruct (IH ids (<[i := Some g]> m) Hin) as (g' & Hg' & Hl).
    + rewrite length_insert. exact Hlt.
    + lia.
    + exists g'. split; [right; exact Hg'|exact Hl].
  - apply elem_of_cons in Hp as [->|Hp]; [|contradiction].
    exists g. split; [left|].
    rewrite assign_all_other by assumption.
    apply list_lookup_insert_eq. exact Hlt.
Qed.

Lemma fallback_all_length n_gpus idxs m :
  length (fallback_all n_gpus idxs m) = length m.
Proof.
  unfold fallback_all. revert m.
  induction idxs as [|i idxs IH]; intros m; simpl; [reflexivity|].
  rewrite IH, length_insert. reflexivity.
Qed.

Lemma fallback_all_other n_gpus idxs m (p : nat) :
  p ∉ idxs -> fallback_all n_gpus idxs m !! p = m !! p.
Proof.
  unfold fallback_all. revert m.
  induction idxs as [|i idxs IH]; intros m Hp; simpl; [reflexivity|].
  apply not_elem_of_cons in Hp as [Hne Hp].
  rewrite IH by assumption. apply list_lookup_insert_ne. congruence.
Qed.

Lemma fallback_all_cons n_gpus i idxs m :
  fallback_all n_gpus (i :: idxs) m
  = fallback_all n_gpus idxs (<[i := Some (fallback_id i n_gpus)]> m).
Proof. reflexivity. Qed.

Lemma fallback_all_hit n_gpus idxs m (p : nat) :
  p ∈ idxs -> (p < length m)%nat ->
  fallback_all n_gpus idxs m !! p = Some (Some (fallback_id p n_gpus)).
Proof.
  revert m. induction idxs as [|i idxs IH]; intros m Hp Hlt.
  { apply elem_of_nil in Hp as []. }
  rewrite fallback_all_cons.
  destruct (decide (p ∈ idxs)) as [Hin|Hout].
  - apply IH; [assumption|].
    rewrite length_insert. exact Hlt.
  - apply elem_of_cons in Hp as [->|Hp]; [|contradiction].
    rewrite fallback_all_other by assumption.
    apply list_lookup_insert_eq. exact Hlt.
Qed.

Lemma unresolved_elem_of m (p : nat) : p ∈ unresolved m <-> m !! p = Some None.
Proof.
  unfold unresolved. rewrite filter_elem_of, elem_of_seq, bool_decide_eq_true.
  split; [tauto|]. intros Hp. split; [|exact Hp].
  apply lookup_lt_Some in Hp. lia.
Qed.

Lemma unresolved_NoDup m : NoDup (unresolved m).
Proof. apply filter_NoDup, NoDup_seq. Qed.

(** *** Pass 1 *)

Lemma int_of_digits_raises (ds : list ascii) (e : exn) :
  Py.int_of_digits ds = Raise e -> e = ValueError.
Proof.
  unfold Py.int_of_digits. destruct (_ <? _)%nat; [|discriminate].
  intros [= <-]. reflexivity.
Qed.

Lemma int_of_digits_short (ds : list ascii) :
  (length ds <= Py.max_str_digits)%nat ->
  Py.int_of_digits ds = Ok (Text.digits_value ds).
Proof.
  intros Hlen. unfold Py.int_of_digits.
  destruct (Nat.ltb_spec Py.max_str_digits (length ds)); [lia|reflexivity].
Qed.

Lemma int_of_digits_long (ds : list ascii) :
  (Py.max_str_digits < length ds)%nat -> Py.int_of_digits ds = Raise ValueError.
Proof.
  intros Hlen. unfold Py.int_of_digits.
  destruct (Nat.ltb_spec Py.max_str_digits (length ds)); [reflexivity|lia].
Qed.

Lemma int_of_string_raises (s : string) (e : exn) :
  Py.int_of_string s = Raise e -> e = ValueError.
Proof.
  unfold Py.int_of_string.
  match goal with
  | |- context [let '(_, _) := ?sign in _] => destruct sign as [negative body]
  end.
  destruct (Py.literal_digits body) as [ds|]; [|intros [= <-]; reflexivity].
  destruct (Py.int_of_digits ds) as [z|e'] eqn:Hds; cbn [mbind result_bind];
    [discriminate|].
  intros [= <-]. apply (int_of_digits_raises ds e' Hds).
Qed.

(** The digits that the pattern finds are a run of digits of the text. *)
Lemma match_gpu_here_run (n : nat) (s ds : list ascii) :
  Text.digit_runs_at_most n 0 s = true ->
  match_gpu_here s = Some ds -> (length ds <= n)%nat.
Proof.
  intros Hruns. unfold match_gpu_here.
  destruct s as [|c1 [|c2 [|c3 t]]]; try discriminate;
    try (destruct c1 as [[] [] [] [] [] [] [] []]; discriminate);
    try (destruct c1 as [[] [] [] [] [] [] [] []]; try discriminate;
         destruct c2 as [[] [] [] [] [] [] [] []]; discriminate).
  destruct (Text.span Text.is_space t) as [ws t1] eqn:Hws.
  destruct (Text.span Text.is_digit t1) as [ds' t2] eqn:Hds.
  intros Hm.
  assert (Hds' : ds' = ds).
  { destruct c1 as [[] [] [] [] [] [] [] []]; try discriminate Hm;
      destruct c2 as [[] [] [] [] [] [] [] []]; try discriminate Hm;
      destruct c3 as [[] [] [] [] [] [] [] []]; try discriminate Hm;
      destruct ws; try discriminate Hm; destruct ds'; try discriminate Hm;
      destruct t2; [|destruct (Text.is_word _); try discriminate Hm];
      injection Hm as <-; reflexivity. }
  subst ds'.
  assert (Ht1 : Text.digit_runs_at_most n 0 t1 = true).
  { apply (digit_runs_suffix n 0 ([c1; c2; c3] ++ ws)).
    rewrite <- app_assoc, <- (span_eq _ _ _ _ Hws). exact Hruns. }
  pose proof (digit_runs_span n 0 t1 ltac:(lia) Ht1) as Hlen.
  rewrite Hds in Hlen. simpl in Hlen. lia.
Qed.

Lemma search_gpu_run (n : nat) (s ds : list ascii) (after_word : bool) :
  Text.digit_runs_at_most n 0 s = true ->
  search_gpu after_word s = Some ds -> (length ds <= n)%nat.
Proof.
  revert after_word. induction s as [|c s IH]; intros after_word Hruns; [discriminate|].
  cbn [search_gpu].
  destruct (if after_word then None else match_gpu_here (c :: s)) as [ds'|] eqn:Hm.
  - intros [= <-]. destruct after_word; [discriminate|].
    apply (match_gpu_here_run n (c :: s) ds' Hruns Hm).
  - apply IH. apply (digit_runs_suffix n 0 [c] s Hruns).
Qed.

Lemma gpu_id_from_info_total (r : pydict) :
  Text.digit_runs_at_most Py.max_str_digits 0
    (list_ascii_of_string (info_to_str (Py.get_or r "info" (PStr EmptyString)))) = true ->
  exists gid, gpu_id_from_info r = Ok gid.
Proof.
  intros Hruns. unfold gpu_id_from_info.
  destruct (search_gpu false _) as [ds|] eqn:Hds; [|eauto].
  rewrite int_of_digits_short by (eapply search_gpu_run; eassumption).
  cbn [mbind result_bind]. eauto.
Qed.

(** The conversion outside the [try]: an entry without a gpu_id whose
    info text names a GPU by more than 4300 digits is not resolved, the
    conversion raises. *)
Lemma resolve_gpu_id_long_number (r : pydict) (ds : list ascii) :
  Py.get r "gpu_id" = PNone ->
  search_gpu false
    (list_ascii_of_string (info_to_str (Py.get_or r "info" (PStr EmptyString))))
  = Some ds ->
  (Py.max_str_digits < length ds)%nat ->
  _resolve_gpu_id r = Raise ValueError.
Proof.
  intros Hgid Hds Hlen. unfold _resolve_gpu_id, gpu_id_from_info.
  rewrite Hgid, Hds, int_of_digits_long by exact Hlen. reflexivity.
Qed.

Lemma resolve_gpu_id_total (r : pydict) :
  readable r -> exists gid, _resolve_gpu_id r = Ok gid.
Proof.
  intros (Hfin & _ & Hruns). unfold finite_gpu_id in Hfin. unfold _resolve_gpu_id.
  pose proof (gpu_id_from_info_total r Hruns) as Hinfo.
  destruct (Py.get r "gpu_id") as [|b|z|f|s|l|d]; simpl; eauto.
  - destruct f as [q|neg|]; simpl; [eauto|contradiction|eauto].
  - destruct (Py.int_of_string s) as [z|e] eqn:Hs; [eauto|].
    apply int_of_string_raises in Hs as ->. exact Hinfo.
Qed.

Lemma resolve_gpu_id_explicit (r : pydict) (g : Z) :
  Py.get r "gpu_id" = PInt g -> _resolve_gpu_id r = Ok (Some g).
Proof. unfold _resolve_gpu_id. intros ->. reflexivity. Qed.

Lemma pass1_loop (n_gpus : Z) (rs : list pydict) (gids : list (option Z))
    (done : list (option Z)) :
  Forall2 (fun r gid => _resolve_gpu_id r = Ok gid) rs gids ->
  for_each (fun '(idx, r) mapping =>
    gid ← _resolve_gpu_id r;
    Ok match accepted n_gpus gid with
       | Some g => <[idx := Some g]> mapping
       | None => mapping
       end)
    (zip (seq (length done) (length rs)) rs) (done ++ replicate (length rs) None)
  = Ok (done ++ (accepted n_gpus <$> gids)).
Proof.
  intros Hrs. revert done.
  induction Hrs as [|r gid rs gids Hr Hrs IH]; intros done; [reflexivity|].
  cbn [length seq zip zip_with for_each replicate fmap list_fmap].
  rewrite Hr. cbn [mbind result_bind].
  replace (match accepted n_gpus gid with
           | Some g => <[length done := Some g]> (done ++ None :: replicate (length rs) None)
           | None => done ++ None :: replicate (length rs) None
           end)
    with ((done ++ [accepted n_gpus gid]) ++ replicate (length rs) None).
  - specialize (IH (done ++ [accepted n_gpus gid])).
    rewrite length_app in IH. simpl in IH.
    replace (length done + 1)%nat with (S (length done)) in IH by lia.
    rewrite IH, <- app_assoc. reflexivity.
  - rewrite <- app_assoc. simpl.
    destruct (accepted n_gpus gid) as [g|]; [|reflexivity].
    rewrite insert_app_r_alt by lia.
    rewrite Nat.sub_diag. reflexivity.
Qed.

Lemma pass1_resolved (n_gpus : Z) (rs : list pydict) (gids : list (option Z)) :
  Forall2 (fun r gid => _resolve_gpu_id r = Ok gid) rs gids ->
  pass1 rs n_gpus = Ok (accepted n_gpus <$> gids).
Proof.
  intros Hrs. apply (pass1_loop n_gpus rs gids []). exact Hrs.
Qed.

Lemma resolve_all_total (rs : list pydict) :
  Forall readable rs ->
  exists gids, Forall2 (fun r gid => _resolve_gpu_id r = Ok gid) rs gids.
Proof.
  induction 1 as [|r rs Hr _ [gids IH]]; [exists []; constructor|].
  destruct (resolve_gpu_id_total r Hr) as [gid Hgid].
  exists (gid :: gids). constructor; assumption.
Qed.

Lemma accepted_in_range (n_gpus : Z) (gid : option Z) (g : Z) :
  accepted n_gpus gid = Some g -> gid = Some g /\ 0 <= g < n_gpus.
Proof.
  unfold accepted, in_range. destruct gid as [g'|]; [|discriminate].
  destruct (0 <=? g') eqn:H0; destruct (g' <? n_gpus) eqn:H1; simpl;
    intros [= <-]. split; [reflexivity|]. lia.
Qed.

(** *** Pass 2 *)

Lemma remap_indices_unresolved (rs : list pydict) m (p : nat) :
  p ∈ remap_indices rs m -> m !! p = Some None.
Proof.
  unfold remap_indices. rewrite list_elem_of_fmap.
  intros ([i r] & -> & Hir). apply filter_elem_of in Hir as [_ Hir].
  apply andb_true_iff in Hir as [Hir _].
  apply bool_decide_eq_true in Hir. exact Hir.
Qed.

Lemma pass2_length (rs : list pydict) (skipped : gset Z) m :
  length (pass2 rs skipped m) = length m.
Proof.
  unfold pass2. case_match; [apply assign_all_length|reflexivity].
Qed.

Lemma pass2_keeps (rs : list pydict) (skipped : gset Z) m (p : nat) (g : Z) :
  m !! p = Some (Some g) -> pass2 rs skipped m !! p = Some (Some g).
Proof.
  intros Hp. unfold pass2. case_match; [|exact Hp].
  rewrite assign_all_other; [exact Hp|].
  intros Hin. apply remap_indices_unresolved in Hin. congruence.
Qed.

Lemma pass2_elem (rs : list pydict) (skipped : gset Z) m (p : nat) (v : option Z) :
  pass2 rs skipped m !! p = Some v ->
  m !! p = Some v \/
  exists g, v = Some g /\ m !! p = Some None /\ g ∈ skipped /\ g ∉ assigned_ids m.
Proof.
  unfold pass2. case_match; [|left; assumption].
  intros Hv. destruct (decide (p ∈ remap_indices rs m)) as [Hin|Hout].
  - apply remap_indices_unresolved in Hin.
    apply assign_all_elem in Hv as [Hv|(g & Hg & ->)]; [left; exact Hv|].
    right. exists g. apply sorted_elem_of, elem_of_difference in Hg. tauto.
  - left. rewrite <- Hv. symmetry. apply assign_all_other. exact Hout.
Qed.

(** *** Pass 3 *)

Lemma pass3_length (n_gpus : Z) m : length (pass3 n_gpus m) = length m.
Proof.
  unfold pass3. case_match; [apply assign_all_length|apply fallback_all_length].
Qed.

Lemma pass3_keeps (n_gpus : Z) m (p : nat) (g : Z) :
  m !! p = Some (Some g) -> pass3 n_gpus m !! p = Some (Some g).
Proof.
  intros Hp.
  assert (Hout : p ∉ unresolved m).
  { rewrite unresolved_elem_of. congruence. }
  unfold pass3. case_match.
  - rewrite assign_all_other; assumption.
  - rewrite fallback_all_other; assumption.
Qed.

Lemma pass3_eliminates (n_gpus : Z) m (p : nat) :
  length (missing_ids n_gpus m) = length (unresolved m) ->
  m !! p = Some None ->
  exists g, pass3 n_gpus m !! p = Some (Some g)
            /\ 0 <= g < n_gpus /\ g ∉ assigned_ids m.
Proof.
  intros Hlen Hp. unfold pass3. rewrite bool_decide_eq_true_2 by exact Hlen.
  destruct (assign_all_hit (unresolved m) (missing_ids n_gpus m) m p)
    as (g & Hg & Hl).
  - apply unresolved_elem_of. exact Hp.
  - apply lookup_lt_Some in Hp. exact Hp.
  - lia.
  - exists g. split; [exact Hl|].
    apply sorted_elem_of, elem_of_difference in Hg as [Hg Hng].
    apply elem_of_list_to_set, py_range_elem_of in Hg. tauto.
Qed.

Lemma pass3_falls_back (n_gpus : Z) m (p : nat) :
  length (missing_ids n_gpus m) <> length (unresolved m) ->
  m !! p = Some None ->
  pass3 n_gpus m !! p = Some (Some (fallback_id p n_gpus)).
Proof.
  intros Hlen Hp. unfold pass3. rewrite bool_decide_eq_false_2 by exact Hlen.
  apply fallback_all_hit.
  - apply unresolved_elem_of. exact Hp.
  - apply lookup_lt_Some in Hp. exact Hp.
Qed.

Lemma fallback_id_in_range (p : nat) (n_gpus : Z) :
  1 <= n_gpus -> 0 <= fallback_id p n_gpus < n_gpus.
Proof.
  intros Hn. unfold fallback_id.
  destruct (Z.of_nat p <? n_gpus) eqn:Hp; lia.
Qed.

(** *** The remap-skipped set *)

Lemma find_remap_skipped_in_range (diag : pydict) (n_gpus : Z) (skipped : gset Z) :
  _find_remap_skipped_gpus diag n_gpus = Ok skipped ->
  forall g, g ∈ skipped -> 0 <= g < n_gpus.
Proof.
  unfold _find_remap_skipped_gpus.
  destruct (Py.iter (Py.get_or diag "test_results" (PList []))) as [tests|e];
    simpl; [|discriminate].
  apply (for_each_invariant (fun s : gset Z => forall g, g ∈ s -> 0 <= g < n_gpus)).
  - intros g Hg. apply elem_of_empty in Hg as [].
  - intros t s s' _ Hs.
    destruct (Py.getattr_get t "results" (PList [])) as [results|e];
      simpl; [|discriminate].
    destruct (Py.iter results) as [rs|e]; simpl; [|discriminate].
    match goal with
    | |- context [for_each ?b rs ?a] => destruct (for_each b rs a) as [[found has]|e]
    end; simpl; [|discriminate].
    intros [= <-] g. case_match; [|apply Hs].
    rewrite elem_of_union, elem_of_difference, elem_of_list_to_set, py_range_elem_of.
    intros [Hg|[Hg _]]; [apply Hs|]; assumption.
Qed.

(** *** The whole resolver *)

Lemma accepted_all_in_range (n_gpus : Z) (ids : list Z) :
  Forall (fun g => 0 <= g < n_gpus) ids ->
  accepted n_gpus <$> (Some <$> ids) = Some <$> ids.
Proof.
  induction 1 as [|g ids Hg _ IH]; [reflexivity|].
  rewrite !fmap_cons, IH. unfold accepted, in_range.
  destruct (Z.leb_spec 0 g); [|lia]. destruct (Z.ltb_spec g n_gpus); [|lia].
  reflexivity.
Qed.

Lemma pass2_nothing_unresolved (rs : list pydict) (skipped : gset Z) m :
  (forall p, m !! p <> Some None) -> pass2 rs skipped m = m.
Proof.
  intros Hm. unfold pass2.
  rewrite (NoDup_nobody (remap_indices rs m)); [reflexivity|].
  intros p Hp. apply remap_indices_unresolved in Hp. exact (Hm p Hp).
Qed.

Lemma pass3_nothing_unresolved (n_gpus : Z) m :
  (forall p, m !! p <> Some None) -> pass3 n_gpus m = m.
Proof.
  intros Hm. unfold pass3.
  rewrite (NoDup_nobody (unresolved m)); [case_match; reflexivity|].
  intros p Hp. apply unresolved_elem_of in Hp. exact (Hm p Hp).
Qed.

(** One unresolved position and one id left: the position gets that id,
    from the remap-skipped set in Pass 2 or by elimination in Pass 3. *)
Lemma last_id_goes_to_last_position (rs : list pydict) (n_gpus : Z)
    (skipped : gset Z) m (p : nat) (g0 : Z) :
  (forall g, g ∈ skipped -> 0 <= g < n_gpus) ->
  (forall q, m !! q = Some None <-> q = p) ->
  (forall g, 0 <= g < n_gpus -> g ∉ assigned_ids m <-> g = g0) ->
  0 <= g0 < n_gpus ->
  pass3 n_gpus (pass2 rs skipped m) !! p = Some (Some g0).
Proof.
  intros Hskipped Hp Hleft Hg0.
  assert (Hp' : m !! p = Some None) by (apply Hp; reflexivity).
  destruct (pass2 rs skipped m !! p) as [v|] eqn:Hv.
  2:{ apply lookup_ge_None in Hv. rewrite pass2_length in Hv.
      apply lookup_lt_Some in Hp'. lia. }
  apply pass2_elem in Hv as Hv'. destruct Hv' as [Hv'|(g & -> & _ & Hg & Hng)].
  - assert (Hsame : pass2 rs skipped m = m).
    { apply list_eq. intros q.
      destruct (pass2 rs skipped m !! q) as [w|] eqn:Hw.
      - apply pass2_elem in Hw as Hw'.
        destruct Hw' as [Hw'|(g & -> & Hq & _)]; [congruence|].
        apply Hp in Hq as ->. congruence.
      - apply lookup_ge_None in Hw. rewrite pass2_length in Hw.
        symmetry. apply lookup_ge_None. exact Hw. }
    rewrite Hsame.
    destruct (pass3_eliminates n_gpus m p) as (g & Hg & Hrange & Hng);
      [|exact Hp'|].
    + assert (Hset : list_to_set (py_range n_gpus) ∖ assigned_ids m
                     = ({[g0]} : gset Z)).
      { apply set_eq. intros g.
        rewrite elem_of_difference, elem_of_list_to_set, py_range_elem_of,
          elem_of_singleton.
        split.
        - intros [Hr Hn]. apply Hleft; assumption.
        - intros ->. split; [exact Hg0|]. apply Hleft; [exact Hg0|reflexivity]. }
      unfold missing_ids. rewrite Hset, sorted_singleton.
      rewrite (NoDup_only_one (unresolved m) p); [reflexivity| |].
      * apply unresolved_NoDup.
      * intros q. rewrite unresolved_elem_of. apply Hp.
    + rewrite Hg. do 2 f_equal. apply Hleft; assumption.
  - apply pass3_keeps. rewrite Hv. do 2 f_equal.
    apply Hleft; [apply Hskipped|]; assumption.
Qed.

End GpuIdentityFacts.

(** C1, as amended.  With at least one GPU, the remap-skipped set computed by
    [_find_remap_skipped_gpus], and entries that the passes can read (no
    infinite float as gpu_id, an info as [json.loads] gives it, and no more
    than 4300 digits in a row in the info text), [_build_gpu_id_map]
    returns, and gives every array position one id in [0, n_gpus).  When
    the two lists of Pass 3 differ in length, every position still
    unresolved after Pass 2 gets its own index if that is below n_gpus, and
    0 otherwise. *)
Theorem build_gpu_id_map_in_range `{PyRepr} (diag : pydict)
    (results_list : list pydict) (n_gpus : Z) (remap_skipped : gset Z) :
  1 <= n_gpus ->
  _find_remap_skipped_gpus diag n_gpus = Ok remap_skipped ->
  Forall readable results_list ->
  exists mapping,
    _build_gpu_id_map results_list n_gpus remap_skipped = Ok mapping /\
    length mapping = length results_list /\
    (forall p, (p < length results_list)%nat ->
       exists g, mapping !! p = Some (Some g) /\ 0 <= g < n_gpus) /\
    (forall m1, pass1 results_list n_gpus = Ok m1 ->
       let m2 := pass2 results_list remap_skipped m1 in
       length (missing_ids n_gpus m2) <> length (unresolved m2) ->
       forall p, m2 !! p = Some None ->
         mapping !! p
         = Some (Some (if Z.of_nat p <? n_gpus then Z.of_nat p else 0))).
Proof.
  intros Hn Hskipped Hfin.
  destruct (resolve_all_total results_list Hfin) as [gids Hgids].
  pose proof (pass1_resolved n_gpus results_list gids Hgids) as H1.
  pose proof (find_remap_skipped_in_range diag n_gpus remap_skipped Hskipped)
    as Hrange.
  set (m1 := accepted n_gpus <$> gids) in *.
  set (m2 := pass2 results_list remap_skipped m1).
  assert (Hlen : length m2 = length results_list).
  { unfold m2, m1. rewrite pass2_length, length_fmap.
    symmetry. eapply Forall2_length. exact Hgids. }
  assert (Hm2 : forall p g, m2 !! p = Some (Some g) -> 0 <= g < n_gpus).
  { intros p g Hp. apply pass2_elem in Hp as [Hp|(g' & [= <-] & _ & Hg & _)].
    - unfold m1 in Hp. rewrite list_lookup_fmap in Hp.
      destruct (gids !! p) as [gid|]; [|discriminate]. simpl in Hp.
      injection Hp as Hp. apply accepted_in_range in Hp. tauto.
    - apply Hrange. exact Hg. }
  exists (pass3 n_gpus m2). repeat split.
  - unfold _build_gpu_id_map. rewrite H1. reflexivity.
  - rewrite pass3_length. exact Hlen.
  - intros p Hp. rewrite <- Hlen in Hp.
    destruct (lookup_lt_is_Some_2 m2 p Hp) as [[g|] Hv].
    + exists g. split; [apply pass3_keeps; exact Hv|]. eapply Hm2. exact Hv.
    + destruct (decide (length (missing_ids n_gpus m2) = length (unresolved m2)))
        as [Heq|Hne].
      * destruct (pass3_eliminates n_gpus m2 p Heq Hv) as (g & Hg & Hr & _).
        exists g. tauto.
      * exists (fallback_id p n_gpus).
        split; [apply pass3_falls_back; assumption|].
        apply fallback_id_in_range. exact Hn.
  - intros m1' Hm1'. rewrite H1 in Hm1'. injection Hm1' as <-.
    intros m2' Hne p Hp. apply (pass3_falls_back n_gpus m2 p Hne Hp).
Qed.

(** C3.  When every entry resolves in Pass 1 to an id in [0, n_gpus), the
    mapping lists, position by position, the id each entry carries, in
    whatever order the entries come.  (Neither that the ids are distinct
    nor that there are n_gpus of them is needed.) *)
Theorem build_gpu_id_map_explicit `{PyRepr} (results_list : list pydict)
    (ids : list Z) (n_gpus : Z) (remap_skipped : gset Z) :
  Forall2 (fun r g => _resolve_gpu_id r = Ok (Some g)) results_list ids ->
  Forall (fun g => 0 <= g < n_gpus) ids ->
  _build_gpu_id_map results_list n_gpus remap_skipped = Ok (Some <$> ids).
Proof.
  intros Hids Hrange.
  assert (Hgids : Forall2 (fun r gid => _resolve_gpu_id r = Ok gid)
                    results_list (Some <$> ids)).
  { apply Forall2_fmap_r. exact Hids. }
  unfold _build_gpu_id_map.
  rewrite (pass1_resolved n_gpus results_list _ Hgids).
  rewrite accepted_all_in_range by exact Hrange. simpl. f_equal.
  assert (Hall : forall p, (Some <$> ids) !! p <> Some None).
  { intros p. rewrite list_lookup_fmap. destruct (ids !! p); discriminate. }
  rewrite pass2_nothing_unresolved by exact Hall.
  apply pass3_nothing_unresolved. exact Hall.
Qed.

(** C2.  Eight GPUs; seven entries of a test resolve in Pass 1 to the ids
    0, 1, 2, 3, 4, 6, 7, in any order, and one entry, anywhere in the array,
    mentions row remapping and carries no id.  That entry gets id 5. *)
Theorem build_gpu_id_map_remap_skip `{PyRepr} (diag : pydict)
    (before after : list pydict) (r : pydict) (ids : list Z)
    (remap_skipped : gset Z) :
  _find_remap_skipped_gpus diag 8 = Ok remap_skipped ->
  Forall2 (fun e g => _resolve_gpu_id e = Ok (Some g)) (before ++ after) ids ->
  ids ≡ₚ [0; 1; 2; 3; 4; 6; 7] ->
  _resolve_gpu_id r = Ok None ->
  mentions_row_remapping r = true ->
  exists mapping,
    _build_gpu_id_map (before ++ r :: after) 8 remap_skipped = Ok mapping /\
    mapping !! length before = Some (Some 5).
Proof.
  intros Hskipped Hids Hperm Hr _.
  apply Forall2_app_inv_l in Hids as (ids1 & ids2 & H1 & H2 & ->).
  assert (Hrange : Forall (fun g => 0 <= g < 8) (ids1 ++ ids2)).
  { apply Forall_forall. intros g Hg. rewrite Hperm in Hg.
    rewrite !elem_of_cons, elem_of_nil in Hg. lia. }
  apply Forall_app in Hrange as [Hr1 Hr2].
  assert (Hgids : Forall2 (fun e gid => _resolve_gpu_id e = Ok gid)
                    (before ++ r :: after)
                    ((Some <$> ids1) ++ None :: (Some <$> ids2))).
  { apply Forall2_app; [apply Forall2_fmap_r; exact H1|].
    constructor; [exact Hr|apply Forall2_fmap_r; exact H2]. }
  unfold _build_gpu_id_map.
  rewrite (pass1_resolved 8 _ _ Hgids).
  rewrite fmap_app, fmap_cons, !accepted_all_in_range by assumption.
  simpl. eexists. split; [reflexivity|].
  assert (Hlen : length before = length ids1) by (eapply Forall2_length; exact H1).
  rewrite Hlen.
  apply last_id_goes_to_last_position.
  - eapply find_remap_skipped_in_range. exact Hskipped.
  - intros q. destruct (decide (q < length ids1)%nat) as [Hlt|Hge].
    + rewrite lookup_app_l by (rewrite length_fmap; exact Hlt).
      rewrite list_lookup_fmap. destruct (ids1 !! q); simpl; split;
        (discriminate || lia).
    + rewrite lookup_app_r by (rewrite length_fmap; lia).
      rewrite length_fmap.
      destruct (q - length ids1)%nat as [|k] eqn:Hk; simpl.
      * split; [lia|reflexivity].
      * rewrite list_lookup_fmap. destruct (ids2 !! k); simpl; split;
          (discriminate || lia).
  - intros g Hg. unfold assigned_ids.
    rewrite omap_app. simpl.
    rewrite !omap_id_Some, elem_of_list_to_set, Hperm.
    rewrite !elem_of_cons, elem_of_nil. lia.
  - lia.
Qed.

(** Three entries without an id on a machine of two GPUs: the lists of
    Pass 3 differ in length, and the fallback gives the ids 0, 1 and 0. *)
Lemma build_gpu_id_map_in_range_witness :
  (exists m1,
     pass1 (H := repr_unused) GpuExamples.crowded_results 2 = Ok m1 /\
     let m2 := pass2 (H := repr_unused) GpuExamples.crowded_results ∅ m1 in
     length (missing_ids 2 m2) <> length (unresolved m2) /\
     m2 = [None; None; None]) /\
  _build_gpu_id_map (H := repr_unused) GpuExamples.crowded_results 2 ∅
  = Ok [Some 0; Some 1; Some 0] /\
  exists mapping,
    _build_gpu_id_map (H := repr_unused) GpuExamples.crowded_results 2 ∅
    = Ok mapping /\
    length mapping = length GpuExamples.crowded_results /\
    (forall p, (p < length GpuExamples.crowded_results)%nat ->
       exists g, mapping !! p = Some (Some g) /\ 0 <= g < 2) /\
    (forall m1, pass1 (H := repr_unused) GpuExamples.crowded_results 2 = Ok m1 ->
       let m2 := pass2 (H := repr_unused) GpuExamples.crowded_results ∅ m1 in
       length (missing_ids 2 m2) <> length (unresolved m2) ->
       forall p, m2 !! p = Some None ->
         mapping !! p = Some (Some (if Z.of_nat p <? 2 then Z.of_nat p else 0))).
Proof.
  split; [|split].
  - exists [None; None; None]. split; [reflexivity|].
    split; [vm_compute; discriminate|reflexivity].
  - vm_compute. reflexivity.
  - apply (build_gpu_id_map_in_range (H := repr_unused) GpuExamples.crowded_diag).
    + lia.
    + vm_compute. reflexivity.
    + repeat (constructor; [split; [exact I|split; reflexivity]|]). constructor.
Defined.

(** C1 as stated fails on a machine reporting no GPU: the single entry gets
    id 0, which is not in the empty interval [0, 0). *)
Lemma build_gpu_id_map_no_gpu :
  _find_remap_skipped_gpus (H := repr_unused) GpuExamples.anonymous_diag 0 = Ok ∅ /\
  _build_gpu_id_map (H := repr_unused) GpuExamples.anonymous_results 0 ∅
  = Ok [Some 0] /\
  ~ (0 <= 0 < 0).
Proof.
  split; [vm_compute; reflexivity|].
  split; [vm_compute; reflexivity|lia].
Qed.

(** The conversion error that [_resolve_gpu_id] does not catch: an infinite
    float as gpu_id ends the whole resolution. *)
Example build_gpu_id_map_infinite_gpu_id :
  _build_gpu_id_map (H := repr_unused)
    [[("gpu_id", PFloat (FInf false))]]%string 8 ∅
  = Raise OverflowError.
Proof. reflexivity. Qed.

Lemma build_gpu_id_map_explicit_witness :
  _build_gpu_id_map (H := repr_unused) GpuExamples.shuffled_results 3 ∅
  = Ok (Some <$> [2; 0; 1]).
Proof.
  apply (build_gpu_id_map_explicit (H := repr_unused)).
  - repeat constructor.
  - repeat constructor; lia.
Defined.

Lemma build_gpu_id_map_remap_skip_witness :
  exists mapping,
    _build_gpu_id_map (H := repr_unused) GpuExamples.memory_results 8 {[5]}
    = Ok mapping /\
    mapping !! 3%nat = Some (Some 5).
Proof.
  apply (build_gpu_id_map_remap_skip (H := repr_unused) GpuExamples.diag
           [GpuExamples.entry 0; GpuExamples.entry 1; GpuExamples.entry 2]
           [GpuExamples.entry 3; GpuExamples.entry 4; GpuExamples.entry 6;
            GpuExamples.entry 7]
           GpuExamples.remap_entry [0; 1; 2; 3; 4; 6; 7]).
  - vm_compute. reflexivity.
  - repeat constructor.
  - reflexivity.
  - reflexivity.
  - reflexivity.
Defined.

(** ** Issue filter and verdicts *)

Module VerdictFacts.
Import Verdicts.

Lemma mentions_described (kw : string) (i : pydict) :
  described i = true -> mentions kw i = Ok (mentions_text kw i).
Proof.
  unfold described, mentions, mentions_text.
  destruct (Py.get_or i "issue" (PStr EmptyString)); simpl; (discriminate || reflexivity).
Qed.

Lemma drop_mentioning_described (kw : string) (all_issues : list pydict) :
  Forall (fun i => described i = true) all_issues ->
  drop_mentioning kw all_issues
  = Ok (List.filter (fun i => negb (mentions_text kw i)) all_issues).
Proof.
  intros Hall. unfold drop_mentioning. apply filter_each_pure.
  eapply Forall_impl; [exact Hall|]. intros i Hi. simpl.
  rewrite (mentions_described kw i Hi). reflexivity.
Qed.

Lemma filter_issues_described (stress : option pydict) (all_issues : list pydict) :
  Forall (fun i => described i = true) all_issues ->
  filter_issues stress all_issues = Ok (List.filter (kept stress) all_issues).
Proof.
  intros Hall. unfold filter_issues, kept.
  destruct (present stress); simpl.
  - rewrite (drop_mentioning_described _ _ Hall). simpl.
    rewrite drop_mentioning_described by (apply Forall_filter; exact Hall).
    f_equal. induction all_issues as [|i l IH]; [reflexivity|].
    apply Forall_cons in Hall as [_ Hall]. simpl.
    destruct (mentions_text "counters unavailable" i); simpl;
      [|destruct (mentions_text "pcie link degradation" i)];
      rewrite IH by exact Hall; reflexivity.
  - apply drop_mentioning_described. exact Hall.
Qed.

(** *** Collecting the issues of the stages *)

Lemma stage_issues_ok (label : string) (data : option pydict) :
  stage_ok data = true ->
  exists found, stage_issues label data = Ok found /\ Forall tagged found.
Proof.
  unfold stage_ok, stage_issues. destruct data as [[|kv d]|].
  - intros _. exists []. split; [reflexivity|constructor].
  - destruct (Py.get_or (kv :: d) "verdict" (PDict [])) as [| | | | | |v];
      try discriminate.
    simpl. destruct (Py.get_or v "issues" (PList [])) as [| | | | |issues|];
      try discriminate.
    simpl. intros Hok.
    exists ((fun iss => match iss with
                        | PDict c => Py.set c "source" (PStr label)
                        | _ => []
                        end) <$> issues).
    pose proof (proj1 (forallb_forall _ _) Hok) as Hall. split.
    + apply map_each_pure, Forall_forall. intros iss Hiss.
      apply list_elem_of_In, Hall in Hiss.
      destruct iss; try discriminate. reflexivity.
    + apply Forall_fmap, Forall_forall. intros iss Hiss.
      apply list_elem_of_In, Hall in Hiss.
      destruct iss as [| | | | | |c]; try discriminate. simpl in *.
      split.
      * unfold described, Py.get_or in *.
        rewrite lookup_key_set_ne by discriminate. exact Hiss.
      * exists (PStr label). unfold Py.item.
        rewrite lookup_key_set_eq. reflexivity.
  - intros _. exists []. split; [reflexivity|constructor].
Qed.

Lemma collect_issues_loop (stages : list (string * option pydict))
    (acc : list pydict) :
  Forall (fun stage => stage_ok stage.2 = true) stages ->
  Forall tagged acc ->
  exists all_issues,
    for_each (fun '(label, data) all_issues =>
      found ← stage_issues label data; Ok (all_issues ++ found)) stages acc
    = Ok all_issues /\ Forall tagged all_issues.
Proof.
  intros Hstages. revert acc.
  induction Hstages as [|[label data] stages Hs _ IH]; intros acc Hacc; simpl.
  - eauto.
  - destruct (stage_issues_ok label data Hs) as (found & -> & Hfound). simpl.
    apply IH. apply Forall_app. split; assumption.
Qed.

Lemma collect_issues_ok (stages : list (string * option pydict)) :
  Forall (fun stage => stage_ok stage.2 = true) stages ->
  exists all_issues,
    collect_issues stages = Ok all_issues /\ Forall tagged all_issues.
Proof.
  intros Hstages. apply collect_issues_loop; [exact Hstages|constructor].
Qed.

(** *** Verdict of a stage *)

Lemma raw_verdict_ok (d : pydict) :
  stage_ok (Some d) = true -> exists raw, raw_verdict d = Ok raw.
Proof.
  unfold stage_ok, raw_verdict.
  destruct (Py.get_or d "verdict" (PDict [])); try discriminate.
  simpl. eauto.
Qed.

Lemma stage_verdict_ok (remaining : list pyval) (stage : string * option pydict) :
  stage_ok stage.2 = true -> exists v, stage_verdict remaining stage = Ok (stage.1, v).
Proof.
  destruct stage as [label [[|kv d]|]]; simpl; [eauto| |eauto].
  intros Hok. destruct (raw_verdict_ok _ Hok) as [raw ->]. simpl. eauto.
Qed.

Lemma remaining_sources_ok (issues : list pydict) :
  Forall tagged issues ->
  map_each (fun i => Py.item i "source") issues
  = Ok ((fun i => Py.get i "source") <$> issues).
Proof.
  intros Htagged. apply map_each_pure.
  eapply Forall_impl; [exact Htagged|].
  intros i [_ [src Hsrc]]. unfold Py.item, Py.get in *.
  destruct (Py.lookup_key "source" i); [reflexivity|discriminate].
Qed.

Lemma no_issue_left_true (label : string) (issues : list pydict) :
  (forall i, i ∈ issues -> Py.get i "source" <> PStr label) ->
  no_issue_left label ((fun i => Py.get i "source") <$> issues) = true.
Proof.
  intros Hnone. unfold no_issue_left.
  apply negb_true_iff, not_true_iff_false.
  rewrite existsb_exists. intros (src & Hsrc & Heq).
  apply list_elem_of_In, list_elem_of_fmap in Hsrc as (i & -> & Hi).
  apply (Hnone i Hi). unfold Py.eq_str in Heq.
  destruct (Py.get i "source"); try discriminate.
  apply String.eqb_eq in Heq. congruence.
Qed.

End VerdictFacts.

(** C4, as amended.  In a list of issues with string descriptions, an issue
    that mentions "counters unavailable" (in any letter case) and does not
    mention "pcie link degradation" is in the filtered list exactly when
    there is no stress payload, or an empty one. *)
Theorem counters_unavailable_kept_without_stress (stress : option pydict)
    (all_issues : list pydict) (i : pydict) (text : string) :
  Forall (fun j => Verdicts.described j = true) all_issues ->
  i ∈ all_issues ->
  Py.get_or i "issue" (PStr EmptyString) = PStr text ->
  Text.contains "counters unavailable" (Text.lower text) = true ->
  Text.contains "pcie link degradation" (Text.lower text) = false ->
  exists filtered,
    Verdicts.filter_issues stress all_issues = Ok filtered /\
    (i ∈ filtered <-> Verdicts.present stress = false).
Proof.
  intros Hall Hi Htext Hcounters Hpcie.
  exists (List.filter (Verdicts.kept stress) all_issues).
  split; [apply VerdictFacts.filter_issues_described; exact Hall|].
  rewrite filter_elem_of. unfold Verdicts.kept, Verdicts.mentions_text.
  rewrite Htext, Hcounters, Hpcie.
  destruct (Verdicts.present stress); simpl.
  - split; [intros [_ [=]]|discriminate].
  - split; [reflexivity|]. intros _. split; [exact Hi|reflexivity].
Qed.

Lemma counters_unavailable_kept_without_stress_witness :
  exists filtered,
    Verdicts.filter_issues None
      [[("issue", PStr "GPU 2: ECC counters unavailable");
        ("source", PStr "Inventory")]]%string = Ok filtered /\
    ([("issue", PStr "GPU 2: ECC counters unavailable");
      ("source", PStr "Inventory")]%string ∈ filtered
     <-> Verdicts.present None = false).
Proof.
  apply (counters_unavailable_kept_without_stress None _ _
           "GPU 2: ECC counters unavailable").
  - repeat constructor.
  - left.
  - reflexivity.
  - reflexivity.
  - reflexivity.
Defined.

(** C4 as stated fails for an issue that names both conditions: without any
    stress payload it is still dropped, by the PCIe rule. *)
Lemma counters_unavailable_dropped_without_stress :
  Verdicts.mentions_text "counters unavailable" Verdicts.both_phrases = true /\
  Verdicts.present None = false /\
  Verdicts.filter_issues None [Verdicts.both_phrases] = Ok [].
Proof. repeat split. Qed.

(** C5.  For stage payloads of the expected shape the verdict block
    returns, and for every stage with a non-empty payload: a raw verdict
    "WARN" with no issue of that stage left after filtering is reported as
    "PASS", and a raw verdict "FAIL" is reported as "FAIL" whatever was
    filtered. *)
Theorem warn_upgraded_fail_kept (install inventory stress : option pydict) :
  Verdicts.stage_ok install = true ->
  Verdicts.stage_ok inventory = true ->
  Verdicts.stage_ok stress = true ->
  exists filtered verdicts,
    Verdicts.report_verdicts install inventory stress = Ok (filtered, verdicts) /\
    forall label d,
      (label, Some d) ∈ Verdicts.stages install inventory stress ->
      d <> [] ->
      (Verdicts.raw_verdict d = Ok (PStr "WARN") ->
       (forall i, i ∈ filtered -> Py.get i "source" <> PStr label) ->
       (label, PStr "PASS") ∈ verdicts) /\
      (Verdicts.raw_verdict d = Ok (PStr "FAIL") ->
       (label, PStr "FAIL") ∈ verdicts).
Proof.
  intros Hinstall Hinventory Hstress.
  set (stages := Verdicts.stages install inventory stress).
  assert (Hstages : Forall (fun stage => Verdicts.stage_ok stage.2 = true) stages).
  { repeat constructor; assumption. }
  destruct (VerdictFacts.collect_issues_ok stages Hstages) as (all & Hall & Htagged).
  set (filtered := List.filter (Verdicts.kept stress) all).
  assert (Hfiltered : Verdicts.filter_issues stress all = Ok filtered).
  { apply VerdictFacts.filter_issues_described.
    eapply Forall_impl; [exact Htagged|]. intros i [Hi _]. exact Hi. }
  assert (Htagged' : Forall Verdicts.tagged filtered).
  { apply Forall_filter. exact Htagged. }
  set (remaining := (fun i => Py.get i "source") <$> filtered).
  destruct (map_each_total (Verdicts.stage_verdict remaining) stages)
    as [verdicts Hverdicts].
  { eapply Forall_impl; [exact Hstages|]. intros stage Hok.
    destruct (VerdictFacts.stage_verdict_ok remaining stage Hok) as [v Hv]. eauto. }
  exists filtered, verdicts. split.
  - unfold Verdicts.report_verdicts. fold stages. rewrite Hall.
    cbn [mbind result_bind]. rewrite Hfiltered.
    cbn [mbind result_bind]. unfold Verdicts.derive_verdicts.
    rewrite (VerdictFacts.remaining_sources_ok filtered Htagged').
    cbn [mbind result_bind]. fold remaining. rewrite Hverdicts. reflexivity.
  - intros label d Hin Hd.
    destruct (map_each_elem_of _ _ _ _ Hverdicts Hin) as ([label' v] & Hv & Hstage).
    destruct d as [|kv d]; [contradiction|]. simpl in Hstage. split.
    + intros Hraw Hnone. rewrite Hraw in Hstage. simpl in Hstage.
      unfold remaining in Hstage.
      rewrite VerdictFacts.no_issue_left_true in Hstage by exact Hnone.
      injection Hstage as <- <-. exact Hv.
    + intros Hraw. rewrite Hraw in Hstage. simpl in Hstage.
      injection Hstage as <- <-. exact Hv.
Qed.

Lemma warn_upgraded_fail_kept_witness :
  exists filtered verdicts,
    Verdicts.report_verdicts (Some Verdicts.install_fail)
      (Some Verdicts.inventory_warn) (Some Verdicts.stress_pass)
    = Ok (filtered, verdicts) /\
    forall label d,
      (label, Some d) ∈ Verdicts.stages (Some Verdicts.install_fail)
                          (Some Verdicts.inventory_warn) (Some Verdicts.stress_pass) ->
      d <> [] ->
      (Verdicts.raw_verdict d = Ok (PStr "WARN") ->
       (forall i, i ∈ filtered -> Py.get i "source" <> PStr label) ->
       (label, PStr "PASS") ∈ verdicts) /\
      (Verdicts.raw_verdict d = Ok (PStr "FAIL") ->
       (label, PStr "FAIL") ∈ verdicts).
Proof.
  apply warn_upgraded_fail_kept; reflexivity.
Defined.

(** ** DIMM inventory *)

Lemma positive_not_non_positive (x : Num.number) :
  Num.positive x = true -> Num.non_positive x = false.
Proof.
  destruct x as [z|[q|neg|]]; simpl; try discriminate.
  - intros Hz. apply Z.ltb_lt in Hz. apply Z.leb_gt. exact Hz.
  - intros Hq. apply negb_true_iff in Hq. exact Hq.
  - intros Hneg. apply negb_true_iff in Hneg. exact Hneg.
Qed.

Section DimmFacts.
Context `{PyRepr}.

(** The loop of [parse_lshw_dimms], when it ends: the entries of the
    nodes, as the body gives them one by one. *)
Lemma parse_lshw_dimms_loop (nodes : list Xml.element) (acc out : list dimm) :
  for_each (fun node dimms =>
    d ← lshw_dimm node;
    Ok match d with
       | Some d => dimms ++ [d]
       | None => dimms
       end) nodes acc = Ok out ->
  exists ds, Forall2 (fun node d => lshw_dimm node = Ok d) nodes ds /\
             out = acc ++ omap id ds.
Proof.
  revert acc. induction nodes as [|node nodes IH]; intros acc; simpl.
  { intros [= <-]. exists []. split; [constructor|]. simpl. rewrite app_nil_r. reflexivity. }
  destruct (lshw_dimm node) as [d|e] eqn:Hnode; cbn [mbind result_bind]; [|discriminate].
  intros Hout. destruct (IH _ Hout) as (ds & Hds & ->).
  exists (d :: ds). split; [constructor; assumption|].
  destruct d as [d|]; simpl; [rewrite <- app_assoc|]; reflexivity.
Qed.

Lemma parse_lshw_dimms_entries (root : Xml.element) (dimms : list dimm) :
  parse_lshw_dimms (Some root) = Ok dimms ->
  exists ds, Forall2 (fun node d => lshw_dimm node = Ok d) (Xml.iter root "node") ds /\
             dimms = omap id ds.
Proof. unfold parse_lshw_dimms. apply parse_lshw_dimms_loop. Qed.

Lemma parse_lshw_dimms_elem_of (root : option Xml.element) (dimms : list dimm)
    (d : dimm) :
  parse_lshw_dimms root = Ok dimms -> d ∈ dimms ->
  exists r node, root = Some r /\ node ∈ Xml.iter r "node" /\ lshw_dimm node = Ok (Some d).
Proof.
  destruct root as [r|].
  - intros Hparse Hd. apply parse_lshw_dimms_entries in Hparse as (ds & Hds & ->).
    apply list_elem_of_omap in Hd as (o & Ho & Hod). simpl in Hod. subst o.
    apply list_elem_of_lookup in Ho as [i Hi].
    destruct (Forall2_lookup_r _ _ _ _ _ Hds Hi) as (node & Hnode & Hdimm).
    exists r, node. split; [reflexivity|]. split; [|exact Hdimm].
    apply list_elem_of_lookup. exists i. exact Hnode.
  - intros [= <-] Hd. apply elem_of_nil in Hd as [].
Qed.

(** What the loop body has checked when it appends an entry. *)
Lemma lshw_dimm_accepted (node : Xml.element) (d : dimm) :
  lshw_dimm node = Ok (Some d) ->
  Text.contains "cache" (Text.lower (_xml_text node "description" EmptyString)) = false /\
  Text.contains "system board" (Text.lower (_xml_text node "description" EmptyString)) = false /\
  Text.contains "motherboard" (Text.lower (_xml_text node "description" EmptyString)) = false /\
  Xml.find node "node" = None /\
  (_xml_text node "slot" EmptyString = EmptyString \/
   looks_like_dimm_slot (Text.upper (_xml_text node "slot" EmptyString)) = true) /\
  (exists size, lshw_size_gb node = Ok size /\ Num.positive size = true) /\
  slot d = PStr (_xml_text node "slot" EmptyString).
Proof.
  unfold lshw_dimm.
  set (desc := Text.lower (_xml_text node "description" EmptyString)).
  set (slot_text := _xml_text node "slot" EmptyString).
  intros Hd.
  destruct (Text.contains "cache" desc); [discriminate|].
  destruct (Text.contains "system board" desc); [discriminate|].
  destruct (Text.contains "motherboard" desc); [discriminate|].
  simpl in Hd.
  destruct (Xml.find node "node"); [discriminate|]. simpl in Hd.
  match type of Hd with
  | (if negb ?b then _ else _) = _ => destruct b; [|discriminate]
  end.
  simpl in Hd.
  destruct (String.eqb_spec slot_text EmptyString) as [Hslot|Hslot]; simpl in Hd.
  - destruct (lshw_size_gb node) as [size|e]; simpl in Hd; [|discriminate].
    destruct (Num.positive size) eqn:Hpos; [|discriminate].
    injection Hd as <-. repeat split; eauto.
  - destruct (looks_like_dimm_slot (Text.upper slot_text)); [|discriminate].
    simpl in Hd.
    destruct (lshw_size_gb node) as [size|e]; simpl in Hd; [|discriminate].
    destruct (Num.positive size) eqn:Hpos; [|discriminate].
    injection Hd as <-. repeat split; eauto.
Qed.

(** The slot is tested before the size is read: a node with an unlisted
    slot is passed over without any conversion. *)
Lemma lshw_dimm_rejects_unlisted_slot (node : Xml.element) :
  _xml_text node "slot" EmptyString <> EmptyString ->
  looks_like_dimm_slot (Text.upper (_xml_text node "slot" EmptyString)) = false ->
  lshw_dimm node = Ok None.
Proof.
  intros Hslot Hlist. unfold lshw_dimm.
  destruct (Text.contains "cache" _); [reflexivity|].
  destruct (_ || _); [reflexivity|].
  destruct (is_some (Xml.find node "node")); [reflexivity|].
  cbn zeta. destruct (negb _); [reflexivity|].
  rewrite Hlist.
  destruct (String.eqb_spec (_xml_text node "slot" EmptyString) EmptyString);
    [contradiction|reflexivity].
Qed.

Lemma looks_like_dimm_slot_spec (slot_upper : string) :
  looks_like_dimm_slot slot_upper = true <->
  exists kw, kw ∈ slot_keywords /\ Text.contains kw slot_upper = true.
Proof.
  unfold looks_like_dimm_slot. rewrite existsb_exists.
  split; intros (kw & Hkw & Hc); exists kw; split; try exact Hc;
    apply list_elem_of_In; exact Hkw.
Qed.

(** *** The machine-resources document *)

Lemma is_real_dimm_accepted (entry : pydict) :
  _is_real_dimm (PDict entry) = Ok true ->
  (forall kw, kw ∈ _EXCLUDE_KEYWORDS ->
     Text.contains kw (mr_slot_text entry) = false /\
     Text.contains kw (mr_desc_text entry) = false) /\
  exists n, Num.of_pyval (Py.get_or entry "size" (PInt 0)) = Some n /\
            Num.non_positive n = false.
Proof.
  unfold _is_real_dimm.
  destruct (existsb _ _EXCLUDE_KEYWORDS) eqn:Hkw; [discriminate|].
  destruct (Py.truthy (Py.get_or entry "size" (PInt 0))); [|discriminate].
  simpl.
  destruct (Num.of_pyval (Py.get_or entry "size" (PInt 0))) as [n|];
    [|discriminate].
  intros [= Hn]. apply negb_true_iff in Hn. split; [|eauto].
  intros kw Hin. rewrite existsb_false in Hkw.
  apply Hkw, orb_false_iff in Hin. exact Hin.
Qed.

Lemma mr_visit_sound (candidates : list pyval) (flat : bool) (entry : pyval)
    (dimms : list dimm) :
  entry ∈ candidates ->
  Forall (from_candidate candidates) dimms ->
  Forall (from_candidate candidates) (keep dimms (mr_visit flat entry dimms)).1.
Proof.
  intros Hentry Hdimms. unfold mr_visit.
  destruct (_is_real_dimm entry) as [[|]|e] eqn:Hreal; simpl; try exact Hdimms.
  destruct entry as [| | | | | |entry]; simpl; try exact Hdimms.
  destruct (mr_dimm flat entry) as [d|e] eqn:Hd; simpl; [|exact Hdimms].
  apply Forall_app. split; [exact Hdimms|].
  constructor; [|constructor]. exists entry, flat. auto.
Qed.

Lemma mr_visit_all_sound (candidates : list pyval) (flat : bool) (container : pyval)
    (dimms : list dimm) :
  (forall entry, entry ∈ mr_entries_of container -> entry ∈ candidates) ->
  Forall (from_candidate candidates) dimms ->
  Forall (from_candidate candidates) (mr_visit_all flat container dimms).1.
Proof.
  unfold mr_visit_all, mr_entries_of. intros Hsub Hdimms.
  destruct (entries ← Py.getattr_get container "dimms" (PList []); Py.iter entries)
    as [entries|e]; [|exact Hdimms].
  apply (loop_invariant (Forall (from_candidate candidates))); [exact Hdimms|].
  intros entry acc Hentry Hacc. apply mr_visit_sound; [|exact Hacc].
  apply Hsub. exact Hentry.
Qed.

Lemma mr_try_sound (resources : pydict) :
  Forall (from_candidate (mr_candidates resources)) (mr_try resources).1.
Proof.
  unfold mr_try, mr_candidates.
  set (memory := Py.get_or resources "memory" (PDict [])).
  set (flat_entries := mr_entries_of memory).
  destruct (Py.getattr_get memory "nodes" (PList [])) as [nodes|e]; simpl;
    [|constructor].
  set (candidates := _ ++ flat_entries).
  assert (Hnodes :
    Forall (from_candidate candidates)
      (if Py.truthy nodes
       then match Py.iter nodes with
            | Ok nodes => loop (mr_visit_all false) nodes []
            | Raise e => ([], Some e)
            end
       else ([], None)).1).
  { destruct (Py.truthy nodes); [|constructor].
    subst candidates.
    destruct (Py.iter nodes) as [ns|e]; simpl; [|constructor].
    apply (loop_invariant (Forall (from_candidate _))); [constructor|].
    intros node acc Hnode Hacc. apply mr_visit_all_sound; [|exact Hacc].
    intros entry Hentry. apply elem_of_app. left.
    apply list_elem_of_join. exists (mr_entries_of node).
    split; [exact Hentry|]. apply list_elem_of_fmap. eauto. }
  destruct (if Py.truthy nodes then _ else _) as [dimms [e|]]; simpl in *;
    [exact Hnodes|].
  destruct dimms as [|d dimms]; [|exact Hnodes].
  apply mr_visit_all_sound; [|constructor].
  intros entry Hentry. apply elem_of_app. right. exact Hentry.
Qed.

Lemma parse_machine_resources_dimms_sound (resources : option pydict) (d : dimm) :
  d ∈ parse_machine_resources_dimms resources ->
  exists r, resources = Some r /\ from_candidate (mr_candidates r) d.
Proof.
  destruct resources as [[|kv r]|]; simpl;
    try (intros Hd; apply elem_of_nil in Hd as []).
  intros Hd. apply filter_elem_of in Hd as [Hd _].
  exists (kv :: r). split; [reflexivity|].
  pose proof (mr_try_sound (kv :: r)) as Hall.
  rewrite Forall_forall in Hall. apply Hall. exact Hd.
Qed.

End DimmFacts.

(** C6, as amended.  Every entry of a merged DIMM list that the extractors
    return was built from a candidate that they accepted: a hardware-tree
    node whose size is not <= 0 and whose description names neither a
    cache, a system board nor a motherboard, or an entry of the
    machine-resources document whose size is a number that is not <= 0 and
    whose slot (or locator) and type (or description) contain none of
    cache, l1, l2, l3, system board and motherboard.  (The slot of a
    hardware-tree node is not searched for those words.) *)
Theorem merged_dimms_exclusions `{PyRepr} (lshw : option Xml.element)
    (machine_resources : option pydict) (dimms : list dimm) (d : dimm) :
  merged_dimms lshw machine_resources = Ok dimms ->
  d ∈ dimms ->
  (exists root node size,
     lshw = Some root /\ node ∈ Xml.iter root "node" /\ lshw_dimm node = Ok (Some d) /\
     lshw_size_gb node = Ok size /\ Num.non_positive size = false /\
     (forall kw, kw ∈ ["cache"; "system board"; "motherboard"]%string ->
        Text.contains kw (Text.lower (_xml_text node "description" EmptyString)) = false))
  \/
  (exists resources entry flat,
     machine_resources = Some resources /\
     PDict entry ∈ mr_candidates resources /\ mr_dimm flat entry = Ok d /\
     (exists n, Num.of_pyval (Py.get_or entry "size" (PInt 0)) = Some n /\
                Num.non_positive n = false) /\
     (forall kw, kw ∈ _EXCLUDE_KEYWORDS ->
        Text.contains kw (mr_slot_text entry) = false /\
        Text.contains kw (mr_desc_text entry) = false)).
Proof.
  unfold merged_dimms. intros Hmerged Hd.
  destruct (parse_lshw_dimms lshw) as [from_lshw|e] eqn:Hparse;
    cbn [mbind result_bind] in Hmerged; [|discriminate].
  injection Hmerged as <-.
  assert (Hcases : d ∈ from_lshw
                   \/ d ∈ parse_machine_resources_dimms machine_resources).
  { destruct from_lshw; [right|left]; exact Hd. }
  destruct Hcases as [Hl|Hm].
  - left.
    apply (parse_lshw_dimms_elem_of lshw from_lshw d Hparse) in Hl
      as (root & node & -> & Hnode & Hdimm).
    pose proof (lshw_dimm_accepted node d Hdimm)
      as (Hc & Hs & Hm & _ & _ & (size & Hsize & Hpos) & _).
    exists root, node, size. repeat split; try assumption.
    + apply positive_not_non_positive. exact Hpos.
    + intros kw Hkw.
      rewrite !elem_of_cons, elem_of_nil in Hkw.
      destruct Hkw as [->|[->|[->|[]]]]; assumption.
  - right.
    apply parse_machine_resources_dimms_sound in Hm
      as (resources & -> & entry & flat & Hentry & Hreal & Hdimm).
    apply is_real_dimm_accepted in Hreal as [Hkw Hsize].
    exists resources, entry, flat. repeat split; try assumption; apply Hkw; assumption.
Qed.

Lemma merged_dimms_exclusions_witness :
  (exists root node size,
     Some DimmExamples.tree = Some root /\ node ∈ Xml.iter root "node" /\
     lshw_dimm node = Ok (Some DimmExamples.dimm_a1_entry) /\
     lshw_size_gb node = Ok size /\ Num.non_positive size = false /\
     (forall kw, kw ∈ ["cache"; "system board"; "motherboard"]%string ->
        Text.contains kw (Text.lower (_xml_text node "description" EmptyString)) = false))
  \/
  (exists resources entry flat,
     None = Some resources /\
     PDict entry ∈ mr_candidates resources /\
     mr_dimm flat entry = Ok DimmExamples.dimm_a1_entry /\
     (exists n, Num.of_pyval (Py.get_or entry "size" (PInt 0)) = Some n /\
                Num.non_positive n = false) /\
     (forall kw, kw ∈ _EXCLUDE_KEYWORDS ->
        Text.contains kw (mr_slot_text (H := repr_unused) entry) = false /\
        Text.contains kw (mr_desc_text (H := repr_unused) entry) = false)).
Proof.
  destruct (merged_dimms (H := repr_unused) (Some DimmExamples.tree) None)
    as [dimms|e] eqn:Hmerged; [|exfalso; vm_compute in Hmerged; discriminate Hmerged].
  apply (merged_dimms_exclusions (H := repr_unused) (Some DimmExamples.tree) None dimms);
    [exact Hmerged|].
  vm_compute in Hmerged. injection Hmerged as <-. left.
Defined.

(** C6 as stated fails in the hardware tree: a populated bank whose slot
    label contains "motherboard" is in the merged list. *)
Lemma merged_dimms_keeps_board_labelled_slot :
  DimmExamples.board_dimm ∈ Xml.iter DimmExamples.tree "node" /\
  Text.contains "motherboard"
    (Text.lower (_xml_text DimmExamples.board_dimm "slot" EmptyString)) = true /\
  exists d dimms,
    lshw_dimm DimmExamples.board_dimm = Ok (Some d) /\
    slot d = PStr "DIMM 0 (motherboard)" /\
    merged_dimms (H := repr_unused) (Some DimmExamples.tree) None = Ok dimms /\
    d ∈ dimms.
Proof.
  split; [vm_compute; do 5 right; left|].
  split; [reflexivity|].
  eexists _, _. split; [vm_compute; reflexivity|]. split; [reflexivity|].
  split; [vm_compute; reflexivity|]. right. left.
Qed.

(** C10.  In the hardware tree a node whose slot text is not empty and
    contains, in upper case, none of DIMM, CPU, MEM, PROC, BANK, SLOT,
    CHANNEL, P0_, P1_ and NODE gives no entry, whatever its size and
    description; every entry of the extracted list comes from a node whose
    slot text is empty or contains one of them. *)
Theorem lshw_slot_whitelist (root : Xml.element) :
  (forall node,
     _xml_text node "slot" EmptyString <> EmptyString ->
     existsb (fun kw => Text.contains kw (Text.upper (_xml_text node "slot" EmptyString)))
       ["DIMM"; "CPU"; "MEM"; "PROC"; "BANK"; "SLOT"; "CHANNEL"; "P0_"; "P1_";
        "NODE"]%string = false ->
     lshw_dimm node = Ok None) /\
  (forall dimms d,
     parse_lshw_dimms (Some root) = Ok dimms -> d ∈ dimms ->
     exists node,
       node ∈ Xml.iter root "node" /\ lshw_dimm node = Ok (Some d) /\
       (_xml_text node "slot" EmptyString = EmptyString \/
        exists kw,
          kw ∈ ["DIMM"; "CPU"; "MEM"; "PROC"; "BANK"; "SLOT"; "CHANNEL"; "P0_";
                "P1_"; "NODE"]%string /\
          Text.contains kw (Text.upper (_xml_text node "slot" EmptyString)) = true)).
Proof.
  split.
  - intros node Hslot Hnone. apply lshw_dimm_rejects_unlisted_slot; assumption.
  - intros dimms d Hparse Hd.
    apply (parse_lshw_dimms_elem_of (Some root) dimms d Hparse) in Hd
      as (r & node & [= <-] & Hnode & Hdimm).
    exists node. split; [exact Hnode|]. split; [exact Hdimm|].
    apply lshw_dimm_accepted in Hdimm as (_ & _ & _ & _ & [Hs|Hs] & _);
      [left; exact Hs|right].
    apply looks_like_dimm_slot_spec. exact Hs.
Qed.

Lemma lshw_slot_whitelist_witness :
  lshw_dimm DimmExamples.riser_dimm = Ok None /\
  DimmExamples.riser_dimm ∈ Xml.iter DimmExamples.tree "node".
Proof.
  split.
  - apply (proj1 (lshw_slot_whitelist DimmExamples.tree)).
    + discriminate.
    + reflexivity.
  - vm_compute. do 6 right. left.
Defined.

(** ** Storage devices *)

Module StorageFacts.
Import Storage.

Lemma eq_str_spec (v : pyval) (s : string) : Py.eq_str v s = true <-> v = PStr s.
Proof.
  destruct v; simpl; try (split; [discriminate|intros [=]]).
  rewrite String.eqb_eq. split; [intros ->; reflexivity|intros [= ->]; reflexivity].
Qed.

Lemma same_key_str (s : string) (v : pyval) :
  same_key (PStr s) v = Py.eq_str v s.
Proof.
  destruct v; simpl; try reflexivity. apply String.eqb_sym.
Qed.

Lemma with_serial_app (s : string) (l1 l2 : list device) :
  with_serial s (l1 ++ l2) = with_serial s l1 ++ with_serial s l2.
Proof. apply List.filter_app. Qed.

Lemma nonempty_string_truthy (s : string) : s <> EmptyString -> Py.truthy (PStr s) = true.
Proof.
  intros Hs. simpl. destruct (String.eqb_spec s EmptyString); [contradiction|reflexivity].
Qed.

Section OneSerial.
Variable s : string.
Hypothesis Hs : s <> EmptyString.

(** Appending an entry and remembering its serial keeps the set in step
    with the list. *)
Lemma with_serial_snoc (devs : list device) (d : device) :
  with_serial s (devs ++ [d])
  = with_serial s devs ++ (if Py.eq_str (serial d) s then [d] else []).
Proof. rewrite with_serial_app. reflexivity. Qed.

Lemma tracks_append (st : state) (d : device) (seen_serials : list pyval) :
  tracks s st ->
  remember (serial d) st.2 = Ok seen_serials ->
  tracks s (st.1 ++ [d], seen_serials).
Proof.
  unfold tracks, remember. intros Hst Hrem.
  cbn [fst snd]. rewrite with_serial_snoc.
  destruct (Py.truthy (serial d)) eqn:Htruthy.
  - destruct (hashable (serial d)); [|discriminate]. injection Hrem as <-.
    cbn [existsb]. rewrite same_key_str.
    destruct (Py.eq_str (serial d) s).
    + split; [|reflexivity]. intros _ Hnil.
      apply app_eq_nil in Hnil as [_ [=]].
    + rewrite app_nil_r. exact Hst.
  - injection Hrem as <-.
    destruct (Py.eq_str (serial d) s) eqn:Heq.
    + apply eq_str_spec in Heq. rewrite Heq in Htruthy.
      rewrite nonempty_string_truthy in Htruthy by exact Hs. discriminate.
    + rewrite app_nil_r. exact Hst.
Qed.

Lemma block_record_serial (bd : pydict) (d : device) :
  block_record bd = Ok d -> serial d = Py.get_or bd "serial" (PStr EmptyString).
Proof.
  unfold block_record. destruct (size_in_gb _); simpl; [|discriminate].
  intros [= <-]. reflexivity.
Qed.

Lemma raid_record_serial (raid_name raid_level : pyval) (m : pydict) (d : device) :
  raid_record raid_name raid_level m = Ok d ->
  serial d = Py.get_or m "serial" (PStr EmptyString) /\ raid_member d = true.
Proof.
  unfold raid_record. destruct (size_in_gb _); simpl; [|discriminate].
  intros [= <-]. split; reflexivity.
Qed.

Lemma disk_record_serial (disk : pydict) (d : device) :
  disk_record disk = Ok d -> serial d = disk_serial disk /\ raid_member d = false.
Proof.
  unfold disk_record. destruct (size_in_gb _); simpl; [|discriminate].
  intros [= <-]. split; reflexivity.
Qed.

(** *** 1. Block devices *)

Lemma visit_block_loop (bds : list pyval) (st st' : state) :
  tracks s st ->
  for_each visit_block bds st = Ok st' ->
  tracks s st' /\
  exists added,
    st'.1 = st.1 ++ added /\
    Forall2 of_block bds added.
Proof.
  revert st. induction bds as [|bd bds IH]; intros st Hst; simpl.
  { intros [= <-]. split; [exact Hst|]. exists [].
    rewrite app_nil_r. split; [reflexivity|constructor]. }
  destruct bd as [| | | | | |b]; simpl; try discriminate.
  destruct (block_record b) as [d|e] eqn:Hd; simpl; [|discriminate].
  destruct (remember (Py.get_or b "serial" (PStr EmptyString)) st.2) as [seen_serials|e]
    eqn:Hrem; simpl; [|discriminate].
  intros Hloop. apply IH in Hloop as (Hst' & added & Hadded & Hall).
  - split; [exact Hst'|]. exists (d :: added). simpl in Hadded.
    rewrite Hadded, <- app_assoc. split; [reflexivity|].
    constructor; [exists b; auto|exact Hall].
  - apply tracks_append; [exact Hst|].
    rewrite (block_record_serial b d Hd). exact Hrem.
Qed.

(** *** 2 and 3. RAID members and resource disks *)

Lemma add_unseen_grown (devs0 : list device) (P : device -> Prop)
    (v : pyval) (record : result device) (st st' : state) :
  (forall d, record = Ok d -> serial d = v /\ P d) ->
  grown s devs0 P st ->
  add_unseen v record st = Ok st' ->
  grown s devs0 P st' /\ (v = PStr s -> with_serial s st'.1 <> []).
Proof.
  intros Hrec (Htracks & added & Hdevs & Hall & Hfirst & Hone).
  unfold add_unseen.
  destruct (if Py.truthy v then seen v st.2 else Ok false) as [skip|e] eqn:Hskip;
    cbn [mbind result_bind]; [|discriminate].
  assert (Hseen : v = PStr s ->
                  existsb (same_key (PStr s)) st.2 = skip).
  { intros ->. rewrite nonempty_string_truthy in Hskip by exact Hs.
    unfold seen in Hskip. cbn [hashable] in Hskip. congruence. }
  destruct skip.
  - intros [= <-]. split.
    + split; [exact Htracks|]. exists added. auto.
    + intros Hv. apply Htracks, Hseen, Hv.
  - destruct record as [d|e]; cbn [mbind result_bind]; [|discriminate].
    destruct (Hrec d eq_refl) as [Hserial HP].
    destruct (remember v st.2) as [seen_serials|e] eqn:Hrem;
      cbn [mbind result_bind]; [|discriminate].
    intros [= <-]. cbn [fst snd].
    assert (Htracks' : tracks s (st.1 ++ [d], seen_serials)).
    { apply tracks_append; [exact Htracks|]. rewrite Hserial. exact Hrem. }
    assert (Hnew : Py.eq_str (serial d) s = true -> with_serial s st.1 = []).
    { intros Heq. apply eq_str_spec in Heq. rewrite Hserial in Heq.
      specialize (Hseen Heq).
      destruct (with_serial s st.1) eqn:Hw; [reflexivity|].
      assert (Hin : existsb (same_key (PStr s)) st.2 = true).
      { apply Htracks. rewrite Hw. discriminate. }
      congruence. }
    split.
    + split; [exact Htracks'|]. exists (added ++ [d]). cbn [fst].
      rewrite Hdevs, <- app_assoc. split; [reflexivity|].
      split; [apply Forall_app; split; [exact Hall|constructor; [exact HP|constructor]]|].
      rewrite with_serial_snoc.
      destruct (Py.eq_str (serial d) s) eqn:Heq.
      * specialize (Hnew eq_refl). rewrite Hdevs, with_serial_app in Hnew.
        apply app_eq_nil in Hnew as [Hnil0 Hnil1]. rewrite Hnil1.
        split; [|simpl; lia]. intros Hne. contradiction.
      * rewrite app_nil_r. split; assumption.
    + intros Hv. rewrite with_serial_snoc.
      assert (Heq : Py.eq_str (serial d) s = true).
      { apply eq_str_spec. congruence. }
      rewrite Heq. intros Hnil. apply app_eq_nil in Hnil as [_ [=]].
Qed.

Lemma extends_refl (st : state) : extends st st.
Proof. exists []. rewrite app_nil_r. reflexivity. Qed.

Lemma extends_trans (st1 st2 st3 : state) :
  extends st1 st2 -> extends st2 st3 -> extends st1 st3.
Proof.
  intros [a1 H1] [a2 H2]. exists (a1 ++ a2).
  rewrite H2, H1, app_assoc. reflexivity.
Qed.

Lemma extends_keeps_serial (st st' : state) :
  extends st st' -> with_serial s st.1 <> [] -> with_serial s st'.1 <> [].
Proof.
  intros [added ->]. rewrite with_serial_app. intros Hne Hnil.
  apply app_eq_nil in Hnil as [Hnil _]. contradiction.
Qed.

Lemma add_unseen_extends (v : pyval) (record : result device) (st st' : state) :
  add_unseen v record st = Ok st' -> extends st st'.
Proof.
  unfold add_unseen.
  destruct (if Py.truthy v then seen v st.2 else Ok false) as [[|]|e];
    cbn [mbind result_bind]; [| |discriminate].
  - intros [= <-]. apply extends_refl.
  - destruct record as [d|e]; cbn [mbind result_bind]; [|discriminate].
    destruct (remember v st.2); cbn [mbind result_bind]; [|discriminate].
    intros [= <-]. exists [d]. reflexivity.
Qed.

Lemma visit_member_grown (devs0 : list device) (raid_name raid_level member : pyval)
    (st st' : state) :
  grown s devs0 of_raid_member st ->
  visit_member raid_name raid_level member st = Ok st' ->
  grown s devs0 of_raid_member st' /\
  (forall m, member = PDict m -> Py.get_or m "serial" (PStr EmptyString) = PStr s ->
             with_serial s st'.1 <> []).
Proof.
  intros Hst. destruct member as [| | | | | |m]; simpl; try discriminate.
  intros Hadd.
  destruct (add_unseen_grown devs0 of_raid_member
              (Py.get_or m "serial" (PStr EmptyString)) (raid_record raid_name raid_level m)
              st st') as [Hgrown Hpresent]; [|exact Hst|exact Hadd|].
  - intros d Hd. split; [apply (raid_record_serial _ _ _ _ Hd)|].
    exists raid_name, raid_level, m. exact Hd.
  - split; [exact Hgrown|]. intros m' [= <-]. exact Hpresent.
Qed.

Lemma visit_member_extends (raid_name raid_level member : pyval) (st st' : state) :
  visit_member raid_name raid_level member st = Ok st' -> extends st st'.
Proof.
  destruct member; simpl; try discriminate. apply add_unseen_extends.
Qed.

Lemma for_each_extends {A : Type} (body : A -> state -> result state)
    (xs : list A) (st st' : state) :
  (forall x a a', body x a = Ok a' -> extends a a') ->
  for_each body xs st = Ok st' -> extends st st'.
Proof.
  intros Hbody. apply (for_each_invariant (extends st)); [apply extends_refl|].
  intros x a a' _ Ha Hx. eapply extends_trans; [exact Ha|]. eapply Hbody, Hx.
Qed.

Lemma visit_raid_extends (raid : pyval) (st st' : state) :
  visit_raid raid st = Ok st' -> extends st st'.
Proof.
  destruct raid as [| | | | | |r]; simpl; try discriminate.
  destruct (concat _ _) as [members|e]; cbn [mbind result_bind]; [|discriminate].
  apply for_each_extends. intros x a a'. apply visit_member_extends.
Qed.

Lemma visit_raid_grown (devs0 : list device) (raid : pyval) (st st' : state) :
  grown s devs0 of_raid_member st ->
  visit_raid raid st = Ok st' ->
  grown s devs0 of_raid_member st' /\ raid_covered s raid st'.
Proof.
  intros Hst. unfold raid_covered.
  destruct raid as [| | | | | |r]; simpl; try discriminate.
  destruct (concat (Py.get_or r "devices" (PList []))
              (Py.get_or r "spare_devices" (PList []))) as [members|e] eqn:Hc;
    cbn [mbind result_bind]; [|discriminate].
  intros Hloop.
  destruct (for_each_reaches (grown s devs0 of_raid_member)
              (fun member st => forall m, member = PDict m ->
                 Py.get_or m "serial" (PStr EmptyString) = PStr s ->
                 with_serial s st.1 <> [])
              (visit_member (Py.get_or r "name" (PStr EmptyString))
                 (Py.get_or r "level" (PStr EmptyString)))
              members st st' Hst) as [Hgrown Hall].
  - intros member a a' _ Ha. apply visit_member_grown. exact Ha.
  - intros member y a a' _ Hcov Hy m Hm Hserial.
    eapply extends_keeps_serial; [eapply visit_member_extends, Hy|].
    apply (Hcov m Hm Hserial).
  - exact Hloop.
  - split; [exact Hgrown|]. intros r' members' m [= <-] Hc' Hm Hserial.
    rewrite Hc in Hc'. injection Hc' as <-.
    apply (Hall (PDict m) Hm m eq_refl Hserial).
Qed.

Lemma visit_disk_grown (devs0 : list device) (disk : pyval) (st st' : state) :
  grown s devs0 of_resource_disk st ->
  visit_disk disk st = Ok st' ->
  grown s devs0 of_resource_disk st' /\
  (forall k, disk = PDict k -> disk_serial k = PStr s -> with_serial s st'.1 <> []).
Proof.
  intros Hst. destruct disk as [| | | | | |k]; simpl; try discriminate.
  intros Hadd.
  destruct (add_unseen_grown devs0 of_resource_disk
              (disk_serial k) (disk_record k) st st') as [Hgrown Hpresent];
    [|exact Hst|exact Hadd|].
  - intros d Hd. split; [apply (disk_record_serial _ _ Hd)|].
    exists k. exact Hd.
  - split; [exact Hgrown|]. intros k' [= <-]. exact Hpresent.
Qed.

Lemma visit_disk_extends (disk : pyval) (st st' : state) :
  visit_disk disk st = Ok st' -> extends st st'.
Proof.
  destruct disk; simpl; try discriminate. apply add_unseen_extends.
Qed.

Lemma grown_start (P : device -> Prop) (st : state) :
  tracks s st -> grown s st.1 P st.
Proof.
  intros Hst. split; [exact Hst|]. exists [].
  rewrite app_nil_r. split; [reflexivity|]. split; [constructor|].
  split; [reflexivity|simpl; lia].
Qed.

End OneSerial.

End StorageFacts.

(** C7, as amended.  The storage list is the entries of all block devices,
    then entries of RAID members, then entries of resource disks.  For a
    non-empty serial, the later parts hold no entry when an earlier part
    has one, and at most one entry each; a RAID member or resource disk
    with that serial is never left without an entry for it.  So a serial
    shared between sources is listed from the first source that has it,
    once, unless the block-device list itself has it several times. *)
Theorem storage_serial_first_source (machine : pydict)
    (machine_resources : option pydict) (devs : list Storage.device) (s : string) :
  Storage.extract_storage_details machine machine_resources = Ok devs ->
  s <> EmptyString ->
  exists bds blocks raids disks,
    Storage.block_devices machine = Ok bds /\
    devs = blocks ++ raids ++ disks /\
    Forall2 Storage.of_block bds blocks /\
    Forall Storage.of_raid_member raids /\
    Forall Storage.of_resource_disk disks /\
    (Storage.with_serial s blocks <> [] ->
     Storage.with_serial s raids = [] /\ Storage.with_serial s disks = []) /\
    (Storage.with_serial s raids <> [] -> Storage.with_serial s disks = []) /\
    (length (Storage.with_serial s raids) <= 1)%nat /\
    (length (Storage.with_serial s disks) <= 1)%nat /\
    (Storage.raid_member_with_serial s machine ->
     Storage.with_serial s (blocks ++ raids) <> []) /\
    (Storage.resource_disk_with_serial s machine_resources ->
     Storage.with_serial s devs <> []).
Proof.
  intros Hdevs Hs. unfold Storage.extract_storage_details in Hdevs.
  destruct (Storage.block_devices machine) as [bds|e] eqn:Hbds;
    cbn [mbind result_bind] in Hdevs; [|discriminate].
  destruct (for_each Storage.visit_block bds ([], [])) as [st1|e] eqn:H1;
    cbn [mbind result_bind] in Hdevs; [|discriminate].
  destruct (Storage.raid_sets machine) as [raid_sets|e] eqn:Hraids;
    cbn [mbind result_bind] in Hdevs; [|discriminate].
  destruct (for_each Storage.visit_raid raid_sets st1) as [st2|e] eqn:H2;
    cbn [mbind result_bind] in Hdevs; [|discriminate].
  destruct (Storage.resource_disks machine_resources) as [rdisks|e] eqn:Hdisks;
    cbn [mbind result_bind] in Hdevs; [|discriminate].
  destruct (for_each Storage.visit_disk rdisks st2) as [st3|e] eqn:H3;
    cbn [mbind result_bind] in Hdevs; [|discriminate].
  injection Hdevs as <-.
  (* 1. block devices *)
  destruct (StorageFacts.visit_block_loop s Hs bds ([], []) st1)
    as (Htracks1 & blocks & Hblocks & Hof); [|exact H1|].
  { unfold Storage.tracks. simpl. split; [discriminate|intros []; reflexivity]. }
  simpl in Hblocks.
  (* 2. RAID members *)
  destruct (for_each_reaches (Storage.grown s st1.1 Storage.of_raid_member)
              (Storage.raid_covered s) Storage.visit_raid raid_sets st1 st2)
    as [(Htracks2 & raids & Hraid_list & Hraid_of & Hraid_first & Hraid_one) Hraid_cov].
  { apply StorageFacts.grown_start. exact Htracks1. }
  { intros raid a a' _ Ha. apply StorageFacts.visit_raid_grown; assumption. }
  { intros raid y a a' _ Hcov Hy r members m Hr Hc Hm Hserial.
    eapply StorageFacts.extends_keeps_serial;
      [eapply StorageFacts.visit_raid_extends, Hy|].
    eapply Hcov; eassumption. }
  { exact H2. }
  (* 3. resource disks *)
  destruct (for_each_reaches (Storage.grown s st2.1 Storage.of_resource_disk)
              (fun disk st => forall k, disk = PDict k ->
                 Storage.disk_serial k = PStr s -> Storage.with_serial s st.1 <> [])
              Storage.visit_disk rdisks st2 st3)
    as [(Htracks3 & disks & Hdisk_list & Hdisk_of & Hdisk_first & Hdisk_one) Hdisk_cov].
  { apply StorageFacts.grown_start. exact Htracks2. }
  { intros disk a a' _ Ha. apply StorageFacts.visit_disk_grown; assumption. }
  { intros disk y a a' _ Hcov Hy k Hk Hserial.
    eapply StorageFacts.extends_keeps_serial;
      [eapply StorageFacts.visit_disk_extends, Hy|].
    eapply Hcov; eassumption. }
  { exact H3. }
  rewrite Hraid_list, Hblocks in Hdisk_list, Hdisk_first.
  rewrite Hblocks in Hraid_list, Hraid_first.
  rewrite StorageFacts.with_serial_app in Hdisk_first.
  exists bds, blocks, raids, disks.
  split; [reflexivity|]. split; [rewrite Hdisk_list, <- app_assoc; reflexivity|].
  split; [exact Hof|]. split; [exact Hraid_of|]. split; [exact Hdisk_of|].
  split.
  { intros Hne. split; [apply Hraid_first; exact Hne|].
    apply Hdisk_first. intros Hnil. apply app_eq_nil in Hnil as [Hnil _].
    contradiction. }
  split.
  { intros Hne. apply Hdisk_first. intros Hnil.
    apply app_eq_nil in Hnil as [_ Hnil]. contradiction. }
  split; [exact Hraid_one|]. split; [exact Hdisk_one|].
  split.
  - intros (raids' & raid & members & member & Hr & Hin & Hc & Hm & Hserial).
    rewrite Hraids in Hr. injection Hr as <-.
    rewrite <- Hraid_list.
    apply (Hraid_cov (PDict raid) Hin raid members member eq_refl Hc Hm Hserial).
  - intros (disks' & disk & Hd & Hin & Hserial).
    rewrite Hdisks in Hd. injection Hd as <-.
    apply (Hdisk_cov (PDict disk) Hin disk eq_refl Hserial).
Qed.

Lemma storage_serial_first_source_witness :
  exists devs,
    Storage.extract_storage_details Storage.machine (Some Storage.machine_resources)
    = Ok devs /\
    exists bds blocks raids disks,
      Storage.block_devices Storage.machine = Ok bds /\
      devs = blocks ++ raids ++ disks /\
      Forall2 Storage.of_block bds blocks /\
      Forall Storage.of_raid_member raids /\
      Forall Storage.of_resource_disk disks /\
      (Storage.with_serial "S1" blocks <> [] ->
       Storage.with_serial "S1" raids = [] /\ Storage.with_serial "S1" disks = []) /\
      (Storage.with_serial "S1" raids <> [] -> Storage.with_serial "S1" disks = []) /\
      (length (Storage.with_serial "S1" raids) <= 1)%nat /\
      (length (Storage.with_serial "S1" disks) <= 1)%nat /\
      (Storage.raid_member_with_serial "S1" Storage.machine ->
       Storage.with_serial "S1" (blocks ++ raids) <> []) /\
      (Storage.resource_disk_with_serial "S1" (Some Storage.machine_resources) ->
       Storage.with_serial "S1" devs <> []).
Proof.
  eexists. split; [vm_compute; reflexivity|].
  apply (storage_serial_first_source Storage.machine (Some Storage.machine_resources)).
  - vm_compute. reflexivity.
  - discriminate.
Defined.

(** C7 as stated fails when the block-device list itself names a serial
    twice: the serial is shared with a RAID member, the member is dropped,
    and still two entries carry the serial. *)
Lemma storage_two_entries_for_one_serial :
  Storage.raid_member_with_serial "S1" Storage.multipath_machine /\
  exists devs,
    Storage.extract_storage_details Storage.multipath_machine None = Ok devs /\
    length (Storage.with_serial "S1" devs) = 2%nat.
Proof.
  split.
  - eexists _, _, _, _. split; [vm_compute; reflexivity|].
    split; [left|]. split; [vm_compute; reflexivity|].
    split; [left|]. reflexivity.
  - eexists. split; [vm_compute; reflexivity|]. reflexivity.
Qed.
(** ** Units of memory and storage sizes *)

(** *** Division and rounding in binary64 *)

Module Binary64Facts.

Lemma round_half_even_close (q : Q) :
  (Qabs (inject_Z (Num.round_half_even q) - q) <= 1 # 2)%Q.
Proof.
  unfold Num.round_half_even.
  pose proof (Qfloor_le q) as Hlo. pose proof (Qlt_floor q) as Hhi.
  rewrite inject_Z_plus in Hhi. change (inject_Z 1) with 1%Q in Hhi.
  set (f := Qfloor q) in *.
  change (f # 1)%Q with (inject_Z f).
  apply Qabs_Qle_condition.
  destruct (Qcompare_spec (q - inject_Z f) (1 # 2)) as [Heq|Hlt|Hgt].
  - destruct (Z.even f);
      [|rewrite inject_Z_plus; change (inject_Z 1) with 1%Q]; lra.
  - lra.
  - rewrite inject_Z_plus. change (inject_Z 1) with 1%Q. lra.
Qed.

Lemma pow2_pos (k : Z) : (0 < Num.pow2 k)%Q.
Proof. apply Qpower_0_lt. reflexivity. Qed.

Lemma pow2_add (a b : Z) : (Num.pow2 (a + b) == Num.pow2 a * Num.pow2 b)%Q.
Proof. apply Qpower_plus. discriminate. Qed.

Lemma pow2_le (a b : Z) : a <= b -> (Num.pow2 a <= Num.pow2 b)%Q.
Proof. intros Hab. apply Qpower_le_compat_l; [exact Hab|]. discriminate. Qed.

Lemma pow2_inject (k : Z) : 0 <= k -> (Num.pow2 k == inject_Z (2 ^ k))%Q.
Proof. intros Hk. symmetry. apply (Zpower_Qpower 2 k Hk). Qed.

Lemma Qabs_make (q : Q) :
  (Qabs q == inject_Z (Z.abs (Qnum q)) / inject_Z (Z.pos (Qden q)))%Q.
Proof.
  destruct q as [n d]. unfold Qabs. simpl Qnum. simpl Qden.
  rewrite (Qmake_Qdiv (Z.abs n) d). reflexivity.
Qed.

(** [exponent] is the exponent. *)
Lemma exponent_spec (q : Q) :
  ~ (q == 0)%Q ->
  (Num.pow2 (Num.exponent q) <= Qabs q)%Q /\ (Qabs q < Num.pow2 (Num.exponent q + 1))%Q.
Proof.
  intros Hq. unfold Num.exponent.
  set (n := Z.abs (Qnum q)). set (d := Z.pos (Qden q)).
  assert (Hn : 0 < n).
  { unfold n. destruct q as [[|p|p] dd]; simpl; try lia.
    exfalso. apply Hq. reflexivity. }
  assert (Hd : 0 < d) by (unfold d; lia).
  destruct (Z.log2_spec n Hn) as [Hn1 Hn2].
  destruct (Z.log2_spec d Hd) as [Hd1 Hd2].
  pose proof (Z.log2_nonneg n) as Hln. pose proof (Z.log2_nonneg d) as Hld.
  assert (Habs : (Qabs q == inject_Z n / inject_Z d)%Q) by apply Qabs_make.
  assert (Hdq : (0 < inject_Z d)%Q) by (unfold Qlt; cbn [Qnum Qden inject_Z]; lia).
  assert (Hn1q : (Num.pow2 (Z.log2 n) <= inject_Z n)%Q).
  { rewrite pow2_inject by exact Hln. unfold Qle. cbn [Qnum Qden inject_Z]. lia. }
  assert (Hn2q : (inject_Z n < Num.pow2 (Z.log2 n + 1))%Q).
  { rewrite pow2_inject by lia. unfold Qlt. cbn [Qnum Qden inject_Z].
    replace (Z.log2 n + 1) with (Z.succ (Z.log2 n)) by lia. lia. }
  assert (Hd1q : (Num.pow2 (Z.log2 d) <= inject_Z d)%Q).
  { rewrite pow2_inject by exact Hld. unfold Qle. cbn [Qnum Qden inject_Z]. lia. }
  assert (Hd2q : (inject_Z d < Num.pow2 (Z.log2 d + 1))%Q).
  { rewrite pow2_inject by lia. unfold Qlt. cbn [Qnum Qden inject_Z].
    replace (Z.log2 d + 1) with (Z.succ (Z.log2 d)) by lia. lia. }
  set (e := Z.log2 n - Z.log2 d).
  assert (Hlow : (Num.pow2 (e - 1) <= Qabs q)%Q).
  { rewrite Habs. apply Qle_shift_div_l; [exact Hdq|].
    apply Qle_trans with (Num.pow2 (e - 1) * Num.pow2 (Z.log2 d + 1))%Q.
    - apply Qmult_le_l; [apply pow2_pos|]. apply Qlt_le_weak. exact Hd2q.
    - rewrite <- pow2_add. replace (e - 1 + (Z.log2 d + 1)) with (Z.log2 n) by (unfold e; lia).
      exact Hn1q. }
  assert (Hhigh : (Qabs q < Num.pow2 (e + 1))%Q).
  { rewrite Habs. apply Qlt_shift_div_r; [exact Hdq|].
    apply Qlt_le_trans with (Num.pow2 (Z.log2 n + 1)); [exact Hn2q|].
    replace (Z.log2 n + 1) with (e + 1 + Z.log2 d) by (unfold e; lia).
    rewrite pow2_add. apply Qmult_le_l; [apply pow2_pos|]. exact Hd1q. }
  destruct (Qle_bool (Num.pow2 e) (Qabs q)) eqn:Hle.
  - apply Qle_bool_iff in Hle. split; assumption.
  - split; [exact Hlow|].
    replace (e - 1 + 1) with e by lia.
    apply Qnot_le_lt. intros Hc. apply Qle_bool_iff in Hc. congruence.
Qed.

(** Rounding moves a number by at most half a unit of its last bit. *)
Lemma nearest_error (q : Q) :
  ~ (q == 0)%Q ->
  (Qabs (Num.nearest q - q)
   <= Num.pow2 (Z.max (Num.exponent q - 52) (-1074)) * (1 # 2))%Q.
Proof.
  intros Hq. unfold Num.nearest.
  destruct (Qeq_bool q 0) eqn:H0; [apply Qeq_bool_iff in H0; contradiction|].
  cbn zeta. set (s := Z.max (Num.exponent q - 52) (-1074)).
  rewrite Qred_correct.
  pose proof (pow2_pos s) as Hs.
  pose proof (round_half_even_close (q / Num.pow2 s)) as Hclose.
  set (m := inject_Z (Num.round_half_even (q / Num.pow2 s))) in *.
  assert (Heq : (m * Num.pow2 s - q == (m - q / Num.pow2 s) * Num.pow2 s)%Q).
  { field. lra. }
  rewrite Heq, Qabs_Qmult, (Qabs_pos (Num.pow2 s)) by lra.
  rewrite (Qmult_comm (Num.pow2 s)).
  apply Qmult_le_compat_r; [exact Hclose|lra].
Qed.

(** In the normal range the error is at most [2^-53] of the number. *)
Lemma nearest_relative_error (q : Q) :
  (Num.pow2 (-1022) <= Qabs q)%Q ->
  (Qabs (Num.nearest q - q) <= Qabs q * Num.pow2 (-53))%Q.
Proof.
  intros Hnormal.
  assert (Hq : ~ (q == 0)%Q).
  { intros H0. rewrite H0 in Hnormal. pose proof (pow2_pos (-1022)) as Hp.
    change (Qabs 0) with 0%Q in Hnormal. lra. }
  destruct (exponent_spec q Hq) as [Hlo Hhi].
  assert (He : -1022 <= Num.exponent q).
  { assert (Hlt : (Num.pow2 (-1022) < Num.pow2 (Num.exponent q + 1))%Q) by lra.
    apply Qpower_lt_compat_l_inv in Hlt; [lia|reflexivity]. }
  eapply Qle_trans; [apply (nearest_error q Hq)|].
  rewrite Z.max_l by lia.
  replace (Num.exponent q - 52) with (Num.exponent q + (-52)) by lia.
  rewrite pow2_add.
  assert (H52 : (Num.pow2 (-52) * (1 # 2) == Num.pow2 (-53))%Q) by reflexivity.
  rewrite <- Qmult_assoc, H52.
  apply Qmult_le_compat_r; [exact Hlo|]. apply Qlt_le_weak, pow2_pos.
Qed.

Lemma Qabs_make_pos (a : Z) (b : positive) :
  (Qabs (a # b) == inject_Z (Z.abs a) / inject_Z (Z.pos b))%Q.
Proof. apply (Qabs_make (a # b)). Qed.

(** The quotient of an integer that is not 0 by a constant up to
    [2^1022] is in the normal range. *)
Lemma quotient_normal (a : Z) (b : positive) :
  a <> 0 -> Z.pos b <= 2 ^ 1022 -> (Num.pow2 (-1022) <= Qabs (a # b))%Q.
Proof.
  intros Ha Hb. rewrite Qabs_make_pos.
  assert (Hbq : (0 < inject_Z (Z.pos b))%Q) by reflexivity.
  apply Qle_shift_div_l; [exact Hbq|].
  apply Qle_trans with 1%Q.
  - apply Qle_trans with (Num.pow2 (-1022) * Num.pow2 1022)%Q.
    + apply Qmult_le_l; [apply pow2_pos|].
      rewrite pow2_inject by lia. unfold Qle. cbn [Qnum Qden inject_Z]. lia.
    + rewrite <- pow2_add. apply Qle_refl.
  - unfold Qle. cbn [Qnum Qden inject_Z]. lia.
Qed.

(** [a / b] of two integers: the quotient within [2^-53] of itself, or an
    [OverflowError], and that only for a quotient from [2^1023] on. *)
Lemma int_div_spec (a : Z) (b : positive) :
  Z.pos b <= 2 ^ 1022 ->
  match Num.int_div a b with
  | Ok (Num.Float (FFin r)) =>
      (Qabs (r - (a # b)) <= Qabs (a # b) * Num.pow2 (-53))%Q
  | Ok _ => False
  | Raise e => e = OverflowError /\ (Num.pow2 1023 <= Qabs (a # b))%Q
  end.
Proof.
  intros Hb. unfold Num.int_div, Num.to_float.
  assert (Herr : (Qabs (Num.nearest (a # b) - (a # b))
                  <= Qabs (a # b) * Num.pow2 (-53))%Q).
  { destruct (Z.eq_dec a 0) as [->|Ha].
    - assert (H0 : Num.nearest (0 # b) = 0%Q) by reflexivity.
      rewrite H0. assert (Hz : (0 # b == 0)%Q) by reflexivity.
      rewrite Hz. change (Qabs (0 - 0)) with 0%Q. change (Qabs 0) with 0%Q.
      rewrite Qmult_0_l. apply Qle_refl.
    - apply nearest_relative_error, quotient_normal; assumption. }
  destruct (Num.in_range (Num.nearest (a # b))) eqn:Hrange; [exact Herr|].
  split; [reflexivity|].
  unfold Num.in_range in Hrange. apply negb_false_iff, Qle_bool_iff in Hrange.
  pose proof (Qabs_triangle_reverse (Num.nearest (a # b)) (a # b)) as Htri.
  pose proof (Qabs_nonneg (a # b)) as Hnn.
  assert (Heps : (Qabs (a # b) * Num.pow2 (-53) <= Qabs (a # b))%Q).
  { rewrite (Qmult_comm (Qabs (a # b))).
    rewrite <- (Qmult_1_l (Qabs (a # b))) at 2.
    apply Qmult_le_compat_r; [discriminate|exact Hnn]. }
  assert (H24 : (Num.pow2 1024 == 2 * Num.pow2 1023)%Q).
  { change 1024 with (1 + 1023). rewrite pow2_add. reflexivity. }
  rewrite H24 in Hrange. clear H24.
  set (E := (Qabs (a # b) * Num.pow2 (-53))%Q) in *.
  set (P := Num.pow2 1023) in *.
  set (A := Qabs (a # b)) in *.
  set (D := Qabs (Num.nearest (a # b) - (a # b))) in *.
  set (R := Qabs (Num.nearest (a # b))) in *.
  clearbody E P A D R. lra.
Qed.

Lemma round_half_even_int (q : Q) (z : Z) :
  (q == inject_Z z)%Q -> Num.round_half_even q = z.
Proof.
  intros Hq. unfold Num.round_half_even.
  assert (Hf : Qfloor q = z) by (rewrite Hq; apply Qfloor_Z).
  rewrite Hf. change (z # 1)%Q with (inject_Z z).
  destruct (Qcompare_spec (q - inject_Z z) (1 # 2)) as [Heq|Hlt|Hgt];
    [exfalso; lra|reflexivity|exfalso; lra].
Qed.

(** An integer below [2^53] in magnitude is a binary64 number. *)
Lemma nearest_exact (q : Q) (k : Z) :
  (q == inject_Z k)%Q -> Z.abs k < 2 ^ 53 -> Num.nearest q = inject_Z k.
Proof.
  intros Hq Hk. unfold Num.nearest.
  destruct (Qeq_bool q 0) eqn:H0.
  { apply Qeq_bool_iff in H0. rewrite H0 in Hq.
    assert (k = 0) as ->; [|reflexivity].
    unfold Qeq in Hq. cbn [Qnum Qden inject_Z] in Hq. lia. }
  apply Qeq_bool_neq in H0. cbn zeta.
  destruct (exponent_spec q H0) as [Hlo Hhi].
  assert (Habs : (Qabs q == inject_Z (Z.abs k))%Q).
  { rewrite Hq. unfold Qabs, inject_Z. reflexivity. }
  assert (He1 : Num.exponent q < 53).
  { assert (Hlt : (Num.pow2 (Num.exponent q) < Num.pow2 53)%Q).
    { eapply Qle_lt_trans; [exact Hlo|]. rewrite Habs, pow2_inject by lia.
      unfold Qlt. cbn [Qnum Qden inject_Z]. lia. }
    apply Qpower_lt_compat_l_inv in Hlt; [exact Hlt|reflexivity]. }
  assert (He0 : 0 <= Num.exponent q).
  { assert (Hlt : (Num.pow2 0 < Num.pow2 (Num.exponent q + 1))%Q).
    { eapply Qle_lt_trans; [|exact Hhi]. rewrite Habs.
      change (Num.pow2 0) with 1%Q. unfold Qle. cbn [Qnum Qden inject_Z].
      assert (k <> 0); [|lia].
      intros ->. apply H0. rewrite Hq. reflexivity. }
    apply (Qpower_lt_compat_l_inv 2 0 (Num.exponent q + 1)) in Hlt; [lia|reflexivity]. }
  rewrite Z.max_l by lia.
  set (s := Num.exponent q - 52) in *.
  assert (Hs : (Num.pow2 s * Num.pow2 (- s) == 1)%Q).
  { rewrite <- pow2_add. replace (s + - s) with 0 by lia. reflexivity. }
  pose proof (pow2_pos s) as Hps.
  assert (Hx : (q / Num.pow2 s == inject_Z (k * 2 ^ (- s)))%Q).
  { rewrite inject_Z_mult, <- pow2_inject by lia. rewrite Hq.
    unfold Qdiv. apply Qmult_comp; [reflexivity|].
    symmetry. apply Qpower_opp. }
  rewrite (round_half_even_int _ _ Hx).
  assert (Hval : (inject_Z (k * 2 ^ (- s)) * Num.pow2 s == inject_Z k)%Q).
  { rewrite inject_Z_mult, <- pow2_inject by lia.
    rewrite <- Qmult_assoc, (Qmult_comm (Num.pow2 (- s))), Hs. apply Qmult_1_r. }
  rewrite (Qred_complete _ _ Hval). apply Qred_identity.
  cbn [Qnum Qden inject_Z]. apply Z.gcd_1_r.
Qed.

(** A quotient that is a whole number below [2^53] is computed
    exactly. *)
Lemma int_div_exact (k : Z) (b : positive) :
  Z.abs k < 2 ^ 53 ->
  Num.int_div (k * Z.pos b) b = Ok (Num.Float (FFin (inject_Z k))).
Proof.
  intros Hk. unfold Num.int_div, Num.to_float.
  assert (Hq : (k * Z.pos b # b == inject_Z k)%Q).
  { unfold Qeq. cbn [Qnum Qden inject_Z]. lia. }
  rewrite (nearest_exact _ k Hq Hk).
  assert (Hrange : Num.in_range (inject_Z k) = true).
  { unfold Num.in_range. apply negb_true_iff.
    destruct (Qle_bool (Num.pow2 1024) (Qabs (inject_Z k))) eqn:Hle; [|reflexivity].
    apply Qle_bool_iff in Hle. exfalso.
    assert (Habs : (Qabs (inject_Z k) == inject_Z (Z.abs k))%Q) by reflexivity.
    rewrite Habs, pow2_inject in Hle by lia.
    unfold Qle in Hle. cbn [Qnum Qden inject_Z] in Hle.
    assert (2 ^ 53 < 2 ^ 1024) by (apply Z.pow_lt_mono_r; lia). lia. }
  rewrite Hrange. reflexivity.
Qed.

(** Rounding to one decimal leaves a whole number as it is. *)
Lemma round1_whole (k : Z) :
  Z.abs k < 2 ^ 53 ->
  Num.round1 (Num.Float (FFin (inject_Z k))) = Num.Float (FFin (inject_Z k)).
Proof.
  intros Hk. unfold Num.round1. do 2 f_equal.
  assert (H10 : (inject_Z k * (10 # 1) == inject_Z (k * 10))%Q).
  { rewrite inject_Z_mult. reflexivity. }
  rewrite (round_half_even_int _ _ H10).
  apply nearest_exact; [|exact Hk].
  unfold Qeq. cbn [Qnum Qden inject_Z]. lia.
Qed.

End Binary64Facts.

(** *** The conversions *)

Lemma lshw_size_gb_units (node size_el : Xml.element) (text : string) (raw : Z) :
  Xml.find node "size" = Some size_el ->
  Xml.nonempty_text size_el = Some text ->
  Py.int_of_string text = Ok raw ->
  lshw_size_gb node
  = let units := Xml.get size_el "units" "bytes" in
    if String.eqb units "KiB" then Num.int_div raw (1024 ^ 2)
    else if String.eqb units "MiB" then Num.int_div raw 1024
    else if String.eqb units "GiB" then Ok (Num.Int raw)
    else Num.int_div raw (1024 ^ 3).
Proof.
  intros Hfind Htext Hraw. unfold lshw_size_gb.
  rewrite Hfind, Htext, Hraw. cbn zeta.
  destruct (String.eqb_spec (Xml.get size_el "units" "bytes") "bytes") as [->|_];
    reflexivity.
Qed.

Lemma size_in_gb_int (size_bytes : Z) :
  size_bytes <> 0 ->
  Storage.size_in_gb (PInt size_bytes)
  = (q ← Num.int_div size_bytes (1000 ^ 3); Ok (Num.round1 q)).
Proof.
  intros Hnz. unfold Storage.size_in_gb. cbn [Py.truthy Num.of_pyval Num.div].
  destruct (Z.eqb_spec size_bytes 0); [contradiction|reflexivity].
Qed.

Lemma mr_dimm_size `{PyRepr} (flat : bool) (entry : pydict) (size_mb : Z) (d : dimm) :
  Py.get_or entry "size" (PInt 0) = PInt size_mb -> size_mb <> 0 ->
  mr_dimm flat entry = Ok d ->
  exists q, Num.int_div size_mb 1024 = Ok q /\ size_gb d = Num.round1 q.
Proof.
  intros Hsize Hnz. unfold mr_dimm. rewrite Hsize.
  cbn [Py.truthy Num.of_pyval Num.div].
  destruct (Z.eqb_spec size_mb 0); [contradiction|]. cbn [negb].
  destruct (Num.int_div size_mb 1024) as [q|e]; cbn [mbind result_bind]; [|discriminate].
  intros [= <-]. exists q. split; reflexivity.
Qed.

(** C9.  A memory node of 17179869184 bytes is listed with 16.0 GiB and a
    disk of 2000000000000 bytes with 2000.0 GB.  The size of a memory node
    is its integer divided by 1024^3 for bytes (and for unknown units), by
    1024^2 for KiB, by 1024 for MiB, and taken as it is for GiB; the size of
    a machine-resources DIMM is its MiB divided by 1024; the size of a
    storage device is its bytes divided by 1000^3.  The division is the
    interpreter's: its result is the quotient rounded to binary64, within
    2^-53 of the quotient, and the quotient itself where that is a whole
    number below 2^53; it raises OverflowError, and only for a quotient
    from 2^1023 on.  The result is then rounded to one decimal, which
    leaves such a whole number as it is. *)
Theorem memory_binary_storage_decimal :
  lshw_dimm DimmExamples.dimm_a1 = Ok (Some DimmExamples.dimm_a1_entry) /\
  size_gb DimmExamples.dimm_a1_entry = Num.Float (FFin 16) /\
  Storage.size_in_gb (PInt 2000000000000) = Ok (Num.Float (FFin 2000)) /\
  (forall node size_el text raw,
     Xml.find node "size" = Some size_el ->
     Xml.nonempty_text size_el = Some text ->
     Py.int_of_string text = Ok raw ->
     lshw_size_gb node
     = let units := Xml.get size_el "units" "bytes" in
       if String.eqb units "KiB" then Num.int_div raw (1024 ^ 2)
       else if String.eqb units "MiB" then Num.int_div raw 1024
       else if String.eqb units "GiB" then Ok (Num.Int raw)
       else Num.int_div raw (1024 ^ 3)) /\
  (forall `{PyRepr} flat entry size_mb d,
     Py.get_or entry "size" (PInt 0) = PInt size_mb -> size_mb <> 0 ->
     mr_dimm flat entry = Ok d ->
     exists q, Num.int_div size_mb 1024 = Ok q /\ size_gb d = Num.round1 q) /\
  (forall size_bytes,
     size_bytes <> 0 ->
     Storage.size_in_gb (PInt size_bytes)
     = (q ← Num.int_div size_bytes (1000 ^ 3); Ok (Num.round1 q))) /\
  (forall a b,
     Z.pos b <= 2 ^ 1022 ->
     match Num.int_div a b with
     | Ok (Num.Float (FFin r)) =>
         (Qabs (r - (a # b)) <= Qabs (a # b) * Num.pow2 (-53))%Q
     | Ok _ => False
     | Raise e => e = OverflowError /\ (Num.pow2 1023 <= Qabs (a # b))%Q
     end) /\
  (forall k b,
     Z.abs k < 2 ^ 53 ->
     Num.int_div (k * Z.pos b) b = Ok (Num.Float (FFin (inject_Z k))) /\
     Num.round1 (Num.Float (FFin (inject_Z k))) = Num.Float (FFin (inject_Z k))).
Proof.
  split; [vm_compute; reflexivity|]. split; [reflexivity|].
  split; [vm_compute; reflexivity|].
  split; [exact lshw_size_gb_units|]. split; [exact @mr_dimm_size|].
  split; [exact size_in_gb_int|]. split; [exact Binary64Facts.int_div_spec|].
  intros k b Hk. split.
  - apply Binary64Facts.int_div_exact. exact Hk.
  - apply Binary64Facts.round1_whole. exact Hk.
Qed.

Lemma memory_binary_storage_decimal_witness :
  lshw_size_gb DimmExamples.dimm_a1 = Num.int_div 17179869184 (1024 ^ 3) /\
  Num.int_div (16 * Z.pos (1024 ^ 3)) (1024 ^ 3) = Ok (Num.Float (FFin (inject_Z 16))) /\
  Storage.size_in_gb (PInt 2000000000000)
  = (q ← Num.int_div 2000000000000 (1000 ^ 3); Ok (Num.round1 q)).
Proof.
  destruct memory_binary_storage_decimal as (_ & _ & _ & Hmem & _ & Hsto & _ & Hexact).
  split; [|split].
  - apply (Hmem DimmExamples.dimm_a1
             (Xml.Element "size" [("units", "bytes")]%string (Some "17179869184"%string) [])
             "17179869184"%string 17179869184); reflexivity.
  - apply (Hexact 16 (1024 ^ 3)%positive). reflexivity.
  - apply Hsto. discriminate.
Defined.

(** Binary64 at work: 350000000 bytes are 0.35 GB, which binary64 holds as
    a number just below, so that the list shows 0.3 (the float for it) and
    not 0.4; and a size of 10^400 bytes ends the extraction. *)
Example size_in_gb_below_the_tie :
  Storage.size_in_gb (PInt 350000000)
  = Ok (Num.Float (FFin (5404319552844595 # 18014398509481984))) /\
  (5404319552844595 # 18014398509481984 < 3 # 10)%Q /\
  Storage.size_in_gb (PInt (10 ^ 400)) = Raise OverflowError.
Proof.
  split; [vm_compute; reflexivity|]. split; [reflexivity|vm_compute; reflexivity].
Qed.

(** ** Network cards *)

Module NicFacts.
Import Nic.

Lemma normalized_mac_text (n : pydict) :
  is_text (Py.or_else (Py.get_or n "mac" (PStr EmptyString)) (PStr EmptyString)) = true ->
  normalized_mac n = Ok (mac_text n).
Proof.
  unfold normalized_mac, mac_text.
  destruct (Py.or_else _ _); simpl; try discriminate. reflexivity.
Qed.

Lemma well_formed_mac (n : pydict) :
  well_formed n = true ->
  is_text (Py.or_else (Py.get_or n "mac" (PStr EmptyString)) (PStr EmptyString)) = true.
Proof.
  unfold well_formed. intros Hwf.
  repeat (apply andb_true_iff in Hwf as [Hwf _]). exact Hwf.
Qed.

Lemma sort_port_spec (n : pydict) (st : groups * list pydict) :
  well_formed n = true ->
  sort_port n st
  = Ok match card_prefix n with
       | Some p => (add_to_group p n st.1, st.2)
       | None => (st.1, st.2 ++ [n])
       end.
Proof.
  intros Hwf. unfold sort_port, card_prefix.
  rewrite (normalized_mac_text n (well_formed_mac n Hwf)).
  cbn [mbind result_bind].
  destruct (14 <=? String.length (mac_text n))%nat; reflexivity.
Qed.

Lemma sharing_snoc (q : string) (seen : list pydict) (n : pydict) :
  sharing q (seen ++ [n])
  = sharing q seen ++ (if bool_decide (card_prefix n = Some q) then [n] else []).
Proof. unfold sharing. rewrite List.filter_app. reflexivity. Qed.

Lemma without_prefix_snoc (seen : list pydict) (n : pydict) :
  without_prefix (seen ++ [n])
  = without_prefix seen ++ (if bool_decide (card_prefix n = None) then [n] else []).
Proof. unfold without_prefix. rewrite List.filter_app. reflexivity. Qed.

(** What [setdefault] and [append] do to groups that are in step with the
    ports seen. *)
Lemma add_to_group_in_step (seen : list pydict) (n : pydict) (p : string)
    (g : groups) :
  card_prefix n = Some p ->
  NoDup g.*1 ->
  Forall (fun x => x.2 = sharing x.1 seen /\ x.2 <> []) g ->
  (p ∉ g.*1 -> sharing p seen = []) ->
  NoDup (add_to_group p n g).*1 /\
  Forall (fun x => x.2 = sharing x.1 (seen ++ [n]) /\ x.2 <> []) (add_to_group p n g) /\
  p ∈ (add_to_group p n g).*1 /\
  (forall q, q ∈ g.*1 -> q ∈ (add_to_group p n g).*1) /\
  (forall q, q ∈ (add_to_group p n g).*1 -> q = p \/ q ∈ g.*1).
Proof.
  intros Hp. induction g as [|[q members] g IH]; intros Hnd Hall Hnew.
  - simpl. split; [apply NoDup_singleton|]. split; [|split; [left|split]].
    + constructor; [|constructor]. simpl. rewrite sharing_snoc.
      rewrite Hnew by apply not_elem_of_nil.
      rewrite bool_decide_eq_true_2 by exact Hp. split; [reflexivity|discriminate].
    + intros q Hq. apply elem_of_nil in Hq as [].
    + intros q Hq. apply list_elem_of_singleton in Hq. left. exact Hq.
  - rewrite fmap_cons in Hnd. cbn [fst] in Hnd.
    apply NoDup_cons in Hnd as [Hq Hnd].
    apply Forall_cons in Hall as [[Hmembers Hne] Hall].
    cbn [fst snd] in Hmembers, Hne. cbn [add_to_group].
    destruct (String.eqb_spec q p) as [->|Hqp].
    + rewrite !fmap_cons. cbn [fst].
      split; [apply NoDup_cons; split; assumption|].
      split; [|split; [left|split; [auto|]]].
      * constructor.
        -- cbn [fst snd]. rewrite sharing_snoc, <- Hmembers.
           rewrite bool_decide_eq_true_2 by exact Hp.
           split; [reflexivity|]. intros Hnil.
           apply app_eq_nil in Hnil as [_ [=]].
        -- rewrite Forall_forall in Hall |- *. intros x Hx.
           destruct (Hall x Hx) as [Hxm Hxne]. split; [|exact Hxne].
           rewrite sharing_snoc.
           rewrite bool_decide_eq_false_2; [rewrite app_nil_r; exact Hxm|].
           rewrite Hp. intros [= Heq]. apply Hq. rewrite Heq.
           apply list_elem_of_fmap. exists x. split; [reflexivity|exact Hx].
      * intros q' Hq'. right. exact Hq'.
    + destruct IH as (IHnd & IHall & IHp & IHsub & IHonly); [exact Hnd|exact Hall| |].
      { intros Hp'. apply Hnew. rewrite fmap_cons. cbn [fst].
        intros Hin. apply elem_of_cons in Hin as [Heq|Hin];
          [congruence|contradiction]. }
      rewrite !fmap_cons. cbn [fst]. split.
      { apply NoDup_cons. split; [|exact IHnd].
        intros Hin. apply IHonly in Hin as [Heq|Hin]; [congruence|contradiction]. }
      split.
      { constructor; [|exact IHall]. cbn [fst snd]. rewrite sharing_snoc.
        rewrite bool_decide_eq_false_2 by (rewrite Hp; congruence).
        rewrite app_nil_r. split; assumption. }
      split; [right; exact IHp|]. split.
      * intros q' Hq'. apply elem_of_cons in Hq' as [->|Hq']; [left|right; auto].
      * intros q' Hq'. apply elem_of_cons in Hq' as [->|Hq'].
        -- right. left.
        -- apply IHonly in Hq' as [->|Hq']; [left; reflexivity|right; right; exact Hq'].
Qed.

Lemma sharing_elem_of (p : string) (seen : list pydict) (n : pydict) :
  n ∈ sharing p seen <-> n ∈ seen /\ card_prefix n = Some p.
Proof.
  unfold sharing. rewrite filter_elem_of, bool_decide_eq_true. reflexivity.
Qed.

Lemma sort_port_in_step (seen : list pydict) (n : pydict)
    (st : groups * list pydict) :
  well_formed n = true ->
  sorted_so_far seen st ->
  exists st', sort_port n st = Ok st' /\ sorted_so_far (seen ++ [n]) st'.
Proof.
  intros Hwf (Hnd & Hall & Hcover & Hrest).
  rewrite (sort_port_spec n st Hwf).
  destruct (card_prefix n) as [p|] eqn:Hp; eexists; (split; [reflexivity|]).
  - destruct (add_to_group_in_step seen n p st.1 Hp Hnd)
      as (Hnd' & Hall' & Hp' & Hsub & _).
    + apply Forall_forall. exact Hall.
    + intros Hnew. apply NoDup_nobody. intros m Hm.
      apply sharing_elem_of in Hm as [Hm Hmp].
      apply Hnew. apply (Hcover m p Hm Hmp).
    + split; [exact Hnd'|]. cbn [fst snd]. split; [|split].
      * rewrite Forall_forall in Hall'. exact Hall'.
      * intros m q Hm Hq. apply elem_of_app in Hm as [Hm|Hm].
        -- apply Hsub. apply (Hcover m q Hm Hq).
        -- apply list_elem_of_singleton in Hm. subst m.
           rewrite Hp in Hq. injection Hq as <-. exact Hp'.
      * rewrite without_prefix_snoc, Hp.
        rewrite bool_decide_eq_false_2 by discriminate.
        rewrite app_nil_r. exact Hrest.
  - split; [exact Hnd|]. cbn [fst snd]. split; [|split].
    + intros g Hg. destruct (Hall g Hg) as [Hm Hne]. split; [|exact Hne].
      rewrite sharing_snoc, Hp.
      rewrite bool_decide_eq_false_2 by discriminate.
      rewrite app_nil_r. exact Hm.
    + intros m q Hm Hq. apply elem_of_app in Hm as [Hm|Hm].
      * apply (Hcover m q Hm Hq).
      * apply list_elem_of_singleton in Hm. subst m. congruence.
    + rewrite without_prefix_snoc, Hp.
      rewrite bool_decide_eq_true_2 by reflexivity. rewrite Hrest. reflexivity.
Qed.

Lemma sort_ports (rest seen : list pydict) (st : groups * list pydict) :
  Forall (fun n => well_formed n = true) rest ->
  sorted_so_far seen st ->
  exists st', for_each sort_port rest st = Ok st' /\ sorted_so_far (seen ++ rest) st'.
Proof.
  intros Hrest. revert seen st.
  induction Hrest as [|n rest Hn _ IH]; intros seen st Hst.
  - exists st. rewrite app_nil_r. split; [reflexivity|exact Hst].
  - destruct (sort_port_in_step seen n st Hn Hst) as (st1 & H1 & Hst1).
    destruct (IH (seen ++ [n]) st1 Hst1) as (st' & Hloop & Hst').
    exists st'. simpl. rewrite H1. cbn [mbind result_bind].
    rewrite <- app_assoc in Hst'. split; [exact Hloop|exact Hst'].
Qed.

(** *** The cards *)

Lemma well_formed_parts (n : pydict) :
  well_formed n = true ->
  is_text (Py.or_else (Py.get_or n "mac" (PStr EmptyString)) (PStr EmptyString)) = true /\
  is_text (Py.or_else (Py.get_or n "product" (PStr EmptyString)) (PStr EmptyString)) = true /\
  is_text (Py.or_else (Py.get_or n "vendor" (PStr EmptyString)) (PStr EmptyString)) = true /\
  exists x, Num.of_pyval (sriov n) = Some x.
Proof.
  unfold well_formed. intros Hwf.
  apply andb_true_iff in Hwf as [Hwf Hs].
  apply andb_true_iff in Hwf as [Hwf Hv].
  apply andb_true_iff in Hwf as [Hm Hp].
  repeat split; try assumption.
  destruct (Num.of_pyval (sriov n)) as [x|]; [eauto|discriminate].
Qed.

Lemma model_str_ok (n : pydict) :
  well_formed n = true -> exists label, model_str n = Ok label.
Proof.
  intros Hwf. apply well_formed_parts in Hwf as (_ & Hp & Hv & _).
  unfold model_str.
  destruct (Py.or_else (Py.get_or n "product" (PStr EmptyString)) (PStr EmptyString))
    as [| | | |product| |]; try discriminate.
  destruct (Py.or_else (Py.get_or n "vendor" (PStr EmptyString)) (PStr EmptyString))
    as [| | | |vendor| |]; try discriminate.
  destruct (Py.truthy (PStr product) && Py.truthy (PStr vendor)).
  - cbn [Py.lower mbind result_bind]. destruct (negb _); eauto.
  - destruct (Py.truthy (PStr product)); [eauto|].
    destruct (Py.truthy (PStr vendor)); eauto.
Qed.

Lemma prefixed_mac_is_text (n : pydict) (p : string) :
  well_formed n = true -> card_prefix n = Some p ->
  exists s, Py.get_or n "mac" (PStr EmptyString) = PStr s.
Proof.
  intros Hwf Hp. apply well_formed_mac in Hwf.
  unfold card_prefix, mac_text in Hp. unfold Py.or_else in *.
  destruct (Py.truthy (Py.get_or n "mac" (PStr EmptyString))).
  - destruct (Py.get_or n "mac" (PStr EmptyString)); try discriminate. eauto.
  - discriminate.
Qed.

Lemma sorted_macs_ok (members : list pydict) :
  Forall (fun m => exists s, Py.get_or m "mac" (PStr EmptyString) = PStr s) members ->
  exists sorted, sorted_macs members = Ok sorted.
Proof.
  intros Hall. unfold sorted_macs.
  destruct (map_each_total (fun p => as_str (Py.get_or p "mac" (PStr EmptyString))) members)
    as [raw Hraw].
  - eapply Forall_impl; [exact Hall|]. intros m [s Hs]. simpl.
    rewrite Hs. eauto.
  - rewrite Hraw. cbn [mbind result_bind]. eauto.
Qed.

Lemma max_sriov_ok (members : list pydict) :
  members <> [] ->
  Forall (fun n => well_formed n = true) members ->
  exists best, max_sriov members = Ok best.
Proof.
  destruct members as [|p rest]; [contradiction|]. intros _ Hall.
  apply Forall_cons in Hall as [Hp Hrest]. unfold max_sriov.
  apply well_formed_parts in Hp as (_ & _ & _ & x & Hx).
  revert Hx. generalize (sriov p) as best. revert x.
  induction Hrest as [|q rest Hq _ IH]; intros x best Hx; simpl; [eauto|].
  apply well_formed_parts in Hq as (_ & _ & _ & y & Hy).
  rewrite Hy, Hx. cbn [mbind result_bind].
  destruct (Num.ltb x y); eauto.
Qed.

Lemma card_of_group_ok (g : string * list pydict) :
  g.2 <> [] ->
  Forall (fun n => well_formed n = true) g.2 ->
  Forall (fun m => exists s, Py.get_or m "mac" (PStr EmptyString) = PStr s) g.2 ->
  exists c, card_of_group g = Ok c /\ ports c = length g.2.
Proof.
  intros Hne Hwf Hmacs. unfold card_of_group.
  destruct g.2 as [|rep rest] eqn:Hg; [contradiction|].
  destruct (model_str_ok rep) as [label ->].
  { apply Forall_cons in Hwf as [Hrep _]. exact Hrep. }
  destruct (sorted_macs_ok (rep :: rest) Hmacs) as [sorted ->].
  destruct (max_sriov_ok (rep :: rest)) as [best ->];
    [discriminate|exact Hwf|].
  cbn [mbind result_bind]. eexists. split; reflexivity.
Qed.

Lemma card_of_port_ok (n : pydict) :
  well_formed n = true ->
  exists c, card_of_port n = Ok c /\ ports c = 1%nat /\
            macs c = [Py.get_or n "mac" (PStr EmptyString)].
Proof.
  intros Hwf. unfold card_of_port.
  destruct (model_str_ok n Hwf) as [label ->]. cbn [mbind result_bind].
  eexists. repeat split.
Qed.

End NicFacts.

(** C8.  For ports whose MAC, product and vendor are strings where present
    and whose VF count is a number, the grouping returns, and its cards
    are: one card for every set of ports sharing the first five octets
    (the first 14 characters of the lowered, stripped MAC), with as many
    ports as the set has, followed by one single-port card for every port
    whose MAC is shorter than that. *)
Theorem nics_grouped_by_mac_prefix (nics : list pydict) :
  Forall (fun n => Nic.well_formed n = true) nics ->
  exists (groups : Nic.groups) cards singles,
    Nic._group_nics_by_card nics = Ok (cards ++ singles) /\
    NoDup groups.*1 /\
    (forall n p, n ∈ nics -> Nic.card_prefix n = Some p -> p ∈ groups.*1) /\
    Forall2 (fun g c =>
               g.2 = Nic.sharing g.1 nics /\ g.2 <> [] /\
               Nic.ports c = length (Nic.sharing g.1 nics)) groups cards /\
    Forall2 (fun n c =>
               Nic.ports c = 1%nat /\ Nic.macs c = [Py.get_or n "mac" (PStr EmptyString)])
      (Nic.without_prefix nics) singles.
Proof.
  intros Hwf.
  destruct (NicFacts.sort_ports nics [] ([], []) Hwf)
    as ([groups ungrouped] & Hloop & Hnd & Hall & Hcover & Hrest).
  { split; [constructor|]. split; [|split; [|reflexivity]].
    - intros g Hg. apply elem_of_nil in Hg as [].
    - intros n p Hn. apply elem_of_nil in Hn as []. }
  cbn [fst snd] in *. rewrite app_nil_l in Hall, Hcover, Hrest.
  assert (Hmember : forall g n, g ∈ groups -> n ∈ g.2 ->
                      Nic.well_formed n = true /\ Nic.card_prefix n = Some g.1).
  { intros g n Hg Hn. destruct (Hall g Hg) as [Hm _]. rewrite Hm in Hn.
    apply NicFacts.sharing_elem_of in Hn as [Hn Hp]. split; [|exact Hp].
    rewrite Forall_forall in Hwf. apply Hwf. exact Hn. }
  destruct (map_each_related Nic.card_of_group
              (fun g c => g.2 = Nic.sharing g.1 nics /\ g.2 <> [] /\
                          Nic.ports c = length (Nic.sharing g.1 nics)) groups)
    as (cards & Hcards & Hgroups).
  { apply Forall_forall. intros g Hg. destruct (Hall g Hg) as [Hm Hne].
    destruct (NicFacts.card_of_group_ok g Hne) as (c & Hc & Hports).
    - apply Forall_forall. intros n Hn. apply (Hmember g n Hg Hn).
    - apply Forall_forall. intros n Hn. destruct (Hmember g n Hg Hn) as [Hn1 Hn2].
      apply (NicFacts.prefixed_mac_is_text n g.1 Hn1 Hn2).
    - exists c. rewrite <- Hm. auto. }
  destruct (map_each_related Nic.card_of_port
              (fun n c => Nic.ports c = 1%nat /\
                          Nic.macs c = [Py.get_or n "mac" (PStr EmptyString)]) ungrouped)
    as (singles & Hsingles & Hports).
  { apply Forall_forall. intros n Hn. apply NicFacts.card_of_port_ok.
    rewrite Hrest in Hn. apply filter_elem_of in Hn as [Hn _].
    rewrite Forall_forall in Hwf. apply Hwf. exact Hn. }
  exists groups, cards, singles. split; [|split; [exact Hnd|split; [exact Hcover|]]].
  - unfold Nic._group_nics_by_card. destruct nics as [|n nics].
    + simpl in Hloop. injection Hloop as <- <-.
      simpl in Hcards, Hsingles. injection Hcards as <-. injection Hsingles as <-.
      reflexivity.
    + rewrite Hloop. cbn [mbind result_bind fst snd].
      rewrite Hcards. cbn [mbind result_bind]. rewrite Hsingles. reflexivity.
  - split; [exact Hgroups|]. rewrite <- Hrest. exact Hports.
Qed.

Lemma nics_grouped_by_mac_prefix_witness :
  exists (groups : Nic.groups) cards singles,
    Nic._group_nics_by_card Nic.sample = Ok (cards ++ singles) /\
    NoDup groups.*1 /\
    (forall n p, n ∈ Nic.sample -> Nic.card_prefix n = Some p -> p ∈ groups.*1) /\
    Forall2 (fun g c =>
               g.2 = Nic.sharing g.1 Nic.sample /\ g.2 <> [] /\
               Nic.ports c = length (Nic.sharing g.1 Nic.sample)) groups cards /\
    Forall2 (fun n c =>
               Nic.ports c = 1%nat /\ Nic.macs c = [Py.get_or n "mac" (PStr EmptyString)])
      (Nic.without_prefix Nic.sample) singles.
Proof.
  apply nics_grouped_by_mac_prefix. repeat constructor.
Defined.
(** ** More on loops *)

(** An invariant that speaks of the items visited so far. *)
Lemma for_each_prefix {A S : Type} (P : list A -> S -> Prop)
    (body : A -> S -> result S) (xs : list A) (acc out : S) :
  P [] acc ->
  (forall pre x a a', P pre a -> body x a = Ok a' -> P (pre ++ [x]) a') ->
  for_each body xs acc = Ok out -> P xs out.
Proof.
  intros Hacc Hstep.
  assert (Hgen : forall pre a, P pre a -> for_each body xs a = Ok out -> P (pre ++ xs) out).
  { induction xs as [|x xs IH]; intros pre a Ha; simpl.
    - intros [= <-]. rewrite app_nil_r. exact Ha.
    - destruct (body x a) as [a'|e] eqn:Hx; simpl; [|discriminate].
      intros Hout. rewrite cons_middle, app_assoc.
      apply (IH (pre ++ [x]) a'); [|exact Hout].
      apply (Hstep pre x a a' Ha Hx). }
  intros Hout. apply (Hgen [] acc Hacc Hout).
Qed.

(** A loop that ends has run its body on every item without an exception. *)
Lemma for_each_ok_each {A S : Type} (body : A -> S -> result S) (xs : list A)
    (acc out : S) :
  for_each body xs acc = Ok out ->
  forall x, x ∈ xs -> exists a a', body x a = Ok a'.
Proof.
  revert acc. induction xs as [|y xs IH]; intros acc; simpl.
  { intros _ x Hx. apply elem_of_nil in Hx as []. }
  destruct (body y acc) as [acc'|e] eqn:Hy; simpl; [|discriminate].
  intros Hout x Hx. apply elem_of_cons in Hx as [->|Hx].
  - exists acc, acc'. exact Hy.
  - apply (IH acc' Hout x Hx).
Qed.

(** A loop whose body cannot raise ends. *)
Lemma for_each_total {A S : Type} (body : A -> S -> result S) (xs : list A) (acc : S) :
  (forall x a, x ∈ xs -> exists a', body x a = Ok a') ->
  exists out, for_each body xs acc = Ok out.
Proof.
  revert acc. induction xs as [|y xs IH]; intros acc Hbody; simpl.
  { exists acc. reflexivity. }
  destruct (Hbody y acc) as [acc' Hy]; [left|]. rewrite Hy. simpl.
  apply IH. intros x a Hx. apply Hbody. right. exact Hx.
Qed.

(** A loop that only appends: what it has appended is what a pure
    traversal collects. *)
Lemma for_each_append {A B : Type} (f : A -> result (list B)) (xs : list A)
    (acc out : list B) :
  for_each (fun x acc => ys ← f x; Ok (acc ++ ys)) xs acc = Ok out ->
  exists yss, Forall2 (fun x ys => f x = Ok ys) xs yss /\ out = acc ++ mjoin yss.
Proof.
  revert acc. induction xs as [|x xs IH]; intros acc; simpl.
  { intros [= <-]. exists []. split; [constructor|]. simpl. rewrite app_nil_r. reflexivity. }
  destruct (f x) as [ys|e] eqn:Hx; simpl; [|discriminate].
  intros Hout. destruct (IH _ Hout) as (yss & Hall & ->).
  exists (ys :: yss). split; [constructor; assumption|].
  simpl. rewrite app_assoc. reflexivity.
Qed.

(** A loop that raises: its body has raised on one of the items. *)
Lemma for_each_raises {A S : Type} (body : A -> S -> result S) (xs : list A)
    (acc : S) (e : exn) :
  for_each body xs acc = Raise e ->
  exists x a, x ∈ xs /\ body x a = Raise e.
Proof.
  revert acc. induction xs as [|y xs IH]; intros acc; simpl; [discriminate|].
  destruct (body y acc) as [acc'|e'] eqn:Hy; simpl.
  - intros Hrest. destruct (IH acc' Hrest) as (x & a & Hx & Hbody).
    exists x, a. split; [right; exact Hx|exact Hbody].
  - intros [= ->]. exists y, acc. split; [left|exact Hy].
Qed.
(** ** GPU identity resolution: further properties *)

Lemma py_range_length (n : Z) : length (py_range n) = Z.to_nat n.
Proof. unfold py_range. rewrite length_fmap, length_seq. reflexivity. Qed.

Lemma py_range_lookup (n : Z) (p : nat) :
  (p < Z.to_nat n)%nat -> py_range n !! p = Some (Z.of_nat p).
Proof.
  intros Hp. unfold py_range. rewrite list_lookup_fmap, lookup_seq_lt by exact Hp.
  reflexivity.
Qed.

Lemma py_range_NoDup (n : Z) : NoDup (py_range n).
Proof.
  unfold py_range. apply NoDup_fmap_2; [|apply NoDup_seq].
  intros a b Hab. lia.
Qed.

Lemma of_nat_seq_sorted (k n : nat) : Sorted Z.le (Z.of_nat <$> seq k n).
Proof.
  revert k. induction n as [|n IH]; intros k; simpl; [constructor|].
  constructor; [apply IH|].
  destruct n; simpl; constructor. lia.
Qed.

Lemma sorted_py_range (n : Z) : sorted (list_to_set (py_range n)) = py_range n.
Proof.
  unfold sorted. apply (Sorted_unique Z.le).
  - apply Sorted_merge_sort. apply _.
  - apply of_nat_seq_sorted.
  - rewrite merge_sort_Permutation. apply elements_list_to_set. apply py_range_NoDup.
Qed.

Lemma sorted_NoDup (s : gset Z) : NoDup (sorted s).
Proof.
  unfold sorted. rewrite merge_sort_Permutation. apply NoDup_elements.
Qed.

Lemma filter_nobody {A : Type} (f : A -> bool) (l : list A) :
  (forall x, x ∈ l -> f x = false) -> List.filter f l = [].
Proof.
  induction l as [|x l IH]; intros Hall; simpl; [reflexivity|].
  rewrite (Hall x) by left. apply IH. intros y Hy. apply Hall. right. exact Hy.
Qed.

Lemma filter_everybody {A : Type} (f : A -> bool) (l : list A) :
  (forall x, x ∈ l -> f x = true) -> List.filter f l = l.
Proof.
  induction l as [|x l IH]; intros Hall; simpl; [reflexivity|].
  rewrite (Hall x) by left. f_equal. apply IH. intros y Hy. apply Hall. right. exact Hy.
Qed.

Lemma filter_fst_NoDup {A B : Type} (f : A * B -> bool) (l : list (A * B)) :
  NoDup l.*1 -> NoDup (List.filter f l).*1.
Proof.
  induction l as [|[a b] l IH]; simpl; [constructor|].
  intros Hnd. apply NoDup_cons in Hnd as [Ha Hnd].
  destruct (f (a, b)); [|apply IH; exact Hnd].
  simpl. apply NoDup_cons. split; [|apply IH; exact Hnd].
  intros Hin. apply Ha.
  apply list_elem_of_fmap in Hin as ([a' b'] & -> & Hin).
  apply filter_elem_of in Hin as [Hin _].
  apply list_elem_of_fmap. exists (a', b'). split; [reflexivity|exact Hin].
Qed.

Section GpuIdentityMoreFacts.
Context `{PyRepr}.

Implicit Types (m mapping : list (option Z)) (idxs : list nat) (ids : list Z).

(** *** Pass 1, read backwards *)

Lemma pass1_loop_inv (n_gpus : Z) (rs : list pydict) (k : nat)
    (acc out : list (option Z)) :
  for_each (fun '(idx, r) mapping =>
    gid ← _resolve_gpu_id r;
    Ok match accepted n_gpus gid with
       | Some g => <[idx := Some g]> mapping
       | None => mapping
       end)
    (zip (seq k (length rs)) rs) acc = Ok out ->
  Forall (fun r => exists gid, _resolve_gpu_id r = Ok gid) rs.
Proof.
  revert k acc. induction rs as [|r rs IH]; intros k acc; simpl; [constructor|].
  destruct (_resolve_gpu_id r) as [gid|e] eqn:Hr; simpl; [|discriminate].
  intros Hout. constructor; [exists gid; exact Hr|].
  eapply IH. exact Hout.
Qed.

Lemma resolved_list (rs : list pydict) :
  Forall (fun r => exists gid, _resolve_gpu_id r = Ok gid) rs ->
  exists gids, Forall2 (fun r gid => _resolve_gpu_id r = Ok gid) rs gids.
Proof.
  induction 1 as [|r rs [gid Hr] _ [gids IH]].
  - exists []. constructor.
  - exists (gid :: gids). constructor; assumption.
Qed.

Lemma pass1_inv (n_gpus : Z) (rs : list pydict) m :
  pass1 rs n_gpus = Ok m ->
  exists gids,
    Forall2 (fun r gid => _resolve_gpu_id r = Ok gid) rs gids /\
    m = accepted n_gpus <$> gids.
Proof.
  intros Hm.
  assert (Hall : Forall (fun r => exists gid, _resolve_gpu_id r = Ok gid) rs).
  { unfold pass1, enumerate in Hm. eapply pass1_loop_inv. exact Hm. }
  destruct (resolved_list rs Hall) as [gids Hgids].
  exists gids. split; [exact Hgids|].
  rewrite (pass1_resolved n_gpus rs gids Hgids) in Hm. congruence.
Qed.

(** *** Assignment along two lists *)

Lemma assign_all_zip_lookup idxs ids m (k p : nat) (g : Z) :
  NoDup idxs -> idxs !! k = Some p -> ids !! k = Some g -> (p < length m)%nat ->
  assign_all idxs ids m !! p = Some (Some g).
Proof.
  revert ids m k. induction idxs as [|i idxs IH]; intros ids m k Hnd Hp Hg Hlen.
  { destruct k; discriminate. }
  destruct ids as [|g0 ids]; [destruct k; discriminate|].
  apply NoDup_cons in Hnd as [Hi Hnd].
  rewrite assign_all_cons. destruct k as [|k]; simpl in Hp, Hg.
  - injection Hp as ->. injection Hg as ->.
    rewrite assign_all_other by exact Hi.
    apply list_lookup_insert_eq. exact Hlen.
  - apply (IH ids _ k Hnd Hp Hg). rewrite length_insert. exact Hlen.
Qed.

Lemma assigned_ids_elem_of m (g : Z) :
  g ∈ assigned_ids m <-> exists p, m !! p = Some (Some g).
Proof.
  unfold assigned_ids. rewrite elem_of_list_to_set, list_elem_of_omap. split.
  - intros (x & Hx & Hid). simpl in Hid. subst x.
    apply list_elem_of_lookup in Hx. exact Hx.
  - intros [p Hp]. exists (Some g). split; [|reflexivity].
    apply list_elem_of_lookup. exists p. exact Hp.
Qed.

Lemma assigned_ids_nobody (n : nat) :
  assigned_ids (replicate n None) = ∅.
Proof.
  apply set_eq. intros g. rewrite assigned_ids_elem_of. split.
  - intros [p Hp]. apply lookup_replicate in Hp as [Hp _]. discriminate.
  - intros Hg. apply not_elem_of_empty in Hg as [].
Qed.

Lemma unresolved_nobody (n : nat) : unresolved (replicate n None) = seq 0 n.
Proof.
  unfold unresolved. rewrite length_replicate. apply filter_everybody.
  intros p Hp. apply elem_of_seq in Hp. apply bool_decide_eq_true.
  apply lookup_replicate_2. lia.
Qed.

Lemma remap_indices_nobody (rs : list pydict) m :
  Forall (fun r => mentions_row_remapping r = false) rs ->
  remap_indices rs m = [].
Proof.
  intros Hall. unfold remap_indices. rewrite filter_nobody; [reflexivity|].
  intros [idx r] Hin. apply elem_of_zip_r in Hin.
  rewrite Forall_forall in Hall. rewrite (Hall r Hin). apply andb_false_r.
Qed.

Lemma positional_lookup (n_gpus : Z) (n p : nat) :
  (p < n)%nat -> positional n_gpus n !! p = Some (Some (fallback_id p n_gpus)).
Proof.
  intros Hp. unfold positional. rewrite list_lookup_fmap, lookup_seq_lt by exact Hp.
  reflexivity.
Qed.

Lemma pass3_nothing_resolved (n_gpus : Z) (n : nat) :
  pass3 n_gpus (replicate n None) = positional n_gpus n.
Proof.
  assert (Hlen : length (positional n_gpus n) = n).
  { unfold positional. rewrite length_fmap, length_seq. reflexivity. }
  unfold pass3, missing_ids.
  rewrite assigned_ids_nobody, difference_empty_L, sorted_py_range, unresolved_nobody.
  rewrite py_range_length, length_seq.
  apply list_eq. intros p.
  destruct (decide (p < n)%nat) as [Hp|Hp].
  - rewrite positional_lookup by exact Hp.
    case_bool_decide as Heq.
    + rewrite (assign_all_zip_lookup (seq 0 n) (py_range n_gpus) _ p p (Z.of_nat p)).
      * f_equal. f_equal. unfold fallback_id.
        destruct (Z.ltb_spec (Z.of_nat p) n_gpus); [reflexivity|lia].
      * apply NoDup_seq.
      * apply lookup_seq_lt. exact Hp.
      * apply py_range_lookup. lia.
      * rewrite length_replicate. exact Hp.
    + apply fallback_all_hit.
      * apply elem_of_seq. lia.
      * rewrite length_replicate. exact Hp.
  - rewrite (lookup_ge_None_2 (positional n_gpus n)) by lia.
    apply lookup_ge_None_2.
    case_bool_decide.
    + rewrite assign_all_length, length_replicate. lia.
    + rewrite fallback_all_length, length_replicate. lia.
Qed.

(** *** Counting the resolved and the unresolved positions *)

Lemma filter_fmap {A B : Type} (f : B -> bool) (g : A -> B) (l : list A) :
  List.filter f (g <$> l) = g <$> List.filter (fun a => f (g a)) l.
Proof.
  induction l as [|a l IH]; [reflexivity|].
  rewrite fmap_cons. cbn [List.filter].
  destruct (f (g a)); [rewrite fmap_cons; f_equal|]; exact IH.
Qed.

Lemma unresolved_cons (v : option Z) m :
  unresolved (v :: m)
  = (if v is None then [0%nat] else []) ++ (S <$> unresolved m).
Proof.
  unfold unresolved. simpl length. simpl seq.
  rewrite <- fmap_S_seq. cbn [List.filter]. rewrite filter_fmap.
  destruct v as [g|]; reflexivity.
Qed.

Lemma omap_unresolved_length m :
  (length (omap id m) + length (unresolved m) = length m)%nat.
Proof.
  induction m as [|v m IH]; [reflexivity|].
  rewrite unresolved_cons, length_app, length_fmap.
  destruct v as [g|]; cbn -[unresolved]; lia.
Qed.

Lemma distinct_ids_tail (v : option Z) m : distinct_ids (v :: m) -> distinct_ids m.
Proof.
  intros Hd p q g Hp Hq. specialize (Hd (S p) (S q) g Hp Hq). lia.
Qed.

Lemma distinct_ids_NoDup m : distinct_ids m -> NoDup (omap id m).
Proof.
  induction m as [|v m IH]; intros Hd; [constructor|].
  pose proof (distinct_ids_tail v m Hd) as Hd'.
  destruct v as [g|]; simpl; [|apply IH; exact Hd'].
  apply NoDup_cons. split; [|apply IH; exact Hd'].
  intros Hin. apply list_elem_of_omap in Hin as (x & Hx & Hid).
  simpl in Hid. subst x. apply list_elem_of_lookup in Hx as [q Hq].
  specialize (Hd 0%nat (S q) g eq_refl Hq). discriminate.
Qed.

Lemma all_resolved_fmap m :
  (forall p, (p < length m)%nat -> exists g, m !! p = Some (Some g)) ->
  m = Some <$> omap id m.
Proof.
  induction m as [|v m IH]; intros Hall; [reflexivity|].
  destruct (Hall 0%nat) as [g Hg]; [simpl; lia|]. simpl in Hg. injection Hg as ->.
  simpl. f_equal. apply IH. intros p Hp. apply (Hall (S p)). simpl. lia.
Qed.

(** A mapping without gaps, without a repeated id and with ids below the
    GPU count, of as many positions as there are GPUs, lists every GPU. *)
Lemma full_distinct_permutation (n_gpus : Z) m :
  length m = Z.to_nat n_gpus ->
  (forall p, (p < length m)%nat ->
     exists g, m !! p = Some (Some g) /\ 0 <= g < n_gpus) ->
  distinct_ids m ->
  m ≡ₚ Some <$> py_range n_gpus.
Proof.
  intros Hlen Hall Hd.
  assert (Hm : m = Some <$> omap id m).
  { apply all_resolved_fmap. intros p Hp. destruct (Hall p Hp) as (g & Hg & _).
    exists g. exact Hg. }
  assert (Hlen' : length (omap id m) = Z.to_nat n_gpus).
  { rewrite <- Hlen. rewrite Hm at 2. rewrite length_fmap. reflexivity. }
  rewrite Hm. apply fmap_Permutation.
  apply submseteq_length_Permutation.
  - apply NoDup_submseteq; [apply distinct_ids_NoDup; exact Hd|].
    intros g Hg. apply list_elem_of_omap in Hg as (x & Hx & Hid).
    simpl in Hid. subst x. apply list_elem_of_lookup in Hx as [p Hp].
    destruct (Hall p) as (g' & Hg' & Hr).
    { apply lookup_lt_Some in Hp. exact Hp. }
    rewrite Hp in Hg'. injection Hg' as <-. apply py_range_elem_of. exact Hr.
  - rewrite py_range_length, Hlen'. reflexivity.
Qed.

Lemma assign_all_distinct idxs ids m :
  distinct_ids m -> NoDup idxs -> NoDup ids ->
  (forall g, g ∈ ids -> g ∉ assigned_ids m) ->
  (forall p, p ∈ idxs -> m !! p = Some None) ->
  distinct_ids (assign_all idxs ids m).
Proof.
  revert ids m. induction idxs as [|i idxs IH]; intros ids m Hd Hni Hng Hfresh Hnone.
  { exact Hd. }
  destruct ids as [|g ids]; [exact Hd|].
  rewrite assign_all_cons.
  apply NoDup_cons in Hni as [Hi Hni]. apply NoDup_cons in Hng as [Hg Hng].
  assert (Hgm : forall q, m !! q <> Some (Some g)).
  { intros q Hq. apply (Hfresh g); [left|]. apply assigned_ids_elem_of.
    exists q. exact Hq. }
  assert (Hlook : forall q w, <[i := Some g]> m !! q = Some (Some w) ->
            (q = i /\ w = g) \/ (q <> i /\ m !! q = Some (Some w))).
  { intros q w Hq. destruct (decide (q = i)) as [->|Hne].
    - left. split; [reflexivity|].
      apply list_lookup_insert_Some in Hq as [(_ & Hq & _)|[Hne _]]; congruence.
    - right. split; [exact Hne|].
      rewrite list_lookup_insert_ne in Hq by congruence. exact Hq. }
  apply IH.
  - intros p q w Hp Hq.
    apply Hlook in Hp as [[-> ->]|[Hpi Hp]]; apply Hlook in Hq as [[-> Hw]|[Hqi Hq]].
    + reflexivity.
    + exfalso. apply (Hgm q). exact Hq.
    + subst w. exfalso. apply (Hgm p). exact Hp.
    + apply (Hd p q w Hp Hq).
  - exact Hni.
  - exact Hng.
  - intros w Hw Hin. apply assigned_ids_elem_of in Hin as [q Hq].
    apply Hlook in Hq as [[_ ->]|[_ Hq]].
    + apply Hg. exact Hw.
    + apply (Hfresh w); [right; exact Hw|]. apply assigned_ids_elem_of.
      exists q. exact Hq.
  - intros p Hp. rewrite list_lookup_insert_ne.
    + apply Hnone. right. exact Hp.
    + intros ->. apply Hi. exact Hp.
Qed.

Lemma remap_indices_NoDup (rs : list pydict) m : NoDup (remap_indices rs m).
Proof.
  unfold remap_indices. apply filter_fst_NoDup. unfold enumerate.
  rewrite fst_zip by (rewrite length_seq; lia). apply NoDup_seq.
Qed.

Lemma pass2_distinct (rs : list pydict) (skipped : gset Z) m :
  distinct_ids m -> distinct_ids (pass2 rs skipped m).
Proof.
  intros Hd. unfold pass2.
  destruct (bool_decide (remap_indices rs m ≠ []) && _); [|exact Hd].
  apply assign_all_distinct.
  - exact Hd.
  - apply remap_indices_NoDup.
  - apply sorted_NoDup.
  - intros g Hg. apply sorted_elem_of, elem_of_difference in Hg as [_ Hg]. exact Hg.
  - intros p Hp. eapply remap_indices_unresolved. exact Hp.
Qed.

Lemma missing_ids_length (n_gpus : Z) m :
  distinct_ids m ->
  (forall p g, m !! p = Some (Some g) -> 0 <= g < n_gpus) ->
  length (missing_ids n_gpus m) = (Z.to_nat n_gpus - length (omap id m))%nat.
Proof.
  intros Hd Hr. unfold missing_ids. rewrite sorted_length, size_difference.
  - rewrite size_list_to_set by apply py_range_NoDup. rewrite py_range_length.
    unfold assigned_ids. rewrite size_list_to_set by (apply distinct_ids_NoDup; exact Hd).
    reflexivity.
  - intros g Hg. apply assigned_ids_elem_of in Hg as [p Hp].
    apply elem_of_list_to_set, py_range_elem_of. eapply Hr. exact Hp.
Qed.

Lemma pass3_distinct (n_gpus : Z) m :
  length (missing_ids n_gpus m) = length (unresolved m) ->
  distinct_ids m -> distinct_ids (pass3 n_gpus m).
Proof.
  intros Heq Hd. unfold pass3. rewrite bool_decide_eq_true_2 by exact Heq.
  apply assign_all_distinct.
  - exact Hd.
  - apply unresolved_NoDup.
  - apply sorted_NoDup.
  - intros g Hg. apply sorted_elem_of, elem_of_difference in Hg as [_ Hg]. exact Hg.
  - intros p Hp. apply unresolved_elem_of. exact Hp.
Qed.

End GpuIdentityMoreFacts.

(** X1.  Entries that carry no identity at all: when no entry of a test
    resolves in Pass 1 and none mentions row remapping, the mapping counts
    positions: position p gets id p, and 0 from the GPU count on.  With as
    many entries as GPUs this is the identity. *)
Theorem build_gpu_id_map_positional `{PyRepr} (results_list : list pydict)
    (n_gpus : Z) (remap_skipped : gset Z) :
  Forall (fun r => _resolve_gpu_id r = Ok None) results_list ->
  Forall (fun r => mentions_row_remapping r = false) results_list ->
  _build_gpu_id_map results_list n_gpus remap_skipped
  = Ok (positional n_gpus (length results_list)) /\
  (length results_list = Z.to_nat n_gpus ->
   positional n_gpus (length results_list) = Some <$> py_range n_gpus).
Proof.
  intros Hnone Hplain. split.
  - assert (Hgids : Forall2 (fun r gid => _resolve_gpu_id r = Ok gid)
                      results_list (replicate (length results_list) None)).
    { clear Hplain. induction Hnone; simpl; constructor; assumption. }
    unfold _build_gpu_id_map.
    rewrite (pass1_resolved n_gpus results_list _ Hgids).
    rewrite fmap_replicate. simpl. f_equal.
    unfold pass2. rewrite remap_indices_nobody by exact Hplain. simpl.
    apply pass3_nothing_resolved.
  - intros Hlen. rewrite Hlen. unfold positional, py_range.
    rewrite <- list_fmap_compose. apply list_fmap_ext.
    intros i p Hp. apply lookup_seq in Hp as [-> Hp]. simpl.
    f_equal. unfold fallback_id.
    destruct (Z.ltb_spec (Z.of_nat i) n_gpus); [reflexivity|lia].
Qed.

Lemma build_gpu_id_map_positional_witness :
  _build_gpu_id_map (H := repr_unused)
    [[("status", PStr "Pass")]; [("status", PStr "Fail")]]%string 2 {[1]}
  = Ok (positional 2 2) /\
  (2%nat = Z.to_nat 2 -> positional 2 2 = Some <$> py_range 2).
Proof.
  apply (build_gpu_id_map_positional (H := repr_unused)
           [[("status", PStr "Pass")]; [("status", PStr "Fail")]]%string 2 {[1]}).
  - repeat constructor.
  - repeat constructor.
Defined.

(** X2.  An id read in Pass 1 stays: whatever the other entries are and
    whatever Passes 2 and 3 assign, an entry that resolves to an id below
    the GPU count is mapped to that id. *)
Theorem build_gpu_id_map_keeps_resolved `{PyRepr} (results_list : list pydict)
    (n_gpus : Z) (remap_skipped : gset Z) (mapping : list (option Z))
    (p : nat) (r : pydict) (g : Z) :
  _build_gpu_id_map results_list n_gpus remap_skipped = Ok mapping ->
  results_list !! p = Some r ->
  _resolve_gpu_id r = Ok (Some g) ->
  0 <= g < n_gpus ->
  mapping !! p = Some (Some g).
Proof.
  intros Hmap Hp Hr Hg. unfold _build_gpu_id_map in Hmap.
  destruct (pass1 results_list n_gpus) as [m1|e] eqn:H1; simpl in Hmap; [|discriminate].
  injection Hmap as <-.
  destruct (pass1_inv n_gpus results_list m1 H1) as (gids & Hgids & ->).
  destruct (Forall2_lookup_l _ _ _ _ _ Hgids Hp) as (gid & Hgid & Hr').
  rewrite Hr in Hr'. injection Hr' as <-.
  apply pass3_keeps, pass2_keeps.
  rewrite list_lookup_fmap, Hgid. simpl. unfold in_range.
  destruct (Z.leb_spec 0 g); [|lia]. destruct (Z.ltb_spec g n_gpus); [|lia].
  reflexivity.
Qed.

Lemma build_gpu_id_map_keeps_resolved_witness :
  exists mapping,
    _build_gpu_id_map (H := repr_unused) GpuExamples.memory_results 8 {[5]}
    = Ok mapping /\
    mapping !! 6%nat = Some (Some 6).
Proof.
  exists [Some 0; Some 1; Some 2; Some 5; Some 3; Some 4; Some 6; Some 7].
  assert (Hmap : _build_gpu_id_map (H := repr_unused) GpuExamples.memory_results 8 {[5]}
                 = Ok [Some 0; Some 1; Some 2; Some 5; Some 3; Some 4; Some 6; Some 7]).
  { vm_compute. reflexivity. }
  split; [exact Hmap|].
  apply (build_gpu_id_map_keeps_resolved (H := repr_unused)
           GpuExamples.memory_results 8 {[5]} _ 6 (GpuExamples.entry 6) 6 Hmap).
  - reflexivity.
  - reflexivity.
  - lia.
Defined.

(** Every entry gets an id that is not negative, whatever the GPU count. *)
Lemma mapping_nonneg `{PyRepr} (diag : pydict)
    (results_list : list pydict) (n_gpus : Z) (remap_skipped : gset Z)
    (mapping : list (option Z)) :
  _find_remap_skipped_gpus diag n_gpus = Ok remap_skipped ->
  _build_gpu_id_map results_list n_gpus remap_skipped = Ok mapping ->
  length mapping = length results_list /\
  forall p, (p < length results_list)%nat ->
    exists g, mapping !! p = Some (Some g) /\ 0 <= g /\
              (g < n_gpus -> (Z.to_nat g < Z.to_nat n_gpus)%nat).
Proof.
  intros Hskipped Hmap. unfold _build_gpu_id_map in Hmap.
  destruct (pass1 results_list n_gpus) as [m1|e] eqn:H1; cbn [mbind result_bind] in Hmap;
    [|discriminate].
  injection Hmap as <-.
  destruct (pass1_inv n_gpus results_list m1 H1) as (gids & Hgids & ->).
  pose proof (find_remap_skipped_in_range diag n_gpus remap_skipped Hskipped)
    as Hrange.
  set (m1 := accepted n_gpus <$> gids) in *.
  set (m2 := pass2 results_list remap_skipped m1).
  assert (Hlen : length m2 = length results_list).
  { unfold m2, m1. rewrite pass2_length, length_fmap.
    symmetry. eapply Forall2_length. exact Hgids. }
  assert (Hm2 : forall p g, m2 !! p = Some (Some g) -> 0 <= g).
  { intros p g Hp. apply pass2_elem in Hp as [Hp|(g' & [= <-] & _ & Hg & _)].
    - unfold m1 in Hp. rewrite list_lookup_fmap in Hp.
      destruct (gids !! p) as [gid|]; [|discriminate]. simpl in Hp.
      injection Hp as Hp. apply accepted_in_range in Hp. lia.
    - apply Hrange in Hg. lia. }
  split.
  - rewrite pass3_length. exact Hlen.
  - intros p Hp. rewrite <- Hlen in Hp.
    assert (Hg : exists g, pass3 n_gpus m2 !! p = Some (Some g) /\ 0 <= g).
    { destruct (lookup_lt_is_Some_2 m2 p Hp) as [[g|] Hv].
      - exists g. split; [apply pass3_keeps; exact Hv|]. eapply Hm2. exact Hv.
      - destruct (decide (length (missing_ids n_gpus m2) = length (unresolved m2)))
          as [Heq|Hne].
        + destruct (pass3_eliminates n_gpus m2 p Heq Hv) as (g & Hg & Hr & _).
          exists g. split; [exact Hg|lia].
        + exists (fallback_id p n_gpus).
          split; [apply pass3_falls_back; assumption|].
          unfold fallback_id. destruct (Z.ltb_spec (Z.of_nat p) n_gpus); lia. }
    destruct Hg as (g & Hg & Hpos). exists g. split; [exact Hg|]. split; [exact Hpos|].
    intros Hlt. lia.
Qed.

(** Entries that the passes can read are all given such an id. *)
Lemma mapping_resolved_nonneg `{PyRepr} (diag : pydict)
    (results_list : list pydict) (n_gpus : Z) (remap_skipped : gset Z) :
  _find_remap_skipped_gpus diag n_gpus = Ok remap_skipped ->
  Forall readable results_list ->
  exists mapping,
    _build_gpu_id_map results_list n_gpus remap_skipped = Ok mapping /\
    length mapping = length results_list /\
    forall p, (p < length results_list)%nat ->
      exists g, mapping !! p = Some (Some g) /\ 0 <= g /\
                (g < n_gpus -> (Z.to_nat g < Z.to_nat n_gpus)%nat).
Proof.
  intros Hskipped Hread.
  destruct (resolve_all_total results_list Hread) as [gids Hgids].
  pose proof (pass1_resolved n_gpus results_list gids Hgids) as H1.
  assert (Hmap : exists mapping,
            _build_gpu_id_map results_list n_gpus remap_skipped = Ok mapping).
  { unfold _build_gpu_id_map. rewrite H1. cbn [mbind result_bind]. eauto. }
  destruct Hmap as [mapping Hmap]. exists mapping. split; [exact Hmap|].
  apply (mapping_nonneg diag results_list n_gpus remap_skipped mapping Hskipped Hmap).
Qed.

(** X3.  Whatever the GPU count is, also zero or negative: a mapping that
    [_build_gpu_id_map] returns gives every entry of the test an id, and
    never a negative one, so that the comparison [gpu_id >= n_gpus] that
    the callers make before they index by the id is between two integers,
    and an id that passes it is a position of a list of n_gpus items. *)
Theorem build_gpu_id_map_never_negative `{PyRepr} (diag : pydict)
    (results_list : list pydict) (n_gpus : Z) (remap_skipped : gset Z)
    (mapping : list (option Z)) :
  _find_remap_skipped_gpus diag n_gpus = Ok remap_skipped ->
  _build_gpu_id_map results_list n_gpus remap_skipped = Ok mapping ->
  length mapping = length results_list /\
  forall p, (p < length results_list)%nat ->
    exists g, mapping !! p = Some (Some g) /\ 0 <= g /\
              (g < n_gpus -> (Z.to_nat g < Z.to_nat n_gpus)%nat).
Proof. apply mapping_nonneg. Qed.

Lemma build_gpu_id_map_never_negative_witness :
  length [Some 0] = length GpuExamples.anonymous_results /\
  forall p, (p < length GpuExamples.anonymous_results)%nat ->
    exists g, [Some 0] !! p = Some (Some g) /\ 0 <= g /\
              (g < 0 -> (Z.to_nat g < Z.to_nat 0)%nat).
Proof.
  apply (build_gpu_id_map_never_negative (H := repr_unused)
           GpuExamples.anonymous_diag GpuExamples.anonymous_results 0 ∅ [Some 0]).
  - vm_compute. reflexivity.
  - vm_compute. reflexivity.
Defined.

(** X4.  As many entries as GPUs and no id read twice in Pass 1: the
    mapping is then a permutation of the ids 0 .. n_gpus - 1, so that every
    GPU gets exactly one entry of the test, whatever Passes 2 and 3 had to
    fill in. *)
Theorem build_gpu_id_map_permutation `{PyRepr} (diag : pydict)
    (results_list : list pydict) (n_gpus : Z) (remap_skipped : gset Z)
    (mapping : list (option Z)) :
  _find_remap_skipped_gpus diag n_gpus = Ok remap_skipped ->
  _build_gpu_id_map results_list n_gpus remap_skipped = Ok mapping ->
  length results_list = Z.to_nat n_gpus ->
  (forall p q r r' g,
     results_list !! p = Some r -> results_list !! q = Some r' ->
     _resolve_gpu_id r = Ok (Some g) -> _resolve_gpu_id r' = Ok (Some g) ->
     0 <= g < n_gpus -> p = q) ->
  mapping ≡ₚ Some <$> py_range n_gpus.
Proof.
  intros Hskipped Hmap Hlen Hinj.
  pose proof (find_remap_skipped_in_range diag n_gpus remap_skipped Hskipped)
    as Hrange.
  unfold _build_gpu_id_map in Hmap.
  destruct (pass1 results_list n_gpus) as [m1|e] eqn:H1; simpl in Hmap; [|discriminate].
  injection Hmap as <-.
  destruct (pass1_inv n_gpus results_list m1 H1) as (gids & Hgids & ->).
  set (m1 := accepted n_gpus <$> gids).
  set (m2 := pass2 results_list remap_skipped m1).
  assert (Hd1 : distinct_ids m1).
  { intros p q g Hp Hq. unfold m1 in Hp, Hq. rewrite list_lookup_fmap in Hp, Hq.
    destruct (gids !! p) as [gp|] eqn:Hgp; [|discriminate].
    destruct (gids !! q) as [gq|] eqn:Hgq; [|discriminate].
    simpl in Hp, Hq. injection Hp as Hp. injection Hq as Hq.
    apply accepted_in_range in Hp as [-> Hr]. apply accepted_in_range in Hq as [-> _].
    destruct (Forall2_lookup_r _ _ _ _ _ Hgids Hgp) as (r & Hrp & Hres).
    destruct (Forall2_lookup_r _ _ _ _ _ Hgids Hgq) as (r' & Hrq & Hres').
    apply (Hinj p q r r' g Hrp Hrq Hres Hres' Hr). }
  assert (Hd2 : distinct_ids m2) by (apply pass2_distinct; exact Hd1).
  assert (Hlen2 : length m2 = Z.to_nat n_gpus).
  { unfold m2, m1. rewrite pass2_length, length_fmap, <- Hlen.
    symmetry. eapply Forall2_length. exact Hgids. }
  assert (Hr2 : forall p g, m2 !! p = Some (Some g) -> 0 <= g < n_gpus).
  { intros p g Hp. apply pass2_elem in Hp as [Hp|(g' & [= <-] & _ & Hg & _)].
    - unfold m1 in Hp. rewrite list_lookup_fmap in Hp.
      destruct (gids !! p) as [gid|]; [|discriminate]. simpl in Hp.
      injection Hp as Hp. apply accepted_in_range in Hp. tauto.
    - apply Hrange. exact Hg. }
  assert (Heq : length (missing_ids n_gpus m2) = length (unresolved m2)).
  { rewrite (missing_ids_length n_gpus m2 Hd2 Hr2).
    pose proof (omap_unresolved_length m2). lia. }
  apply full_distinct_permutation.
  - rewrite pass3_length. exact Hlen2.
  - intros p Hp. rewrite pass3_length in Hp.
    destruct (lookup_lt_is_Some_2 m2 p Hp) as [[g|] Hv].
    + exists g. split; [apply pass3_keeps; exact Hv|]. eapply Hr2. exact Hv.
    + destruct (pass3_eliminates n_gpus m2 p Heq Hv) as (g & Hg & Hr & _).
      exists g. tauto.
  - apply pass3_distinct; assumption.
Qed.

Lemma build_gpu_id_map_permutation_witness :
  [Some 0; Some 1; Some 2; Some 5; Some 3; Some 4; Some 6; Some 7]
  ≡ₚ Some <$> py_range 8.
Proof.
  apply (build_gpu_id_map_permutation (H := repr_unused) GpuExamples.diag
           GpuExamples.memory_results 8 {[5]}).
  - vm_compute. reflexivity.
  - vm_compute. reflexivity.
  - reflexivity.
  - assert (Hpos : forall p r g,
              GpuExamples.memory_results !! p = Some r ->
              _resolve_gpu_id (H := repr_unused) r = Ok (Some g) ->
              p = Z.to_nat (if g <? 3 then g else if g =? 5 then 3 else g + 1 - g / 6)).
    { intros p r g Hp Hr.
      repeat (destruct p as [|p];
              [injection Hp as <-; vm_compute in Hr; try discriminate Hr;
               injection Hr as <-; reflexivity|]).
      discriminate Hp. }
    intros p q r r' g Hp Hq Hr Hr' _.
    rewrite (Hpos p r g Hp Hr), (Hpos q r' g Hq Hr'). reflexivity.
Defined.

(** X5.  What [_find_remap_skipped_gpus] returns, in full: a GPU is in the
    set exactly when some test reports a row-remapping skip, names at least
    one GPU in its entries, and does not name this one. *)
Theorem find_remap_skipped_gpus_spec `{PyRepr} (diag : pydict) (n_gpus : Z)
    (skipped : gset Z) :
  _find_remap_skipped_gpus diag n_gpus = Ok skipped ->
  exists tests,
    diag_tests diag = Ok tests /\
    forall g, g ∈ skipped <->
      exists t entries,
        t ∈ tests /\ test_entries t = Ok entries /\ skipped_by n_gpus entries g.
Proof.
  unfold _find_remap_skipped_gpus, diag_tests.
  destruct (Py.iter (Py.get_or diag "test_results" (PList []))) as [tests|e];
    simpl; [|discriminate].
  intros Hloop. exists tests. split; [reflexivity|].
  revert Hloop.
  apply (for_each_prefix
           (fun pre (acc : gset Z) =>
              forall g, g ∈ acc <->
                exists t entries,
                  t ∈ pre /\ test_entries t = Ok entries /\ skipped_by n_gpus entries g)).
  { intros g. split.
    - intros Hg. apply not_elem_of_empty in Hg as [].
    - intros (t & entries & Ht & _). apply elem_of_nil in Ht as []. }
  intros pre t acc acc' Hacc Hbody.
  destruct (Py.getattr_get t "results" (PList [])) as [results|e] eqn:Hres;
    simpl in Hbody; [|discriminate].
  destruct (Py.iter results) as [entries|e] eqn:Hent; simpl in Hbody; [|discriminate].
  assert (Hte : test_entries t = Ok entries).
  { unfold test_entries. rewrite Hres. simpl. exact Hent. }
  match type of Hbody with
  | context [for_each ?body entries ?start] =>
      destruct (for_each body entries start) as [[found has]|e] eqn:Hinner
  end; simpl in Hbody; [|discriminate].
  injection Hbody as <-.
  assert (Hfound : (forall g, g ∈ found <-> exists e, e ∈ entries /\ resolves_to n_gpus e g)
                   /\ (has = true <-> exists e, e ∈ entries /\ remap_skip_entry e)).
  { revert Hinner.
    apply (for_each_prefix
             (fun seen (st : gset Z * bool) =>
                (forall g, g ∈ st.1 <-> exists e, e ∈ seen /\ resolves_to n_gpus e g)
                /\ (st.2 = true <-> exists e, e ∈ seen /\ remap_skip_entry e))).
    { split.
      - intros g. split.
        + intros Hg. apply not_elem_of_empty in Hg as [].
        + intros (e & He & _). apply elem_of_nil in He as [].
      - split; [discriminate|]. intros (e & He & _). apply elem_of_nil in He as []. }
    intros seen e [f h] st' [Hf Hh] Hstep. simpl in Hf, Hh.
    destruct e as [| | | | |l|r]; try discriminate Hstep.
    destruct (_resolve_gpu_id r) as [gid|ex] eqn:Hr; simpl in Hstep; [|discriminate].
    injection Hstep as <-. simpl. split.
    - intros g. split.
      + intros Hg.
        assert (Hcase : g ∈ f \/ (gid = Some g /\ in_range g n_gpus = true)).
        { destruct gid as [g'|]; [|left; exact Hg].
          destruct (in_range g' n_gpus) eqn:Hin; [|left; exact Hg].
          apply elem_of_union in Hg as [Hg|Hg]; [|left; exact Hg].
          apply elem_of_singleton in Hg as ->. right. split; [reflexivity|exact Hin]. }
        destruct Hcase as [Hg'|[-> Hin]].
        * apply Hf in Hg' as (e & He & Hto). exists e. split; [|exact Hto].
          apply elem_of_app. left. exact He.
        * exists (PDict r). split; [apply elem_of_app; right; left|].
          exists r. split; [reflexivity|]. split; [exact Hr|].
          unfold in_range in Hin. apply andb_true_iff in Hin as [H1 H2].
          apply Z.leb_le in H1. apply Z.ltb_lt in H2. lia.
      + intros (e & He & Hto). apply elem_of_app in He as [He|He].
        * assert (Hg : g ∈ f) by (apply Hf; exists e; split; assumption).
          destruct gid as [g'|]; [|exact Hg].
          destruct (in_range g' n_gpus); [|exact Hg].
          apply elem_of_union. right. exact Hg.
        * apply list_elem_of_singleton in He as ->.
          destruct Hto as (r' & [= <-] & Hr' & Hrange).
          rewrite Hr in Hr'. injection Hr' as ->.
          unfold in_range.
          destruct (Z.leb_spec 0 g); [|lia]. destruct (Z.ltb_spec g n_gpus); [|lia].
          simpl. apply elem_of_union. left. apply elem_of_singleton. reflexivity.
    - rewrite orb_true_iff, Hh. split.
      + intros [(e & He & Hskip)|Hm].
        * exists e. split; [apply elem_of_app; left; exact He|exact Hskip].
        * exists (PDict r). split; [apply elem_of_app; right; left|].
          exists r. split; [reflexivity|exact Hm].
      + intros (e & He & Hskip). apply elem_of_app in He as [He|He].
        * left. exists e. split; assumption.
        * apply list_elem_of_singleton in He as ->.
          destruct Hskip as (r' & [= <-] & Hm). right. exact Hm. }
  destruct Hfound as [Hfound Hhas]. simpl in Hfound, Hhas.
  assert (Hnew : forall g,
            (has && bool_decide (found ≠ ∅) = true
             /\ g ∈ (list_to_set (py_range n_gpus) : gset Z) ∖ found)
            <-> skipped_by n_gpus entries g).
  { intros g. rewrite andb_true_iff, bool_decide_eq_true, elem_of_difference,
      elem_of_list_to_set, py_range_elem_of, Hhas. unfold skipped_by. split.
    - intros [[Hskip Hne] [Hrange Hnot]]. split; [exact Hrange|]. split; [exact Hskip|].
      split.
      + apply set_choose_L in Hne as [g' Hg']. apply Hfound in Hg' as (e & He & Hto).
        exists e, g'. split; assumption.
      + intros e He Hto. apply Hnot. apply Hfound. exists e. split; assumption.
    - intros (Hrange & Hskip & (e & g' & He & Hto) & Hnot). split; [split|split].
      + exact Hskip.
      + intros Hempty.
        assert (Hg' : g' ∈ found) by (apply Hfound; exists e; split; assumption).
        rewrite Hempty in Hg'. apply not_elem_of_empty in Hg' as [].
      + exact Hrange.
      + intros Hg. apply Hfound in Hg as (e' & He' & Hto'). apply (Hnot e' He' Hto'). }
  intros g. split.
  - intros Hg.
    assert (Hcase : g ∈ acc \/ skipped_by n_gpus entries g).
    { destruct (has && bool_decide (found ≠ ∅)) eqn:Hcond; [|left; exact Hg].
      apply elem_of_union in Hg as [Hg|Hg]; [left; exact Hg|].
      right. apply Hnew. split; [reflexivity|exact Hg]. }
    destruct Hcase as [Hg'|Hby].
    + apply Hacc in Hg' as (t' & entries' & Ht' & Hte' & Hby).
      exists t', entries'. split; [apply elem_of_app; left; exact Ht'|]. tauto.
    + exists t, entries. split; [apply elem_of_app; right; left|]. tauto.
  - intros (t' & entries' & Ht' & Hte' & Hby).
    apply elem_of_app in Ht' as [Ht'|Ht'].
    + assert (Hg : g ∈ acc).
      { apply Hacc. exists t', entries'. tauto. }
      destruct (has && bool_decide (found ≠ ∅)); [|exact Hg].
      apply elem_of_union. left. exact Hg.
    + apply list_elem_of_singleton in Ht' as ->.
      rewrite Hte in Hte'. injection Hte' as <-.
      apply Hnew in Hby as [Hcond Hg]. rewrite Hcond.
      apply elem_of_union. right. exact Hg.
Qed.

Lemma find_remap_skipped_gpus_spec_witness :
  exists tests,
    diag_tests GpuExamples.diag = Ok tests /\
    forall g, g ∈ ({[5]} : gset Z) <->
      exists t entries,
        t ∈ tests /\ test_entries t = Ok entries /\
        skipped_by (H := repr_unused) 8 entries g.
Proof.
  apply (find_remap_skipped_gpus_spec (H := repr_unused) GpuExamples.diag 8 {[5]}).
  vm_compute. reflexivity.
Defined.
(** ** Issue filter and verdicts: further properties *)

Lemma filter_each_spec {A : Type} (p : A -> result bool) (xs ys : list A) :
  filter_each p xs = Ok ys ->
  sublist ys xs /\ forall x, x ∈ ys <-> x ∈ xs /\ p x = Ok true.
Proof.
  revert ys. induction xs as [|x xs IH]; intros ys; simpl.
  { intros [= <-]. split; [constructor|]. intros x. split.
    - intros Hx. apply elem_of_nil in Hx as [].
    - intros [Hx _]. apply elem_of_nil in Hx as []. }
  destruct (p x) as [b|e] eqn:Hpx; simpl; [|discriminate].
  destruct (filter_each p xs) as [zs|e] eqn:Hzs; simpl; [|discriminate].
  intros [= <-]. destruct (IH zs eq_refl) as [Hsub Hmem].
  destruct b.
  - split; [apply sublist_skip; exact Hsub|]. intros y.
    rewrite !elem_of_cons, Hmem. split.
    + intros [->|[Hy Hp]]; [split; [left; reflexivity|exact Hpx]|].
      split; [right; exact Hy|exact Hp].
    + intros [[->|Hy] Hp]; [left; reflexivity|right; split; assumption].
  - split; [apply sublist_cons; exact Hsub|]. intros y.
    rewrite elem_of_cons, Hmem. split.
    + intros [Hy Hp]. split; [right; exact Hy|exact Hp].
    + intros [[->|Hy] Hp]; [congruence|split; assumption].
Qed.

Lemma drop_mentioning_spec (kw : string) (all_issues out : list pydict) :
  Verdicts.drop_mentioning kw all_issues = Ok out ->
  sublist out all_issues /\
  forall i, i ∈ out <-> i ∈ all_issues /\ Verdicts.mentions kw i = Ok false.
Proof.
  intros Hout. apply filter_each_spec in Hout as [Hsub Hmem].
  split; [exact Hsub|]. intros i. rewrite Hmem.
  destruct (Verdicts.mentions kw i) as [[|]|e]; simpl; split; intros [Hi Hm];
    (split; [exact Hi|]); congruence.
Qed.

Module OverallFacts.
Import Overall.

Lemma pri_bounds (v : pyval) (k : Z) : pri v = Ok k -> 0 <= k <= 3.
Proof.
  unfold pri. destruct (Storage.hashable v); [|discriminate].
  intros [= <-].
  destruct (Py.eq_str v "FAIL"); [lia|].
  destruct (Py.eq_str v "WARN"); [lia|].
  destruct (Py.eq_str v "PASS"); lia.
Qed.

Lemma pri_known (v : pyval) (s : string) (k : Z) :
  (s, k) ∈ [("FAIL", 0); ("WARN", 1); ("PASS", 2)]%string ->
  pri v = Ok k <-> v = PStr s.
Proof.
  intros Hs.
  assert (Hcases : (s = "FAIL"%string /\ k = 0) \/ (s = "WARN"%string /\ k = 1)
                   \/ (s = "PASS"%string /\ k = 2)).
  { apply elem_of_cons in Hs as [[= -> ->]|Hs]; [tauto|].
    apply elem_of_cons in Hs as [[= -> ->]|Hs]; [tauto|].
    apply elem_of_cons in Hs as [[= -> ->]|Hs]; [tauto|].
    apply elem_of_nil in Hs as []. }
  unfold pri. split.
  - destruct (Storage.hashable v); [|discriminate]. intros [= Hk].
    destruct (Py.eq_str v "FAIL") eqn:E1.
    { apply StorageFacts.eq_str_spec in E1.
      destruct Hcases as [[-> ->]|[[-> ->]|[-> ->]]]; try lia. exact E1. }
    destruct (Py.eq_str v "WARN") eqn:E2.
    { apply StorageFacts.eq_str_spec in E2.
      destruct Hcases as [[-> ->]|[[-> ->]|[-> ->]]]; try lia. exact E2. }
    destruct (Py.eq_str v "PASS") eqn:E3.
    { apply StorageFacts.eq_str_spec in E3.
      destruct Hcases as [[-> ->]|[[-> ->]|[-> ->]]]; try lia. exact E3. }
    lia.
  - intros ->. destruct Hcases as [[-> ->]|[[-> ->]|[-> ->]]]; reflexivity.
Qed.

(** The entry [min] returns has the smallest key of the list. *)
Lemma min_by_pri_spec (verdicts : list (string * pyval)) (best : string * pyval) :
  min_by_pri verdicts = Ok best ->
  best ∈ verdicts /\
  exists k, pri best.2 = Ok k /\
    forall x, x ∈ verdicts -> exists kx, pri x.2 = Ok kx /\ k <= kx.
Proof.
  destruct verdicts as [|first rest]; simpl; [discriminate|].
  destruct (pri first.2) as [k|e] eqn:Hk; simpl; [|discriminate].
  destruct (for_each _ rest (first, k)) as [[b kb]|e] eqn:Hloop; simpl; [|discriminate].
  intros [= <-].
  assert (Hinv : (b ∈ first :: rest /\ pri b.2 = Ok kb /\ kb <= k)
                 /\ forall x, x ∈ rest -> exists kx, pri x.2 = Ok kx /\ kb <= kx).
  { revert Hloop.
    apply (for_each_reaches
             (fun st : (string * pyval) * Z =>
                st.1 ∈ first :: rest /\ pri st.1.2 = Ok st.2 /\ st.2 <= k)
             (fun x st => exists kx, pri x.2 = Ok kx /\ st.2 <= kx)).
    - simpl. split; [left|]. split; [exact Hk|lia].
    - intros x [c kc] st' Hx (Hc & Hpc & Hle) Hstep. simpl in *.
      destruct (pri x.2) as [kx|e] eqn:Hkx; simpl in Hstep; [|discriminate].
      injection Hstep as <-.
      destruct (Z.ltb_spec kx kc); simpl.
      + split; [|exists kx; split; [reflexivity|lia]].
        split; [right; exact Hx|]. split; [exact Hkx|lia].
      + split; [|exists kx; split; [reflexivity|lia]].
        split; [exact Hc|]. split; [exact Hpc|exact Hle].
    - intros x y [c kc] st' _ (kx & Hkx & Hle) Hstep. simpl in *.
      destruct (pri y.2) as [ky|e]; simpl in Hstep; [|discriminate].
      injection Hstep as <-. exists kx. split; [exact Hkx|].
      destruct (Z.ltb_spec ky kc); simpl; lia. }
  destruct Hinv as [(Hb & Hpb & Hle) Hrest]. simpl.
  split; [exact Hb|]. exists kb. split; [exact Hpb|].
  intros x Hx. apply elem_of_cons in Hx as [->|Hx].
  - exists k. split; [exact Hk|exact Hle].
  - apply Hrest. exact Hx.
Qed.

(** The stage verdicts, read back from the list [derive_verdicts] builds. *)
Lemma stage_verdict_known (remaining : list pyval) (label : string)
    (data : option pydict) (lv : string * pyval) :
  Verdicts.stage_verdict remaining (label, data) = Ok lv ->
  lv.1 = label /\
  ((exists d raw, data = Some d /\ d <> [] /\ Verdicts.raw_verdict d = Ok raw /\
      lv.2 = if Py.eq_str raw "WARN" && Verdicts.no_issue_left label remaining
             then PStr "PASS" else raw)
   \/ (lv.2 = PStr "N/A" /\ (data = None \/ data = Some []))).
Proof.
  simpl. destruct data as [[|kv d]|].
  - intros [= <-]. split; [reflexivity|]. right. split; [reflexivity|]. right. reflexivity.
  - destruct (Verdicts.raw_verdict (kv :: d)) as [raw|e] eqn:Hraw; simpl; [|discriminate].
    intros [= <-]. split; [reflexivity|]. left.
    exists (kv :: d), raw. split; [reflexivity|]. split; [discriminate|].
    split; [exact Hraw|reflexivity].
  - intros [= <-]. split; [reflexivity|]. right. split; [reflexivity|]. left. reflexivity.
Qed.

End OverallFacts.

Lemma overall_ranks (verdicts : list (string * pyval)) (v : pyval) :
  Overall.overall verdicts = Ok v ->
  (exists label, (label, v) ∈ verdicts) /\
  (v = PStr "FAIL" <-> exists label, (label, PStr "FAIL") ∈ verdicts) /\
  (v = PStr "WARN" <->
     (forall label, (label, PStr "FAIL") ∉ verdicts) /\
     exists label, (label, PStr "WARN") ∈ verdicts) /\
  (v = PStr "PASS" <->
     (forall label, (label, PStr "FAIL") ∉ verdicts) /\
     (forall label, (label, PStr "WARN") ∉ verdicts) /\
     exists label, (label, PStr "PASS") ∈ verdicts).
Proof.
  unfold Overall.overall.
  destruct (Overall.min_by_pri verdicts) as [[label w]|e] eqn:Hmin; simpl; [|discriminate].
  intros [= <-].
  apply OverallFacts.min_by_pri_spec in Hmin as (Hin & k & Hk & Hleast). simpl in Hk.
  assert (Hrank : forall s n, (s, n) ∈ [("FAIL", 0); ("WARN", 1); ("PASS", 2)]%string ->
            forall l, (l, PStr s) ∈ verdicts -> k <= n).
  { intros s n Hs l Hl. destruct (Hleast _ Hl) as (kx & Hkx & Hle). simpl in Hkx.
    assert (Hpn : Overall.pri (PStr s) = Ok n).
    { apply (OverallFacts.pri_known (PStr s) s n Hs). reflexivity. }
    rewrite Hpn in Hkx. injection Hkx as <-. exact Hle. }
  assert (Hname : forall s n, (s, n) ∈ [("FAIL", 0); ("WARN", 1); ("PASS", 2)]%string ->
            w = PStr s <-> k = n).
  { intros s n Hs. rewrite <- (OverallFacts.pri_known w s n Hs), Hk.
    split; [intros [= ->]; reflexivity|intros ->; reflexivity]. }
  pose proof (OverallFacts.pri_bounds w k Hk) as Hbounds.
  pose proof (Hname "FAIL"%string 0) as Hfail.
  pose proof (Hname "WARN"%string 1) as Hwarn.
  pose proof (Hname "PASS"%string 2) as Hpass.
  pose proof (Hrank "FAIL"%string 0) as Rfail.
  pose proof (Hrank "WARN"%string 1) as Rwarn.
  pose proof (Hrank "PASS"%string 2) as Rpass.
  assert (H0 : ("FAIL"%string, 0) ∈ [("FAIL", 0); ("WARN", 1); ("PASS", 2)]%string) by left.
  assert (H1 : ("WARN"%string, 1) ∈ [("FAIL", 0); ("WARN", 1); ("PASS", 2)]%string)
    by (right; left).
  assert (H2 : ("PASS"%string, 2) ∈ [("FAIL", 0); ("WARN", 1); ("PASS", 2)]%string)
    by (right; right; left).
  specialize (Hfail H0). specialize (Hwarn H1). specialize (Hpass H2).
  specialize (Rfail H0). specialize (Rwarn H1). specialize (Rpass H2).
  split; [exists label; exact Hin|]. split; [|split].
  - split.
    + intros ->. exists label. exact Hin.
    + intros [l Hl]. apply Hfail. specialize (Rfail l Hl). lia.
  - split.
    + intros ->. split.
      * intros l Hl. specialize (Rfail l Hl). apply proj1 in Hwarn.
        specialize (Hwarn eq_refl). lia.
      * exists label. exact Hin.
    + intros [Hnofail [l Hl]]. apply Hwarn. specialize (Rwarn l Hl).
      destruct (decide (k = 0)) as [Hk0|Hk0]; [|lia].
      apply Hfail in Hk0 as ->. exfalso. apply (Hnofail label). exact Hin.
  - split.
    + intros ->. apply proj1 in Hpass. specialize (Hpass eq_refl). split; [|split].
      * intros l Hl. specialize (Rfail l Hl). lia.
      * intros l Hl. specialize (Rwarn l Hl). lia.
      * exists label. exact Hin.
    + intros (Hnofail & Hnowarn & [l Hl]). apply Hpass. specialize (Rpass l Hl).
      destruct (decide (k = 0)) as [Hk0|Hk0].
      { apply Hfail in Hk0 as ->. exfalso. apply (Hnofail label). exact Hin. }
      destruct (decide (k = 1)) as [Hk1|Hk1]; [|lia].
      apply Hwarn in Hk1 as ->. exfalso. apply (Hnowarn label). exact Hin.
Qed.

Lemma derive_verdicts_inv (stages : list (string * option pydict))
    (filtered : list pydict) (verdicts : list (string * pyval)) :
  Verdicts.derive_verdicts stages filtered = Ok verdicts ->
  exists remaining,
    Forall2 (fun i src => Py.item i "source" = Ok src) filtered remaining /\
    Forall2 (fun stage lv => Verdicts.stage_verdict remaining stage = Ok lv)
      stages verdicts.
Proof.
  unfold Verdicts.derive_verdicts.
  destruct (map_each _ filtered) as [remaining|e] eqn:Hrem; simpl; [|discriminate].
  intros Hv. exists remaining. split; apply map_each_Forall2; assumption.
Qed.

Lemma no_issue_left_false (label : string) (filtered : list pydict)
    (remaining : list pyval) :
  Forall2 (fun i src => Py.item i "source" = Ok src) filtered remaining ->
  Verdicts.no_issue_left label remaining = false <->
  exists i, i ∈ filtered /\ Py.item i "source" = Ok (PStr label).
Proof.
  intros Hrem. unfold Verdicts.no_issue_left.
  rewrite negb_false_iff, existsb_exists. split.
  - intros (src & Hsrc & Heq). apply StorageFacts.eq_str_spec in Heq as ->.
    apply list_elem_of_In, list_elem_of_lookup in Hsrc as [n Hn].
    destruct (Forall2_lookup_r _ _ _ _ _ Hrem Hn) as (i & Hi & Hitem).
    exists i. split; [|exact Hitem]. apply list_elem_of_lookup. exists n. exact Hi.
  - intros (i & Hi & Hitem). apply list_elem_of_lookup in Hi as [n Hn].
    destruct (Forall2_lookup_l _ _ _ _ _ Hrem Hn) as (src & Hsrc & Hitem').
    rewrite Hitem in Hitem'. injection Hitem' as <-.
    exists (PStr label). split.
    + apply list_elem_of_In, list_elem_of_lookup. exists n. exact Hsrc.
    + apply StorageFacts.eq_str_spec. reflexivity.
Qed.

(** A stage verdict in the list, read back to the stage it comes from. *)
Lemma verdict_of_stage (remaining : list pyval)
    (stages : list (string * option pydict)) (verdicts : list (string * pyval))
    (label : string) (v : pyval) :
  Forall2 (fun stage lv => Verdicts.stage_verdict remaining stage = Ok lv)
    stages verdicts ->
  (label, v) ∈ verdicts <->
  exists data, (label, data) ∈ stages /\
    Verdicts.stage_verdict remaining (label, data) = Ok (label, v).
Proof.
  intros Hall. split.
  - intros Hin. apply list_elem_of_lookup in Hin as [n Hn].
    destruct (Forall2_lookup_r _ _ _ _ _ Hall Hn) as ([l data] & Hst & Hv).
    destruct (OverallFacts.stage_verdict_known remaining l data _ Hv) as [Hl _].
    simpl in Hl. subst l. exists data. split; [|exact Hv].
    apply list_elem_of_lookup. exists n. exact Hst.
  - intros (data & Hst & Hv). apply list_elem_of_lookup in Hst as [n Hn].
    destruct (Forall2_lookup_l _ _ _ _ _ Hall Hn) as (lv & Hlv & Hv').
    rewrite Hv in Hv'. injection Hv' as <-.
    apply list_elem_of_lookup. exists n. exact Hlv.
Qed.

Lemma stage_verdict_fail (remaining : list pyval) (label : string)
    (data : option pydict) :
  Verdicts.stage_verdict remaining (label, data) = Ok (label, PStr "FAIL") <->
  exists d, data = Some d /\ d <> [] /\ Verdicts.raw_verdict d = Ok (PStr "FAIL").
Proof.
  split.
  - intros Hv.
    destruct (OverallFacts.stage_verdict_known remaining label data _ Hv)
      as [_ [(d & raw & -> & Hd & Hraw & Hlv)|[Hna _]]]; [|discriminate Hna].
    exists d. split; [reflexivity|]. split; [exact Hd|]. simpl in Hlv.
    destruct (Py.eq_str raw "WARN" && _); [discriminate Hlv|]. congruence.
  - intros (d & -> & Hd & Hraw). destruct d as [|kv d]; [contradiction|].
    simpl. rewrite Hraw. reflexivity.
Qed.

Lemma stage_verdict_warn (remaining : list pyval) (label : string)
    (data : option pydict) :
  Verdicts.stage_verdict remaining (label, data) = Ok (label, PStr "WARN") <->
  exists d, data = Some d /\ d <> [] /\ Verdicts.raw_verdict d = Ok (PStr "WARN") /\
    Verdicts.no_issue_left label remaining = false.
Proof.
  split.
  - intros Hv.
    destruct (OverallFacts.stage_verdict_known remaining label data _ Hv)
      as [_ [(d & raw & -> & Hd & Hraw & Hlv)|[Hna _]]]; [|discriminate Hna].
    exists d. split; [reflexivity|]. split; [exact Hd|]. simpl in Hlv.
    destruct (Py.eq_str raw "WARN") eqn:Hw; simpl in Hlv.
    + destruct (Verdicts.no_issue_left label remaining); [discriminate Hlv|].
      split; [congruence|reflexivity].
    + subst raw. discriminate Hw.
  - intros (d & -> & Hd & Hraw & Hleft). destruct d as [|kv d]; [contradiction|].
    simpl. rewrite Hraw, Hleft. reflexivity.
Qed.

(** X6.  What the issue filter keeps, for any payload it accepts: the issues
    left are the collected ones in their order, without those that mention
    PCIe link degradation and, when the stress stage has data, without those
    that mention unavailable counters; nothing else is dropped and nothing
    is added. *)
Theorem filter_issues_spec (stress : option pydict) (all_issues filtered : list pydict) :
  Verdicts.filter_issues stress all_issues = Ok filtered ->
  sublist filtered all_issues /\
  forall i, i ∈ filtered <->
    i ∈ all_issues /\
    Verdicts.mentions "pcie link degradation" i = Ok false /\
    (Verdicts.present stress = true ->
     Verdicts.mentions "counters unavailable" i = Ok false).
Proof.
  unfold Verdicts.filter_issues. destruct (Verdicts.present stress).
  - destruct (Verdicts.drop_mentioning "counters unavailable" all_issues)
      as [mid|e] eqn:Hmid; simpl; [|discriminate].
    intros Hout.
    apply drop_mentioning_spec in Hmid as [Hsub1 Hmem1].
    apply drop_mentioning_spec in Hout as [Hsub2 Hmem2].
    split; [etransitivity; eassumption|].
    intros i. rewrite Hmem2, Hmem1. tauto.
  - simpl. intros Hout. apply drop_mentioning_spec in Hout as [Hsub Hmem].
    split; [exact Hsub|]. intros i. rewrite Hmem. split.
    + intros [Hi Hp]. split; [exact Hi|]. split; [exact Hp|discriminate].
    + intros (Hi & Hp & _). split; assumption.
Qed.

Lemma filter_issues_spec_witness :
  sublist [] [Verdicts.both_phrases] /\
  forall i, i ∈ [] <->
    i ∈ [Verdicts.both_phrases] /\
    Verdicts.mentions "pcie link degradation" i = Ok false /\
    (Verdicts.present None = true ->
     Verdicts.mentions "counters unavailable" i = Ok false).
Proof.
  apply (filter_issues_spec None [Verdicts.both_phrases] []).
  vm_compute. reflexivity.
Defined.

(** X7.  The overall verdict is the worst of the stage verdicts, in the
    order FAIL, WARN, PASS, anything else: it is the verdict of one of the
    stages; it is FAIL exactly when some stage is FAIL, WARN exactly when
    none is FAIL and some is WARN, and PASS exactly when none is FAIL or
    WARN and some is PASS. *)
Theorem overall_is_worst (verdicts : list (string * pyval)) (v : pyval) :
  Overall.overall verdicts = Ok v ->
  (exists label, (label, v) ∈ verdicts) /\
  (v = PStr "FAIL" <-> exists label, (label, PStr "FAIL") ∈ verdicts) /\
  (v = PStr "WARN" <->
     (forall label, (label, PStr "FAIL") ∉ verdicts) /\
     exists label, (label, PStr "WARN") ∈ verdicts) /\
  (v = PStr "PASS" <->
     (forall label, (label, PStr "FAIL") ∉ verdicts) /\
     (forall label, (label, PStr "WARN") ∉ verdicts) /\
     exists label, (label, PStr "PASS") ∈ verdicts).
Proof. apply overall_ranks. Qed.

Lemma overall_is_worst_witness :
  (exists label, (label, PStr "WARN") ∈ [("Install", PStr "PASS"); ("Inventory", PStr "WARN");
                                         ("Stress Test", PStr "N/A")]%string) /\
  (PStr "WARN" = PStr "FAIL" <->
     exists label, (label, PStr "FAIL") ∈ [("Install", PStr "PASS"); ("Inventory", PStr "WARN");
                                           ("Stress Test", PStr "N/A")]%string) /\
  (PStr "WARN" = PStr "WARN" <->
     (forall label, (label, PStr "FAIL") ∉ [("Install", PStr "PASS"); ("Inventory", PStr "WARN");
                                            ("Stress Test", PStr "N/A")]%string) /\
     exists label, (label, PStr "WARN") ∈ [("Install", PStr "PASS"); ("Inventory", PStr "WARN");
                                           ("Stress Test", PStr "N/A")]%string) /\
  (PStr "WARN" = PStr "PASS" <->
     (forall label, (label, PStr "FAIL") ∉ [("Install", PStr "PASS"); ("Inventory", PStr "WARN");
                                            ("Stress Test", PStr "N/A")]%string) /\
     (forall label, (label, PStr "WARN") ∉ [("Install", PStr "PASS"); ("Inventory", PStr "WARN");
                                            ("Stress Test", PStr "N/A")]%string) /\
     exists label, (label, PStr "PASS") ∈ [("Install", PStr "PASS"); ("Inventory", PStr "WARN");
                                           ("Stress Test", PStr "N/A")]%string).
Proof.
  apply (overall_is_worst [("Install", PStr "PASS"); ("Inventory", PStr "WARN");
                           ("Stress Test", PStr "N/A")]%string (PStr "WARN")).
  vm_compute. reflexivity.
Defined.

(** X8.  The verdict block as a whole.  The overall verdict of the report is
    FAIL exactly when a stage with data reports FAIL, whatever the filter
    removes; it is WARN exactly when no stage reports FAIL and some stage
    reports WARN and still has an issue in the filtered list. *)
Theorem report_overall_spec (install inventory stress : option pydict)
    (filtered : list pydict) (verdicts : list (string * pyval)) (v : pyval) :
  Verdicts.report_verdicts install inventory stress = Ok (filtered, verdicts) ->
  Overall.overall verdicts = Ok v ->
  Overall.report_overall install inventory stress = Ok v /\
  (v = PStr "FAIL" <->
     exists label, Overall.stage_reports install inventory stress label "FAIL") /\
  (v = PStr "WARN" <->
     (forall label, ~ Overall.stage_reports install inventory stress label "FAIL") /\
     exists label,
       Overall.stage_reports install inventory stress label "WARN" /\
       exists i, i ∈ filtered /\ Py.item i "source" = Ok (PStr label)).
Proof.
  intros Hreport Hoverall.
  split.
  { unfold Overall.report_overall. rewrite Hreport. simpl. exact Hoverall. }
  unfold Verdicts.report_verdicts in Hreport.
  set (stages := Verdicts.stages install inventory stress) in *.
  destruct (Verdicts.collect_issues stages) as [all|e]; simpl in Hreport; [|discriminate].
  destruct (Verdicts.filter_issues stress all) as [kept|e]; simpl in Hreport;
    [|discriminate].
  destruct (Verdicts.derive_verdicts stages kept) as [vs|e] eqn:Hvs; simpl in Hreport;
    [|discriminate].
  injection Hreport as -> ->.
  apply derive_verdicts_inv in Hvs as (remaining & Hrem & Hall).
  assert (Hfail : forall label,
            (label, PStr "FAIL") ∈ verdicts
            <-> Overall.stage_reports install inventory stress label "FAIL").
  { intros label. rewrite (verdict_of_stage remaining stages verdicts label _ Hall).
    unfold Overall.stage_reports. fold stages. split.
    - intros (data & Hin & Hv). apply stage_verdict_fail in Hv as (d & -> & Hd & Hraw).
      exists d. tauto.
    - intros (d & Hin & Hd & Hraw). exists (Some d). split; [exact Hin|].
      apply stage_verdict_fail. exists d. tauto. }
  assert (Hwarn : forall label,
            (label, PStr "WARN") ∈ verdicts
            <-> Overall.stage_reports install inventory stress label "WARN" /\
                exists i, i ∈ filtered /\ Py.item i "source" = Ok (PStr label)).
  { intros label. rewrite (verdict_of_stage remaining stages verdicts label _ Hall).
    rewrite <- (no_issue_left_false label filtered remaining Hrem).
    unfold Overall.stage_reports. fold stages. split.
    - intros (data & Hin & Hv).
      apply stage_verdict_warn in Hv as (d & -> & Hd & Hraw & Hleft).
      split; [exists d; tauto|exact Hleft].
    - intros [(d & Hin & Hd & Hraw) Hleft]. exists (Some d). split; [exact Hin|].
      apply stage_verdict_warn. exists d. tauto. }
  destruct (overall_ranks verdicts v Hoverall) as (_ & Hf & Hw & _).
  split.
  - rewrite Hf. split; intros [label Hl]; exists label; apply Hfail; exact Hl.
  - rewrite Hw. split.
    + intros [Hno [label Hl]]. split.
      * intros l Hl'. apply (Hno l). apply Hfail. exact Hl'.
      * exists label. apply Hwarn. exact Hl.
    + intros [Hno [label Hl]]. split.
      * intros l Hl'. apply (Hno l). apply Hfail. exact Hl'.
      * exists label. apply Hwarn. exact Hl.
Qed.

Lemma report_overall_spec_witness :
  Overall.report_overall (Some Verdicts.install_fail) (Some Verdicts.inventory_warn)
    (Some Verdicts.stress_pass) = Ok (PStr "FAIL") /\
  (PStr "FAIL" = PStr "FAIL" <->
     exists label,
       Overall.stage_reports (Some Verdicts.install_fail) (Some Verdicts.inventory_warn)
         (Some Verdicts.stress_pass) label "FAIL") /\
  (PStr "FAIL" = PStr "WARN" <->
     (forall label,
        ~ Overall.stage_reports (Some Verdicts.install_fail)
            (Some Verdicts.inventory_warn) (Some Verdicts.stress_pass) label "FAIL") /\
     exists label,
       Overall.stage_reports (Some Verdicts.install_fail) (Some Verdicts.inventory_warn)
         (Some Verdicts.stress_pass) label "WARN" /\
       exists i, i ∈ [] /\ Py.item i "source" = Ok (PStr label)).
Proof.
  apply (report_overall_spec (Some Verdicts.install_fail) (Some Verdicts.inventory_warn)
           (Some Verdicts.stress_pass) []
           [("Install", PStr "FAIL"); ("Inventory", PStr "PASS");
            ("Stress Test", PStr "PASS")]%string (PStr "FAIL")).
  - vm_compute. reflexivity.
  - vm_compute. reflexivity.
Defined.
(** ** Network cards: further properties *)

Module NicSourceFacts.
Import Nic NicSources.

(** *** No port is lost or counted twice *)

Lemma grouped_ports_cons (x : string * list pydict) (g : groups) :
  grouped_ports (x :: g) = (length x.2 + grouped_ports g)%nat.
Proof. reflexivity. Qed.

Lemma total_ports_cons (c : card) (cards : list card) :
  total_ports (c :: cards) = (ports c + total_ports cards)%nat.
Proof. reflexivity. Qed.

Lemma add_to_group_counts (p : string) (n : pydict) (g : groups) :
  grouped_ports (add_to_group p n g) = S (grouped_ports g).
Proof.
  induction g as [|[q members] g IH]; [reflexivity|].
  cbn [add_to_group]. destruct (String.eqb q p).
  - rewrite !grouped_ports_cons. cbn [snd]. rewrite length_app. simpl. lia.
  - rewrite !grouped_ports_cons, IH. lia.
Qed.

Lemma sort_port_counts (n : pydict) (st st' : groups * list pydict) :
  sort_port n st = Ok st' ->
  (grouped_ports st'.1 + length st'.2 = S (grouped_ports st.1 + length st.2))%nat.
Proof.
  unfold sort_port.
  destruct (normalized_mac n) as [mac|e]; cbn [mbind result_bind]; [|discriminate].
  destruct (14 <=? String.length mac)%nat; intros [= <-]; simpl.
  - rewrite add_to_group_counts. lia.
  - rewrite length_app. simpl. lia.
Qed.

Lemma sort_ports_count (nics : list pydict) (st : groups * list pydict) :
  for_each sort_port nics ([], []) = Ok st ->
  (grouped_ports st.1 + length st.2 = length nics)%nat.
Proof.
  apply (for_each_prefix
           (fun pre (st : groups * list pydict) =>
              (grouped_ports st.1 + length st.2 = length pre)%nat)).
  - reflexivity.
  - intros pre n a a' Ha Hn. apply sort_port_counts in Hn.
    rewrite length_app. simpl. lia.
Qed.

Lemma card_of_group_ports (g : string * list pydict) (c : card) :
  card_of_group g = Ok c -> ports c = length g.2.
Proof.
  unfold card_of_group. destruct g.2 as [|rep rest]; [discriminate|].
  destruct (model_str rep); cbn [mbind result_bind]; [|discriminate].
  destruct (sorted_macs _); cbn [mbind result_bind]; [|discriminate].
  destruct (max_sriov _); cbn [mbind result_bind]; [|discriminate].
  intros [= <-]. reflexivity.
Qed.

Lemma card_of_port_ports (n : pydict) (c : card) :
  card_of_port n = Ok c -> ports c = 1%nat.
Proof.
  unfold card_of_port. destruct (model_str n); cbn [mbind result_bind]; [|discriminate].
  intros [= <-]. reflexivity.
Qed.

Lemma cards_of_groups_ports (g : groups) (cards : list card) :
  map_each card_of_group g = Ok cards -> total_ports cards = grouped_ports g.
Proof.
  rewrite map_each_Forall2.
  induction 1 as [|x c g cards Hc _ IH]; [reflexivity|].
  rewrite total_ports_cons, grouped_ports_cons, IH, (card_of_group_ports x c Hc).
  reflexivity.
Qed.

Lemma cards_of_ports_ports (singles : list pydict) (cards : list card) :
  map_each card_of_port singles = Ok cards -> total_ports cards = length singles.
Proof.
  rewrite map_each_Forall2.
  induction 1 as [|x c l cards Hc _ IH]; [reflexivity|].
  rewrite total_ports_cons, IH, (card_of_port_ports x c Hc). reflexivity.
Qed.

Lemma group_nics_total_ports (nics : list pydict) (cards : list card) :
  _group_nics_by_card nics = Ok cards -> total_ports cards = length nics.
Proof.
  unfold _group_nics_by_card. destruct nics as [|n nics].
  { intros [= <-]. reflexivity. }
  destruct (for_each sort_port (n :: nics) ([], [])) as [st|e] eqn:Hst;
    cbn [mbind result_bind]; [|discriminate].
  match goal with
  | |- context [map_each card_of_group ?g] =>
      destruct (map_each card_of_group g) as [grouped|e] eqn:Hg
  end; cbn [mbind result_bind]; [|discriminate].
  match goal with
  | |- context [map_each card_of_port ?l] =>
      destruct (map_each card_of_port l) as [singles|e] eqn:Hs
  end; cbn [mbind result_bind]; [|discriminate].
  intros [= <-]. unfold total_ports. rewrite fmap_app, sum_list_with_app.
  fold (total_ports grouped). fold (total_ports singles).
  rewrite (cards_of_groups_ports _ _ Hg), (cards_of_ports_ports _ _ Hs).
  apply sort_ports_count. exact Hst.
Qed.

(** *** What the enrichment leaves alone *)

Lemma same_port_refl (n : pydict) : same_port n n.
Proof. intros k _ _. reflexivity. Qed.

Lemma same_port_trans (a b c : pydict) :
  same_port a b -> same_port b c -> same_port a c.
Proof. intros Hab Hbc k H1 H2. rewrite (Hbc k H1 H2). apply (Hab k H1 H2). Qed.

Lemma same_port_get (n n' : pydict) (k : string) (dflt : pyval) :
  same_port n n' -> k <> "product"%string -> k <> "vendor"%string ->
  Py.get_or n' k dflt = Py.get_or n k dflt.
Proof. intros Hsame H1 H2. unfold Py.get_or. rewrite (Hsame k H1 H2). reflexivity. Qed.

Lemma same_port_mac (n n' : pydict) :
  same_port n n' -> normalized_mac n' = normalized_mac n.
Proof.
  intros Hsame. unfold normalized_mac.
  rewrite (same_port_get n n' "mac" _ Hsame) by discriminate. reflexivity.
Qed.

Lemma same_port_sriov (n n' : pydict) : same_port n n' -> sriov n' = sriov n.
Proof.
  intros Hsame. unfold sriov.
  rewrite (same_port_get n n' "sriov_max_vf" _ Hsame) by discriminate. reflexivity.
Qed.

Lemma set_product_same_port (n : pydict) (v : pyval) :
  same_port n (Py.set n "product" v).
Proof. intros k H1 _. apply lookup_key_set_ne. congruence. Qed.

Lemma set_vendor_same_port (n : pydict) (v : pyval) :
  same_port n (Py.set n "vendor" v).
Proof. intros k _ H2. apply lookup_key_set_ne. congruence. Qed.

(** What the enrichment of one port keeps. *)
Lemma enrich_nic_keeps (table : pydict) (nic nic' : pydict) :
  enrich_nic table nic = Ok nic' ->
  same_port nic nic' /\
  (Py.truthy (Py.get nic "product") = true ->
   Py.lookup_key "product" nic' = Py.lookup_key "product" nic) /\
  (Py.truthy (Py.get nic "vendor") = true ->
   Py.eq_str (Py.get nic "vendor") "--" = false ->
   Py.lookup_key "vendor" nic' = Py.lookup_key "vendor" nic).
Proof.
  unfold enrich_nic. destruct (normalized_mac nic) as [mac|e]; simpl; [|discriminate].
  destruct (Py.truthy (Py.get table mac)).
  2:{ intros [= <-]. split; [apply same_port_refl|]. split; reflexivity. }
  set (mid := if negb (Py.truthy (Py.get nic "product")) then _ else _).
  assert (Hmid : forall m, mid = Ok m ->
            same_port nic m /\
            (Py.truthy (Py.get nic "product") = true -> m = nic) /\
            Py.lookup_key "vendor" m = Py.lookup_key "vendor" nic).
  { intros m. unfold mid. destruct (Py.truthy (Py.get nic "product")); simpl.
    - intros [= <-]. split; [apply same_port_refl|]. split; reflexivity.
    - destruct (Py.getattr_get _ "product" _); simpl; [|discriminate].
      intros [= <-]. split; [apply set_product_same_port|].
      split; [discriminate|]. apply lookup_key_set_ne. discriminate. }
  destruct mid as [m|e]; simpl; [|discriminate].
  destruct (Hmid m eq_refl) as (Hsame & Hprod & Hvend).
  assert (Hget : Py.get m "vendor" = Py.get nic "vendor").
  { unfold Py.get. rewrite Hvend. reflexivity. }
  rewrite Hget.
  destruct (negb (Py.truthy (Py.get nic "vendor")) || _) eqn:Hcond.
  - destruct (Py.getattr_get _ "vendor" _); simpl; [|discriminate].
    intros [= <-]. split; [|split].
    + eapply same_port_trans; [exact Hsame|apply set_vendor_same_port].
    + intros Ht. rewrite lookup_key_set_ne by discriminate.
      rewrite (Hprod Ht). reflexivity.
    + intros Ht Hdash. rewrite Ht, Hdash in Hcond. discriminate.
  - intros [= <-]. split; [exact Hsame|]. split.
    + intros Ht. rewrite (Hprod Ht). reflexivity.
    + intros _ _. exact Hvend.
Qed.

Lemma enrich_nics_same_ports (nics lshw_nics nics' : list pydict) :
  enrich_nics_from_lshw nics lshw_nics = Ok nics' ->
  Forall2 same_port nics nics'.
Proof.
  unfold enrich_nics_from_lshw. destruct lshw_nics as [|ln lshw_nics].
  { intros [= <-]. apply Forall_Forall2_diag, Forall_forall.
    intros n _. apply same_port_refl. }
  destruct (by_mac (ln :: lshw_nics)) as [table|e]; simpl; [|discriminate].
  rewrite map_each_Forall2. intros Hall. eapply Forall2_impl; [exact Hall|].
  intros n n' Hn. apply (enrich_nic_keeps table n n' Hn).
Qed.

(** *** The grouping of two lists of ports that differ in product and vendor *)

Lemma add_to_group_alike (p : string) (n n' : pydict) (g g' : groups) :
  same_port n n' ->
  Forall2 (fun g g' => g'.1 = g.1 /\ Forall2 same_port g.2 g'.2) g g' ->
  Forall2 (fun g g' => g'.1 = g.1 /\ Forall2 same_port g.2 g'.2)
    (add_to_group p n g) (add_to_group p n' g').
Proof.
  intros Hn. induction 1 as [|[q ms] [q' ms'] g g' [Hq Hms] Hgg IH]; simpl in *.
  { constructor; [|constructor]. split; [reflexivity|]. constructor; [exact Hn|constructor]. }
  subst q'. destruct (String.eqb q p).
  - constructor; [|exact Hgg]. split; [reflexivity|].
    apply Forall2_app; [exact Hms|]. constructor; [exact Hn|constructor].
  - constructor; [|exact IH]. split; [reflexivity|exact Hms].
Qed.

Lemma sort_port_alike (n n' : pydict) (st st' out out' : groups * list pydict) :
  same_port n n' -> alike st st' ->
  sort_port n st = Ok out -> sort_port n' st' = Ok out' -> alike out out'.
Proof.
  intros Hn [Hg Hs]. unfold sort_port. rewrite (same_port_mac n n' Hn).
  destruct (normalized_mac n) as [mac|e]; cbn [mbind result_bind]; [|discriminate].
  destruct (14 <=? String.length mac)%nat; intros [= <-] [= <-]; split; simpl.
  - apply add_to_group_alike; assumption.
  - exact Hs.
  - exact Hg.
  - apply Forall2_app; [exact Hs|]. constructor; [exact Hn|constructor].
Qed.

Lemma sort_ports_alike (nics nics' : list pydict) (st st' out out' : groups * list pydict) :
  Forall2 same_port nics nics' -> alike st st' ->
  for_each sort_port nics st = Ok out -> for_each sort_port nics' st' = Ok out' ->
  alike out out'.
Proof.
  intros Hall. revert st st'.
  induction Hall as [|n n' nics nics' Hn _ IH]; intros st st' Hst; simpl.
  { intros [= <-] [= <-]. exact Hst. }
  destruct (sort_port n st) as [mid|e] eqn:Hmid; simpl; [|discriminate].
  destruct (sort_port n' st') as [mid'|e] eqn:Hmid'; simpl; [|discriminate].
  apply IH. eapply sort_port_alike; eassumption.
Qed.

Lemma sorted_macs_alike (ms ms' : list pydict) :
  Forall2 same_port ms ms' -> sorted_macs ms' = sorted_macs ms.
Proof.
  intros Hall. unfold sorted_macs.
  assert (Hraw : map_each (fun p => as_str (Py.get_or p "mac" (PStr EmptyString))) ms'
                 = map_each (fun p => as_str (Py.get_or p "mac" (PStr EmptyString))) ms).
  { induction Hall as [|m m' ms ms' Hm _ IH]; [reflexivity|]. simpl.
    rewrite (same_port_get m m' "mac" _ Hm) by discriminate. rewrite IH. reflexivity. }
  rewrite Hraw. reflexivity.
Qed.

Lemma max_sriov_alike (ms ms' : list pydict) :
  Forall2 same_port ms ms' -> max_sriov ms' = max_sriov ms.
Proof.
  intros Hall. unfold max_sriov.
  destruct Hall as [|m m' ms ms' Hm Hall]; [reflexivity|].
  rewrite (same_port_sriov m m' Hm). generalize (sriov m) as best.
  induction Hall as [|q q' ms ms' Hq _ IH]; intros best; [reflexivity|]. simpl.
  rewrite (same_port_sriov q q' Hq).
  destruct (Num.of_pyval (sriov q)), (Num.of_pyval best); simpl; try reflexivity.
  apply IH.
Qed.

Lemma card_of_group_alike (g g' : string * list pydict) (c c' : card) :
  g'.1 = g.1 -> Forall2 same_port g.2 g'.2 ->
  card_of_group g = Ok c -> card_of_group g' = Ok c' -> same_card c c'.
Proof.
  intros _ Hms. unfold card_of_group.
  rewrite (sorted_macs_alike _ _ Hms), (max_sriov_alike _ _ Hms).
  pose proof (Forall2_length _ _ _ Hms) as Hlen.
  destruct Hms as [|rep rep' ms ms' Hrep Hms]; [discriminate|].
  rewrite (same_port_get rep rep' "numa_node" _ Hrep) by discriminate.
  destruct (model_str rep); cbn [mbind result_bind]; [|discriminate].
  destruct (model_str rep'); cbn [mbind result_bind]; [|discriminate].
  destruct (sorted_macs _); cbn [mbind result_bind]; [|discriminate].
  destruct (max_sriov _); cbn [mbind result_bind]; [|discriminate].
  intros [= <-] [= <-]. unfold same_card. simpl. simpl in Hlen.
  repeat split; congruence.
Qed.

Lemma card_of_port_alike (n n' : pydict) (c c' : card) :
  same_port n n' ->
  card_of_port n = Ok c -> card_of_port n' = Ok c' -> same_card c c'.
Proof.
  intros Hn. unfold card_of_port.
  rewrite (same_port_sriov n n' Hn).
  rewrite (same_port_get n n' "numa_node" _ Hn) by discriminate.
  rewrite (same_port_get n n' "mac" _ Hn) by discriminate.
  destruct (model_str n); cbn [mbind result_bind]; [|discriminate].
  destruct (model_str n'); cbn [mbind result_bind]; [|discriminate].
  intros [= <-] [= <-]. unfold same_card. simpl. repeat split.
Qed.

Lemma map_each_alike {A B : Type} (f : A -> result B) (R : A -> A -> Prop)
    (Q : B -> B -> Prop) (xs xs' : list A) (ys ys' : list B) :
  (forall x x' y y', R x x' -> f x = Ok y -> f x' = Ok y' -> Q y y') ->
  Forall2 R xs xs' ->
  map_each f xs = Ok ys -> map_each f xs' = Ok ys' -> Forall2 Q ys ys'.
Proof.
  intros Hf Hall. revert ys ys'.
  induction Hall as [|x x' xs xs' Hx _ IH]; intros ys ys'; simpl.
  { intros [= <-] [= <-]. constructor. }
  destruct (f x) as [y|e] eqn:Hy; simpl; [|discriminate].
  destruct (map_each f xs) as [zs|e]; simpl; [|discriminate].
  destruct (f x') as [y'|e] eqn:Hy'; simpl; [|discriminate].
  destruct (map_each f xs') as [zs'|e]; simpl; [|discriminate].
  intros [= <-] [= <-]. constructor; [|apply IH; reflexivity].
  eapply Hf; eassumption.
Qed.

Lemma group_nics_alike (nics nics' : list pydict) (cards cards' : list card) :
  Forall2 same_port nics nics' ->
  _group_nics_by_card nics = Ok cards -> _group_nics_by_card nics' = Ok cards' ->
  Forall2 same_card cards cards'.
Proof.
  intros Hall. unfold _group_nics_by_card.
  destruct Hall as [|n n' nics nics' Hn Hall].
  { intros [= <-] [= <-]. constructor. }
  assert (Hall' : Forall2 same_port (n :: nics) (n' :: nics'))
    by (constructor; assumption).
  destruct (for_each sort_port (n :: nics) ([], [])) as [st|e] eqn:Hst;
    cbn [mbind result_bind]; [|discriminate].
  destruct (for_each sort_port (n' :: nics') ([], [])) as [st'|e] eqn:Hst';
    cbn [mbind result_bind]; [|intros _; discriminate].
  assert (Hlike : alike st st').
  { eapply (sort_ports_alike _ _ ([], []) ([], [])); [exact Hall'| |exact Hst|exact Hst'].
    split; constructor. }
  destruct Hlike as [Hg Hs].
  match goal with
  | |- context [map_each card_of_group ?g ≫= _ = Ok cards] =>
      destruct (map_each card_of_group g) as [grouped|e] eqn:Hgr
  end; cbn [mbind result_bind]; [|discriminate].
  match goal with
  | |- context [map_each card_of_port ?l ≫= _ = Ok cards] =>
      destruct (map_each card_of_port l) as [singles|e] eqn:Hsi
  end; cbn [mbind result_bind]; [|discriminate].
  match goal with
  | |- context [map_each card_of_group ?g ≫= _ = Ok cards'] =>
      destruct (map_each card_of_group g) as [grouped'|e] eqn:Hgr'
  end; cbn [mbind result_bind]; [|intros _; discriminate].
  match goal with
  | |- context [map_each card_of_port ?l ≫= _ = Ok cards'] =>
      destruct (map_each card_of_port l) as [singles'|e] eqn:Hsi'
  end; cbn [mbind result_bind]; [|intros _; discriminate].
  intros [= <-] [= <-]. apply Forall2_app.
  - eapply (map_each_alike card_of_group _ same_card); [|exact Hg|exact Hgr|exact Hgr'].
    intros x x' y y' [H1 H2]. apply card_of_group_alike; assumption.
  - eapply (map_each_alike card_of_port _ same_card); [|exact Hs|exact Hsi|exact Hsi'].
    intros x x' y y'. apply card_of_port_alike.
Qed.

(** *** The interfaces that become ports *)

Lemma extract_network_interfaces_spec (machine : pydict) (nics : list pydict) :
  extract_network_interfaces machine = Ok nics ->
  exists ifaces,
    Py.iter (Py.get_or machine "interface_set" (PList [])) = Ok ifaces /\
    nics = nic_record <$> physical_interfaces ifaces.
Proof.
  unfold extract_network_interfaces.
  destruct (Py.iter _) as [ifaces|e]; simpl; [|discriminate].
  intros Hloop. exists ifaces. split; [reflexivity|]. revert Hloop.
  apply (for_each_prefix
           (fun pre (acc : list pydict) => acc = nic_record <$> physical_interfaces pre)).
  - reflexivity.
  - intros pre v acc acc' -> Hstep. unfold physical_interfaces.
    rewrite omap_app, fmap_app. simpl.
    destruct v as [| | | | | |iface]; try discriminate Hstep.
    injection Hstep as <-. destruct (is_physical iface); simpl.
    + reflexivity.
    + rewrite app_nil_r. reflexivity.
Qed.

(** *** The enrichment does not fail on what lshw and MAAS give *)








End NicSourceFacts.

(** X9.  Grouping neither loses a port nor counts one twice: the port
    counts of the cards add up to the number of ports given. *)
Theorem group_nics_by_card_counts_ports (nics : list pydict) (cards : list Nic.card) :
  Nic._group_nics_by_card nics = Ok cards ->
  NicSources.total_ports cards = length nics.
Proof. apply NicSourceFacts.group_nics_total_ports. Qed.

Lemma group_nics_by_card_counts_ports_witness :
  exists cards,
    Nic._group_nics_by_card Nic.sample = Ok cards /\
    NicSources.total_ports cards = length Nic.sample.
Proof.
  destruct (Nic._group_nics_by_card Nic.sample) as [cards|e] eqn:Hcards.
  - exists cards. split; [reflexivity|].
    apply (group_nics_by_card_counts_ports Nic.sample cards Hcards).
  - exfalso. vm_compute in Hcards. discriminate Hcards.
Defined.

(** X10.  What [enrich_nics_from_lshw] leaves alone: it returns as many
    ports as it was given, each with all its keys but product and vendor
    unchanged, the MAC among them; a product that MAAS gave is kept, and so
    is a vendor that MAAS gave unless it is the placeholder "--". *)
Theorem enrich_nics_from_lshw_keeps (nics lshw_nics enriched : list pydict) :
  NicSources.enrich_nics_from_lshw nics lshw_nics = Ok enriched ->
  Forall2 (fun n n' =>
             NicSources.same_port n n' /\
             (Py.truthy (Py.get n "product") = true ->
              Py.lookup_key "product" n' = Py.lookup_key "product" n) /\
             (Py.truthy (Py.get n "vendor") = true ->
              Py.eq_str (Py.get n "vendor") "--" = false ->
              Py.lookup_key "vendor" n' = Py.lookup_key "vendor" n))
    nics enriched.
Proof.
  unfold NicSources.enrich_nics_from_lshw. destruct lshw_nics as [|ln lshw_nics].
  { intros [= <-]. apply Forall_Forall2_diag, Forall_forall.
    intros n _. split; [apply NicSourceFacts.same_port_refl|]. split; reflexivity. }
  destruct (NicSources.by_mac (ln :: lshw_nics)) as [table|e]; simpl; [|discriminate].
  rewrite map_each_Forall2. intros Hall. eapply Forall2_impl; [exact Hall|].
  intros n n' Hn. apply (NicSourceFacts.enrich_nic_keeps table n n' Hn).
Qed.

Lemma enrich_nics_from_lshw_keeps_witness :
  exists enriched,
    NicSources.enrich_nics_from_lshw Nic.sample
      (NicSources.parse_lshw_nics (Some NicSources.sample_lshw)) = Ok enriched /\
    Forall2 (fun n n' =>
               NicSources.same_port n n' /\
               (Py.truthy (Py.get n "product") = true ->
                Py.lookup_key "product" n' = Py.lookup_key "product" n) /\
               (Py.truthy (Py.get n "vendor") = true ->
                Py.eq_str (Py.get n "vendor") "--" = false ->
                Py.lookup_key "vendor" n' = Py.lookup_key "vendor" n))
      Nic.sample enriched.
Proof.
  destruct (NicSources.enrich_nics_from_lshw Nic.sample
              (NicSources.parse_lshw_nics (Some NicSources.sample_lshw)))
    as [enriched|e] eqn:Henriched.
  - exists enriched. split; [reflexivity|].
    apply (enrich_nics_from_lshw_keeps Nic.sample
             (NicSources.parse_lshw_nics (Some NicSources.sample_lshw)) enriched Henriched).
  - exfalso. vm_compute in Henriched. discriminate Henriched.
Defined.

(** X11.  The enrichment does not change the grouping: the cards built from
    the enriched ports are, one by one, the cards built from the ports as
    MAAS gave them, with the same port count, MACs, VF count and NUMA node;
    only the label of a card can differ. *)
Theorem enrich_nics_same_cards (nics lshw_nics enriched : list pydict)
    (cards cards' : list Nic.card) :
  NicSources.enrich_nics_from_lshw nics lshw_nics = Ok enriched ->
  Nic._group_nics_by_card nics = Ok cards ->
  Nic._group_nics_by_card enriched = Ok cards' ->
  Forall2 NicSources.same_card cards cards'.
Proof.
  intros Henriched. apply NicSourceFacts.group_nics_alike.
  eapply NicSourceFacts.enrich_nics_same_ports. exact Henriched.
Qed.

Lemma enrich_nics_same_cards_witness :
  exists enriched cards cards',
    NicSources.enrich_nics_from_lshw Nic.sample
      (NicSources.parse_lshw_nics (Some NicSources.sample_lshw)) = Ok enriched /\
    Nic._group_nics_by_card Nic.sample = Ok cards /\
    Nic._group_nics_by_card enriched = Ok cards' /\
    Forall2 NicSources.same_card cards cards'.
Proof.
  destruct (NicSources.enrich_nics_from_lshw Nic.sample
              (NicSources.parse_lshw_nics (Some NicSources.sample_lshw)))
    as [enriched|e] eqn:Henriched; [|exfalso; vm_compute in Henriched; discriminate].
  destruct (Nic._group_nics_by_card Nic.sample) as [cards|e] eqn:Hcards;
    [|exfalso; vm_compute in Hcards; discriminate].
  destruct (Nic._group_nics_by_card enriched) as [cards'|e] eqn:Hcards'.
  - exists enriched, cards, cards'.
    split; [reflexivity|]. split; [reflexivity|]. split; [exact Hcards'|].
    apply (enrich_nics_same_cards Nic.sample
             (NicSources.parse_lshw_nics (Some NicSources.sample_lshw)) enriched
             cards cards' Henriched Hcards Hcards').
  - exfalso. vm_compute in Henriched. injection Henriched as <-.
    vm_compute in Hcards'. discriminate Hcards'.
Defined.

(** X12.  From the machine to the table: the port counts of the cards add
    up to the number of interfaces of type "physical" in the machine's
    interface set, with or without lshw data; interfaces of other types
    never become ports. *)
Theorem fetch_nics_counts_physical (machine : pydict) (lshw : option Xml.element)
    (nics : list pydict) (cards : list Nic.card) :
  NicSources.fetch_nics machine lshw = Ok nics ->
  Nic._group_nics_by_card nics = Ok cards ->
  exists ifaces,
    Py.iter (Py.get_or machine "interface_set" (PList [])) = Ok ifaces /\
    NicSources.total_ports cards = length (NicSources.physical_interfaces ifaces).
Proof.
  unfold NicSources.fetch_nics.
  destruct (NicSources.extract_network_interfaces machine) as [raw|e] eqn:Hraw;
    cbn [mbind result_bind]; [|discriminate].
  intros Hnics Hcards.
  apply NicSourceFacts.extract_network_interfaces_spec in Hraw as (ifaces & Hifaces & ->).
  exists ifaces. split; [exact Hifaces|].
  rewrite (NicSourceFacts.group_nics_total_ports nics cards Hcards).
  assert (Hlen : length nics
                 = length (NicSources.nic_record <$> NicSources.physical_interfaces ifaces)).
  { destruct (NicSources.parse_lshw_nics lshw) as [|ln lns].
    - injection Hnics as <-. reflexivity.
    - apply NicSourceFacts.enrich_nics_same_ports in Hnics.
      symmetry. eapply Forall2_length. exact Hnics. }
  rewrite Hlen, length_fmap. reflexivity.
Qed.

Lemma fetch_nics_counts_physical_witness :
  exists nics cards ifaces,
    NicSources.fetch_nics NicSources.sample_machine (Some NicSources.sample_lshw)
    = Ok nics /\
    Nic._group_nics_by_card nics = Ok cards /\
    Py.iter (Py.get_or NicSources.sample_machine "interface_set" (PList [])) = Ok ifaces /\
    NicSources.total_ports cards = length (NicSources.physical_interfaces ifaces).
Proof.
  destruct (NicSources.fetch_nics NicSources.sample_machine (Some NicSources.sample_lshw))
    as [nics|e] eqn:Hnics; [|exfalso; vm_compute in Hnics; discriminate].
  destruct (Nic._group_nics_by_card nics) as [cards|e] eqn:Hcards.
  - destruct (fetch_nics_counts_physical NicSources.sample_machine
                (Some NicSources.sample_lshw) nics cards Hnics Hcards)
      as (ifaces & Hifaces & Hcount).
    exists nics, cards, ifaces.
    split; [reflexivity|]. split; [exact Hcards|]. split; [exact Hifaces|exact Hcount].
  - exfalso. vm_compute in Hnics. injection Hnics as <-.
    vm_compute in Hcards. discriminate Hcards.
Defined.


(** ** Storage: the two lists of [fetch_from_maas] *)

Module StorageSourceFacts.
Import Storage StorageSources.

Lemma block_records_agree (bd : pydict) (d : device) :
  block_record bd = Ok d ->
  exists b, block_device_record bd = Ok b /\ same_disk b d.
Proof.
  unfold block_record, block_device_record.
  destruct (size_in_gb _) as [size|e]; cbn [mbind result_bind]; [|discriminate].
  intros [= <-]. eexists. split; [reflexivity|].
  unfold same_disk. simpl. repeat split.
Qed.

(** The first loop of [extract_storage_details] and the loop of
    [extract_block_devices], side by side. *)
Lemma block_loops_agree (bds : list pyval) (st st' : state) (acc : list block_device) :
  for_each visit_block bds st = Ok st' ->
  exists blocks added,
    for_each (fun bd devs =>
      match bd with
      | PDict bd => d ← block_device_record bd; Ok (devs ++ [d])
      | _ => Raise AttributeError
      end) bds acc = Ok (acc ++ blocks) /\
    st'.1 = st.1 ++ added /\
    Forall2 same_disk blocks added.
Proof.
  revert st acc. induction bds as [|bd bds IH]; intros st acc; simpl.
  { intros [= <-]. exists [], []. rewrite !app_nil_r.
    split; [reflexivity|]. split; [reflexivity|constructor]. }
  destruct bd as [| | | | | |b]; simpl; try discriminate.
  destruct (block_record b) as [d|e] eqn:Hd; cbn [mbind result_bind]; [|discriminate].
  destruct (remember _ st.2) as [seen_serials|e]; cbn [mbind result_bind];
    [|discriminate].
  intros Hloop.
  destruct (block_records_agree b d Hd) as (blk & -> & Hsame).
  cbn [mbind result_bind].
  destruct (IH _ (acc ++ [blk]) Hloop) as (blocks & added & -> & Hadded & Hall).
  exists (blk :: blocks), (d :: added). simpl in Hadded.
  rewrite Hadded, <- !app_assoc. split; [reflexivity|]. split; [reflexivity|].
  constructor; assumption.
Qed.

Lemma raid_loop_extends (raids : list pyval) (st st' : state) :
  for_each visit_raid raids st = Ok st' -> extends st st'.
Proof.
  apply StorageFacts.for_each_extends. intros raid a a'.
  apply StorageFacts.visit_raid_extends.
Qed.

Lemma disk_loop_extends (disks : list pyval) (st st' : state) :
  for_each visit_disk disks st = Ok st' -> extends st st'.
Proof.
  apply StorageFacts.for_each_extends. intros disk a a'.
  apply StorageFacts.visit_disk_extends.
Qed.

End StorageSourceFacts.

(** X14.  The two storage lists of [fetch_from_maas] agree: whenever
    [extract_storage_details] returns, [extract_block_devices] returns too,
    and its entries are, one by one, the first entries of the storage list,
    with the same name, model, serial, size, firmware and NUMA node.  The
    storage list is thus never shorter, and the last resort of the storage
    table, the legacy list, is only ever reached when that list is empty
    as well. *)
Theorem block_devices_head_of_storage (machine : pydict)
    (machine_resources : option pydict) (devs : list Storage.device) :
  Storage.extract_storage_details machine machine_resources = Ok devs ->
  exists blocks,
    StorageSources.extract_block_devices machine = Ok blocks /\
    Forall2 StorageSources.same_disk blocks (take (length blocks) devs) /\
    (length blocks <= length devs)%nat /\
    StorageSources.shown_count devs blocks = length devs.
Proof.
  intros Hdevs. unfold Storage.extract_storage_details in Hdevs.
  destruct (Storage.block_devices machine) as [bds|e] eqn:Hbds;
    cbn [mbind result_bind] in Hdevs; [|discriminate].
  destruct (for_each Storage.visit_block bds ([], [])) as [st1|e] eqn:H1;
    cbn [mbind result_bind] in Hdevs; [|discriminate].
  destruct (Storage.raid_sets machine) as [raid_sets|e] eqn:Hraids;
    cbn [mbind result_bind] in Hdevs; [|discriminate].
  destruct (for_each Storage.visit_raid raid_sets st1) as [st2|e] eqn:H2;
    cbn [mbind result_bind] in Hdevs; [|discriminate].
  destruct (Storage.resource_disks machine_resources) as [rdisks|e] eqn:Hdisks;
    cbn [mbind result_bind] in Hdevs; [|discriminate].
  destruct (for_each Storage.visit_disk rdisks st2) as [st3|e] eqn:H3;
    cbn [mbind result_bind] in Hdevs; [|discriminate].
  injection Hdevs as <-.
  destruct (StorageSourceFacts.block_loops_agree bds ([], []) st1 [] H1)
    as (blocks & added & Hblocks & Hst1 & Hsame).
  simpl in Hblocks, Hst1.
  destruct (StorageSourceFacts.raid_loop_extends _ _ _ H2) as [more2 H12].
  destruct (StorageSourceFacts.disk_loop_extends _ _ _ H3) as [more3 H23].
  assert (Hlen : length blocks = length added) by (eapply Forall2_length; exact Hsame).
  assert (Hall : st3.1 = added ++ more2 ++ more3).
  { rewrite H23, H12, Hst1, <- app_assoc. reflexivity. }
  exists blocks. split; [|split; [|split]].
  - unfold StorageSources.extract_block_devices. rewrite Hbds.
    cbn [mbind result_bind]. exact Hblocks.
  - rewrite Hall, Hlen, take_app_length. exact Hsame.
  - rewrite Hall, length_app, Hlen. lia.
  - unfold StorageSources.shown_count. destruct st3.1 as [|d ds] eqn:Hst3; [|reflexivity].
    symmetry in Hall. apply app_eq_nil in Hall as [-> _].
    simpl in Hlen. rewrite Hlen. reflexivity.
Qed.

Lemma block_devices_head_of_storage_witness :
  exists devs blocks,
    Storage.extract_storage_details Storage.machine (Some Storage.machine_resources)
    = Ok devs /\
    StorageSources.extract_block_devices Storage.machine = Ok blocks /\
    Forall2 StorageSources.same_disk blocks (take (length blocks) devs) /\
    (length blocks <= length devs)%nat /\
    StorageSources.shown_count devs blocks = length devs.
Proof.
  destruct (Storage.extract_storage_details Storage.machine
              (Some Storage.machine_resources)) as [devs|e] eqn:Hdevs.
  - destruct (block_devices_head_of_storage Storage.machine
                (Some Storage.machine_resources) devs Hdevs)
      as (blocks & Hblocks & Hsame & Hlen & Hshown).
    exists devs, blocks.
    split; [reflexivity|]. split; [exact Hblocks|]. split; [exact Hsame|].
    split; [exact Hlen|exact Hshown].
  - exfalso. vm_compute in Hdevs. discriminate Hdevs.
Defined.
(** ** PCI devices *)

Lemma get_or_set_ne (d : pydict) (k k' : string) (v dflt : pyval) :
  k <> k' -> Py.get_or (Py.set d k v) k' dflt = Py.get_or d k' dflt.
Proof.
  intros Hne. unfold Py.get_or. rewrite lookup_key_set_ne by exact Hne. reflexivity.
Qed.

Lemma get_set_eq (d : pydict) (k : string) (v : pyval) : Py.get (Py.set d k v) k = v.
Proof. unfold Py.get. rewrite lookup_key_set_eq. reflexivity. Qed.

Section PciFacts.
Context `{PyRepr}.
Import Pci.

(** The devices that the last loop files under the two categories. *)
Lemma file_devices (all : list pydict) (acc : pci_devices) :
  let filed := foldl (fun result dev => file_device dev result) acc all in
  network filed
  = network acc
    ++ (entry_of <$> List.filter (fun dev => Py.eq_str (Py.get dev "_category") "network")
                       all) /\
  storage filed
  = storage acc
    ++ (entry_of <$> List.filter (fun dev => Py.eq_str (Py.get dev "_category") "storage")
                       all).
Proof.
  revert acc. induction all as [|dev all IH]; intros acc; simpl.
  { rewrite !app_nil_r. split; reflexivity. }
  destruct (IH (file_device dev acc)) as [Hn Hs]. simpl in Hn, Hs.
  rewrite Hn, Hs. unfold file_device.
  destruct (Py.get dev "_category") as [| | | |s| |]; simpl;
    try (split; reflexivity).
  destruct (String.eqb s "network") eqn:Hnet.
  - apply String.eqb_eq in Hnet as ->. simpl. rewrite <- !app_assoc.
    split; reflexivity.
  - destruct (String.eqb s "storage"); simpl; rewrite <- ?app_assoc; split; reflexivity.
Qed.

Lemma extract_pci_devices_filed (machine_resources : pydict) (r : pci_devices) :
  machine_resources <> [] ->
  extract_pci_devices (Some machine_resources) = Ok r ->
  exists all,
    all_pci machine_resources = Ok all /\
    network r
    = entry_of <$> List.filter (fun dev => Py.eq_str (Py.get dev "_category") "network")
                     all /\
    storage r
    = entry_of <$> List.filter (fun dev => Py.eq_str (Py.get dev "_category") "storage")
                     all.
Proof.
  intros Hne. destruct machine_resources as [|kv mr]; [contradiction|].
  unfold extract_pci_devices.
  destruct (all_pci (kv :: mr)) as [all|e]; cbn [mbind result_bind]; [|discriminate].
  intros [= <-]. exists all. split; [reflexivity|].
  apply (file_devices all no_devices).
Qed.

Lemma clean_id_like (v : pyval) : id_like (clean_id v).
Proof.
  unfold clean_id, id_like. destruct (is_name v) eqn:Hname; [left; reflexivity|].
  right. unfold is_name in Hname. apply andb_false_iff in Hname as [Hlen|Hhex].
  - left. apply Nat.ltb_ge in Hlen. exact Hlen.
  - right. apply negb_false_iff in Hhex. rewrite forallb_forall in Hhex.
    apply Forall_forall. intros c Hc. apply Hhex. apply list_elem_of_In. exact Hc.
Qed.

Lemma entry_of_category (d : pydict) (category : pyval) :
  entry_of (Py.set d "_category" category) = entry_of d.
Proof.
  unfold entry_of. rewrite !get_or_set_ne by discriminate. reflexivity.
Qed.

Lemma categorized_filed (category other : string) (devs : list pyval) :
  category <> other ->
  List.filter (fun dev => Py.eq_str (Py.get dev "_category") category)
    (categorized category devs) = categorized category devs /\
  List.filter (fun dev => Py.eq_str (Py.get dev "_category") other)
    (categorized category devs) = [].
Proof.
  intros Hne. unfold categorized. induction devs as [|dev devs [IH1 IH2]]; [split; reflexivity|].
  rewrite fmap_cons. cbn [List.filter]. rewrite get_set_eq. cbn [Py.eq_str].
  rewrite String.eqb_refl, IH1, IH2.
  destruct (String.eqb category other) eqn:Heq; [|split; reflexivity].
  apply String.eqb_eq in Heq. contradiction.
Qed.

Lemma filter_app_list {A : Type} (f : A -> bool) (l k : list A) :
  List.filter f (l ++ k) = List.filter f l ++ List.filter f k.
Proof. apply List.filter_app. Qed.

Lemma object_keys_blank (sd : pydict) :
  entry_of <$> categorized "storage" ((fun kv => PStr kv.1) <$> sd)
  = replicate (length sd) blank.
Proof.
  induction sd as [|kv sd IH]; [reflexivity|].
  rewrite fmap_cons. unfold categorized. rewrite !fmap_cons.
  cbn [length replicate]. f_equal. exact IH.
Qed.

End PciFacts.

(** X15.  The id fields of the PCI entries never hold a name: in every
    entry of both lists, vendor_id and product_id are empty, or at most six
    characters long (as text, stripped), or made of hexadecimal digits
    only. *)
Theorem pci_ids_are_ids `{PyRepr} (machine_resources : option pydict)
    (r : Pci.pci_devices) :
  Pci.extract_pci_devices machine_resources = Ok r ->
  Forall (fun e => Pci.id_like (Pci.vendor_id e) /\ Pci.id_like (Pci.product_id e))
    (Pci.network r ++ Pci.storage r).
Proof.
  destruct machine_resources as [[|kv mr]|].
  - intros [= <-]. constructor.
  - intros Hr. apply extract_pci_devices_filed in Hr as (all & _ & -> & ->);
      [|discriminate].
    apply Forall_app. split; apply Forall_fmap, Forall_forall; intros dev _;
      (split; apply clean_id_like).
  - intros [= <-]. constructor.
Qed.

Lemma pci_ids_are_ids_witness :
  exists r,
    Pci.extract_pci_devices (H := repr_unused) (Some Pci.sample) = Ok r /\
    Forall (fun e => Pci.id_like (H := repr_unused) (Pci.vendor_id e)
                     /\ Pci.id_like (H := repr_unused) (Pci.product_id e))
      (Pci.network r ++ Pci.storage r).
Proof.
  destruct (Pci.extract_pci_devices (H := repr_unused) (Some Pci.sample))
    as [r|e] eqn:Hr.
  - exists r. split; [reflexivity|].
    apply (pci_ids_are_ids (H := repr_unused) (Some Pci.sample) r Hr).
  - exfalso. vm_compute in Hr. discriminate Hr.
Defined.

(** X16.  A device of the flat [pci] array that carries no category of its
    own is filed by the first test it passes: under network if it looks
    like a network device, also when it looks like a storage device as
    well; under storage if it only looks like a storage device.  The entry
    filed is the one built from the device as the document has it. *)
Theorem pci_flat_device_filed `{PyRepr} (machine_resources : pydict)
    (r : Pci.pci_devices) (pci : list pyval) (d : pydict) :
  Pci.extract_pci_devices (Some machine_resources) = Ok r ->
  Py.iter (Py.get_or machine_resources "pci" (PList [])) = Ok pci ->
  PDict d ∈ pci ->
  Py.truthy (Py.get d "_category") = false ->
  (Pci.looks_like_network d = true -> Pci.entry_of d ∈ Pci.network r) /\
  (Pci.looks_like_network d = false -> Pci.looks_like_storage d = true ->
   Pci.entry_of d ∈ Pci.storage r).
Proof.
  intros Hr Hpci Hd Hcat.
  assert (Hne : machine_resources <> []).
  { intros ->. simpl in Hpci. injection Hpci as <-. apply elem_of_nil in Hd as []. }
  apply extract_pci_devices_filed in Hr as (all & Hall & -> & ->); [|exact Hne].
  unfold Pci.all_pci in Hall.
  destruct (Py.iter (Py.get_or machine_resources "network" _)) as [n|e];
    cbn [mbind result_bind] in Hall; [|discriminate].
  destruct (Py.iter (Py.get_or machine_resources "storage" _)) as [s|e];
    cbn [mbind result_bind] in Hall; [|discriminate].
  rewrite Hpci in Hall. cbn [mbind result_bind] in Hall.
  match type of Hall with
  | context [match ?x with PDict _ => _ | _ => _ end] =>
      destruct x as [| | | | | |res]
  end;
  try (destruct (Py.iter (Py.get_or res "pci" _)) as [nested|e]);
    cbn [mbind result_bind] in Hall; try discriminate;
    injection Hall as <-.
  all: assert (Hin : forall d', Pci.classify_flat (PDict d) = Some d' ->
                       d' ∈ omap Pci.classify_flat pci)
         by (intros d' Hd'; apply list_elem_of_omap; exists (PDict d); split; assumption).
  all: unfold Pci.classify_flat in Hin; simpl Pci.as_dict in Hin; rewrite Hcat in Hin.
  all: split.
  all: try (intros Hnet; rewrite Hnet in Hin; specialize (Hin _ eq_refl);
            rewrite <- (entry_of_category d (PStr "network"));
            apply list_elem_of_fmap; eexists; split; [reflexivity|];
            apply filter_elem_of; split;
            [rewrite !elem_of_app; auto|rewrite get_set_eq; reflexivity]).
  all: intros Hnet Hsto; rewrite Hnet, Hsto in Hin; specialize (Hin _ eq_refl);
       rewrite <- (entry_of_category d (PStr "storage"));
       apply list_elem_of_fmap; eexists; split; [reflexivity|];
       apply filter_elem_of; split;
       [rewrite !elem_of_app; auto|rewrite get_set_eq; reflexivity].
Qed.

Lemma pci_flat_device_filed_witness :
  exists r,
    Pci.extract_pci_devices (H := repr_unused) (Some Pci.sample) = Ok r /\
    (Pci.looks_like_network (H := repr_unused)
       [("class", PStr "0200"); ("driver", PStr "mlx5_core");
        ("vendor_id", PStr "15b3"); ("product", PStr "ConnectX-6 NVMe-oF")]%string = true ->
     Pci.entry_of (H := repr_unused)
       [("class", PStr "0200"); ("driver", PStr "mlx5_core");
        ("vendor_id", PStr "15b3"); ("product", PStr "ConnectX-6 NVMe-oF")]%string
     ∈ Pci.network r) /\
    (Pci.looks_like_network (H := repr_unused)
       [("class", PStr "0200"); ("driver", PStr "mlx5_core");
        ("vendor_id", PStr "15b3"); ("product", PStr "ConnectX-6 NVMe-oF")]%string = false ->
     Pci.looks_like_storage (H := repr_unused)
       [("class", PStr "0200"); ("driver", PStr "mlx5_core");
        ("vendor_id", PStr "15b3"); ("product", PStr "ConnectX-6 NVMe-oF")]%string = true ->
     Pci.entry_of (H := repr_unused)
       [("class", PStr "0200"); ("driver", PStr "mlx5_core");
        ("vendor_id", PStr "15b3"); ("product", PStr "ConnectX-6 NVMe-oF")]%string
     ∈ Pci.storage r).
Proof.
  destruct (Pci.extract_pci_devices (H := repr_unused) (Some Pci.sample))
    as [r|e] eqn:Hr; [|exfalso; vm_compute in Hr; discriminate Hr].
  exists r. split; [reflexivity|].
  eapply (pci_flat_device_filed (H := repr_unused) Pci.sample r).
  - exact Hr.
  - reflexivity.
  - left.
  - reflexivity.
Defined.

(** X17.  A machine-resources document whose [storage] is an object, as
    [extract_storage_details] reads it, is iterated key by key by
    [extract_pci_devices]: for every key of that object the storage list
    gets an entry of which nothing is known, ahead of any device from the
    PCI arrays.  With at least one key the storage table of the report is
    then rendered from these PCI entries, not from the storage list. *)
Theorem pci_storage_object_gives_blank_entries `{PyRepr} (machine_resources : pydict)
    (sd : pydict) (r : Pci.pci_devices) (storage_devices : list Storage.device)
    (block_devices : list StorageSources.block_device) :
  Py.get_or machine_resources "storage" (PList []) = PDict sd ->
  sd <> [] ->
  Pci.extract_pci_devices (Some machine_resources) = Ok r ->
  (exists rest, Pci.storage r = replicate (length sd) Pci.blank ++ rest) /\
  Pci.storage_table_of r storage_devices block_devices = Pci.FromPci (Pci.storage r).
Proof.
  intros Hsd Hne Hr.
  assert (Hmr : machine_resources <> []).
  { intros ->. discriminate Hsd. }
  apply extract_pci_devices_filed in Hr as (all & Hall & _ & Hstorage); [|exact Hmr].
  unfold Pci.all_pci in Hall. rewrite Hsd in Hall.
  destruct (Py.iter (Py.get_or machine_resources "network" _)) as [n|e];
    cbn [mbind result_bind] in Hall; [|discriminate].
  cbn [Py.iter mbind result_bind] in Hall.
  destruct (Py.iter (Py.get_or machine_resources "pci" _)) as [pci|e];
    cbn [mbind result_bind] in Hall; [|discriminate].
  assert (Hshape : exists tail,
            all = Pci.categorized "network" n
                  ++ Pci.categorized "storage" ((fun kv => PStr kv.1) <$> sd) ++ tail).
  { match type of Hall with
    | context [match ?x with PDict _ => _ | _ => _ end] =>
        destruct x as [| | | | | |res]
    end;
    try (destruct (Py.iter (Py.get_or res "pci" _)) as [nested|e]);
      cbn [mbind result_bind] in Hall; try discriminate;
      injection Hall as <-; eexists; reflexivity. }
  destruct Hshape as [tail ->].
  assert (Hblank : exists rest, Pci.storage r = replicate (length sd) Pci.blank ++ rest).
  { rewrite Hstorage, !filter_app_list.
    destruct (categorized_filed "network" "storage" n) as [_ ->]; [discriminate|].
    destruct (categorized_filed "storage" "network" ((fun kv => PStr kv.1) <$> sd))
      as [-> _]; [discriminate|].
    rewrite app_nil_l, fmap_app, object_keys_blank. eexists. reflexivity. }
  split; [exact Hblank|].
  destruct Hblank as [rest Hrest]. unfold Pci.storage_table_of. rewrite Hrest.
  destruct sd as [|kv sd]; [contradiction|]. reflexivity.
Qed.

Lemma pci_storage_object_gives_blank_entries_witness :
  exists r,
    Pci.extract_pci_devices (H := repr_unused) (Some Storage.machine_resources) = Ok r /\
    (exists rest, Pci.storage r = replicate 1 Pci.blank ++ rest) /\
    Pci.storage_table_of r [] [] = Pci.FromPci (Pci.storage r).
Proof.
  destruct (Pci.extract_pci_devices (H := repr_unused) (Some Storage.machine_resources))
    as [r|e] eqn:Hr; [|exfalso; vm_compute in Hr; discriminate Hr].
  exists r. split; [reflexivity|].
  apply (pci_storage_object_gives_blank_entries (H := repr_unused)
           Storage.machine_resources
           [("disks", PList [Storage.disk "sdb" "S2" 2000000000000;
                             Storage.disk "nvme0n1" "S3" 960000000000])]%string
           r [] []).
  - reflexivity.
  - discriminate.
  - exact Hr.
Defined.
(** ** DIMM speeds from dmidecode *)

(** *** Stripped text *)

Lemma rstrip_idempotent (s : string) : Text.rstrip (Text.rstrip s) = Text.rstrip s.
Proof.
  induction s as [|c s IH]; [reflexivity|].
  cbn [Text.rstrip]. destruct (Text.rstrip s) as [|c' r] eqn:Hr.
  - destruct (Text.is_space c) eqn:Hc; [reflexivity|].
    cbn [Text.rstrip]. rewrite Hc. reflexivity.
  - cbn [Text.rstrip]. cbn [Text.rstrip] in IH. rewrite IH. reflexivity.
Qed.

Lemma lstrip_head (s : string) :
  Text.lstrip s = EmptyString \/
  exists c r, Text.lstrip s = String c r /\ Text.is_space c = false.
Proof.
  induction s as [|c s IH]; [left; reflexivity|].
  cbn [Text.lstrip]. destruct (Text.is_space c) eqn:Hc; [exact IH|].
  right. exists c, s. split; [reflexivity|exact Hc].
Qed.

Lemma rstrip_head (c : ascii) (r : string) :
  Text.is_space c = false -> exists r', Text.rstrip (String c r) = String c r'.
Proof.
  intros Hc. cbn [Text.rstrip]. destruct (Text.rstrip r) as [|c' r'].
  - rewrite Hc. eexists. reflexivity.
  - eexists. reflexivity.
Qed.

Lemma strip_idempotent (s : string) : Text.strip (Text.strip s) = Text.strip s.
Proof.
  unfold Text.strip. destruct (lstrip_head s) as [->|(c & r & -> & Hc)].
  { reflexivity. }
  destruct (rstrip_head c r Hc) as [r' Hr]. rewrite Hr.
  cbn [Text.lstrip]. rewrite Hc, <- Hr. apply rstrip_idempotent.
Qed.

(** *** Tables *)

Lemma set_keys (d : pydict) (k : string) (v : pyval) :
  forall k', k' ∈ (Py.set d k v).*1 <-> k' = k \/ k' ∈ d.*1.
Proof.
  induction d as [|[k0 v0] d IH]; intros k'; simpl.
  { rewrite list_elem_of_singleton. split; [intros ->; left; reflexivity|].
    intros [->|Hin]; [reflexivity|]. apply elem_of_nil in Hin as []. }
  destruct (decide (k = k0)) as [->|Hne]; simpl.
  - rewrite !elem_of_cons. tauto.
  - rewrite !elem_of_cons, IH. tauto.
Qed.

Lemma set_NoDup (d : pydict) (k : string) (v : pyval) :
  NoDup d.*1 -> NoDup (Py.set d k v).*1.
Proof.
  induction d as [|[k0 v0] d IH]; simpl.
  { intros _. apply NoDup_singleton. }
  intros Hnd. apply NoDup_cons in Hnd as [Hk0 Hnd].
  destruct (decide (k = k0)) as [->|Hne]; simpl.
  - apply NoDup_cons. split; assumption.
  - apply NoDup_cons. split; [|apply IH; exact Hnd].
    rewrite set_keys. intros [->|Hin]; [congruence|contradiction].
Qed.

Lemma set_Forall (P : string * pyval -> Prop) (d : pydict) (k : string) (v : pyval) :
  P (k, v) -> Forall P d -> Forall P (Py.set d k v).
Proof.
  intros Hkv. induction 1 as [|[k0 v0] d H0 Hd IH]; simpl.
  { constructor; [exact Hkv|constructor]. }
  destruct (decide (k = k0)); constructor; assumption.
Qed.

Lemma lookup_key_elem_of (d : pydict) (k : string) (v : pyval) :
  Py.lookup_key k d = Some v -> (k, v) ∈ d.
Proof.
  induction d as [|[k0 v0] d IH]; simpl; [discriminate|].
  destruct (decide (k = k0)) as [->|Hne].
  - intros [= ->]. left.
  - intros Hv. right. apply IH. exact Hv.
Qed.

Module DmidecodeFacts.
Import Dmidecode.

Lemma read_speed_nonneg (val : string) (speed : Z) :
  0 <= speed -> 0 <= read_speed val speed.
Proof.
  intros Hs. unfold read_speed. destruct (first_token val) as [token|]; [|exact Hs].
  destruct (digits_number token) as [num|]; [|exact Hs].
  destruct (Z.ltb_spec 0 num); lia.
Qed.

Lemma flush_table (st : state) : steady st -> speed_table (flush st).
Proof.
  intros ([Hnd Hall] & Hspeed & Hslot). unfold flush.
  destruct (negb (String.eqb (current_slot st) EmptyString)) eqn:Hne; simpl;
    [|split; assumption].
  destruct (Z.eqb_spec (current_speed st) 0) as [|Hpos]; simpl; [split; assumption|].
  split; [apply set_NoDup; exact Hnd|].
  apply set_Forall; [|exact Hall]. simpl.
  apply negb_true_iff, String.eqb_neq in Hne.
  split; [exact Hne|]. split; [exact Hslot|].
  exists (current_speed st). split; [reflexivity|lia].
Qed.

Lemma step_steady (st : state) (line : string) : steady st -> steady (step st line).
Proof.
  intros Hst. pose proof Hst as (Htable & Hspeed & Hslot). unfold step.
  repeat match goal with
         | |- steady (if ?c then _ else _) => destruct c
         end;
    try exact Hst;
    unfold steady; cbn [speeds current_slot current_speed in_memory_device].
  - split; [exact Htable|]. split; [lia|reflexivity].
  - split; [apply flush_table; exact Hst|]. split; assumption.
  - split; [exact Htable|]. split; [exact Hspeed|].
    unfold field_value. apply strip_idempotent.
  - split; [exact Htable|]. split; [|exact Hslot].
    apply read_speed_nonneg. exact Hspeed.
  - split; [exact Htable|]. split; [|exact Hslot].
    apply read_speed_nonneg. exact Hspeed.
Qed.

Lemma steps_steady (lines : list string) (st : state) :
  steady st -> steady (foldl step st lines).
Proof.
  revert st. induction lines as [|line lines IH]; intros st Hst; [exact Hst|].
  simpl. apply IH, step_steady. exact Hst.
Qed.

Lemma start_steady : steady start.
Proof.
  split; [split; constructor|]. split; [simpl; lia|reflexivity].
Qed.

Lemma parse_speed_table (text : option string) :
  speed_table (parse_dmidecode_dimm_speeds text).
Proof.
  destruct text as [[|c text]|]; try (split; constructor).
  unfold parse_dmidecode_dimm_speeds. apply flush_table, steps_steady, start_steady.
Qed.

(** *** One DIMM *)

Lemma with_clock_same (d : dimm) (speed : pyval) : same_module d (with_clock d speed).
Proof. unfold same_module. simpl. repeat split. Qed.

Lemma same_module_refl (d : dimm) : same_module d d.
Proof. unfold same_module. repeat split. Qed.

Lemma enrich_dimm_spec (table : pydict) (d : dimm) (s : string) :
  slot d = PStr s ->
  exists d',
    enrich_dimm table d = Ok d' /\ same_module d d' /\
    (forall speed, Py.lookup_key s table = Some speed -> clock_mhz d' = speed) /\
    (clock_mhz d' = clock_mhz d \/ exists k, (k, clock_mhz d') ∈ table).
Proof.
  intros Hs. unfold enrich_dimm. rewrite Hs.
  destruct (Py.lookup_key s table) as [speed|] eqn:Hlook.
  { eexists. split; [reflexivity|]. split; [apply with_clock_same|]. split.
    - intros speed' [= <-]. reflexivity.
    - right. exists s. apply lookup_key_elem_of. exact Hlook. }
  destruct (String.eqb s EmptyString).
  { exists d. split; [reflexivity|]. split; [apply same_module_refl|].
    split; [discriminate|left; reflexivity]. }
  destruct (List.find _ table) as [[k speed]|] eqn:Hfind.
  - eexists. split; [reflexivity|]. split; [apply with_clock_same|].
    split; [discriminate|]. right. exists k. simpl.
    apply List.find_some in Hfind as [Hin _]. apply list_elem_of_In. exact Hin.
  - exists d. split; [reflexivity|]. split; [apply same_module_refl|].
    split; [discriminate|left; reflexivity].
Qed.

Lemma enrich_dimm_speeds_spec (dimms : list dimm) (table : pydict) :
  Forall (fun d => exists s, slot d = PStr s) dimms ->
  exists out,
    enrich_dimm_speeds dimms table = Ok out /\
    Forall2 (fun d d' =>
               same_module d d' /\
               (forall s speed, slot d = PStr s ->
                  Py.lookup_key s table = Some speed -> clock_mhz d' = speed) /\
               (clock_mhz d' = clock_mhz d \/ exists k, (k, clock_mhz d') ∈ table))
      dimms out.
Proof.
  intros Hall. unfold enrich_dimm_speeds. destruct table as [|kv table].
  { exists dimms. split; [reflexivity|].
    apply Forall_Forall2_diag, Forall_forall. intros d _.
    split; [apply same_module_refl|]. split; [discriminate|left; reflexivity]. }
  apply map_each_related. eapply Forall_impl; [exact Hall|].
  intros d [s Hs].
  destruct (enrich_dimm_spec (kv :: table) d s Hs) as (d' & Hd' & Hsame & Hexact & Hfrom).
  exists d'. split; [exact Hd'|]. split; [exact Hsame|]. split; [|exact Hfrom].
  intros s' speed Hs'. rewrite Hs in Hs'. injection Hs' as <-. apply Hexact.
Qed.

End DmidecodeFacts.

Section LshwSlots.
Context `{PyRepr}.

Lemma lshw_dimm_fields (node : Xml.element) (d : dimm) :
  lshw_dimm node = Ok (Some d) ->
  (exists s, slot d = PStr s) /\ exists z, clock_mhz d = PInt z.
Proof.
  unfold lshw_dimm.
  repeat match goal with
         | |- (if ?c then _ else _) = Ok (Some d) -> _ => destruct c; try discriminate
         end.
  destruct (lshw_size_gb node) as [size|e]; cbn [mbind result_bind]; [|discriminate].
  destruct (Num.positive size); [|discriminate].
  intros [= <-]. simpl. split; eexists; reflexivity.
Qed.

Lemma parse_lshw_dimms_fields (root : option Xml.element) (dimms : list dimm) :
  parse_lshw_dimms root = Ok dimms ->
  Forall (fun d => (exists s, slot d = PStr s) /\ exists z, clock_mhz d = PInt z) dimms.
Proof.
  intros Hparse. apply Forall_forall. intros d Hd.
  apply (parse_lshw_dimms_elem_of root dimms d Hparse) in Hd as (r & node & _ & _ & Hnode).
  eapply lshw_dimm_fields. exact Hnode.
Qed.

(** The one exception that leaves [parse_lshw_dimms]: the
    [OverflowError] of a size too large for a float. *)
Lemma int_div_raises (a : Z) (b : positive) (e : exn) :
  Num.int_div a b = Raise e -> e = OverflowError.
Proof.
  unfold Num.int_div. destruct (Num.to_float (a # b)); [discriminate|].
  intros [= <-]. reflexivity.
Qed.

Lemma lshw_size_gb_raises (node : Xml.element) (e : exn) :
  lshw_size_gb node = Raise e -> e = OverflowError.
Proof.
  unfold lshw_size_gb.
  destruct (Xml.find node "size") as [size_el|]; [|discriminate].
  destruct (Xml.nonempty_text size_el) as [text|]; [|discriminate].
  destruct (Py.int_of_string text) as [raw|e']; [|discriminate].
  cbn zeta.
  repeat match goal with
         | |- (if ?c then _ else _) = Raise e -> _ => destruct c
         end;
    try discriminate; apply int_div_raises.
Qed.

Lemma lshw_dimm_raises (node : Xml.element) (e : exn) :
  lshw_dimm node = Raise e -> e = OverflowError.
Proof.
  unfold lshw_dimm.
  repeat match goal with
         | |- (if ?c then _ else _) = Raise e -> _ => destruct c; try discriminate
         end.
  destruct (lshw_size_gb node) as [size|e'] eqn:Hsize; cbn [mbind result_bind];
    [discriminate|].
  intros [= <-]. apply (lshw_size_gb_raises node e' Hsize).
Qed.

Lemma parse_lshw_dimms_raises (root : option Xml.element) (e : exn) :
  parse_lshw_dimms root = Raise e -> e = OverflowError.
Proof.
  destruct root as [root|]; [|discriminate]. unfold parse_lshw_dimms.
  intros Hraise. apply for_each_raises in Hraise as (node & acc & _ & Hbody).
  destruct (lshw_dimm node) as [d|e'] eqn:Hnode; cbn [mbind result_bind] in Hbody;
    [discriminate|].
  injection Hbody as <-. apply (lshw_dimm_raises node e' Hnode).
Qed.

End LshwSlots.

(** X18.  The table that [parse_dmidecode_dimm_speeds] returns, for any
    text: no slot name is empty or comes twice, every name is stripped of
    blanks at both ends, and every speed is a positive integer. *)
Theorem parse_dmidecode_dimm_speeds_table (dmidecode_text : option string) :
  Dmidecode.speed_table (Dmidecode.parse_dmidecode_dimm_speeds dmidecode_text).
Proof. apply DmidecodeFacts.parse_speed_table. Qed.

(** X19.  [enrich_dimm_speeds] on DIMMs whose slot is a string, with any
    table of speeds: it does not raise and returns the DIMMs in their
    order, each with every field but the speed unchanged; a DIMM whose slot
    is a key of the table gets the speed under that key, also when another
    key matches it in part; and a speed is either the one the DIMM had or
    one of the table. *)
Theorem enrich_dimm_speeds_keeps (dimms : list dimm) (dmidecode_speeds : pydict) :
  Forall (fun d => exists s, slot d = PStr s) dimms ->
  exists enriched,
    Dmidecode.enrich_dimm_speeds dimms dmidecode_speeds = Ok enriched /\
    Forall2 (fun d d' =>
               Dmidecode.same_module d d' /\
               (forall s speed, slot d = PStr s ->
                  Py.lookup_key s dmidecode_speeds = Some speed -> clock_mhz d' = speed) /\
               (clock_mhz d' = clock_mhz d \/
                exists k, (k, clock_mhz d') ∈ dmidecode_speeds))
      dimms enriched.
Proof. apply DmidecodeFacts.enrich_dimm_speeds_spec. Qed.

Lemma enrich_dimm_speeds_keeps_witness :
  exists enriched,
    Dmidecode.enrich_dimm_speeds [DimmExamples.dimm_a1_entry]
      [("DIMM_A10", PInt 5600); ("DIMM_A1", PInt 4800)]%string = Ok enriched /\
    Forall2 (fun d d' =>
               Dmidecode.same_module d d' /\
               (forall s speed, slot d = PStr s ->
                  Py.lookup_key s [("DIMM_A10", PInt 5600); ("DIMM_A1", PInt 4800)]%string
                  = Some speed -> clock_mhz d' = speed) /\
               (clock_mhz d' = clock_mhz d \/
                exists k, (k, clock_mhz d')
                          ∈ [("DIMM_A10", PInt 5600); ("DIMM_A1", PInt 4800)]%string))
      [DimmExamples.dimm_a1_entry] enriched.
Proof.
  apply (enrich_dimm_speeds_keeps [DimmExamples.dimm_a1_entry]
           [("DIMM_A10", PInt 5600); ("DIMM_A1", PInt 4800)]%string).
  repeat constructor. eexists. reflexivity.
Defined.

(** X20.  The DIMM list of lshw with the speeds of dmidecode, as
    [fetch_from_maas] combines them, for any tree and any text.  Either
    [parse_lshw_dimms] raises, and then an [OverflowError], which the
    division of a size too large for a float raises outside the [try]; or
    it returns its list, and then the speeds are merged without an
    exception, no DIMM is added or dropped or changed in anything but its
    speed, and every speed in the result is an integer, so that the
    comparison of a speed with 1000 that follows is between numbers. *)
Theorem lshw_dimms_with_dmidecode_speeds `{PyRepr} (lshw : option Xml.element)
    (dmidecode_text : option string) :
  match parse_lshw_dimms lshw with
  | Ok dimms =>
      exists enriched,
        Dmidecode.enrich_dimm_speeds dimms
          (Dmidecode.parse_dmidecode_dimm_speeds dmidecode_text) = Ok enriched /\
        Forall2 Dmidecode.same_module dimms enriched /\
        Forall (fun d => exists z, clock_mhz d = PInt z) enriched
  | Raise e => e = OverflowError
  end.
Proof.
  destruct (parse_lshw_dimms lshw) as [dimms|e] eqn:Hparse;
    [|apply (parse_lshw_dimms_raises lshw e Hparse)].
  pose proof (parse_lshw_dimms_fields lshw dimms Hparse) as Hfields.
  destruct (DmidecodeFacts.parse_speed_table dmidecode_text) as [_ Htable].
  destruct (DmidecodeFacts.enrich_dimm_speeds_spec dimms
              (Dmidecode.parse_dmidecode_dimm_speeds dmidecode_text))
    as (enriched & Henriched & Hall).
  { eapply Forall_impl; [exact Hfields|]. intros d [Hs _]. exact Hs. }
  exists enriched. split; [exact Henriched|]. split.
  - eapply Forall2_impl; [exact Hall|]. intros d d' [Hsame _]. exact Hsame.
  - apply Forall_forall. intros d' Hd'.
    apply list_elem_of_lookup in Hd' as [i Hi].
    destruct (Forall2_lookup_r _ _ _ _ _ Hall Hi) as (d & Hd & _ & _ & Hfrom).
    destruct Hfrom as [Heq|[k Hk]].
    + rewrite Heq. rewrite Forall_forall in Hfields.
      apply (Hfields d). apply list_elem_of_lookup. exists i. exact Hd.
    + rewrite Forall_forall in Htable.
      destruct (Htable _ Hk) as (_ & _ & n & Hn & _). exists n. exact Hn.
Qed.

(** Both cases occur: the sample tree gives its two DIMMs, and a bank of
    10^400 bytes ends the call. *)
Example parse_lshw_dimms_both_cases :
  (exists d1 d2,
     parse_lshw_dimms (Some DimmExamples.tree) = Ok [d1; d2]) /\
  parse_lshw_dimms
    (Some (DimmExamples.bank "bank:0" "DIMM_A1" "DIMM DDR4"
             (String "1" (string_of_list_ascii (replicate 400 "0"%char))) "bytes"))
  = Raise OverflowError.
Proof.
  split; [eexists _, _; vm_compute; reflexivity|vm_compute; reflexivity].
Qed.
(** ** The test matrix *)

Section MatrixFacts.
Context `{PyRepr}.
Import Matrix.

(** *** Payloads of the expected shape *)

Lemma typed_entries_dicts (entries : list pyval) :
  Forall typed_entry entries ->
  exists rs, entries = PDict <$> rs /\ Forall readable rs.
Proof.
  induction 1 as [|e entries (r & -> & Hfin & _) _ (rs & -> & Hrs)].
  - exists []. split; [reflexivity|constructor].
  - exists (r :: rs). split; [reflexivity|]. constructor; assumption.
Qed.

Lemma typed_entry_status (dflt : string) (e : pyval) :
  typed_entry e -> exists st, status dflt e = Ok st.
Proof.
  intros (r & -> & _ & Hst). destruct (Hst dflt) as [s Hs].
  unfold status. simpl. rewrite Hs. simpl. eexists. reflexivity.
Qed.

Lemma build_map_of_dicts (rs : list pydict) (n_gpus : Z) (skipped : gset Z) :
  Forall readable rs ->
  build_map_of (PList (PDict <$> rs)) n_gpus skipped
  = _build_gpu_id_map rs n_gpus skipped.
Proof.
  intros Hfin. unfold build_map_of. cbn [Py.iter mbind result_bind].
  assert (Hrs : map_each (fun e =>
                  match e with
                  | PDict r => _ ← _resolve_gpu_id r; Ok r
                  | _ => Raise AttributeError
                  end) (PDict <$> rs) = Ok rs).
  { induction Hfin as [|r rs Hr _ IH]; [reflexivity|].
    rewrite fmap_cons. cbn [map_each].
    destruct (resolve_gpu_id_total r Hr) as [gid ->].
    cbn [mbind result_bind]. rewrite IH. reflexivity. }
  rewrite Hrs. reflexivity.
Qed.

Lemma find_remap_skipped_total (diag : pydict) (n_gpus : Z) :
  typed_diag diag -> exists skipped, _find_remap_skipped_gpus diag n_gpus = Ok skipped.
Proof.
  intros (tests & Htests & Htyped). unfold _find_remap_skipped_gpus.
  rewrite Htests. cbn [Py.iter mbind result_bind].
  apply for_each_total. intros t skipped Ht.
  rewrite Forall_forall in Htyped.
  destruct (Htyped t Ht) as (d & name & entries & -> & _ & Hentries & Hall).
  cbn [Py.getattr_get]. rewrite Hentries. cbn [Py.iter mbind result_bind].
  match goal with
  | |- context [for_each ?body entries ?start] =>
      assert (Hinner : exists out, for_each body entries start = Ok out)
  end.
  { apply for_each_total. intros e [found has] He. rewrite Forall_forall in Hall.
    destruct (Hall e He) as (r & -> & Hfin & _).
    destruct (resolve_gpu_id_total r Hfin) as [gid ->].
    cbn [mbind result_bind]. eexists. reflexivity. }
  destruct Hinner as [[found has] ->].
  cbn [mbind result_bind]. eexists. reflexivity.
Qed.

(** *** The cells of a row *)

Lemma set_item_in_range {A : Type} (l : list A) (i : Z) (x : A) :
  0 <= i < Z.of_nat (length l) -> set_item l i x = Done (<[Z.to_nat i := x]> l).
Proof.
  intros Hi. unfold set_item.
  destruct (Z.leb_spec 0 i); [|lia].
  destruct (Z.ltb_spec i (Z.of_nat (length l))); [|lia]. reflexivity.
Qed.

Lemma last_cons_filter {A : Type} (f : A -> bool) (x : A) (l : list A) :
  last (List.filter f (x :: l))
  = match last (List.filter f l) with
    | Some y => Some y
    | None => if f x then Some x else None
    end.
Proof.
  cbn [List.filter]. destruct (f x); [|destruct (last _); reflexivity].
  destruct (List.filter f l) as [|y k]; [reflexivity|].
  rewrite last_cons. destruct (last (y :: k)) eqn:Hlast; [reflexivity|].
  apply last_None in Hlast. discriminate.
Qed.

Lemma place_step (n_gpus : Z) (gpu_map : list (option Z)) (idx : nat) (e : pyval)
    (cells : list string) (g : Z) (st : string) :
  gpu_map !! idx = Some (Some g) -> status "?" e = Ok st ->
  place n_gpus gpu_map (idx, e) cells
  = if n_gpus <=? g then Done cells else set_item cells g (cell_of st).
Proof.
  intros Hmap Hst. unfold place, get_item. cbn [fst snd]. rewrite Hmap.
  cbn [mbind outcome_bind]. destruct (n_gpus <=? g); [reflexivity|].
  rewrite Hst. reflexivity.
Qed.

(** The loop over the entries, from any cells to start with. *)
Lemma place_all (n_gpus : Z) (gpu_map : list (option Z))
    (items : list (nat * pyval)) (cells0 : list string) :
  length cells0 = Z.to_nat n_gpus ->
  Forall (fun item => exists g st,
            gpu_map !! item.1 = Some (Some g) /\ 0 <= g /\
            status "?" item.2 = Ok st) items ->
  exists cells,
    each (place n_gpus gpu_map) items cells0 = Done cells /\
    length cells = Z.to_nat n_gpus /\
    forall g, 0 <= g < n_gpus ->
      match last (List.filter
                    (fun item => bool_decide (gpu_map !! item.1 = Some (Some g)))
                    items) with
      | Some item =>
          exists st, status "?" item.2 = Ok st /\
                     cells !! Z.to_nat g = Some (cell_of st)
      | None => cells !! Z.to_nat g = cells0 !! Z.to_nat g
      end.
Proof.
  intros Hlen Hall. revert cells0 Hlen.
  induction Hall as [|[idx e] items (g0 & st0 & Hmap & Hpos & Hst) Hrest IH];
    intros cells0 Hlen.
  { exists cells0. split; [reflexivity|]. split; [exact Hlen|]. intros g _. reflexivity. }
  simpl in Hmap, Hst. cbn [each]. rewrite (place_step _ _ _ _ _ g0 st0 Hmap Hst).
  destruct (Z.leb_spec n_gpus g0) as [Hout|Hin].
  - cbn [mbind outcome_bind].
    destruct (IH cells0 Hlen) as (cells & Hcells & Hlen' & Hshown).
    exists cells. split; [exact Hcells|]. split; [exact Hlen'|].
    intros g Hg. rewrite last_cons_filter. specialize (Hshown g Hg).
    destruct (last _) as [item|]; [exact Hshown|].
    cbn [fst]. rewrite Hmap. rewrite bool_decide_eq_false_2; [exact Hshown|].
    intros [= ->]. lia.
  - rewrite set_item_in_range by lia. cbn [mbind outcome_bind].
    destruct (IH (<[Z.to_nat g0 := cell_of st0]> cells0)) as (cells & Hcells & Hlen' & Hshown).
    { rewrite length_insert. exact Hlen. }
    exists cells. split; [exact Hcells|]. split; [exact Hlen'|].
    intros g Hg. rewrite last_cons_filter. specialize (Hshown g Hg).
    destruct (last _) as [item|]; [exact Hshown|].
    cbn [fst]. rewrite Hmap. case_bool_decide as Heq.
    + injection Heq as ->. exists st0. split; [exact Hst|].
      rewrite Hshown. apply list_lookup_insert_eq. lia.
    + rewrite Hshown. apply list_lookup_insert_ne. intros Heq'. apply Heq.
      f_equal. f_equal. lia.
Qed.

Lemma enumerate_lookup {A : Type} (l : list A) (item : nat * A) :
  item ∈ enumerate l -> l !! item.1 = Some item.2.
Proof.
  unfold enumerate. intros Hin. apply list_elem_of_lookup in Hin as [i Hi].
  apply lookup_zip_with_Some in Hi as (p & x & -> & Hp & Hx).
  apply lookup_seq in Hp as [-> _]. exact Hx.
Qed.

(** The cells of a test of the expected shape, under the mapping built
    for it. *)
Lemma row_cells_placed (diag : pydict) (n_gpus : Z) (skipped : gset Z)
    (entries : list pyval) :
  _find_remap_skipped_gpus diag n_gpus = Ok skipped ->
  Forall typed_entry entries ->
  exists gpu_map cells,
    build_map_of (PList entries) n_gpus skipped = Ok gpu_map /\
    row_cells n_gpus gpu_map entries = Done cells /\
    length cells = Z.to_nat n_gpus /\
    forall g, 0 <= g < n_gpus ->
      exists c, cells !! Z.to_nat g = Some c /\ shown gpu_map g entries c.
Proof.
  intros Hskipped Htyped.
  destruct (typed_entries_dicts entries Htyped) as (rs & Hrs & Hfin).
  destruct (mapping_resolved_nonneg diag rs n_gpus skipped Hskipped Hfin)
    as (gpu_map & Hmap & Hlen & Hres).
  assert (Hlen' : length entries = length rs).
  { rewrite Hrs. apply length_fmap. }
  destruct (place_all n_gpus gpu_map (enumerate entries)
              (replicate (Z.to_nat n_gpus) unknown_cell))
    as (cells & Hcells & Hclen & Hshown).
  { apply length_replicate. }
  { apply Forall_forall. intros item Hitem.
    pose proof (enumerate_lookup entries item Hitem) as Hlook.
    destruct (Hres item.1) as (g & Hg & Hpos & _).
    { rewrite <- Hlen'. eapply lookup_lt_Some. exact Hlook. }
    rewrite Forall_forall in Htyped.
    destruct (typed_entry_status "?" item.2) as [st Hst].
    { apply Htyped. apply list_elem_of_lookup. exists item.1. exact Hlook. }
    exists g, st. split; [exact Hg|]. split; [exact Hpos|exact Hst]. }
  exists gpu_map, cells. split; [|split; [exact Hcells|split; [exact Hclen|]]].
  - rewrite Hrs. rewrite build_map_of_dicts by exact Hfin. exact Hmap.
  - intros g Hg. specialize (Hshown g Hg). unfold shown, sent_to.
    destruct (last _) as [item|].
    + destruct Hshown as (st & Hst & Hc). exists (cell_of st).
      split; [exact Hc|]. exists st. split; [exact Hst|reflexivity].
    + exists unknown_cell. split; [|reflexivity].
      rewrite Hshown. apply lookup_replicate_2. lia.
Qed.

(** *** The whole table *)

Lemma count_status_total (word : string) (tests : list pyval) :
  Forall typed_test tests -> exists n, count_status word tests = Ok n.
Proof.
  intros Htyped. unfold count_status. apply for_each_total.
  intros t total Ht. rewrite Forall_forall in Htyped.
  destruct (Htyped t Ht) as (d & name & entries & -> & _ & Hentries & Hall).
  cbn [Py.getattr_get]. rewrite Hentries. cbn [Py.iter mbind result_bind].
  apply for_each_total. intros e n He. rewrite Forall_forall in Hall.
  destruct (typed_entry_status EmptyString e (Hall e He)) as [st ->].
  cbn [mbind result_bind]. eexists. reflexivity.
Qed.

Lemma row_total (diag : pydict) (n_gpus : Z) (skipped : gset Z) (t : pyval) :
  _find_remap_skipped_gpus diag n_gpus = Ok skipped ->
  typed_test t -> exists r, row n_gpus skipped t = Done r.
Proof.
  intros Hskipped (d & name & entries & -> & Hname & Hentries & Hall).
  unfold row. cbn [Py.getattr_get lift mbind outcome_bind].
  rewrite Hname, Hentries.
  destruct (row_cells_placed diag n_gpus skipped entries Hskipped Hall)
    as (gpu_map & cells & Hmap & Hcells & _).
  rewrite Hmap. cbn [Py.iter lift mbind outcome_bind]. rewrite Hcells.
  cbn [escape lift mbind outcome_bind]. eexists. reflexivity.
Qed.

Lemma each_total {A S : Type} (body : A -> S -> outcome S) (xs : list A) (acc : S) :
  (forall x a, x ∈ xs -> exists a', body x a = Done a') ->
  exists out, each body xs acc = Done out.
Proof.
  revert acc. induction xs as [|y xs IH]; intros acc Hbody; simpl.
  { exists acc. reflexivity. }
  destruct (Hbody y acc) as [acc' ->]; [left|]. cbn [mbind outcome_bind].
  apply IH. intros x a Hx. apply Hbody. right. exact Hx.
Qed.

Lemma render_test_matrix_total (diag : pydict) (n_gpus : Z) :
  typed_diag diag -> exists html, render_test_matrix diag n_gpus = Done html.
Proof.
  intros Hdiag. destruct (find_remap_skipped_total diag n_gpus Hdiag) as [skipped Hskipped].
  destruct Hdiag as (tests & Htests & Htyped).
  unfold render_test_matrix. rewrite Htests.
  destruct (negb (Py.truthy (PList tests))); [eexists; reflexivity|].
  rewrite Hskipped. cbn [Py.iter lift mbind outcome_bind].
  match goal with
  | |- context [each ?body tests ?start] =>
      assert (Hrows : exists rows, each body tests start = Done rows)
  end.
  { apply each_total. intros t rows Ht. rewrite Forall_forall in Htyped.
    destruct (row_total diag n_gpus skipped t Hskipped (Htyped t Ht)) as [r ->].
    cbn [mbind outcome_bind]. eexists. reflexivity. }
  destruct Hrows as [rows ->].
  cbn [mbind outcome_bind].
  destruct (count_status_total "pass" tests Htyped) as [np ->].
  destruct (count_status_total "fail" tests Htyped) as [nf ->].
  destruct (count_status_total "skip" tests Htyped) as [ns ->].
  destruct (count_status_total "warn" tests Htyped) as [nw ->].
  cbn [lift mbind outcome_bind]. eexists. reflexivity.
Qed.

End MatrixFacts.

(** X21.  The test matrix is rendered for every GPU count, also zero or
    negative, from any diagnostic payload of the expected shape (tests with
    a name and a list of entries; entries with a status that is a string,
    no infinite float as gpu_id, and no more than 4300 digits in a row in
    the info text): no list is indexed out of range and no conversion,
    comparison or method call is refused, because every entry gets an id
    that is not negative and the guard [gpu_id >= n_gpus] keeps the ids
    that are no column away from the list of cells. *)
Theorem render_test_matrix_never_raises `{PyRepr} (diag : pydict) (n_gpus : Z) :
  Matrix.typed_diag diag ->
  exists html, Matrix.render_test_matrix diag n_gpus = Matrix.Done html.
Proof. apply render_test_matrix_total. Qed.

Lemma render_test_matrix_never_raises_witness :
  exists html,
    Matrix.render_test_matrix (H := repr_unused) GpuExamples.anonymous_diag 0
    = Matrix.Done html.
Proof.
  apply (render_test_matrix_never_raises (H := repr_unused) GpuExamples.anonymous_diag 0).
  eexists. split; [reflexivity|]. repeat constructor.
  eexists _, _, _. split; [reflexivity|]. split; [reflexivity|]. split; [reflexivity|].
  repeat constructor. eexists. split; [reflexivity|].
  split; [split; [exact I|split; reflexivity]|].
  intros dflt. eexists. reflexivity.
Defined.

(** X22.  Where the statuses of a test end up, for entries of the
    expected shape (a status that is a string, no infinite float as gpu_id,
    no more than 4300 digits in a row in the info text): with the mapping
    that [_build_gpu_id_map] gives for the entries, the row has one cell
    per GPU, and the cell of GPU g shows the status of the last entry that
    the mapping sends to g, or the question mark of an untested GPU if it
    sends none there.  Entries sent to an id from the GPU count on are not
    shown. *)
Theorem matrix_row_follows_mapping `{PyRepr} (diag : pydict) (n_gpus : Z)
    (remap_skipped : gset Z) (entries : list pyval) :
  _find_remap_skipped_gpus diag n_gpus = Ok remap_skipped ->
  Forall Matrix.typed_entry entries ->
  exists gpu_map cells,
    Matrix.build_map_of (PList entries) n_gpus remap_skipped = Ok gpu_map /\
    Matrix.row_cells n_gpus gpu_map entries = Matrix.Done cells /\
    length cells = Z.to_nat n_gpus /\
    forall g, 0 <= g < n_gpus ->
      exists c, cells !! Z.to_nat g = Some c /\ Matrix.shown gpu_map g entries c.
Proof. apply row_cells_placed. Qed.

Lemma matrix_row_follows_mapping_witness :
  exists gpu_map cells,
    Matrix.build_map_of (H := repr_unused)
      (PList (PDict <$> GpuExamples.memory_results)) 8 {[5]} = Ok gpu_map /\
    Matrix.row_cells 8 gpu_map (PDict <$> GpuExamples.memory_results)
    = Matrix.Done cells /\
    length cells = Z.to_nat 8 /\
    forall g, 0 <= g < 8 ->
      exists c, cells !! Z.to_nat g = Some c /\
                Matrix.shown gpu_map g (PDict <$> GpuExamples.memory_results) c.
Proof.
  apply (matrix_row_follows_mapping (H := repr_unused) GpuExamples.diag 8 {[5]}).
  - vm_compute. reflexivity.
  - repeat constructor;
      (eexists; split; [reflexivity|];
       split; [split; [exact I|split; reflexivity]|];
       intros dflt; eexists; reflexivity).
Defined.
(** ** The two patterns: a GPU id in an info text, a speed in a description *)

Lemma span_app (p : ascii -> bool) (a b : list ascii) :
  Forall (fun c => p c = true) a ->
  (forall c, head b = Some c -> p c = false) ->
  Text.span p (a ++ b) = (a, b).
Proof.
  intros Ha Hb. induction Ha as [|c a Hc _ IH]; simpl.
  - destruct b as [|c b]; [reflexivity|]. simpl. rewrite (Hb c eq_refl). reflexivity.
  - rewrite Hc, IH. reflexivity.
Qed.

Lemma digit_is_word (c : ascii) : Text.is_digit c = true -> Text.is_word c = true.
Proof. intros Hc. unfold Text.is_word. rewrite Hc. reflexivity. Qed.

Lemma digit_is_no_space (c : ascii) : Text.is_digit c = true -> Text.is_space c = false.
Proof.
  unfold Text.is_digit, Text.is_space. intros Hc.
  apply andb_true_iff in Hc as [H1 H2]. apply Nat.leb_le in H1. apply Nat.leb_le in H2.
  apply orb_false_iff. split; apply andb_false_iff.
  - right. apply Nat.leb_gt. lia.
  - right. apply Nat.leb_gt. lia.
Qed.

Section Patterns.
Context `{PyRepr}.

(** *** [\bGPU\s+(\d+)\b] *)

Lemma match_gpu_here_other (c : ascii) (s : list ascii) :
  c <> "G"%char -> match_gpu_here (c :: s) = None.
Proof.
  intros Hc. unfold match_gpu_here.
  destruct (decide (c = "G"%char)) as [->|_]; [contradiction|].
  destruct c as [[] [] [] [] [] [] [] []]; try reflexivity. contradiction.
Qed.

Lemma search_gpu_skip (pre s : list ascii) (after_word : bool) :
  Forall (fun c => c <> "G"%char) pre ->
  search_gpu after_word (pre ++ s)
  = search_gpu (match last pre with
                | Some c => Text.is_word c
                | None => after_word
                end) s.
Proof.
  intros Hpre. revert after_word.
  induction Hpre as [|c pre Hc _ IH]; intros after_word; [reflexivity|].
  cbn [app search_gpu]. rewrite (match_gpu_here_other c _ Hc).
  assert (Hnone : (if after_word then None else @None (list ascii)) = None)
    by (destruct after_word; reflexivity).
  rewrite Hnone, IH, last_cons. destruct (last pre); reflexivity.
Qed.

Lemma match_gpu_here_hit (ws ds rest : list ascii) :
  ws <> [] -> Forall (fun c => Text.is_space c = true) ws ->
  ds <> [] -> Forall (fun c => Text.is_digit c = true) ds ->
  (forall c, head rest = Some c -> Text.is_word c = false) ->
  match_gpu_here ("G"%char :: "P"%char :: "U"%char :: ws ++ ds ++ rest) = Some ds.
Proof.
  intros Hws Hspace Hds Hdigit Hrest. unfold match_gpu_here.
  rewrite (span_app Text.is_space ws (ds ++ rest) Hspace).
  2:{ intros c Hc. destruct ds as [|d ds]; [contradiction|]. simpl in Hc.
      injection Hc as <-. apply digit_is_no_space.
      apply Forall_cons in Hdigit as [Hd _]. exact Hd. }
  rewrite (span_app Text.is_digit ds rest Hdigit).
  2:{ intros c Hc. specialize (Hrest c Hc). unfold Text.is_word in Hrest.
      destruct (Text.is_digit c); [discriminate|reflexivity]. }
  destruct ws as [|w ws]; [contradiction|]. destruct ds as [|d ds]; [contradiction|].
  destruct rest as [|c rest]; [reflexivity|]. rewrite (Hrest c eq_refl). reflexivity.
Qed.

Lemma search_gpu_hit (pre ws ds rest : list ascii) :
  Forall (fun c => c <> "G"%char) pre ->
  (forall c, last pre = Some c -> Text.is_word c = false) ->
  ws <> [] -> Forall (fun c => Text.is_space c = true) ws ->
  ds <> [] -> Forall (fun c => Text.is_digit c = true) ds ->
  (forall c, head rest = Some c -> Text.is_word c = false) ->
  search_gpu false (pre ++ "G"%char :: "P"%char :: "U"%char :: ws ++ ds ++ rest)
  = Some ds.
Proof.
  intros Hpre Hlast Hws Hspace Hds Hdigit Hrest.
  rewrite (search_gpu_skip pre _ false Hpre).
  assert (Haw : match last pre with
                | Some c => Text.is_word c
                | None => false
                end = false).
  { destruct (last pre) as [c|]; [apply Hlast; reflexivity|reflexivity]. }
  rewrite Haw. cbn [search_gpu].
  rewrite (match_gpu_here_hit ws ds rest Hws Hspace Hds Hdigit Hrest). reflexivity.
Qed.

(** *** [(\d{3,5})\s*MHz] *)

Lemma match_mhz_here_other (c : ascii) (s : list ascii) :
  Text.is_digit c = false -> match_mhz_here (c :: s) = None.
Proof.
  intros Hc. unfold match_mhz_here. cbn [Text.span]. rewrite Hc. reflexivity.
Qed.

Lemma short_run_span (l s : list ascii) (run : nat) :
  (0 < run <= 2)%nat -> short_digit_runs run l = true ->
  (length (Text.span Text.is_digit (l ++ s)).1 + run <= 2)%nat.
Proof.
  revert run. induction l as [|c l IH]; intros run Hrun; cbn [short_digit_runs].
  { intros H0. apply Nat.eqb_eq in H0. lia. }
  cbn [app Text.span]. destruct (Text.is_digit c).
  - intros Hshort. apply andb_true_iff in Hshort as [Hlt Hrest].
    apply Nat.ltb_lt in Hlt. specialize (IH (S run) ltac:(lia) Hrest).
    destruct (Text.span Text.is_digit (l ++ s)) as [a b]. simpl in *. lia.
  - intros _. simpl. lia.
Qed.

Lemma search_mhz_skip (pre s : list ascii) (run : nat) :
  (run <= 2)%nat -> short_digit_runs run pre = true ->
  search_mhz (pre ++ s) = search_mhz s.
Proof.
  revert run. induction pre as [|c pre IH]; intros run Hrun; [reflexivity|].
  cbn [short_digit_runs]. destruct (Text.is_digit c) eqn:Hc.
  - intros Hshort. apply andb_true_iff in Hshort as [Hlt Hrest].
    apply Nat.ltb_lt in Hlt.
    cbn [app search_mhz].
    assert (Hnone : match_mhz_here (c :: pre ++ s) = None).
    { unfold match_mhz_here. cbn [Text.span]. rewrite Hc.
      pose proof (short_run_span pre s (S run) ltac:(lia) Hrest) as Hlen.
      destruct (Text.span Text.is_digit (pre ++ s)) as [a b]. simpl in Hlen.
      cbn [length]. destruct (Nat.leb_spec 3 (S (length a))); [lia|]. reflexivity. }
    rewrite Hnone. apply (IH (S run)); [lia|exact Hrest].
  - intros Hrest. cbn [app search_mhz]. rewrite (match_mhz_here_other c _ Hc).
    apply (IH 0%nat); [lia|exact Hrest].
Qed.

Lemma search_mhz_hit (pre ds ws rest : list ascii) :
  short_digit_runs 0 pre = true ->
  Forall (fun c => Text.is_digit c = true) ds ->
  (3 <= length ds <= 5)%nat ->
  Forall (fun c => Text.is_space c = true) ws ->
  search_mhz (pre ++ ds ++ ws ++ "M"%char :: "H"%char :: "z"%char :: rest) = Some ds.
Proof.
  intros Hpre Hdigit Hlen Hspace.
  destruct ds as [|d ds]; [simpl in Hlen; lia|].
  rewrite (search_mhz_skip pre _ 0%nat) by (try exact Hpre; lia).
  cbn [app search_mhz]. change (d :: ds ++ ?t) with ((d :: ds) ++ t).
  unfold match_mhz_here.
  rewrite (span_app Text.is_digit (d :: ds) _ Hdigit).
  2:{ intros c Hc. destruct ws as [|w ws]; simpl in Hc; injection Hc as <-.
      - reflexivity.
      - apply Forall_cons in Hspace as [Hw _].
        destruct (Text.is_digit w) eqn:Hd; [|reflexivity].
        apply digit_is_no_space in Hd. congruence. }
  destruct Hlen as [H3 H5]. apply Nat.leb_le in H3. apply Nat.leb_le in H5.
  rewrite H3, H5. cbn [andb].
  rewrite (span_app Text.is_space ws _ Hspace).
  2:{ intros c Hc. simpl in Hc. injection Hc as <-. reflexivity. }
  reflexivity.
Qed.

Lemma lshw_dimm_clock (node : Xml.element) (d : dimm) :
  lshw_dimm node = Ok (Some d) -> clock_mhz d = PInt (lshw_clock_mhz node).
Proof.
  unfold lshw_dimm.
  repeat match goal with
         | |- (if ?c then _ else _) = Ok (Some d) -> _ => destruct c; try discriminate
         end.
  destruct (lshw_size_gb node) as [size|e]; cbn [mbind result_bind]; [|discriminate].
  destruct (Num.positive size); [|discriminate].
  intros [= <-]. reflexivity.
Qed.

End Patterns.

(** X23.  An entry without a gpu_id whose info, a value as [json.loads]
    gives it, names a GPU in its text: when the text reads
    "... GPU <digits> ..." with nothing but blanks between the word and the
    digits, no capital G before it, neither a word character right before
    the word nor one right after the digits, and at most 4300 digits, the
    entry resolves to the number the digits write, as in
    "GPU 3 calculated at ..." and "ECC is not enabled on GPU 7". *)
Theorem resolve_gpu_id_from_info `{PyRepr} (r : pydict) (pre ws ds rest : list ascii) :
  Py.get r "gpu_id" = PNone ->
  Py.loadable (Py.get_or r "info" (PStr EmptyString)) = true ->
  (length ds <= Py.max_str_digits)%nat ->
  list_ascii_of_string (info_to_str (Py.get_or r "info" (PStr EmptyString)))
  = pre ++ "G"%char :: "P"%char :: "U"%char :: ws ++ ds ++ rest ->
  Forall (fun c => c <> "G"%char) pre ->
  (forall c, last pre = Some c -> Text.is_word c = false) ->
  ws <> [] -> Forall (fun c => Text.is_space c = true) ws ->
  ds <> [] -> Forall (fun c => Text.is_digit c = true) ds ->
  (forall c, head rest = Some c -> Text.is_word c = false) ->
  _resolve_gpu_id r = Ok (Some (Text.digits_value ds)).
Proof.
  intros Hgid _ Hlen Hinfo Hpre Hlast Hws Hspace Hds Hdigit Hrest.
  unfold _resolve_gpu_id, gpu_id_from_info. rewrite Hgid, Hinfo. cbn [Py.is_none].
  rewrite (search_gpu_hit pre ws ds rest Hpre Hlast Hws Hspace Hds Hdigit Hrest).
  rewrite (int_of_digits_short ds Hlen). reflexivity.
Qed.

Lemma resolve_gpu_id_from_info_witness :
  _resolve_gpu_id (H := repr_unused)
    [("status", PStr "Skip"); ("info", PStr "ECC is not enabled on GPU 7")]%string
  = Ok (Some (Text.digits_value ["7"%char])).
Proof.
  apply (resolve_gpu_id_from_info (H := repr_unused)
           [("status", PStr "Skip"); ("info", PStr "ECC is not enabled on GPU 7")]%string
           (list_ascii_of_string "ECC is not enabled on ") [" "%char] ["7"%char] []).
  - reflexivity.
  - reflexivity.
  - unfold Py.max_str_digits. simpl. lia.
  - reflexivity.
  - repeat constructor; discriminate.
  - intros c [= <-]. reflexivity.
  - discriminate.
  - repeat constructor.
  - discriminate.
  - repeat constructor.
  - intros c Hc. discriminate Hc.
Defined.

(** X24.  The speed of a DIMM that lshw describes: when the description
    reads "... <digits> MHz ..." with three to five digits, any blanks or
    none before MHz, before them a text without three digits in a row that
    does not end in a digit, and the number is at least 800, the DIMM is
    listed with that number as its speed, whatever the configuration
    settings and the clock element of the node say. *)
Theorem lshw_dimm_speed_from_description `{PyRepr} (node : Xml.element) (d : dimm)
    (pre ds ws rest : list ascii) :
  lshw_dimm node = Ok (Some d) ->
  list_ascii_of_string (_xml_text node "description" EmptyString)
  = pre ++ ds ++ ws ++ "M"%char :: "H"%char :: "z"%char :: rest ->
  short_digit_runs 0 pre = true ->
  Forall (fun c => Text.is_digit c = true) ds ->
  (3 <= length ds <= 5)%nat ->
  Forall (fun c => Text.is_space c = true) ws ->
  800 <= Text.digits_value ds ->
  clock_mhz d = PInt (Text.digits_value ds).
Proof.
  intros Hd Hdesc Hpre Hdigit Hlen Hspace Hplausible.
  rewrite (lshw_dimm_clock node d Hd). f_equal.
  unfold lshw_clock_mhz, lshw_clock_from_description. rewrite Hdesc.
  rewrite (search_mhz_hit pre ds ws rest Hpre Hdigit Hlen Hspace).
  destruct (Z.leb_spec 800 (Text.digits_value ds)); [|lia].
  destruct (Z.eqb_spec (Text.digits_value ds) 0); [lia|].
  cbn [Z.eqb]. destruct (Z.eqb_spec (Text.digits_value ds) 0); [lia|]. reflexivity.
Qed.

Lemma lshw_dimm_speed_from_description_witness :
  clock_mhz DimmExamples.dimm_a1_entry
  = PInt (Text.digits_value (list_ascii_of_string "3200")).
Proof.
  apply (lshw_dimm_speed_from_description (H := repr_unused) DimmExamples.dimm_a1
           DimmExamples.dimm_a1_entry
           (list_ascii_of_string "DIMM DDR4 Synchronous ") (list_ascii_of_string "3200")
           [" "%char] (list_ascii_of_string " (0.3 ns)")).
  - vm_compute. reflexivity.
  - reflexivity.
  - reflexivity.
  - repeat constructor.
  - simpl. lia.
  - repeat constructor.
  - vm_compute. discriminate.
Defined.
